(* ===== verification/_CoqProject ===== *)
-Q . S2P
Prelude.v
Utils.v
Compare.v
BufferedReader.v
BufferedWriter.v
UtilsExec.v
ThreadPool.v
Kernel.v
Simulation.v
SocketUtils.v
Threads.v
SocketServer.v
ServerProofs.v
ServerTheorems.v
ServerEpoll.v
ServerTasks.v
ServerThreads.v
ServerInterleaving.v
Service.v
SocketClient.v
ClientProofs.v
ClientTheorems.v
ClientInvariant.v
ClientReaper.v
ClientCalls.v
ClientSession.v
EndToEnd.v
Http.v
HttpProofs.v
HttpLife.v
HttpService.v
Programs.v
UnitTests.v
