(* ===== verification/Prelude.v ===== *)
(** * libasutils: a verification development

    libasutils is a C++ library for socket servers: utility functions, buffers,
    a thread pool, a server and a client that exchange framed messages over
    non-blocking sockets and epoll, and an HTTP server on top of libmicrohttpd.
    This development models its classes as they are written and proves what makes
    them correct; where the code falls short of what it means to do, a theorem
    says exactly how.

    ** The program and its parts

    File names are relative to [src/src/main/cpp/common/], headers are in
    [src/inc/].

    - [Utils] ([utils.cpp]): string splitting, time stamps, identifiers, hashes,
      and running a command.  Stateless.
    - [BufferedReader], [BufferedWriter] ([buffered_reader.cpp],
      [buffered_writer.cpp]): a reader cuts a byte stream at a delimiter and calls
      back with each frame; a writer is a queue of bytes.
    - [ThreadPool] ([thread_pool.cpp]): a bounded queue of work between clients
      and worker threads, with a mutex and two condition variables.
    - [SocketUtils] ([socket_utils.cpp]): message frames (37 bytes of identifier,
      the message, the delimiter 4), draining a socket into a reader and a writer
      into a socket, and the calls of epoll.
    - [SocketServer] ([socket_server.cpp]): an epoll loop hands connections and
      ready descriptors to three pools; per descriptor there is a reader, a writer
      and an event mask; dead descriptors wait as zombies for a reaper.
    - [HttpServer] with [HttpRequest], [HttpResponse], [Wrapper] and
      [DefaultHandler] ([http_*.cpp], [default_handler.cpp]): the hook that
      libmicrohttpd calls for every request, and routing to handlers.
    - [SocketClient] ([socket_client.cpp]), the counterpart of the server: it
      connects to a list of hosts, gives each message an identifier and keeps the
      call back for its response under it, and has an epoll thread per connection, a
      reaper that reconnects and a thread that retries hosts.
    - The programs [sserver], [sclient] and [httpserver] ([../*/main.cpp]).

    ** The files

    - [Prelude]: bytes, machine integers, the outcomes of C++ code and their
      monad, loops, references, and the lemmas all files share.
    - [Utils], [Compare], [UtilsExec]: [utils.cpp]; the two [compare] functions on
      floating point numbers are in the second file (over the standard library's
      model of IEEE 754, [SpecFloat]), [exec], which runs on a [BufferedReader], in
      the third.
    - [BufferedReader], [BufferedWriter]: the buffers.  [feed] is the specification
      of the reader, a function from a buffer and a stream to frames and a rest.
    - [ThreadPool]: the pool as a step relation.
    - [Kernel]: the system calls as a class ([Kernel]), the laws of stream sockets
      and epoll ([SocketKernel]), mutexes, and the state in which the socket classes
      run, a [world] of kernel, locks and the component's data.  Here is also the
      theory of lock orders.
    - [Simulation]: an executable kernel with these laws, for examples.
    - [SocketUtils]: the frames and loops of [socket_utils.cpp].
    - [Threads]: any number of threads on one world, whose programs are lists of
      points: the machine, what it takes to keep a mutex, and why a lock order leaves
      somebody to run.
    - [SocketServer]: every member function of the server, with the equation of
      each.  [ServerProofs]: the invariant and what the operations do.
      [ServerTheorems]: the properties.  [ServerEpoll]: that epoll waits for what the
      server's masks say.  [ServerTasks]: the queues of tasks, what epoll is asked to
      watch for, and how a connection is forgotten.  [ServerThreads]: the member functions
      cut at their mutexes and system calls.  [ServerInterleaving]: what that makes of the
      server, with any number of threads.  [Service]: the abstract responder, and that
      [sserver]'s connections implement it.
    - [SocketClient]: every member function of the client.  [ClientProofs]: what each
      of them does.  [ClientTheorems]: the properties.  [ClientInvariant]: what stays
      true of a client in use.  [ClientReaper]: what the reaper does to a client
      with any number of dead connections.  [ClientCalls]: blocking calls of many
      threads at once.  [ClientSession]: a connection over several messages.
    - [EndToEnd]: client and server together, from a message to its response.
    - [Http]: the classes of the HTTP server.  [HttpProofs]: its properties.
      [HttpLife]: the contract of a handler, and a request's life with any handlers.
      [HttpService]: requests on any number of connections at once, and the abstract
      machine that each connection implements.
    - [Programs]: the main programs, with their properties.
    - [UnitTests]: the repository's unit tests, run on the model.

    ** How code is modelled

    A function of the source is a definition of the same name.  A member function
    works on the state through a reference [this] ([ref]: how to read and write an
    object in a larger state, [None] when it dangles), so that objects that are
    reached in two ways are really shared.  Its value is an [outcome]: a result, a
    C++ exception, [exit], undefined behaviour ([Undef]), a thread that waits for a
    mutex it holds itself ([Blocked]), or a loop that used up its bound
    ([NoFuel]).  Indexing out of range, dereferencing a dangling reference, using a
    deleted mutex and signed overflow are [Undef].  Unsigned arithmetic wraps
    ([wrap]), and a loop counter has the width of the source: [for_loop w] runs its
    body for an unsigned counter of [w] bits; its fuel is enough whenever the loop
    ends ([for_loop_total]), and when the bound does not fit the counter the loop
    has no result for any fuel ([for_loop_diverges]).  [while] loops take fuel as an
    argument, and the theorems say how much is enough: one more than the bytes
    waiting in the socket for [read_from_sfd], one more than the bytes in the
    writer for [write_to_sfd].  Loops without end ([process_epoll_events],
    [reap_resources], the epoll loop) take the number of rounds.

    Code outside the repository is an argument: the system calls (class [Kernel]),
    libmicrohttpd (class [MHD], and the three functions that call back into the server:
    walking through a connection's values, parsing posted data, and destroying the
    parser, which hands out what it still holds), the digest,
    [timegm], [popen], libuuid, and what googletest does with an assertion that
    does not hold.  What is assumed of it is stated as the laws of a
    class or as hypotheses of the theorems that need it.  libmicrohttpd's parser of
    posted data has a state of its own, may refuse data, and may hand out anything, when
    it is fed or destroyed, in pieces of any size; its threads call the hook,
    and each call is one step, since calls for different connections share only the
    handlers, which are not changed once the server has started.

    The thread pool is modelled at the grain of its mutex and condition variables,
    with every interleaving.  The server is modelled twice.  In [SocketServer] each of
    its member functions is one step (two in [lookup_race]), and the theorems on what it
    does with messages and connections are at that grain.  In [ServerThreads] a member
    function is a list of points, cut at every mutex and every system call: each turn of
    the loops that fill a reader from a socket and empty a writer into it, and each
    character that the reader takes, is a point of its own; a handler is the messages
    that it sends, and these are cut in the same way.  Threads keep their mutexes from
    point to point, and all others may run in between.  What the pools are given is a
    queue of [task]s; that a queue is worked off in order, each task once, is what
    [ThreadPool] shows.
    The client is modelled in the same way; a blocking [send_msg] waits for what
    other threads do, and that is an argument of it.  In [ClientCalls] the call is
    cut between reading its descriptor and sending, and where it waits, and the other
    threads' steps, other calls among them, come in between ([send_msg_wait_split]).  The variables that a blocking
    call's closure captures are [frames] of the client's state, so that a response
    that comes after the call has returned would be seen to use them.  A run records
    every mutex it takes and what it holds then, which is enough to rule out
    deadlocks between threads that interleave inside member functions.

    ** The theorems

    - The whole way: messages of a client are answered by [sserver], and each call
      back gets the answer to its own request, once and in order
      ([request_response]).  On the server's side, with any number of connections
      and in any order of its tasks, a connection that lives behaves as a responder: it
      has sent a prefix of the answers to a prefix of the messages it received, if these
      are whole and the kernel takes no part of a chunk ([sserver_refines_responder]).
    - Delivery: however a stream is cut, the reader hands over its frames once and
      in order ([read_chunks_frames]); [read_from_sfd] does so for what has arrived
      on a socket ([read_from_sfd_drains]); frames unpack to what was packed
      ([pack_unpack_roundtrip]), unless the delimiter is in them
      ([frame_transparent]); and so a server's handler gets the messages that were
      sent ([server_delivers]), and a client's call backs their responses
      ([client_delivers]).  On the way out, [writer_fifo], [send_msg_effect],
      [client_send_msg], and [write_to_sfd_loss], which shows what a partial write
      loses.
    - Bounds: from which size on a message overruns the array its frame is packed
      into ([send_msg_bounds], [client_send_bounds]).
    - Safety of the server, as long as messages are whole (what a shorter one does is
      [server_short_frame]): in every reachable state every allowed operation returns
      ([server_invariant]); no connection is forgotten between epoll and the pools
      ([no_connection_forgotten]), unless events come between its registration and
      [add] ([add_race]); with threads interleaved at every mutex and system call nothing
      that a thread has found is gone when it uses it, as long as the reaper spares what
      others have found ([server_threads_safe]), and the threads never all wait
      ([server_threads_no_deadlock], [server_lock_order]); what events, new connections
      and the reaper do ([handle_event_effect], [add_effect], [reap_exact]); and four
      ways in which connections or the process come to harm ([server_short_frame],
      [error_kills_successor], [close_race], and [lookup_race], which interleaves threads
      inside [read], [write] and [send_msg]).
    - The client: from its construction on it stays well formed and its operations
      that are allowed return ([client_invariant]); blocking calls, connecting, retrying and reaping
      ([client_blocking_call], [client_connects], [client_retry], [client_reap]);
      two ways to block for ever ([client_deadlocks]); what the reaper does
      and what it does not release ([client_reaps], [client_reap_forgets]); and
      blocking calls of many threads: safe while no connection is replaced under a call,
      and the race that otherwise makes a call back run on a frame that is gone ([client_calls_safe],
      [client_call_race]).
    - The pool: mutual exclusion and the bound of the queue, order and exactly-once
      execution, no deadlock and no lost wake-up, termination, and the pool of size
      0 ([pool_mutual_exclusion], [pool_fifo_exactly_once], [pool_no_deadlock],
      [pool_terminates], [pool_size_zero]).
    - HTTP, as long as headers and arguments have values and posted data is such as the
      handlers can read: with the program's handlers, however the calls for many
      connections are interleaved, each connection is an abstract machine that answers the
      requests to registered paths, once without posted data, and else at every piece of
      size 0 too ([http_server_refines]); with any handlers that keep their contract every
      call returns and only the wrappers of clients that went away are left behind
      ([http_requests_safe]); how a request ends ([refused_with_success],
      [http_default_get]); what is refused, what leaks, what is answered twice, and what is
      undefined ([http_unregistered], [default_empty_piece], [http_undefined],
      [write_data_effect]).
    - The programs, from their arguments on ([sserver_program],
      [httpserver_program], [sclient_program]).
    - Utilities: [split] and [join] ([split_pieces], [split_join]); time stamps
      ([c_epoch_millis_timestamp], [c_epoch_millis_total]); comparing floating point
      numbers with a tolerance ([compare_order], [compare_exact]); the string hash
      and its collisions ([hash_it_value], [hash_it_suffix]); the digest's bytes and
      text ([sha1_byte_arr_words], [sha1_hex_str_length]); running a command
      ([exec_lines]).
    - The unit tests pass ([unit_tests_pass]).

    ** What is not modelled

    Log messages and the configuration of log4cpp; [SIGPIPE]; the detached threads
    themselves (their loops are); the number of threads that the machine has, which
    sizes the server's pools; the size of a thread's stack, on which [send_msg] and
    [write_to_sfd] put their arrays; the build flag [-Ofast], which lets the compiler of
    [compare] ignore infinities and NaN; the times that [sclient] measures and only logs; the
    start of googletest in the tests' [main.cpp].

    Not in the model either are interleavings finer than this: in the client beyond
    [ClientCalls]; in the server inside a handler, but for the messages it sends; and the
    reaper between the messages of [EndToEnd].  Calls of
    the HTTP server's hook are whole steps, since libmicrohttpd makes those of one
    connection one after the other. *)

From Stdlib Require Export ZArith Lia Ascii.
From stdpp Require Export base gmap sets strings numbers.
From stdpp Require Export list.
Export list.

#[export] Set Default Goal Selector "!".
Global Open Scope Z_scope.

(** ** Characters and strings

    A C++ [char], [std::string] and [std::vector<char>] are an [ascii], and
    lists of [ascii]: a [std::string] may hold NUL characters, so no separate
    string type is used.  [str] turns a literal into such a list. *)
Abbreviation char := ascii.
Abbreviation bytes := (list ascii).

Definition str (s : string) : bytes := String.list_ascii_of_string s.

Abbreviation len l := (Z.of_nat (length l)).

Definition NUL : char := Ascii.zero.

Definition NL : char := ascii_of_nat 10.

(** The end-of-transmission delimiter [(char) 4]. *)
Definition EOT : char := ascii_of_nat 4.

(** The value of a [char] as an [int]: [char] is signed on the x86-64 targets
    the Makefile builds for. *)
Definition schar (c : char) : Z :=
  let n := Z.of_N (N_of_ascii c) in if n <? 128 then n else n - 256.

(** ** Machine integers *)
Definition wrap (w z : Z) : Z := z mod 2 ^ w.

Definition to_s32 (z : Z) : Z :=
  let u := wrap 32 z in if u <? 2 ^ 31 then u else u - 2 ^ 32.

Definition fits_s32 (z : Z) : bool := (- 2 ^ 31 <=? z) && (z <? 2 ^ 31).

Definition fits_s64 (z : Z) : bool := (- 2 ^ 63 <=? z) && (z <? 2 ^ 63).

(** ** Outcomes of running C++ code

    [Throw] carries the state at the point of the [throw]; [Undef] is
    undefined behaviour; [Blocked] is a thread that waits for a mutex it holds
    itself; [NoFuel] says that the bound given for a loop was used up. *)
Inductive exn :=
  | OutOfRange
  | InvalidArgument
  | BadFunctionCall
  | LogicError
  | StdException
  | ForeignException.

#[export] Instance exn_eq_dec : EqDecision exn.
Proof. solve_decision. Defined.

(** Whether [catch (std::exception &)] catches it. *)
Definition is_std_exception (e : exn) : bool :=
  match e with ForeignException => false | _ => true end.

Inductive outcome (S A : Type) :=
  | Ret (a : A) (s : S)
  | Throw (e : exn) (s : S)
  | Exit (code : Z) (s : S)
  | Undef
  | Blocked
  | NoFuel.
Arguments Ret {S A} _ _.
Arguments Throw {S A} _ _.
Arguments Exit {S A} _ _.
Arguments Undef {S A}.
Arguments Blocked {S A}.
Arguments NoFuel {S A}.

(** Effectful code over a state [S]. *)
Definition M (S A : Type) : Type := S → outcome S A.

#[export] Instance M_ret {S} : MRet (M S) := λ A a s, Ret a s.

#[export] Instance M_bind {S} : MBind (M S) := λ A B k m s,
  match m s with
  | Ret a s' => k a s'
  | Throw e s' => Throw e s'
  | Exit c s' => Exit c s'
  | Undef => Undef
  | Blocked => Blocked
  | NoFuel => NoFuel
  end.

Definition throw {S A} (e : exn) : M S A := λ s, Throw e s.
Definition exit_with {S A} (c : Z) : M S A := λ s, Exit c s.
Definition undef {S A} : M S A := λ _, Undef.
Definition blocked {S A} : M S A := λ _, Blocked.
Definition no_fuel {S A} : M S A := λ _, NoFuel.
Definition get_state {S} : M S S := λ s, Ret s s.
Definition gets {S A} (f : S → A) : M S A := λ s, Ret (f s) s.
Definition modify {S} (f : S → S) : M S unit := λ s, Ret tt (f s).

(** [try { m } catch (std::exception &e) { h }]: the state at the throw is
    kept, as C++ does. *)
Definition catch_std {S A} (m : M S A) (h : exn → M S A) : M S A := λ s,
  match m s with
  | Throw e s' => if is_std_exception e then h e s' else Throw e s'
  | o => o
  end.

(** An option that must be there (an array element, an initialised object). *)
Definition assume {S A} (o : option A) : M S A :=
  match o with Some a => mret a | None => undef end.

(** [v[i]] on a C array or with [operator[]] of a vector or string: no bounds
    check, undefined out of range. *)
Definition index {S A} (l : list A) (i : Z) : M S A :=
  if i <? 0 then undef else assume (l !! Z.to_nat i).

(** [v.at(i)]: throws out of range. *)
Definition at_ {S A} (l : list A) (i : Z) : M S A :=
  if i <? 0 then throw OutOfRange
  else match l !! Z.to_nat i with Some a => mret a | None => throw OutOfRange end.

(** [v[i] = x] on an array: undefined out of range. *)
Definition set_index {S A} (l : list A) (i : Z) (x : A) : M S (list A) :=
  if (0 <=? i) && (i <? Z.of_nat (length l))
  then mret (<[Z.to_nat i := x]> l) else undef.

(** Signed [int] arithmetic: overflow is undefined. *)
Definition checked_s32 {S} (z : Z) : M S Z :=
  if fits_s32 z then mret z else undef.

Definition checked_s64 {S} (z : Z) : M S Z :=
  if fits_s64 z then mret z else undef.

(** ** Loops

    [for_from fuel w i n body a] is [for (; i < n; ++i) a = body(i, a)] where
    [i] is an unsigned counter of [w] bits, which wraps around. *)
Fixpoint for_from {S A} (fuel : nat) (w i n : Z) (body : Z → A → M S A) (a : A)
    : M S A :=
  if i <? n then
    match fuel with
    | O => no_fuel
    | Datatypes.S f => a' ← body i a; for_from f w (wrap w (i + 1)) n body a'
    end
  else mret a.

(** The loop of the source starts at 0.  The fuel is enough exactly when the
    loop ends: see [for_loop_total] and [for_loop_diverges]. *)
Definition for_loop {S A} (w n : Z) (body : Z → A → M S A) (a : A) : M S A :=
  for_from (Datatypes.S (Z.to_nat n)) w 0 n body a.

(** [while] loops: the body continues with [inl] and stops with [inr]. *)
Fixpoint while_loop {S A B} (fuel : nat) (body : A → M S (A + B)) (a : A) : M S B :=
  match fuel with
  | O => no_fuel
  | Datatypes.S f =>
      r ← body a;
      match r with inl a' => while_loop f body a' | inr b => mret b end
  end.

(** A body run for each element of a list, in order. *)
Fixpoint fold_m {S A B} (body : B → A → M S A) (l : list B) (a : A) : M S A :=
  match l with
  | [] => mret a
  | b :: l' => a' ← body b a; fold_m body l' a'
  end.

(** ** References

    A C++ reference or pointer to an object of type [T] that lives in the state
    [S]: [rd] is [None] when it dangles. *)
Record ref (S T : Type) := Ref { rd : S → option T; wr : T → S → S }.
Arguments Ref {S T} _ _.
Arguments rd {S T} _ _.
Arguments wr {S T} _ _ _.

Definition load {S T} (r : ref S T) : M S T := λ s,
  match rd r s with Some x => Ret x s | None => Undef end.

Definition store {S T} (r : ref S T) (x : T) : M S unit := λ s,
  match rd r s with Some _ => Ret tt (wr r x s) | None => Undef end.

Class LawfulRef {S T} (r : ref S T) : Prop := {
  rd_wr : ∀ s x y, rd r s = Some y → rd r (wr r x s) = Some x;
  wr_wr : ∀ s x y, wr r x (wr r y s) = wr r x s;
  wr_rd : ∀ s x, rd r s = Some x → wr r x s = s
}.

(** A reference to the whole state: a local object. *)
Definition self {S} : ref S S := Ref Some (λ x _, x).

(** [std::unordered_map::operator[]] on a value of an arithmetic type: an
    absent entry reads as 0. *)
Definition get0 (m : gmap Z Z) (k : Z) : Z := default 0 (m !! k).

(** [std::unordered_map::emplace]: an entry that is there already stays. *)
Definition emplace {V} (k : Z) (v : V) (m : gmap Z V) : gmap Z V :=
  match m !! k with Some _ => m | None => <[k := v]> m end.

(** ** The monad *)
Section monad.
Context {S A B : Type}.

Lemma bind_unfold (m : M S A) (k : A → M S B) s :
  (m ≫= k) s =
  match m s with
  | Ret a s' => k a s'
  | Throw e s' => Throw e s'
  | Exit c s' => Exit c s'
  | Undef => Undef
  | Blocked => Blocked
  | NoFuel => NoFuel
  end.
Proof. reflexivity. Qed.

Lemma bind_run (m : M S A) (k : A → M S B) s a s' :
  m s = Ret a s' → (m ≫= k) s = k a s'.
Proof. intros H. by rewrite bind_unfold, H. Qed.

Lemma bind_gets (f : S → A) (k : A → M S B) s : (gets f ≫= k) s = k (f s) s.
Proof. reflexivity. Qed.

Lemma bind_modify (f : S → S) (k : unit → M S B) s : (modify f ≫= k) s = k tt (f s).
Proof. reflexivity. Qed.

Lemma bind_ret_l (a : A) (k : A → M S B) s : (mret a ≫= k) s = k a s.
Proof. reflexivity. Qed.

Lemma bind_assoc {C} (m : M S A) (k : A → M S B) (h : B → M S C) s :
  ((m ≫= k) ≫= h) s = (m ≫= (λ a, k a ≫= h)) s.
Proof. unfold mbind, M_bind. by destruct (m s). Qed.

Lemma bind_ext (m m' : M S A) (k k' : A → M S B) s :
  m s = m' s → (∀ a s', k a s' = k' a s') → (m ≫= k) s = (m' ≫= k') s.
Proof. intros H Hk. rewrite !bind_unfold, H. by destruct (m' s). Qed.

Lemma index_lt (l : list A) i a s :
  0 ≤ i → l !! Z.to_nat i = Some a → index (S:=S) l i s = Ret a s.
Proof.
  intros Hi H. unfold index. rewrite H. by rewrite (proj2 (Z.ltb_ge i 0) Hi).
Qed.

Lemma index_ge (l : list A) i s :
  Z.of_nat (length l) ≤ i → index (S:=S) l i s = Undef.
Proof.
  intros H. unfold index. rewrite (proj2 (Z.ltb_ge i 0)) by lia.
  by rewrite lookup_ge_None_2 by lia.
Qed.

Lemma set_index_lt (l : list A) i x s :
  0 ≤ i < Z.of_nat (length l) →
  set_index (S:=S) l i x s = Ret (<[Z.to_nat i := x]> l) s.
Proof.
  intros H. unfold set_index.
  by rewrite (proj2 (Z.leb_le 0 i)), (proj2 (Z.ltb_lt i _)) by lia.
Qed.

Lemma set_index_ge (l : list A) i x s :
  Z.of_nat (length l) ≤ i → set_index (S:=S) l i x s = Undef.
Proof.
  intros H. unfold set_index.
  by rewrite (proj2 (Z.ltb_ge i _)), andb_false_r by lia.
Qed.

Lemma load_run {T} (r : ref S T) s x : rd r s = Some x → load r s = Ret x s.
Proof. intros H. unfold load. by rewrite H. Qed.

Lemma store_run {T} (r : ref S T) s x y :
  rd r s = Some y → store r x s = Ret tt (wr r x s).
Proof. intros H. unfold store. by rewrite H. Qed.
End monad.

#[export] Instance self_lawful {S} : LawfulRef (@self S).
Proof. split; naive_solver. Qed.

(** Steps through a program whose next statement is known to return. *)
Ltac run_with H := rewrite (bind_run _ _ _ _ _ H); cbn beta iota.

(** Runs statements that need no hypothesis. *)
Create Rewrite HintDb run.

#[export] Hint Rewrite @bind_ret_l @bind_gets @bind_modify : run.

Ltac run_pure := autorewrite with run; cbn beta iota.

(** ** Loops *)
Section loops.
Context {S A B : Type}.

Lemma fold_m_app (f : B → A → M S A) l1 l2 a s :
  fold_m f (l1 ++ l2) a s = (fold_m f l1 a ≫= fold_m f l2) s.
Proof.
  revert a s. induction l1 as [|b l1 IH]; intros a s; [done|].
  simpl. rewrite bind_assoc. by apply bind_ext.
Qed.

Lemma fold_m_ext (f g : B → A → M S A) l a s :
  (∀ b a s, f b a s = g b a s) → fold_m f l a s = fold_m g l a s.
Proof.
  intros H. revert a s. induction l as [|b l IH]; intros a s; [done|].
  simpl. by apply bind_ext.
Qed.

Lemma fold_m_ext_in (f g : B → A → M S A) l a s :
  (∀ b a s, b ∈ l → f b a s = g b a s) → fold_m f l a s = fold_m g l a s.
Proof.
  revert a s. induction l as [|b l IH]; intros a s H; [done|].
  simpl. apply bind_ext; [apply H; set_solver|].
  intros a' s'. apply IH. intros b' a0 s0 Hb. apply H. set_solver.
Qed.

Lemma fold_m_pure (f : B → A → M S A) (g : A → B → A) l a s :
  (∀ b a s, f b a s = Ret (g a b) s) → fold_m f l a s = Ret (foldl g a l) s.
Proof.
  intros H. revert a s. induction l as [|b l IH]; intros a s; [done|].
  simpl. by run_with (H b a s).
Qed.

Lemma for_from_total fuel w i n (body : Z → A → M S A) a s :
  0 ≤ i → n < 2 ^ w → (Z.to_nat (n - i) ≤ fuel)%nat →
  for_from fuel w i n body a s = fold_m body (seqZ i (n - i)) a s.
Proof.
  revert i a s. induction fuel as [|fuel IH]; intros i a s Hi Hn Hf; simpl.
  - destruct (Z.ltb_spec i n); [lia|].
    by rewrite (seqZ_nil i (n - i)) by lia.
  - destruct (Z.ltb_spec i n).
    + rewrite seqZ_cons by lia. simpl. apply bind_ext; [done|].
      intros a' s'. unfold wrap. rewrite Z.mod_small by lia.
      rewrite IH by lia. do 2 f_equal. lia.
    + by rewrite (seqZ_nil i (n - i)) by lia.
Qed.

(** A loop whose bound is below [2^w] ends, and runs the body for 0 .. n-1. *)
Lemma for_loop_total w n (body : Z → A → M S A) a s :
  n < 2 ^ w → for_loop w n body a s = fold_m body (seqZ 0 n) a s.
Proof.
  intros Hn. unfold for_loop. rewrite for_from_total by lia.
  by rewrite Z.sub_0_r.
Qed.

(** A loop whose first rounds are undefined. *)
Lemma for_loop_undef w n k (body : Z → A → M S A) a s :
  0 ≤ k ≤ n → k ≤ 2 ^ w → fold_m body (seqZ 0 k) a s = Undef → for_loop w n body a s = Undef.
Proof.
  intros Hk Hw. unfold for_loop.
  assert (∀ fuel i k a s, 0 ≤ i → 0 ≤ k → i + k ≤ n → i + k ≤ 2 ^ w → (Z.to_nat k ≤ fuel)%nat →
    fold_m body (seqZ i k) a s = Undef → for_from fuel w i n body a s = Undef) as H.
  { clear. induction fuel as [|fuel IH]; intros i k a s Hi Hk Hn Hw Hf.
    - by rewrite seqZ_nil by lia.
    - destruct (decide (k = 0)) as [->|Hk0]; [by rewrite seqZ_nil|].
      rewrite seqZ_cons by lia. cbn [fold_m for_from]. rewrite (proj2 (Z.ltb_lt i n)) by lia.
      rewrite !bind_unfold. destruct (body i a s) as [a' s'| | | | |]; try done.
      destruct (decide (k = 1)) as [->|Hk1]; [by rewrite seqZ_nil|].
      unfold wrap. rewrite Z.mod_small by lia. apply (IH (i + 1) (Z.pred k)); lia. }
  apply H; lia.
Qed.

(** A loop whose bound is [2^w] or more never ends: its counter wraps around. *)
Lemma for_loop_diverges fuel w i n (body : Z → A → M S A) a s :
  0 ≤ w → 2 ^ w ≤ n → 0 ≤ i < 2 ^ w →
  (∀ i a s, 0 ≤ i < 2 ^ w → ∃ a' s', body i a s = Ret a' s') →
  for_from fuel w i n body a s = NoFuel.
Proof.
  intros Hw Hn Hi Hb. revert i a s Hi.
  induction fuel as [|fuel IH]; intros i a s Hi; simpl;
    rewrite (proj2 (Z.ltb_lt i n)) by lia; [done|].
  destruct (Hb i a s Hi) as (a' & s' & E). run_with E.
  apply IH. unfold wrap. apply Z.mod_pos_bound. lia.
Qed.

Lemma fold_m_index_from (l : list B) (f : B → A → M S A) k n a s :
  0 ≤ k → 0 ≤ n → k + n ≤ Z.of_nat (length l) →
  fold_m (λ i a, c ← index l i; f c a) (seqZ k n) a s =
  fold_m f (take (Z.to_nat n) (drop (Z.to_nat k) l)) a s.
Proof.
  intros Hk Hn. remember (Z.to_nat n) as m eqn:Hm.
  revert k n a s Hm Hk Hn.
  induction m as [|m IH]; intros k n a s Hm Hk Hn Hl.
  - by rewrite (seqZ_nil k n) by lia.
  - rewrite seqZ_cons by lia.
    destruct (lookup_lt_is_Some_2 l (Z.to_nat k)) as [c Hc]; [lia|].
    rewrite (drop_S _ _ _ Hc). simpl.
    rewrite bind_assoc. run_with (index_lt (S:=S) l k c s Hk Hc).
    apply bind_ext; [done|].
    intros a' s'. rewrite (IH _ (Z.pred n)) by lia.
    do 3 f_equal. lia.
Qed.

(** A loop over the first [n] elements of an array, by index. *)
Lemma for_index_total w (l : list B) (f : B → A → M S A) n a s :
  0 ≤ n ≤ Z.of_nat (length l) → n < 2 ^ w →
  for_loop w n (λ i a, c ← index l i; f c a) a s =
  fold_m f (take (Z.to_nat n) l) a s.
Proof.
  intros Hn Hw. rewrite for_loop_total by done.
  by rewrite fold_m_index_from by lia.
Qed.
End loops.

(** ** Machine integers *)
Lemma wrap_small w z : 0 ≤ z < 2 ^ w → wrap w z = z.
Proof. apply Z.mod_small. Qed.

Lemma wrap_bounds w z : 0 ≤ w → 0 ≤ wrap w z < 2 ^ w.
Proof. intros. apply Z.mod_pos_bound. lia. Qed.

Lemma wrap_add_l w x y : wrap w (wrap w x + y) = wrap w (x + y).
Proof. apply Zplus_mod_idemp_l. Qed.

Lemma wrap_mul_r w x y : wrap w (x * wrap w y) = wrap w (x * y).
Proof. apply Zmult_mod_idemp_r. Qed.

Lemma wrap_mul_add w x k y : wrap w (wrap w x * k + y) = wrap w (x * k + y).
Proof.
  unfold wrap. by rewrite (Zplus_mod (x mod _ * k)), Zmult_mod_idemp_l, <-Zplus_mod.
Qed.

Lemma fits_s32_true z : - 2 ^ 31 ≤ z < 2 ^ 31 → fits_s32 z = true.
Proof.
  intros. unfold fits_s32.
  by rewrite (proj2 (Z.leb_le _ _)), (proj2 (Z.ltb_lt _ _)) by lia.
Qed.

Lemma to_s32_small z : 0 ≤ z < 2 ^ 31 → to_s32 z = z.
Proof.
  intros. unfold to_s32. rewrite wrap_small by lia.
  by rewrite (proj2 (Z.ltb_lt _ _)) by lia.
Qed.

(** ** Lists updated at one place *)
Section update.
Context {A : Type}.
Implicit Types (l : list A).

Lemma insert_split l i x y :
  l !! i = Some y → ∃ l1 l2, l = l1 ++ y :: l2 ∧ <[i:=x]> l = l1 ++ x :: l2.
Proof.
  intros H. exists (take i l), (drop (Datatypes.S i) l).
  rewrite take_drop_middle by done. split; [done|].
  apply insert_take_drop. by apply lookup_lt_Some in H.
Qed.

Lemma sum_list_insert (f : A → nat) l i x y :
  l !! i = Some y →
  (sum_list_with f (<[i:=x]> l) + f y = sum_list_with f l + f x)%nat.
Proof.
  intros H. destruct (insert_split l i x y H) as (l1 & l2 & -> & ->).
  rewrite !sum_list_with_app. simpl. lia.
Qed.

Lemma concat_insert {B} (f : A → list B) l i x y :
  l !! i = Some y →
  concat (map f (<[i:=x]> l)) ++ f y ≡ₚ concat (map f l) ++ f x.
Proof.
  intros H. destruct (insert_split l i x y H) as (l1 & l2 & -> & ->).
  rewrite !map_app, !concat_app. simpl. rewrite <-!app_assoc. apply Permutation_app_head.
  set (c := concat (map f l2)). trans (c ++ f y ++ f x).
  - by rewrite (Permutation_app_comm (f x)), <-app_assoc.
  - by rewrite (app_assoc (f y)), (Permutation_app_comm (f y) c), <-app_assoc.
Qed.

Lemma sum_existsb (p : A → bool) l :
  existsb p l = false → sum_list_with (λ a, if p a then 1 else 0)%nat l = 0%nat.
Proof.
  induction l as [|a l IH]; simpl; [done|].
  intros [-> H]%orb_false_iff. by apply IH.
Qed.

Lemma sum_positive (f : A → nat) l :
  (0 < sum_list_with f l)%nat → ∃ i x, l !! i = Some x ∧ (0 < f x)%nat.
Proof.
  induction l as [|a l IH]; simpl; [lia|]. intros H.
  destruct (decide (0 < f a)%nat); [by exists 0%nat, a|].
  destruct IH as (i & x & ? & ?); [lia|]. by exists (Datatypes.S i), x.
Qed.

Lemma sum_ge (f : A → nat) l i x :
  l !! i = Some x → (f x ≤ sum_list_with f l)%nat.
Proof.
  revert i. induction l as [|a l IH]; intros [|i] H; simplify_eq/=; [lia|].
  apply IH in H. lia.
Qed.
End update.

Lemma alter_as_insert `{Countable K} {V} (f : V → V) (k : K) (m : gmap K V) v :
  m !! k = Some v → alter f k m = <[k := f v]> m.
Proof.
  intros Hk. apply map_eq. intros i. destruct (decide (i = k)) as [->|Hi].
  - by rewrite lookup_alter_eq, lookup_insert_eq, Hk.
  - by rewrite lookup_alter_ne, lookup_insert_ne.
Qed.

Lemma get0_insert m k v : get0 (<[k := v]> m) k = v.
Proof. unfold get0. by rewrite lookup_insert_eq. Qed.

Lemma emplace_some {V} fd fd' (v x : V) m :
  emplace fd v m !! fd' = Some x → m !! fd' = Some x ∨ (fd' = fd ∧ x = v ∧ m !! fd = None).
Proof.
  unfold emplace. destruct (m !! fd) eqn:E; [by left|].
  intros [[-> ->]|[? ?]]%lookup_insert_Some; [by right|by left].
Qed.

(** Several entries erased one after the other. *)
Lemma lookup_foldl_delete {V} (zv : list Z) (m : gmap Z V) fd :
  foldl (λ m z, delete z m) m zv !! fd = if decide (fd ∈ zv) then None else m !! fd.
Proof.
  revert m. induction zv as [|z zv IH]; intros m; [done|]. cbn. rewrite IH.
  destruct (decide (fd = z)) as [->|Hne];
    rewrite ?lookup_delete_eq, ?lookup_delete_ne by done; repeat case_decide; set_solver.
Qed.
