(* ===== verification/Utils.v ===== *)
(** * [asutils::Utils]: strings, hashes, identifiers and time

    Models [src/src/main/cpp/common/utils.cpp] except [compare] (file Compare)
    and [exec] (file UtilsExec).  [std::stoi] and [std::hex] are modelled from
    the standard library's description; [timegm], [gettimeofday], the SHA-1 of
    boost and libuuid are arguments. *)

From S2P Require Import Prelude.



(** ** [Utils::split] *)
(** One turn of the loop: the vector built so far, and the local [buffer]. *)
Definition split_body {S} (data : bytes) (d : char) (i : Z)
    (acc : list bytes * bytes) : M S (list bytes * bytes) :=
  let '(result, buffer) := acc in
  c ← at_ data i;
  if Ascii.eqb c d && (i =? len data - 1) then
    mret ((result ++ [buffer]) ++ [[]], buffer)
  else if Ascii.eqb c d || (i =? len data - 1) then
    let buffer := if negb (Ascii.eqb c d) then buffer ++ [c] else buffer in
    mret (result ++ [buffer], [])
  else mret (result, buffer ++ [c]).

Definition split {S} (data : bytes) (d : char) : M S (list bytes) :=
  '(result, _) ← for_loop 64 (len data) (split_body data d) ([], []);
  mret result.

(** The reference: the maximal runs without [d]. *)
Fixpoint pieces (d : char) (l : bytes) : list bytes :=
  match l with
  | [] => [[]]
  | c :: l' =>
      if Ascii.eqb c d then [] :: pieces d l'
      else match pieces d l' with
           | p :: ps => (c :: p) :: ps
           | [] => [[c]]
           end
  end.

Definition split_ref (d : char) (l : bytes) : list bytes :=
  match l with [] => [] | _ => pieces d l end.

Fixpoint join (d : char) (ps : list bytes) : bytes :=
  match ps with
  | [] => []
  | [p] => p
  | p :: ps' => p ++ d :: join d ps'
  end.

(** ** [std::stoi], base 10 *)
Definition code (c : char) : Z := Z.of_N (N_of_ascii c).

Definition is_space (c : char) : bool :=
  (code c =? 32) || ((9 <=? code c) && (code c <=? 13)).

Definition is_digit (c : char) : bool := (48 <=? code c) && (code c <=? 57).

Fixpoint drop_space (l : bytes) : bytes :=
  match l with
  | c :: l' => if is_space c then drop_space l' else l
  | [] => []
  end.

(** Reads the longest run of digits after the value read so far. *)
Fixpoint digits (l : bytes) (acc : option Z) : option Z :=
  match l with
  | c :: l' =>
      if is_digit c then digits l' (Some (10 * default 0 acc + (code c - 48)))
      else acc
  | [] => acc
  end.

Definition strtol (l : bytes) : option Z :=
  match drop_space l with
  | c :: l' =>
      if code c =? 45 then Z.opp <$> digits l' None
      else if code c =? 43 then digits l' None
      else digits (c :: l') None
  | [] => None
  end.

Definition stoi {S} (l : bytes) : M S Z :=
  match strtol l with
  | None => throw InvalidArgument
  | Some z => if fits_s32 z then mret z else throw OutOfRange
  end.

(** ** [Utils::c_epoch_millis] *)
Record tm := Tm {
  tm_sec : Z; tm_min : Z; tm_hour : Z; tm_mday : Z; tm_mon : Z; tm_year : Z;
  tm_wday : Z; tm_yday : Z; tm_isdst : Z; tm_gmtoff : Z
}.

Definition c_epoch_millis {S} (timegm : tm → Z) (val : bytes) : M S Z :=
  catch_std
    (dt ← split val " ";
     if len dt =? 2 then
       dp_s ← index dt 0;
       dd ← split dp_s "-";
       if len dd =? 3 then
         yp_s ← index dd 0;
         y ← stoi yp_s;
         year ← checked_s32 (y - 1900);
         mp_s ← index dd 1;
         mo ← stoi mp_s;
         mon ← checked_s32 (mo - 1);
         dyp_s ← index dd 2;
         mday ← stoi dyp_s;
         mtp_s ← index dt 1;
         tm ← split mtp_s ",";
         if len tm =? 2 then
           millis_s ← index tm 1;
           ms ← stoi millis_s;
           let millis := wrap 32 ms in
           rtp_s ← index tm 0;
           tt ← split rtp_s ":";
           if len tt =? 3 then
             rtph_s ← index tt 0;
             hour ← stoi rtph_s;
             rtpm_s ← index tt 1;
             min ← stoi rtpm_s;
             rtps_s ← index tt 2;
             sec ← stoi rtps_s;
             let epoch_s := timegm (Tm sec min hour mday mon year 0 0 0 0) in
             mret (wrap 64 (wrap 64 epoch_s * 1000 + millis))
           else mret 0
         else mret 0
       else mret 0
     else mret 0)
    (λ _, mret 0).

(** ** [Utils::epoch_millis_now] and [Utils::epoch_micros_now]

    [gettimeofday] gives the seconds and microseconds of the clock; the
    arithmetic is that of the 64-bit [time_t]. *)
Definition epoch_millis_now {S} (gettimeofday : M S (Z * Z)) : M S Z :=
  tp ← gettimeofday;
  a ← checked_s64 (tp.1 * 1000);
  r ← checked_s64 (a + Z.quot tp.2 1000);
  mret (wrap 64 r).

Definition epoch_micros_now {S} (gettimeofday : M S (Z * Z)) : M S Z :=
  tp ← gettimeofday;
  a ← checked_s64 (tp.1 * 1000000);
  r ← checked_s64 (a + tp.2);
  mret (wrap 64 r).

(** ** Identifiers (libuuid) *)
Definition gen_uuid {S} (uuid_generate : M S bytes) : M S bytes :=
  uuid ← uuid_generate;
  for_loop 8 16 (λ i uuid_v, c ← index uuid i; mret (uuid_v ++ [c])) [].

(** [std::string result(uuid_str, 37)]: the 37 characters that
    [uuid_unparse_lower] wrote, its NUL included. *)
Definition build_uuid_str {S} (uuid_generate : M S bytes)
    (uuid_unparse_lower : bytes → bytes) : M S bytes :=
  uuid ← uuid_generate;
  let uuid_str := uuid_unparse_lower uuid in
  if len uuid_str =? 37 then mret uuid_str else undef.

(** ** [Utils::hash_it] *)
Definition hash_it {S} (val : bytes) : M S Z :=
  for_loop 32 (len val) (λ i h,
    c ← index val i;
    mret (wrap 32 (h + wrap 32 (31 * h + schar c)))) 0.

Definition hash_ref (val : bytes) : Z := foldl (λ h c, 32 * h + schar c) 0 val.

(** ** SHA-1 *)

(** [val.c_str()] and [std::strlen]: the text up to the first NUL. *)
Fixpoint c_text (val : bytes) : bytes :=
  match val with
  | [] => []
  | c :: l => if Ascii.eqb c NUL then [] else c :: c_text l
  end.

(** The 20 bytes that [new uint8_t[20]] gives are not initialised: [None]. *)
Definition sha1_byte_arr {S} (sha1 : bytes → list Z) (val : bytes)
    : M S (list (option Z)) :=
  let hash := sha1 (c_text val) in
  '(arr, _) ← for_loop 8 5 (λ i '(arr, p),
    h ← index hash i;
    arr ← set_index arr p (Some (wrap 8 (Z.shiftr h 24)));
    arr ← set_index arr (p + 1) (Some (wrap 8 (Z.shiftr (wrap 32 (Z.shiftl h 8)) 24)));
    arr ← set_index arr (p + 2) (Some (wrap 8 (Z.shiftr (wrap 32 (Z.shiftl h 16)) 24)));
    arr ← set_index arr (p + 3) (Some (wrap 8 (Z.shiftr (wrap 32 (Z.shiftl h 24)) 24)));
    mret (arr, p + 4)) (replicate 20 None, 0);
  mret arr.

(** The value of four bytes, most significant first. *)
Definition word_of_bytes (b0 b1 b2 b3 : Z) : Z :=
  b0 * 2 ^ 24 + b1 * 2 ^ 16 + b2 * 2 ^ 8 + b3.

Fixpoint words_of (l : list (option Z)) : option (list Z) :=
  match l with
  | [] => Some []
  | Some b0 :: Some b1 :: Some b2 :: Some b3 :: l' =>
      ws ← words_of l'; Some (word_of_bytes b0 b1 b2 b3 :: ws)
  | _ => None
  end.

(** [ss << std::hex << n]: lower case, no leading zeros. *)
Definition hex_digit (n : Z) : char :=
  ascii_of_N (Z.to_N (if n <? 10 then 48 + n else 87 + n)).

Fixpoint hex_from (fuel : nat) (n : Z) : bytes :=
  match fuel with
  | O => []
  | Datatypes.S f =>
      if n <? 16 then [hex_digit n] else hex_from f (n / 16) ++ [hex_digit (n mod 16)]
  end.

Definition hex (n : Z) : bytes := hex_from 8 n.

Definition sha1_hex_str {S} (sha1 : bytes → list Z) (val : bytes) : M S bytes :=
  let hash := sha1 (c_text val) in
  for_loop 8 5 (λ i ss, h ← index hash i; mret (ss ++ hex h)) [].

(** ** [split]: lemmas *)

(** [pieces] with a buffer in front of the first piece. *)
Definition prepend (b : bytes) (ps : list bytes) : list bytes :=
  match ps with p :: ps' => (b ++ p) :: ps' | [] => [b] end.

Lemma pieces_not_nil d l : pieces d l ≠ [].
Proof. destruct l as [|c l]; simpl; repeat case_match; done. Qed.

Lemma prepend_nil d l : prepend [] (pieces d l) = pieces d l.
Proof. by destruct (pieces d l) eqn:E; [destruct (pieces_not_nil d l)|]. Qed.

Lemma prepend_cons d b c l :
  Ascii.eqb c d = false →
  prepend b (pieces d (c :: l)) = prepend (b ++ [c]) (pieces d l).
Proof.
  intros H. simpl. rewrite H.
  destruct (pieces d l) eqn:E; simpl; [|by rewrite <-app_assoc].
  by destruct (pieces_not_nil d l).
Qed.

Lemma split_body_run {S} (data : bytes) d i res buf c (s : S) :
  at_ (S:=S) data i s = Ret c s →
  split_body data d i (res, buf) s =
  Ret (if Ascii.eqb c d then
         if i =? len data - 1 then ((res ++ [buf]) ++ [[]], buf)
         else (res ++ [buf], [])
       else if i =? len data - 1 then (res ++ [buf ++ [c]], [])
       else (res, buf ++ [c])) s.
Proof.
  intros H. unfold split_body. run_with H. by destruct (Ascii.eqb c d), (_ =? _).
Qed.

(** The loop from index [length l1] of a text [l1 ++ l2], [l2] not empty. *)
Lemma split_loop {S} d l1 l2 res buf (s : S) :
  l2 ≠ [] →
  ∃ buf',
    fold_m (split_body (l1 ++ l2) d) (seqZ (len l1) (len l2)) (res, buf) s =
    Ret (res ++ prepend buf (pieces d l2), buf') s.
Proof.
  revert l1 res buf. induction l2 as [|c l2 IH]; intros l1 res buf Hne; [done|].
  rewrite seqZ_cons by (simpl; lia).
  assert (Hat : at_ (S:=S) (l1 ++ c :: l2) (len l1) s = Ret c s).
  { unfold at_. rewrite (proj2 (Z.ltb_ge _ _)), Nat2Z.id by lia.
    by rewrite (list_lookup_middle l1 l2 c _ eq_refl). }
  assert (Hlast : (len l1 =? len (l1 ++ c :: l2) - 1)
                  = match l2 with [] => true | _ => false end).
  { rewrite length_app. destruct l2; [apply Z.eqb_eq|apply Z.eqb_neq]; simpl; lia. }
  cbn [fold_m].
  rewrite (bind_run _ _ _ _ _ (split_body_run _ d _ res buf c s Hat)), Hlast.
  specialize (IH (l1 ++ [c])). rewrite <-app_assoc, length_app in IH. simpl in IH.
  replace (Z.pred (Z.of_nat (length (c :: l2)))) with (len l2) by (simpl; lia).
  replace (Z.succ (len l1)) with (Z.of_nat (length l1 + 1)) by lia.
  destruct (Ascii.eqb c d) eqn:Hc; destruct (decide (l2 = [])) as [->|Hl2];
    [|assert ((match l2 with [] => true | _ => false end) = false) as -> by (by destruct l2)
    | |assert ((match l2 with [] => true | _ => false end) = false) as -> by (by destruct l2)];
    cbn [app].
  - exists buf. simpl. rewrite Hc. simpl. by rewrite app_nil_r, <-app_assoc.
  - destruct (IH (res ++ [buf]) [] Hl2) as [buf' E]. exists buf'.
    rewrite E. simpl. rewrite Hc. simpl.
    by rewrite prepend_nil, app_nil_r, <-app_assoc.
  - exists []. simpl. by rewrite Hc.
  - destruct (IH res (buf ++ [c]) Hl2) as [buf' E]. exists buf'.
    by rewrite E, prepend_cons.
Qed.

Lemma split_run {S} (data : bytes) d (s : S) :
  len data < 2 ^ 64 → split data d s = Ret (split_ref d data) s.
Proof.
  intros Hn. unfold split.
  destruct (decide (data = [])) as [->|Hne]; [done|].
  destruct (split_loop (S:=S) d [] data [] [] s Hne) as [buf E].
  rewrite bind_unfold, for_loop_total by lia.
  simpl in E. change (Z.of_nat 0) with 0 in E.
  rewrite E, prepend_nil. by destruct data.
Qed.

Lemma join_prepend d ps b : ps ≠ [] → join d (prepend b ps) = b ++ join d ps.
Proof.
  destruct ps as [|p [|q ps]]; simpl; [done|done|].
  intros _. by rewrite app_assoc.
Qed.

Lemma join_cons d p ps : ps ≠ [] → join d (p :: ps) = p ++ d :: join d ps.
Proof. by destruct ps. Qed.

Lemma pieces_cons d c l :
  pieces d (c :: l) = if Ascii.eqb c d then [] :: pieces d l
                      else prepend [c] (pieces d l).
Proof. simpl. by destruct (Ascii.eqb c d), (pieces d l). Qed.

Lemma join_pieces d l : join d (pieces d l) = l.
Proof.
  induction l as [|c l IH]; [done|]. rewrite pieces_cons.
  destruct (Ascii.eqb_spec c d) as [->|_].
  - by rewrite join_cons, IH by apply pieces_not_nil.
  - by rewrite join_prepend, IH by apply pieces_not_nil.
Qed.

Lemma pieces_no_delim d l : Forall (λ p, d ∉ p) (pieces d l).
Proof.
  induction l as [|c l IH]; [repeat constructor; set_solver|].
  rewrite pieces_cons. destruct (Ascii.eqb_spec c d) as [->|Hc].
  - constructor; [set_solver|done].
  - destruct (pieces d l) as [|p ps]; cbn [prepend].
    + apply Forall_singleton. set_solver.
    + decompose_Forall_hyps. constructor; [set_solver|done].
Qed.

Lemma pieces_app d p l : d ∉ p → pieces d (p ++ d :: l) = p :: pieces d l.
Proof.
  induction p as [|c p IH]; intros Hd.
  - simpl. by rewrite Ascii.eqb_refl.
  - cbn [app]. rewrite pieces_cons, IH by set_solver.
    destruct (Ascii.eqb_spec c d); [set_solver|done].
Qed.

Lemma pieces_single d p : d ∉ p → pieces d p = [p].
Proof.
  induction p as [|c p IH]; intros Hd; [done|].
  rewrite pieces_cons, IH by set_solver.
  destruct (Ascii.eqb_spec c d); [set_solver|done].
Qed.

(** Splitting what was joined: the pieces come back. *)
Lemma pieces_join d ps :
  ps ≠ [] → Forall (λ p, d ∉ p) ps → pieces d (join d ps) = ps.
Proof.
  induction ps as [|p ps IH]; intros Hne HF; [done|].
  inversion HF; subst. destruct (decide (ps = [])) as [->|Hps].
  - by apply pieces_single.
  - by rewrite join_cons, pieces_app, IH.
Qed.

Lemma length_pieces d l :
  length (pieces d l) = Datatypes.S (count_occ Ascii.ascii_dec l d).
Proof.
  induction l as [|c l IH]; [done|]. rewrite pieces_cons. simpl.
  destruct (Ascii.eqb_spec c d) as [->|Hc]; destruct (Ascii.ascii_dec _ _);
    simplify_eq; simpl; [by rewrite IH|].
  rewrite <-IH. by destruct (pieces d l) eqn:E; [destruct (pieces_not_nil d l)|].
Qed.

(** ** [hash_it]: lemmas *)
Lemma hash_step h c :
  wrap 32 (wrap 32 h + wrap 32 (31 * wrap 32 h + schar c))
  = wrap 32 (32 * h + schar c).
Proof.
  rewrite Z.add_comm, wrap_add_l.
  replace (31 * wrap 32 h + schar c + wrap 32 h)
    with (32 * h + schar c + (- 32 * (h / 2 ^ 32)) * 2 ^ 32).
  - unfold wrap. apply Z.mod_add. lia.
  - unfold wrap. rewrite Z.mod_eq by lia. lia.
Qed.

Lemma hash_fold val h :
  foldl (λ h c, wrap 32 (h + wrap 32 (31 * h + schar c))) (wrap 32 h) val
  = wrap 32 (foldl (λ h c, 32 * h + schar c) h val).
Proof.
  revert h. induction val as [|c val IH]; intros h; [done|].
  simpl. by rewrite hash_step, IH.
Qed.

Lemma hash_run {S} val (s : S) :
  len val < 2 ^ 32 → hash_it val s = Ret (wrap 32 (hash_ref val)) s.
Proof.
  intros H. unfold hash_it.
  rewrite (for_index_total 32 val (λ c h, mret (wrap 32 (h + wrap 32 (31 * h + schar c)))))
    by lia.
  rewrite Nat2Z.id, firstn_all.
  rewrite (fold_m_pure _ (λ h c, wrap 32 (h + wrap 32 (31 * h + schar c)))) by done.
  f_equal. apply (hash_fold val 0).
Qed.

(** The counter of the loop is a [uint32_t]. *)
Lemma hash_diverges {S} val (s : S) : 2 ^ 32 ≤ len val → hash_it val s = NoFuel.
Proof.
  intros H. unfold hash_it, for_loop. apply for_loop_diverges; [lia|lia|lia|].
  intros i h s' Hi. destruct (lookup_lt_is_Some_2 val (Z.to_nat i)) as [c Hc]; [lia|].
  run_with (index_lt (S:=S) val i c s' (proj1 Hi) Hc). by eexists _, _.
Qed.

Lemma hash_ref_acc h s :
  foldl (λ h c, 32 * h + schar c) h s = h * 2 ^ (5 * len s) + hash_ref s.
Proof.
  unfold hash_ref. revert h. induction s as [|c s IH]; intros h; simpl; [lia|].
  rewrite IH, (IH (32 * 0 + _)).
  replace (5 * Z.of_nat (Datatypes.S (length s))) with (5 + 5 * len s) by lia.
  rewrite Z.pow_add_r by lia. lia.
Qed.

Lemma hash_ref_app p s : hash_ref (p ++ s) = hash_ref p * 2 ^ (5 * len s) + hash_ref s.
Proof. unfold hash_ref at 1. rewrite foldl_app. apply hash_ref_acc. Qed.

(** What stands before the last seven characters has weight [32 ^ 7 = 2 ^ 35]. *)
Lemma hash_ref_suffix p s :
  (7 ≤ length s)%nat → wrap 32 (hash_ref (p ++ s)) = wrap 32 (hash_ref s).
Proof.
  intros H. rewrite hash_ref_app. unfold wrap.
  replace (5 * len s) with ((5 * len s - 32) + 32) by lia.
  rewrite Z.pow_add_r, Z.mul_assoc, Z.add_comm by lia.
  apply Z.mod_add. lia.
Qed.

(** ** SHA-1: lemmas *)
Definition is_word (w : Z) : Prop := 0 ≤ w < 2 ^ 32.

Definition word_bytes (h : Z) : list (option Z) :=
  [Some (wrap 8 (Z.shiftr h 24));
   Some (wrap 8 (Z.shiftr (wrap 32 (Z.shiftl h 8)) 24));
   Some (wrap 8 (Z.shiftr (wrap 32 (Z.shiftl h 16)) 24));
   Some (wrap 8 (Z.shiftr (wrap 32 (Z.shiftl h 24)) 24))].

Lemma word_bytes_value h :
  is_word h →
  word_of_bytes (wrap 8 (Z.shiftr h 24))
    (wrap 8 (Z.shiftr (wrap 32 (Z.shiftl h 8)) 24))
    (wrap 8 (Z.shiftr (wrap 32 (Z.shiftl h 16)) 24))
    (wrap 8 (Z.shiftr (wrap 32 (Z.shiftl h 24)) 24)) = h.
Proof.
  intros [H1 H2]. unfold word_of_bytes, wrap.
  rewrite !Z.shiftr_div_pow2, !Z.shiftl_mul_pow2 by lia.
  change (2 ^ 8) with 256 in *. change (2 ^ 16) with 65536 in *.
  change (2 ^ 24) with 16777216 in *. change (2 ^ 32) with 4294967296 in *.
  Z.to_euclidean_division_equations. lia.
Qed.

Lemma words_of_bytes hs :
  Forall is_word hs → words_of (concat (map word_bytes hs)) = Some hs.
Proof.
  induction 1 as [|h hs Hh _ IH]; [done|]. cbn [map concat app words_of word_bytes].
  rewrite IH, word_bytes_value by done. done.
Qed.

Lemma sha1_byte_arr_run {S} sha1 val (s : S) :
  length (sha1 (c_text val)) = 5%nat →
  sha1_byte_arr sha1 val s = Ret (concat (map word_bytes (sha1 (c_text val)))) s.
Proof.
  intros H. unfold sha1_byte_arr. rewrite bind_unfold, for_loop_total by lia.
  destruct (sha1 (c_text val)) as [|h0 [|h1 [|h2 [|h3 [|h4 [|]]]]]]; try done.
Qed.

Lemma length_hex_from f n :
  0 ≤ n < 16 ^ Z.of_nat (Datatypes.S f) →
  (1 ≤ length (hex_from (Datatypes.S f) n) ≤ Datatypes.S f)%nat ∧
  (f ≠ 0%nat →
   length (hex_from (Datatypes.S f) n) = Datatypes.S f ↔ 16 ^ Z.of_nat f ≤ n).
Proof.
  revert n. induction f as [|f IH]; intros n Hn.
  - cbn [hex_from]. rewrite (proj2 (Z.ltb_lt n 16)) by (simpl in Hn; lia).
    simpl. split; [lia|done].
  - remember (Datatypes.S f) as g eqn:Hg. cbn [hex_from]. subst g.
    rewrite Nat2Z.inj_succ, Z.pow_succ_r in Hn by lia.
    assert (16 ≤ 16 ^ Z.of_nat (Datatypes.S f)) as Hp.
    { rewrite Nat2Z.inj_succ, Z.pow_succ_r by lia.
      pose proof (Z.pow_pos_nonneg 16 (Z.of_nat f)). lia. }
    destruct (Z.ltb_spec n 16) as [Hlt|Hge].
    + cbn [length]. split; [lia|]. intros _. split; lia.
    + rewrite length_app. cbn [length].
      assert (0 ≤ n / 16 < 16 ^ Z.of_nat (Datatypes.S f)) as Hd.
      { split; [apply Z.div_pos; lia|apply Z.div_lt_upper_bound; lia]. }
      destruct (IH (n / 16) Hd) as [IH1 IH2]. split; [lia|]. intros _.
      destruct (decide (f = 0%nat)) as [->|Hf].
      * change (16 ^ Z.of_nat 1) with 16. split; lia.
      * specialize (IH2 Hf). rewrite Nat2Z.inj_succ, Z.pow_succ_r by lia.
        pose proof (Z.div_le_lower_bound n 16 (16 ^ Z.of_nat f)).
        pose proof (Z.mul_div_le n 16). lia.
Qed.

Lemma length_hex n :
  is_word n → (1 ≤ length (hex n) ≤ 8)%nat ∧ (length (hex n) = 8%nat ↔ 2 ^ 28 ≤ n).
Proof.
  intros Hn. destruct (length_hex_from 7 n) as [H1 H2]; [by apply Hn|].
  split; [done|]. by apply H2.
Qed.

Lemma sha1_hex_str_run {S} sha1 val (s : S) :
  length (sha1 (c_text val)) = 5%nat →
  sha1_hex_str sha1 val s = Ret (concat (map hex (sha1 (c_text val)))) s.
Proof.
  intros H. unfold sha1_hex_str.
  rewrite (for_index_total 8 (sha1 (c_text val)) (λ h ss, mret (ss ++ hex h)))
    by lia.
  rewrite (fold_m_pure _ (λ ss h, ss ++ hex h)) by done. f_equal.
  destruct (sha1 (c_text val)) as [|h0 [|h1 [|h2 [|h3 [|h4 [|]]]]]]; try done.
  change (take _ _) with [h0; h1; h2; h3; h4]. cbn [foldl map concat].
  by rewrite app_nil_l, app_nil_r, <-!app_assoc.
Qed.

Lemma length_concat_hex hs :
  Forall is_word hs →
  (length (concat (map hex hs)) ≤ 8 * length hs)%nat ∧
  (length (concat (map hex hs)) = (8 * length hs)%nat ↔ Forall (λ h, 2 ^ 28 ≤ h) hs).
Proof.
  induction 1 as [|h hs Hh _ [IH1 IH2]]; [done|].
  cbn [map concat length]. rewrite length_app, Forall_cons, <-IH2.
  pose proof (length_hex h Hh). lia.
Qed.

(** ** Decimal numbers and [stoi]: lemmas *)

(** [n] on [k] decimal digits. *)
Fixpoint pad (k : nat) (n : Z) : bytes :=
  match k with
  | O => []
  | Datatypes.S k' => pad k' (n / 10) ++ [ascii_of_N (Z.to_N (48 + n mod 10))]
  end.

Lemma code_digit n : 0 ≤ n < 10 → code (ascii_of_N (Z.to_N (48 + n))) = 48 + n.
Proof. intros H. unfold code. rewrite N_ascii_embedding by lia. lia. Qed.

Lemma is_digit_code n : 0 ≤ n < 10 → is_digit (ascii_of_N (Z.to_N (48 + n))) = true.
Proof. intros H. unfold is_digit. rewrite code_digit by done. lia. Qed.

Lemma digits_app l1 l2 acc :
  Forall (λ c, is_digit c = true) l1 → digits (l1 ++ l2) acc = digits l2 (digits l1 acc).
Proof.
  intros H. revert acc. induction H as [|c l1 Hc _ IH]; intros acc; [done|].
  simpl. rewrite Hc. apply IH.
Qed.

Lemma pad_digits k n : Forall (λ c, is_digit c = true) (pad k n).
Proof.
  revert n. induction k as [|k IH]; intros n; [constructor|].
  simpl. apply Forall_app. split; [apply IH|].
  apply Forall_singleton, is_digit_code, Z.mod_pos_bound. lia.
Qed.

Lemma digits_pad k n acc :
  0 ≤ n < 10 ^ Z.of_nat (Datatypes.S k) →
  digits (pad (Datatypes.S k) n) acc = Some (default 0 acc * 10 ^ Z.of_nat (Datatypes.S k) + n).
Proof.
  revert n acc. induction k as [|k IH]; intros n acc Hn.
  - cbn [pad app]. simpl in Hn. change (10 ^ Z.of_nat 1) with 10 in *.
    simpl. rewrite is_digit_code, code_digit, Z.mod_small by (try apply Z.mod_pos_bound; lia).
    f_equal. lia.
  - remember (Datatypes.S k) as k' eqn:Hk. cbn [pad].
    rewrite digits_app by apply pad_digits. subst k'.
    rewrite Nat2Z.inj_succ, Z.pow_succ_r in Hn |- * by lia.
    rewrite IH by (split; [apply Z.div_pos; lia|apply Z.div_lt_upper_bound; lia]).
    simpl. rewrite is_digit_code, code_digit by (apply Z.mod_pos_bound; lia).
    f_equal. pose proof (Z.div_mod n 10). lia.
Qed.

Lemma digit_not_space c : is_digit c = true → is_space c = false.
Proof. unfold is_digit, is_space. lia. Qed.

Lemma strtol_digits c l :
  Forall (λ c, is_digit c = true) (c :: l) → strtol (c :: l) = digits (c :: l) None.
Proof.
  intros H. decompose_Forall_hyps. unfold strtol. cbn [drop_space].
  rewrite digit_not_space by done. unfold is_digit in *.
  rewrite (proj2 (Z.eqb_neq _ 45)), (proj2 (Z.eqb_neq _ 43)) by lia. done.
Qed.

Lemma stoi_pad {S} k n (s : S) :
  0 ≤ n < 10 ^ Z.of_nat (Datatypes.S k) → n < 2 ^ 31 →
  stoi (pad (Datatypes.S k) n) s = Ret n s.
Proof.
  intros Hn Hn'. unfold stoi. pose proof (pad_digits (Datatypes.S k) n) as Hd.
  pose proof (digits_pad k n None Hn) as Hp.
  destruct (pad (Datatypes.S k) n) as [|c l] eqn:E; [done|].
  rewrite strtol_digits, Hp by done. simpl.
  by rewrite fits_s32_true by lia.
Qed.

(** ** [c_epoch_millis]: lemmas *)

(** [m] leaves the state alone: it returns a value with [P], or throws a
    standard exception. *)
Definition quiet {S A} (P : A → Prop) (m : M S A) : Prop :=
  ∀ s, (∃ a, m s = Ret a s ∧ P a) ∨
       (∃ e, m s = Throw e s ∧ is_std_exception e = true).

Section quiet.
Context {S A B : Type}.

Lemma quiet_ret (P : A → Prop) a : P a → quiet (S:=S) P (mret a).
Proof. intros H s. left. by exists a. Qed.

Lemma quiet_bind (P : A → Prop) (Q : B → Prop) (m : M S A) (k : A → M S B) :
  quiet P m → (∀ a, P a → quiet Q (k a)) → quiet Q (m ≫= k).
Proof.
  intros Hm Hk s. destruct (Hm s) as [(a & E & Ha)|(e & E & He)];
    rewrite bind_unfold, E; [by apply Hk|]. right. by exists e.
Qed.

Lemma quiet_index (l : list A) i :
  0 ≤ i < len l → quiet (S:=S) (λ a, a ∈ l) (index l i).
Proof.
  intros Hi s. left. destruct (lookup_lt_is_Some_2 l (Z.to_nat i)) as [a Ha]; [lia|].
  exists a. split; [apply index_lt; [lia|done]|].
  by apply list_elem_of_lookup_2 in Ha.
Qed.

Lemma quiet_catch (P : A → Prop) (m : M S A) a s :
  quiet P m → P a → ∃ r, catch_std m (λ _, mret a) s = Ret r s ∧ P r.
Proof.
  intros Hm Ha. unfold catch_std.
  destruct (Hm s) as [(r & -> & Hr)|(e & -> & ->)]; eauto.
Qed.
End quiet.

Lemma quiet_split {S} data d :
  len data < 2 ^ 64 →
  quiet (S:=S) (λ ps, ps = split_ref d data) (split data d).
Proof. intros H s. left. eexists. by rewrite split_run. Qed.

Lemma digits_nonneg l acc z : 0 ≤ default 0 acc → digits l acc = Some z → 0 ≤ z.
Proof.
  revert acc. induction l as [|c l IH]; intros acc Hacc; simpl; [by intros ->|].
  destruct (is_digit c) eqn:Hc; [|by intros ->].
  apply IH. unfold is_digit in Hc. simpl. lia.
Qed.

Lemma drop_space_elem c l : c ∈ drop_space l → c ∈ l.
Proof.
  induction l as [|c' l IH]; [done|]. simpl. destruct (is_space c'); [|done].
  intros H. by apply elem_of_cons, or_intror, IH.
Qed.

Lemma code_inj c d : code c = code d → c = d.
Proof.
  unfold code. intros H%N2Z.inj. by rewrite <-(ascii_N_embedding c), H, ascii_N_embedding.
Qed.

(** No sign character, no negative number. *)
Lemma strtol_nonneg l z : "-"%char ∉ l → strtol l = Some z → 0 ≤ z.
Proof.
  intros Hl. unfold strtol. destruct (drop_space l) as [|c l'] eqn:E; [done|].
  destruct (Z.eqb_spec (code c) 45) as [Hc|_].
  - destruct Hl. apply drop_space_elem. rewrite E.
    replace "-"%char with c; [by constructor|]. by apply code_inj.
  - case_match; by apply digits_nonneg.
Qed.

Lemma quiet_stoi {S} l : quiet (S:=S) (λ z, - 2 ^ 31 ≤ z < 2 ^ 31) (stoi l).
Proof.
  intros s. unfold stoi. destruct (strtol l) as [z|]; [|right; by eexists].
  destruct (fits_s32 z) eqn:Hz; [left|right; by eexists].
  exists z. split; [done|]. unfold fits_s32 in Hz. lia.
Qed.

Lemma quiet_stoi_nonneg {S} l :
  "-"%char ∉ l → quiet (S:=S) (λ z, 0 ≤ z < 2 ^ 31) (stoi l).
Proof.
  intros Hl s. unfold stoi. destruct (strtol l) as [z|] eqn:E; [|right; by eexists].
  destruct (fits_s32 z) eqn:Hz; [left|right; by eexists].
  exists z. split; [done|]. apply strtol_nonneg in E; [|done].
  unfold fits_s32 in Hz. lia.
Qed.

Lemma quiet_checked {S} z :
  - 2 ^ 31 ≤ z < 2 ^ 31 → quiet (S:=S) (λ _, True) (checked_s32 z).
Proof. intros Hz s. left. exists z. unfold checked_s32. by rewrite fits_s32_true. Qed.

(** Every piece of a split is short and has no delimiter. *)
Lemma split_ref_no_delim d l p : p ∈ split_ref d l → d ∉ p.
Proof.
  intros H. pose proof (pieces_no_delim d l) as HF. rewrite Forall_forall in HF.
  destruct l as [|c l]; [by apply elem_of_nil in H|]. by apply HF.
Qed.

Lemma length_piece_le d l p : p ∈ split_ref d l → (length p ≤ length l)%nat.
Proof.
  intros H. assert (p ∈ pieces d l) as Hp by (by destruct l; [apply elem_of_nil in H|]).
  clear H. revert p Hp. induction l as [|c l IH]; intros p.
  - intros ->%list_elem_of_singleton. done.
  - rewrite pieces_cons. destruct (Ascii.eqb c d).
    + intros [->|H]%elem_of_cons; simpl; [lia|]. apply IH in H. lia.
    + destruct (pieces d l) as [|q qs]; simpl.
      * intros ->%list_elem_of_singleton. simpl. lia.
      * intros [->|H]%elem_of_cons; simpl.
        -- specialize (IH q). rewrite elem_of_cons in IH. naive_solver lia.
        -- specialize (IH p). rewrite elem_of_cons in IH. naive_solver lia.
Qed.

Lemma digits_not_elem d l :
  is_digit d = false → Forall (λ c, is_digit c = true) l → d ∉ l.
Proof. intros Hd HF Hin. rewrite Forall_forall in HF. apply HF in Hin. congruence. Qed.

Lemma length_pad k n : length (pad k n) = k.
Proof.
  revert n. induction k as [|k IH]; intros n; [done|].
  simpl. rewrite length_app, IH. simpl. lia.
Qed.

Lemma split_join_run {S} d ps (s : S) :
  ps ≠ [] → join d ps ≠ [] → Forall (λ p, d ∉ p) ps → len (join d ps) < 2 ^ 64 →
  split (join d ps) d s = Ret ps s.
Proof.
  intros H1 H2 H3 H4. rewrite split_run by done.
  rewrite <-(pieces_join d ps H1 H3) at 2. by destruct (join d ps).
Qed.

(** Steps of [quiet] through the statements of [c_epoch_millis]. *)
Ltac quiet_step :=
  match goal with
  | |- quiet _ (split _ _ ≫= _) => eapply quiet_bind; [apply quiet_split|]
  | |- quiet _ (index _ _ ≫= _) => eapply quiet_bind; [apply quiet_index; lia|]
  | |- quiet _ (stoi _ ≫= _) =>
      eapply quiet_bind;
        [first [apply quiet_stoi_nonneg; by eapply split_ref_no_delim
               |apply quiet_stoi]|]
  | |- quiet _ (checked_s32 _ ≫= _) => eapply quiet_bind; [apply quiet_checked; lia|]
  | |- quiet _ (if ?b =? ?n then _ else _) => destruct (Z.eqb_spec b n)
  | |- quiet _ (mret _) => apply quiet_ret
  | |- ∀ _, _ → quiet _ _ => cbn beta; intros ? ?; subst
  end.

Lemma c_epoch_millis_quiet {S} timegm val (s : S) :
  len val < 2 ^ 64 →
  ∃ r, c_epoch_millis timegm val s = Ret r s ∧ 0 ≤ r < 2 ^ 64.
Proof.
  intros Hn. unfold c_epoch_millis. apply quiet_catch; [|lia].
  assert (∀ d l p, p ∈ split_ref d l → len l < 2 ^ 64 → len p < 2 ^ 64) as Hp.
  { intros d l p H ?. apply length_piece_le in H. lia. }
  repeat quiet_step; eauto; try lia. apply wrap_bounds. lia.
Qed.

(** The text of a time stamp, [YYYY-MM-DD HH:MM:SS,mmm]. *)
Definition timestamp (y mo d h mi sec ms : Z) : bytes :=
  join " " [join "-" [pad 4 y; pad 2 mo; pad 2 d];
            join "," [join ":" [pad 2 h; pad 2 mi; pad 2 sec]; pad 3 ms]].

Lemma pad_not_elem d k n : is_digit d = false → d ∉ pad k n.
Proof. intros H. apply digits_not_elem; [done|apply pad_digits]. Qed.

Lemma join_not_elem d d' ps :
  d ≠ d' → Forall (λ p, d ∉ p) ps → d ∉ join d' ps.
Proof.
  intros Hd. induction 1 as [|p ps Hp HF IH]; [by apply not_elem_of_nil|].
  destruct (decide (ps = [])) as [->|Hps]; [done|].
  rewrite join_cons, elem_of_app, elem_of_cons by done.
  intros [?|[?|?]]; done.
Qed.

(** The delimiters of a time stamp are not in its fields. *)
Ltac no_delim :=
  repeat first
    [ apply Forall_nil_2 | apply Forall_cons_2
    | apply pad_not_elem; reflexivity
    | apply join_not_elem; [discriminate|] ].

Ltac ts_size :=
  repeat (progress (cbn [join length]; rewrite ?length_app, ?length_pad)); lia.

Ltac ts_split :=
  erewrite bind_run;
    [|apply split_join_run;
        [discriminate|intros E%(f_equal length); revert E; ts_size|no_delim|ts_size]];
  cbn [length]; rewrite Z.eqb_refl.

Ltac ts_field :=
  erewrite bind_run; [|apply index_lt; [lia|reflexivity]].

Ltac ts_stoi :=
  erewrite bind_run; [|apply stoi_pad; lia].

Ltac ts_checked :=
  erewrite bind_run; [|unfold checked_s32; rewrite fits_s32_true by lia; reflexivity].

Lemma c_epoch_millis_run {S} timegm y mo d h mi sec ms (s : S) :
  0 ≤ y < 10000 → 0 ≤ mo < 100 → 0 ≤ d < 100 → 0 ≤ h < 100 → 0 ≤ mi < 100 →
  0 ≤ sec < 100 → 0 ≤ ms < 1000 →
  c_epoch_millis timegm (timestamp y mo d h mi sec ms) s =
  Ret (wrap 64 (timegm (Tm sec mi h d (mo - 1) (y - 1900) 0 0 0 0) * 1000 + ms)) s.
Proof.
  intros. unfold c_epoch_millis, catch_std, timestamp.
  ts_split. ts_field. ts_split.
  ts_field. ts_stoi. ts_checked. ts_field. ts_stoi. ts_checked. ts_field. ts_stoi.
  ts_field. ts_split. ts_field. ts_stoi. ts_field. ts_split.
  ts_field. ts_stoi. ts_field. ts_stoi. ts_field. ts_stoi.
  rewrite (wrap_small 32 ms), wrap_mul_add by lia. done.
Qed.

Lemma c_epoch_millis_no_space {S} timegm val (s : S) :
  len val < 2 ^ 64 → length (split_ref " " val) ≠ 2%nat →
  c_epoch_millis timegm val s = Ret 0 s.
Proof.
  intros Hn H2. unfold c_epoch_millis, catch_std.
  rewrite (bind_run _ _ _ _ _ (split_run val " " s Hn)).
  by rewrite (proj2 (Z.eqb_neq _ _)) by lia.
Qed.

(** ** Properties *)

(** C33.  [Utils::split] returns, for every text and delimiter, the pieces
    between the delimiters: joined again they give the text back, none contains
    the delimiter, and there is one more of them than there are delimiters
    (none at all for the empty text). *)
Theorem split_pieces {S} (data : bytes) (d : char) (s : S) :
  len data < 2 ^ 64 →
  ∃ ps, split data d s = Ret ps s ∧
    join d ps = data ∧
    Forall (λ p, d ∉ p) ps ∧
    length ps = match data with
                | [] => 0%nat
                | _ => Datatypes.S (count_occ Ascii.ascii_dec data d)
                end.
Proof.
  intros Hn. exists (split_ref d data). split; [by apply split_run|].
  destruct data as [|c data]; [done|]. cbn [split_ref].
  auto using join_pieces, pieces_no_delim, length_pieces.
Qed.

Lemma split_pieces_witness :
  ∃ ps, split (str "a,,b,") "," tt = Ret ps tt ∧ length ps = 4%nat.
Proof.
  destruct (split_pieces (str "a,,b,") "," tt ltac:(reflexivity)) as (ps & E & _ & _ & L).
  exists ps. split; [exact E|exact L].
Defined.

(** [Utils::split] undoes joining: fields that do not contain the delimiter,
    not all of them empty or more than one, come back as they were. *)
Theorem split_join {S} (d : char) (ps : list bytes) (s : S) :
  ps ≠ [] → join d ps ≠ [] → Forall (λ p, d ∉ p) ps → len (join d ps) < 2 ^ 64 →
  split (join d ps) d s = Ret ps s.
Proof. apply split_join_run. Qed.

Lemma split_join_witness :
  split (join ":" [str "localhost"; str "8080"]) ":" tt = Ret [str "localhost"; str "8080"] tt.
Proof.
  apply (split_join ":" [str "localhost"; str "8080"] tt).
  - discriminate.
  - vm_compute. discriminate.
  - repeat constructor; apply (bool_decide_unpack _); vm_compute; exact I.
  - vm_compute. reflexivity.
Defined.

(** [Utils::c_epoch_millis] on a time stamp [YYYY-MM-DD HH:MM:SS,mmm] gives
    1000 times the epoch seconds of its fields (month and year rebased as
    [struct tm] wants them) plus the milliseconds, in 64 bits. *)
Theorem c_epoch_millis_timestamp {S} timegm y mo d h mi sec ms (s : S) :
  0 ≤ y < 10000 → 0 ≤ mo < 100 → 0 ≤ d < 100 → 0 ≤ h < 100 → 0 ≤ mi < 100 →
  0 ≤ sec < 100 → 0 ≤ ms < 1000 →
  c_epoch_millis timegm (timestamp y mo d h mi sec ms) s =
  Ret (wrap 64 (timegm (Tm sec mi h d (mo - 1) (y - 1900) 0 0 0 0) * 1000 + ms)) s.
Proof. apply c_epoch_millis_run. Qed.

(** The days of a proleptic Gregorian date since 1970-01-01, and [timegm] on
    fields in range. *)
Definition days_from_civil (y m d : Z) : Z :=
  let y := if m <=? 2 then y - 1 else y in
  let era := y / 400 in
  let yoe := y - era * 400 in
  let doy := (153 * (m + (if m <=? 2 then 9 else - 3)) + 2) / 5 + d - 1 in
  era * 146097 + (yoe * 365 + yoe / 4 - yoe / 100 + doy) - 719468.

Definition timegm_in_range (t : tm) : Z :=
  days_from_civil (tm_year t + 1900) (tm_mon t + 1) (tm_mday t) * 86400
  + tm_hour t * 3600 + tm_min t * 60 + tm_sec t.

Lemma c_epoch_millis_timestamp_witness :
  timestamp 2016 8 16 23 30 53 398 = str "2016-08-16 23:30:53,398" ∧
  c_epoch_millis timegm_in_range (timestamp 2016 8 16 23 30 53 398) tt
  = Ret 1471390253398 tt.
Proof.
  split; [vm_compute; reflexivity|].
  rewrite (c_epoch_millis_timestamp timegm_in_range 2016 8 16 23 30 53 398 tt) by lia.
  vm_compute. reflexivity.
Defined.

(** [Utils::c_epoch_millis] returns normally on every string, however
    malformed: no exception escapes, no [int] computation overflows (the
    delimiter ['-'] keeps the date fields from being negative), and the result is
    a [uint64_t]; a string that has not exactly one space gives 0. *)
Theorem c_epoch_millis_total {S} timegm (val : bytes) (s : S) :
  len val < 2 ^ 64 →
  ∃ r, c_epoch_millis timegm val s = Ret r s ∧ 0 ≤ r < 2 ^ 64 ∧
    (count_occ Ascii.ascii_dec val " "%char ≠ 1%nat → r = 0).
Proof.
  intros Hn. destruct (c_epoch_millis_quiet timegm val s Hn) as (r & E & Hr).
  exists r. split_and!; [done|lia|lia|]. intros Hc.
  rewrite c_epoch_millis_no_space in E; [by injection E|done|].
  destruct val as [|c val]; [done|]. cbn [split_ref]. rewrite length_pieces. lia.
Qed.

Lemma c_epoch_millis_total_witness :
  ∃ r, c_epoch_millis timegm_in_range (str "-1-2-3 x") tt = Ret r tt ∧ 0 ≤ r < 2 ^ 64.
Proof.
  destruct (c_epoch_millis_total timegm_in_range (str "-1-2-3 x") tt ltac:(reflexivity))
    as (r & E & Hr & _).
  exists r. split; [exact E|exact Hr].
Defined.

(** [Utils::hash_it] computes, modulo 2^32, the polynomial of the characters
    in base 32, and ends exactly for keys shorter than 2^32. *)
Theorem hash_it_value {S} (val : bytes) (s : S) :
  hash_it val s =
  if len val <? 2 ^ 32 then Ret (wrap 32 (hash_ref val)) s else NoFuel.
Proof.
  destruct (Z.ltb_spec (len val) (2 ^ 32)); [by apply hash_run|by apply hash_diverges].
Qed.

(** Only the last seven characters of a key decide its hash: keys that share
    them are sent to the same host. *)
Theorem hash_it_suffix {S} (p q k : bytes) (s : S) :
  (7 ≤ length k)%nat → len (p ++ k) < 2 ^ 32 → len (q ++ k) < 2 ^ 32 →
  hash_it (p ++ k) s = hash_it (q ++ k) s.
Proof. intros Hk Hp Hq. by rewrite !hash_run, !hash_ref_suffix by done. Qed.

Lemma hash_it_suffix_witness :
  hash_it (str "user-1:profile") tt = hash_it (str "user-2:profile") tt.
Proof.
  apply (hash_it_suffix (str "user-1:") (str "user-2:") (str "profile") tt);
    vm_compute; [lia|reflexivity|reflexivity].
Defined.

(** [Utils::sha1_byte_arr] writes all 20 bytes, and they are the five words
    of the digest, most significant byte first. *)
Theorem sha1_byte_arr_words {S} sha1 (val : bytes) (s : S) :
  length (sha1 (c_text val)) = 5%nat → Forall is_word (sha1 (c_text val)) →
  ∃ arr, sha1_byte_arr sha1 val s = Ret arr s ∧ length arr = 20%nat ∧
    words_of arr = Some (sha1 (c_text val)).
Proof.
  intros Hl Hw. eexists. split_and!; [by apply sha1_byte_arr_run| |by apply words_of_bytes].
  by destruct (sha1 (c_text val)) as [|h0 [|h1 [|h2 [|h3 [|h4 [|]]]]]].
Qed.

(** The digest of "a" that the unit tests expect. *)
Definition sha1_of_a (_ : bytes) : list Z :=
  [0x86f7e437; 0xfaa5a7fc; 0xe15d1ddc; 0xb9eaeaea; 0x377667b8].

Lemma sha1_byte_arr_words_witness :
  ∃ arr, sha1_byte_arr sha1_of_a (str "a") tt = Ret arr tt ∧
    words_of arr = Some (sha1_of_a (str "a")).
Proof.
  destruct (sha1_byte_arr_words sha1_of_a (str "a") tt eq_refl) as (arr & E & _ & W).
  - repeat constructor; reflexivity || discriminate.
  - exists arr. split; [exact E|exact W].
Defined.

(** [Utils::sha1_hex_str] gives the 40 digits of the digest exactly when no
    word of it starts with a zero digit: [std::hex] does not pad. *)
Theorem sha1_hex_str_length {S} sha1 (val : bytes) (s : S) :
  length (sha1 (c_text val)) = 5%nat → Forall is_word (sha1 (c_text val)) →
  ∃ r, sha1_hex_str sha1 val s = Ret r s ∧ (length r ≤ 40)%nat ∧
    (length r = 40%nat ↔ Forall (λ h, 2 ^ 28 ≤ h) (sha1 (c_text val))).
Proof.
  intros Hl Hw. eexists. split; [by apply sha1_hex_str_run|].
  pose proof (length_concat_hex _ Hw) as H. by rewrite Hl in H.
Qed.

Lemma sha1_hex_str_length_witness :
  sha1_hex_str sha1_of_a (str "a") tt
  = Ret (str "86f7e437faa5a7fce15d1ddcb9eaeaea377667b8") tt ∧
  ∃ r, sha1_hex_str sha1_of_a (str "a") tt = Ret r tt ∧ (length r ≤ 40)%nat.
Proof.
  split; [vm_compute; reflexivity|].
  destruct (sha1_hex_str_length sha1_of_a (str "a") tt eq_refl) as (r & E & L & _).
  - repeat constructor; reflexivity || discriminate.
  - exists r. split; [exact E|exact L].
Defined.

(** Two digests with the same text: the missing zeros make it ambiguous. *)
Example sha1_hex_str_collision :
  sha1_hex_str (λ _, [0x1; 0x23; 0; 0; 0]) [] tt = sha1_hex_str (λ _, [0x12; 0x3; 0; 0; 0]) [] tt.
Proof. vm_compute. reflexivity. Qed.
