(* ===== verification/Compare.v ===== *)
(** * [asutils::Utils::compare]

    The two comparisons of floating point numbers of
    [src/src/main/cpp/common/utils.cpp], over the standard library's [SpecFloat]:
    IEEE 754 numbers of [prec] bits below [2 ^ emax], rounded to nearest even. *)

From Stdlib Require Import Floats.SpecFloat.
From S2P Require Import Prelude.

(** ** [compare], for any format *)
Section compare.
Context (prec emax : Z) (epsilon : spec_float).

Definition compare (a b : spec_float) : Z :=
  let result := 0 in
  if SFltb epsilon (SFabs (SFsub prec emax a b)) then
    if SFltb a b then -1 else 1
  else result.
End compare.

(** A [double] literal [1 / n]: the nearest number, which is what the division
    gives for an [n] that is exact. *)
Definition reciprocal (n : positive) : spec_float :=
  SFdiv 53 1024 (binary_normalize 53 1024 1 0 false) (binary_normalize 53 1024 (Zpos n) 0 false).

(** Conversion to [float]. *)
Definition to_float (x : spec_float) : spec_float :=
  match x with S754_finite s m e => binary_round 24 128 s m e | _ => x end.

Definition compare_float : spec_float → spec_float → Z :=
  compare 24 128 (to_float (reciprocal 10000000)).

Definition compare_double : spec_float → spec_float → Z :=
  compare 53 1024 (reciprocal 10000000000000000).

(** ** Order of floating point numbers *)
Lemma SFcompare_opp a b : SFcompare b a = CompOpp <$> SFcompare a b.
Proof.
  destruct a as [s|s| |s m e], b as [s'|s'| |s' m' e']; try (by destruct s); try (by destruct s'); try done.
  - by destruct s, s'.
  - cbn. rewrite (Z.compare_antisym e e').
    change (Pos.compare_cont Eq m' m) with (m' ?= m)%positive.
    change (Pos.compare_cont Eq m m') with (m ?= m')%positive.
    rewrite (Pos.compare_antisym m m').
    by destruct s, s', (e ?= e'), (m ?= m')%positive.
Qed.

Lemma SFltb_irrefl a : SFltb a a = false.
Proof.
  unfold SFltb. destruct a as [s|s| |s m e]; try done; [by destruct s|]. cbn.
  rewrite Z.compare_refl. change (Pos.compare_cont Eq m m) with (m ?= m)%positive.
  rewrite Pos.compare_refl. by destruct s.
Qed.

Lemma SFcompare_eq a b :
  SFcompare a b = Some Eq →
  a = b ∨ ∃ s s', a = S754_zero s ∧ b = S754_zero s'.
Proof.
  destruct a as [s|s| |s m e], b as [s'|s'| |s' m' e']; cbn; try done.
  - intros _. right. by eexists _, _.
  - by destruct s'.
  - by destruct s'.
  - by destruct s.
  - destruct s, s'; try done; by left.
  - by destruct s.
  - by destruct s.
  - by destruct s'.
  - change (Pos.compare_cont Eq m m') with (m ?= m')%positive.
    destruct s, s', (Z.compare_spec e e') as [->| |], (Pos.compare_spec m m') as [->| |]; try done; by left.
Qed.

(** ** Rounding: the sign, and how small a result can be *)
Section rounding.
Context (prec emax : Z).
Abbreviation fexp := (fexp prec emax).
Abbreviation binary_round := (binary_round prec emax).
Abbreviation binary_normalize := (binary_normalize prec emax).
Abbreviation SFsub := (SFsub prec emax).

Lemma abs_round s s' m e : SFabs (binary_round s m e) = SFabs (binary_round s' m e).
Proof.
  unfold SpecFloat.binary_round. destruct (shl_align _ _ _) as [mz ez]. unfold binary_round_aux.
  destruct (shr_fexp _ _ _ _ _) as [r1 e1]. destruct (shr_fexp _ _ _ e1 _) as [r2 e2].
  destruct (shr_m r2); [done| |done]. by destruct (_ <=? _).
Qed.

Lemma abs_normalize z e s : SFabs (binary_normalize (- z) e s) = SFabs (binary_normalize z e s).
Proof. destruct z; [done|apply abs_round..]. Qed.

Lemma abs_sub a b : SFabs (SFsub b a) = SFabs (SFsub a b).
Proof.
  destruct a as [[]|[]| |s m e], b as [[]|[]| |s' m' e']; try done; cbn.
  rewrite (Z.min_comm e' e), <-abs_normalize. f_equal. f_equal. lia.
Qed.

Lemma sub_equal a b : SFcompare a b = Some Eq → ∃ x, SFabs (SFsub a b) = x ∧ (x = S754_zero false ∨ x = S754_nan).
Proof.
  intros [->|(s & s' & -> & ->)]%SFcompare_eq; eexists; (split; [done|]).
  - destruct b as [[]|[]| |s m e]; cbn; try by (left + right). left.
    by rewrite Z.sub_diag.
  - left. by destruct s, s'.
Qed.

Lemma digits_log2 m : Zpos (digits2_pos m) = Z.log2 (Zpos m) + 1.
Proof.
  induction m as [m IH|m IH|]; [| |done]; cbn [digits2_pos]; rewrite Pos2Z.inj_succ, IH.
  - rewrite (Pos2Z.inj_xI m), Z.log2_succ_double by lia. lia.
  - rewrite (Pos2Z.inj_xO m), Z.log2_double by lia. lia.
Qed.

Lemma shr_1_div mrs : 0 ≤ shr_m mrs → shr_m (shr_1 mrs) = shr_m mrs / 2.
Proof.
  destruct mrs as [[|[p|p|]|p] r s]; cbn; intros Hm; try done.
  - rewrite (Pos2Z.inj_xI p), Z.mul_comm, Z.div_add_l by lia. change (1 / 2) with 0. lia.
  - by rewrite (Pos2Z.inj_xO p), Z.mul_comm, Z.div_mul.
Qed.

Lemma shr_iter p mrs : 0 ≤ shr_m mrs → shr_m (SpecFloat.iter_pos shr_1 p mrs) = shr_m mrs / 2 ^ Zpos p.
Proof.
  revert mrs. induction p as [p IH|p IH|]; intros mrs Hm; cbn [SpecFloat.iter_pos].
  - pose proof (shr_1_div mrs Hm) as E.
    rewrite IH; rewrite IH; rewrite ?E; try (repeat apply Z.div_pos; lia).
    rewrite !Z.div_div by lia. f_equal. rewrite (Pos2Z.inj_xI p).
    replace (2 * Z.pos p + 1) with (1 + Z.pos p + Z.pos p) by lia. rewrite !Z.pow_add_r by lia. lia.
  - rewrite IH; rewrite IH; try (repeat apply Z.div_pos; lia); try done.
    rewrite !Z.div_div by lia. f_equal. rewrite (Pos2Z.inj_xO p).
    replace (2 * Z.pos p) with (Z.pos p + Z.pos p) by lia. by rewrite Z.pow_add_r by lia.
  - by apply shr_1_div.
Qed.

(** One shift to the exponent of the format keeps a mantissa that is large enough. *)
Lemma shr_fexp_pos m e :
  0 < m → 0 < prec → emin prec emax < Z.log2 m + 1 + e →
  ∃ mrs, shr_fexp prec emax m e loc_Exact = (mrs, Z.max e (fexp (Z.log2 m + 1 + e))) ∧ 0 < shr_m mrs.
Proof.
  intros Hm Hp He. unfold shr_fexp. destruct m as [|m|m]; try lia.
  cbn [Zdigits2 shr_record_of_loc]. rewrite digits_log2. set (x := fexp (Z.log2 (Zpos m) + 1 + e)).
  assert (x ≤ Z.log2 (Zpos m) + e) as Hx by (unfold x, SpecFloat.fexp; lia).
  unfold shr. destruct (x - e) as [|n|n] eqn:En.
  - eexists. split; [f_equal; lia|done].
  - eexists. split; [f_equal; lia|]. rewrite shr_iter by done. cbn [shr_m].
    apply Z.div_str_pos. split; [lia|].
    trans (2 ^ Z.log2 (Zpos m)); [apply Z.pow_le_mono_r; lia|]. by apply Z.log2_spec.
  - eexists. split; [f_equal; lia|done].
Qed.

Lemma shl_align_log2 m e e' :
  let '(mz, ez) := shl_align m e e' in
  Z.log2 (Zpos mz) + ez = Z.log2 (Zpos m) + e ∧ ez ≤ Z.max e' ez ∧ (ez ≤ e' ∨ ez = e).
Proof.
  unfold shl_align. destruct (e' - e) as [|n|n] eqn:En; [lia|lia|].
  assert (∀ n, Zpos (Pos.iter xO m n) = Zpos m * 2 ^ Zpos n) as Hi.
  { clear. intros n. induction n as [|n IH] using Pos.peano_ind; [cbn; lia|].
    rewrite Pos.iter_succ, Pos2Z.inj_xO, IH, Pos2Z.inj_succ, Z.pow_succ_r by lia. lia. }
  rewrite Hi, Z.log2_mul_pow2 by lia. lia.
Qed.

Lemma round_nearest_even_ge m l : m ≤ round_nearest_even m l.
Proof. destruct l as [|[]]; cbn; try lia. destruct (Z.even m); lia. Qed.

(** What a number with an exponent of [ee + prec] or more is rounded to is larger
    than one with the exponent [ee]. *)
Lemma round_above s m e me ee :
  0 < prec → emin prec emax ≤ ee → ee + prec ≤ e →
  SFltb (S754_finite false me ee) (SFabs (binary_round s m e)) = true.
Proof.
  intros Hp Hmin He. unfold SpecFloat.binary_round. rewrite digits_log2.
  set (d := Z.log2 (Zpos m) + 1 + e). pose proof (Z.log2_nonneg (Zpos m)).
  assert (ee + 1 ≤ fexp d) as Hd by (unfold SpecFloat.fexp; lia).
  pose proof (shl_align_log2 m e (fexp d)) as Hal.
  destruct (shl_align m e (fexp d)) as [mz ez] eqn:Eal. destruct Hal as (Hl & _ & Hez).
  assert (ez ≤ fexp d) as Hez'.
  { destruct Hez as [?| ->]; [done|]. unfold shl_align in Eal.
    destruct (fexp d - e) eqn:E; injection Eal; intros; lia. }
  unfold binary_round_aux.
  destruct (shr_fexp_pos (Zpos mz) ez) as (r1 & -> & H1); [lia|done|unfold d in *; lia|].
  replace (Z.log2 (Zpos mz) + 1 + ez) with d by lia. rewrite Z.max_r by done.
  set (m1 := round_nearest_even _ _).
  assert (0 < m1) as Hm1 by (pose proof (round_nearest_even_ge (shr_m r1) (loc_of_shr_record r1)); lia).
  pose proof (Z.log2_nonneg m1).
  destruct (shr_fexp_pos m1 (fexp d)) as (r2 & -> & H2); [done|done|lia|].
  destruct (shr_m r2) as [|m2|]; [lia| |lia].
  set (e2 := Z.max _ _). destruct (e2 <=? emax - prec); [|done]. cbn. unfold SFltb. cbn.
  by rewrite (proj2 (Z.compare_lt_iff ee e2)) by lia.
Qed.

(** Numbers that have one representation only. *)
Lemma canonical_unique m e m' e' :
  canonical_mantissa prec emax m e = true → canonical_mantissa prec emax m' e' = true →
  Z.log2 (Zpos m) + e = Z.log2 (Zpos m') + e' → e = e'.
Proof.
  unfold canonical_mantissa. rewrite !Z.eqb_eq, !digits_log2. intros H1 H2 Hl.
  replace (Z.log2 (Zpos m) + 1 + e) with (Z.log2 (Zpos m') + 1 + e') in H1 by lia. congruence.
Qed.

Lemma shl_align_value m e e' : e' ≤ e → Zpos (shl_align m e e').1 = Zpos m * 2 ^ (e - e').
Proof.
  intros He. unfold shl_align. destruct (e' - e) as [|n|n] eqn:En; [|lia|].
  - replace (e - e') with 0 by lia. cbn. lia.
  - replace (e - e') with (Zpos n) by lia. cbn [fst]. clear. induction n as [|n IH] using Pos.peano_ind; [cbn; lia|].
    rewrite Pos.iter_succ, Pos2Z.inj_xO, IH, Pos2Z.inj_succ, Z.pow_succ_r by lia. lia.
Qed.

(** The exact difference of two numbers is 0 only when they are the same. *)
Lemma difference_zero s m e s' m' e' :
  canonical_mantissa prec emax m e = true → canonical_mantissa prec emax m' e' = true →
  let ez := Z.min e e' in
  cond_Zopp s (Zpos (shl_align m e ez).1) - cond_Zopp s' (Zpos (shl_align m' e' ez).1) = 0 →
  S754_finite s m e = S754_finite s' m' e'.
Proof.
  intros Hc Hc' ez Hz. subst ez.
  rewrite !shl_align_value in Hz by lia. set (ez := Z.min e e') in *.
  pose proof (Z.pow_pos_nonneg 2 (e - ez) ltac:(lia) ltac:(lia)).
  pose proof (Z.pow_pos_nonneg 2 (e' - ez) ltac:(lia) ltac:(lia)).
  assert (s = s' ∧ Zpos m * 2 ^ (e - ez) = Zpos m' * 2 ^ (e' - ez)) as [<- Hm].
  { destruct s, s'; cbn [cond_Zopp] in Hz; split; (done || nia). }
  assert (e = e') as <-.
  { apply (canonical_unique m e m' e' Hc Hc'). apply (f_equal Z.log2) in Hm.
    rewrite !Z.log2_mul_pow2 in Hm by lia. lia. }
  apply Z.mul_reg_r in Hm; [|lia]. by injection Hm as <-.
Qed.
End rounding.

(** ** [compare]: lemmas *)
Section lemmas.
Context (prec emax : Z) (me : positive) (ee : Z).
Abbreviation epsilon := (S754_finite false me ee).
Abbreviation cmp := (compare prec emax epsilon).

Lemma compare_equal a b : SFcompare a b = Some Eq → cmp a b = 0.
Proof.
  intros Hab. unfold compare. destruct (sub_equal prec emax a b Hab) as (x & -> & [->| ->]); done.
Qed.

Lemma compare_unordered a b : SFcompare a b = None → cmp a b = 0.
Proof.
  intros Hab. unfold compare. assert (SFabs (SFsub prec emax a b) = S754_nan) as ->; [|done].
  destruct a as [[]|[]| |s m e], b as [[]|[]| |s' m' e']; try done.
Qed.

Lemma compare_range a b : cmp a b = -1 ∨ cmp a b = 0 ∨ cmp a b = 1.
Proof. unfold compare. destruct (SFltb epsilon _), (SFltb a b); tauto. Qed.

Lemma compare_swap a b : cmp b a = - cmp a b.
Proof.
  pose proof (SFcompare_opp a b) as Hop. destruct (SFcompare a b) as [[]|] eqn:E; cbn in Hop.
  1, 4: rewrite ?compare_equal, ?compare_unordered by done; done.
  all: unfold compare; rewrite (abs_sub prec emax a b); destruct (SFltb epsilon _); [|done];
    unfold SFltb; by rewrite E, Hop.
Qed.

Lemma compare_sign a b :
  (cmp a b = -1 → SFcompare a b = Some Lt) ∧ (cmp a b = 1 → SFcompare a b = Some Gt).
Proof.
  destruct (SFcompare a b) as [[]|] eqn:E.
  1, 4: rewrite ?compare_equal, ?compare_unordered by done; done.
  all: unfold compare, SFltb at 2 4; rewrite E; by destruct (SFltb _ _).
Qed.

(** Where the tolerance is smaller than the distance of neighbours. *)
Lemma compare_precise s m e s' m' e' :
  0 < prec → emin prec emax ≤ ee → ee + prec ≤ e → ee + prec ≤ e' →
  canonical_mantissa prec emax m e = true → canonical_mantissa prec emax m' e' = true →
  let a := S754_finite s m e in
  let b := S754_finite s' m' e' in
  cmp a b = match SFcompare a b with Some Lt => -1 | Some Gt => 1 | _ => 0 end.
Proof.
  intros Hp Hmin He He' Hc Hc' a b. destruct (SFcompare a b) as [[]|] eqn:E.
  1, 4: by rewrite ?compare_equal, ?compare_unordered.
  all: unfold compare; cbn [SFsub a b];
    set (z := _ - _); pose proof (difference_zero prec emax s m e s' m' e' Hc Hc') as Hz; cbv zeta in Hz; fold z in Hz;
    assert (SFltb epsilon (SFabs (binary_normalize prec emax z (Z.min e e') false)) = true) as ->;
    [|unfold SFltb; fold a b; by rewrite E].
  all: destruct z; try (apply round_above; lia); exfalso; specialize (Hz eq_refl); unfold a, b in E;
    rewrite Hz in E; revert E; pose proof (SFltb_irrefl (S754_finite s' m' e')) as Hi;
    pose proof (SFcompare_opp (S754_finite s' m' e') (S754_finite s' m' e')) as Ho;
    destruct (SFcompare (S754_finite s' m' e') (S754_finite s' m' e')) as [[]|]; done.
Qed.
End lemmas.

(** ** Properties *)

(** A [double] and a [float] of the form [m * 2 ^ e]. *)
Definition double (s : bool) (m : positive) (e : Z) : spec_float := S754_finite s m e.

(** [Utils::compare] gives -1, 0 or 1; swapping its arguments negates the
    result, so it never says of two numbers that each is the smaller; what it orders
    is ordered; equal numbers, and all pairs with a NaN, compare as 0.  But being 0
    is not transitive. *)
Theorem compare_order :
  (∀ cmp, cmp = compare_float ∨ cmp = compare_double →
   ∀ a b, (cmp a b = -1 ∨ cmp a b = 0 ∨ cmp a b = 1) ∧ cmp b a = - cmp a b ∧
     (cmp a b = -1 → SFcompare a b = Some Lt) ∧ (cmp a b = 1 → SFcompare a b = Some Gt) ∧
     (SFcompare a b = Some Eq ∨ SFcompare a b = None → cmp a b = 0)) ∧
  ∃ a b c, compare_double a b = 0 ∧ compare_double b c = 0 ∧ compare_double a c = -1.
Proof.
  split.
  - assert (∀ prec emax me ee a b, let cmp := compare prec emax (S754_finite false me ee) in
      (cmp a b = -1 ∨ cmp a b = 0 ∨ cmp a b = 1) ∧ cmp b a = - cmp a b ∧
      (cmp a b = -1 → SFcompare a b = Some Lt) ∧ (cmp a b = 1 → SFcompare a b = Some Gt) ∧
      (SFcompare a b = Some Eq ∨ SFcompare a b = None → cmp a b = 0)) as H.
    { intros prec emax me ee a b cmp. unfold cmp. split_and!; [apply compare_range|apply compare_swap|..].
      1, 2: apply compare_sign.
      intros [E|E]; [by apply compare_equal|by apply compare_unordered]. }
    intros cmp [-> | ->] a b; [apply (H 24 128 14073749%positive (-47))|apply (H 53 1024 8112963841460668%positive (-106))].
  - exists (S754_zero false), (double false 4503599627370496 (-106)), (double false 4503599627370496 (-105)).
    by vm_compute.
Qed.

Lemma compare_order_witness :
  compare_double (double false 4503599627370496 (-52)) (double false 4503599627370496 (-51)) = -1 ∧
  compare_double (double false 4503599627370496 (-51)) (double false 4503599627370496 (-52)) = 1.
Proof.
  split; [reflexivity|].
  destruct (proj1 compare_order compare_double (or_intror eq_refl) (double false 4503599627370496 (-52))
    (double false 4503599627370496 (-51))) as (_ & E & _).
  exact E.
Defined.

(** C31.  For larger numbers the tolerance has no effect: two doubles of at least 1/2
    in absolute value, or two floats of at least 1, compare as 0 exactly when they
    are equal, because neighbours are farther apart than [epsilon].  Such numbers
    have an exponent of at least -53 and -23. *)
Theorem compare_exact s m e s' m' e' :
  let a := S754_finite s m e in
  let b := S754_finite s' m' e' in
  let exact := match SFcompare a b with Some Lt => -1 | Some Gt => 1 | _ => 0 end in
  (valid_binary 53 1024 a = true → valid_binary 53 1024 b = true → -53 ≤ e → -53 ≤ e' →
     compare_double a b = exact) ∧
  (valid_binary 24 128 a = true → valid_binary 24 128 b = true → -23 ≤ e → -23 ≤ e' →
     compare_float a b = exact).
Proof.
  intros a b exact. cbn [valid_binary a b]. unfold bounded.
  split; intros [Hc _]%andb_prop [Hc' _]%andb_prop He He'.
  - apply (compare_precise 53 1024 8112963841460668 (-106)); (done || lia).
  - apply (compare_precise 24 128 14073749 (-47)); (done || lia).
Qed.

(** The smallest [double] above 1/2 is told apart from 1/2. *)
Lemma compare_exact_witness :
  compare_double (double false 4503599627370496 (-53)) (double false 4503599627370497 (-53)) = -1.
Proof.
  pose proof (proj1 (compare_exact false 4503599627370496 (-53) false 4503599627370497 (-53))) as E.
  exact (E eq_refl eq_refl ltac:(lia) ltac:(lia)).
Defined.
