(* ===== verification/BufferedReader.v ===== *)
(** * [asutils::BufferedReader]

    Models [src/src/main/cpp/common/buffered_reader.cpp].  The reader is an object
    of the program's state, reached through a reference [this]; its [call_back] is
    a closure, represented by a tag of type [C] (what it captures) whose body [run]
    is an argument.  The body may read and change the whole state, the reader
    included. *)

From S2P Require Import Prelude.

(** A default-constructed reader has an indeterminate [del] and an empty
    [call_back]: [None]. *)
Record BufferedReader (C : Type) := MkBufferedReader {
  buffer : bytes;
  del : option char;
  call_back : option C
}.
Arguments MkBufferedReader {C} _ _ _.
Arguments buffer {C} _.
Arguments del {C} _.
Arguments call_back {C} _.

Definition BufferedReader_default {C} : BufferedReader C := MkBufferedReader [] None None.

Definition BufferedReader_new {C} (d : char) (cb : C) : BufferedReader C :=
  MkBufferedReader [] (Some d) (Some cb).

Definition set_buffer {C} (br : BufferedReader C) (b : bytes) : BufferedReader C :=
  MkBufferedReader b (del br) (call_back br).

Section read.
Context {S C : Type} (run : C → bytes → M S unit) (this : ref S (BufferedReader C)).

(** One character: stored, or a complete frame handed to the call back, after
    which the buffer (as the call back left it) is cleared. *)
Definition read_char (c : char) (_ : unit) : M S unit :=
  br ← load this;
  d ← assume (del br);
  if negb (Ascii.eqb c d) then store this (set_buffer br (buffer br ++ [c]))
  else
    match call_back br with
    | None => throw BadFunctionCall
    | Some k => run k (buffer br)
    end;;
    br' ← load this;
    store this (set_buffer br' []).

Definition read (data : bytes) (size : Z) : M S unit :=
  for_loop 64 size (λ i u, c ← index data i; read_char c u) tt.
End read.

(** ** Specification

    What a reader with delimiter [d] and contents [buf] makes of a chunk: the
    complete frames, in order, and what stays in the buffer. *)
Fixpoint feed (d : char) (buf data : bytes) : list bytes * bytes :=
  match data with
  | [] => ([], buf)
  | c :: data' =>
      if Ascii.eqb c d then
        let '(frames, rest) := feed d [] data' in (buf :: frames, rest)
      else feed d (buf ++ [c]) data'
  end.

(** The bytes of a sequence of frames, each followed by the delimiter. *)
Definition unframe (d : char) (frames : list bytes) : bytes :=
  concat (map (λ f, f ++ [d]) frames).

(** ** Lemmas *)
Lemma feed_app d buf x y :
  feed d buf (x ++ y) =
  let '(f1, b1) := feed d buf x in
  let '(f2, b2) := feed d b1 y in (f1 ++ f2, b2).
Proof.
  revert buf. induction x as [|c x IH]; intros buf; simpl.
  - by destruct (feed d buf y).
  - destruct (Ascii.eqb c d); rewrite IH; [|done].
    destruct (feed d [] x) as [f1 b1], (feed d b1 y) as [f2 b2]. done.
Qed.

Lemma feed_unframe d buf data frames rest :
  feed d buf data = (frames, rest) → unframe d frames ++ rest = buf ++ data.
Proof.
  revert buf frames rest. induction data as [|c data IH]; intros buf frames rest; simpl.
  - intros [= <- <-]. by rewrite app_nil_r.
  - destruct (Ascii.eqb_spec c d) as [->|_].
    + destruct (feed d [] data) as [fs r] eqn:E. intros [= <- <-].
      apply IH in E. unfold unframe in *. cbn [map concat].
      rewrite <-!app_assoc, E. done.
    + intros E. apply IH in E. by rewrite E, <-app_assoc.
Qed.

Lemma feed_no_delim d buf data frames rest :
  feed d buf data = (frames, rest) → d ∉ buf →
  Forall (λ f, d ∉ f) frames ∧ d ∉ rest.
Proof.
  revert buf frames rest. induction data as [|c data IH]; intros buf frames rest; simpl.
  - by intros [= <- <-].
  - destruct (Ascii.eqb_spec c d) as [->|Hc].
    + destruct (feed d [] data) as [fs r] eqn:E. intros [= <- <-] Hbuf.
      destruct (IH _ _ _ E) as [HF Hr]; [by apply not_elem_of_nil|]. by repeat constructor.
    + intros E Hbuf. apply (IH _ _ _ E).
      rewrite not_elem_of_app, not_elem_of_cons. split_and!; [done|done|apply not_elem_of_nil].
Qed.

Lemma unframe_length d frames f : f ∈ frames → (length f ≤ length (unframe d frames))%nat.
Proof.
  unfold unframe. induction 1 as [f fs|f g fs _ IH]; cbn; rewrite !length_app; lia.
Qed.

Lemma feed_bound d buf data frames rest :
  feed d buf data = (frames, rest) → Forall (λ f, len f ≤ len buf + len data) frames.
Proof.
  intros E%feed_unframe. apply Forall_forall. intros f Hf%(unframe_length d).
  apply (f_equal length) in E. rewrite !length_app in E. lia.
Qed.

(** A frame with no delimiter in it is completed by its delimiter. *)
Lemma feed_frame d buf f data :
  d ∉ f → feed d buf (f ++ d :: data) =
  let '(frames, rest) := feed d [] data in ((buf ++ f) :: frames, rest).
Proof.
  revert buf. induction f as [|c f IH]; intros buf Hf; simpl.
  - by rewrite Ascii.eqb_refl, app_nil_r.
  - apply not_elem_of_cons in Hf as [Hc Hf].
    destruct (Ascii.eqb_spec c d); [done|]. by rewrite IH, <-app_assoc.
Qed.

Lemma feed_frames d fs data :
  Forall (λ f, d ∉ f) fs →
  feed d [] (unframe d fs ++ data) =
  let '(frames, rest) := feed d [] data in (fs ++ frames, rest).
Proof.
  induction 1 as [|f fs Hf _ IH]; [by simpl; destruct (feed d [] data)|].
  unfold unframe in *. cbn [map concat]. rewrite <-!app_assoc. cbn [app].
  rewrite feed_frame, IH by done. by destruct (feed d [] data).
Qed.

(** What is in the buffer counts as the start of the stream. *)
Lemma feed_buffer d b data : d ∉ b → feed d [] (b ++ data) = feed d b data.
Proof.
  intros Hb. rewrite feed_app.
  assert (∀ pre, feed d pre b = ([], pre ++ b)) as E.
  { induction b as [|c b IH]; intros pre; cbn; [by rewrite app_nil_r|].
    apply not_elem_of_cons in Hb as [Hc Hb]. destruct (Ascii.eqb_spec c d); [done|].
    by rewrite IH, <-app_assoc. }
  rewrite E. cbn. by destruct (feed d b data).
Qed.

(** ** The reader implements [feed] *)
Section refinement.
Context {S C : Type} (run : C → bytes → M S unit) (this : ref S (BufferedReader C)).
Context `{!LawfulRef this}.
(** The call back returns, and does not touch this reader. *)
Context (k : C) (effect : bytes → S → S).
Hypothesis run_effect : ∀ f s, run k f s = Ret tt (effect f s).
Hypothesis effect_rd : ∀ f s, rd this (effect f s) = rd this s.
Hypothesis effect_wr : ∀ f s br, wr this br (effect f s) = effect f (wr this br s).

Lemma read_char_append d b c s :
  rd this s = Some (MkBufferedReader b (Some d) (Some k)) → c ≠ d →
  read_char run this c tt s =
  Ret tt (wr this (MkBufferedReader (b ++ [c]) (Some d) (Some k)) s).
Proof.
  intros Hrd Hc. unfold read_char. run_with (load_run _ _ _ Hrd).
  cbn [del assume]. rewrite bind_ret_l. cbn [buffer call_back].
  destruct (Ascii.eqb_spec c d); [done|]. by apply store_run with (1 := Hrd).
Qed.

Lemma read_char_frame d b s :
  rd this s = Some (MkBufferedReader b (Some d) (Some k)) →
  read_char run this d tt s =
  Ret tt (effect b (wr this (MkBufferedReader [] (Some d) (Some k)) s)).
Proof.
  intros Hrd. unfold read_char. run_with (load_run _ _ _ Hrd).
  cbn [del assume]. rewrite bind_ret_l, Ascii.eqb_refl. cbn [negb buffer call_back].
  run_with (run_effect b s).
  assert (rd this (effect b s) = Some (MkBufferedReader b (Some d) (Some k))) as Hrd'
    by by rewrite effect_rd.
  run_with (load_run _ _ _ Hrd'). rewrite (store_run _ _ _ _ Hrd').
  by rewrite effect_wr.
Qed.

Lemma fold_effect_rd fs s : rd this (foldl (λ s f, effect f s) s fs) = rd this s.
Proof.
  revert s. induction fs as [|f fs IH]; intros s; simpl; [done|].
  by rewrite IH, effect_rd.
Qed.

Lemma fold_effect_wr fs s br :
  wr this br (foldl (λ s f, effect f s) s fs) = foldl (λ s f, effect f s) (wr this br s) fs.
Proof.
  revert s. induction fs as [|f fs IH]; intros s; simpl; [done|].
  by rewrite IH, effect_wr.
Qed.

Lemma read_chars d b data s frames rest :
  rd this s = Some (MkBufferedReader b (Some d) (Some k)) →
  feed d b data = (frames, rest) →
  fold_m (read_char run this) data tt s =
  Ret tt (foldl (λ s f, effect f s)
            (wr this (MkBufferedReader rest (Some d) (Some k)) s) frames).
Proof.
  revert b s frames rest. induction data as [|c data IH]; intros b s frames rest Hrd; simpl.
  - intros [= <- <-]. simpl. by rewrite wr_rd.
  - destruct (Ascii.eqb_spec c d) as [->|Hc].
    + destruct (feed d [] data) as [fs r] eqn:E. intros [= <- <-].
      run_with (read_char_frame d b s Hrd). cbn [foldl].
      rewrite (IH [] _ fs r); [|by erewrite effect_rd, rd_wr|done].
      by rewrite effect_wr, wr_wr.
    + intros E. run_with (read_char_append d b c s Hrd Hc).
      rewrite (IH (b ++ [c]) _ frames rest); [|by erewrite rd_wr|done].
      by rewrite wr_wr.
Qed.

Lemma read_run d b data n s frames rest :
  rd this s = Some (MkBufferedReader b (Some d) (Some k)) →
  0 ≤ n ≤ Z.of_nat (length data) → n < 2 ^ 64 →
  feed d b (take (Z.to_nat n) data) = (frames, rest) →
  read run this data n s =
  Ret tt (foldl (λ s f, effect f s)
            (wr this (MkBufferedReader rest (Some d) (Some k)) s) frames).
Proof.
  intros Hrd Hn H64 E. unfold read. rewrite for_index_total by done.
  by apply read_chars with (2 := E).
Qed.
End refinement.

(** A reader whose call back also changes other parts of the state: [P l] is any
    property of the state that holds when the frames [l] have been delivered, and
    that each call of the call back takes to one more frame; the call back only
    has to do so for the frames that satisfy [F]. *)
Section delivery.
Context {S C : Type} (run : C → bytes → M S unit) (this : ref S (BufferedReader C)).
Context `{!LawfulRef this} (k : C) (P : list bytes → S → Prop) (F : bytes → Prop).
Hypothesis P_wr : ∀ l s br b, rd this s = Some br → (∀ d, del br = Some d → d ∉ b) → P l s →
  P l (wr this (set_buffer br b) s).
Hypothesis P_run : ∀ l f s br, rd this s = Some br → call_back br = Some k → P l s → F f →
  ∃ s', run k f s = Ret tt s' ∧ P (l ++ [f]) s' ∧ rd this s' = rd this s.

Lemma read_char_call d b s s' br :
  rd this s = Some (MkBufferedReader b (Some d) (Some k)) →
  run k b s = Ret tt s' → rd this s' = Some br →
  read_char run this d tt s = Ret tt (wr this (set_buffer br []) s').
Proof.
  intros Hrd E Hrd'. unfold read_char. run_with (load_run _ _ _ Hrd).
  cbn [del assume]. rewrite bind_ret_l, Ascii.eqb_refl. cbn [negb buffer call_back].
  run_with E. run_with (load_run _ _ _ Hrd'). by apply store_run with (1 := Hrd').
Qed.

Lemma read_chars_delivery d b data l s frames rest :
  rd this s = Some (MkBufferedReader b (Some d) (Some k)) → d ∉ b → P l s →
  feed d b data = (frames, rest) → Forall F frames →
  ∃ s', fold_m (read_char run this) data tt s = Ret tt s' ∧ P (l ++ frames) s' ∧
        rd this s' = Some (MkBufferedReader rest (Some d) (Some k)).
Proof.
  revert b l s frames rest. induction data as [|c data IH]; intros b l s frames rest Hrd Hb HP; simpl.
  - intros [= <- <-] _. exists s. by rewrite app_nil_r.
  - destruct (Ascii.eqb_spec c d) as [->|Hc].
    + destruct (feed d [] data) as [fs r] eqn:E. intros [= <- <-] [HFb Hfs]%Forall_cons.
      destruct (P_run _ b _ _ Hrd eq_refl HP HFb) as (s1 & E1 & HP1 & Hrd1). rewrite Hrd in Hrd1.
      destruct (IH [] (l ++ [b]) (wr this (MkBufferedReader [] (Some d) (Some k)) s1) fs r)
        as (s2 & E2 & HP2 & Hrd2);
        [by erewrite rd_wr|apply not_elem_of_nil| |done|done|].
      { apply (P_wr _ s1 _ [] Hrd1); [|done]. intros ? _. apply not_elem_of_nil. }
      exists s2. rewrite <-app_assoc in HP2. split_and!; [|done|done].
      by run_with (read_char_call d b s s1 _ Hrd E1 Hrd1).
    + intros E Hfs.
      destruct (IH (b ++ [c]) l (wr this (MkBufferedReader (b ++ [c]) (Some d) (Some k)) s) frames rest)
        as (s2 & E2 & HP2 & Hrd2); [by erewrite rd_wr| | |done|done|].
      { set_solver. }
      { apply (P_wr _ s _ (b ++ [c]) Hrd); [|done]. intros ? [= <-]. set_solver. }
      exists s2. split_and!; [|done|done].
      by run_with (read_char_append run this k d b c s Hrd Hc).
Qed.

Lemma read_delivery d b data l s frames rest :
  rd this s = Some (MkBufferedReader b (Some d) (Some k)) → d ∉ b → P l s → len data < 2 ^ 64 →
  feed d b data = (frames, rest) → Forall F frames →
  ∃ s', read run this data (len data) s = Ret tt s' ∧ P (l ++ frames) s' ∧
        rd this s' = Some (MkBufferedReader rest (Some d) (Some k)).
Proof.
  intros Hrd Hb HP H64 E HF. unfold read. rewrite for_index_total by lia.
  rewrite Nat2Z.id, firstn_all. by apply (read_chars_delivery d b data l s).
Qed.
End delivery.

(** A sequence of calls of [read], one per chunk. *)
Definition read_chunks {S C} (run : C → bytes → M S unit) (this : ref S (BufferedReader C))
    (chunks : list bytes) : M S unit :=
  fold_m (λ c _, read run this c (Z.of_nat (length c))) chunks tt.

Lemma read_chunks_run {S C} (run : C → bytes → M S unit) (this : ref S (BufferedReader C))
    `{!LawfulRef this} k (effect : bytes → S → S) d b chunks s frames rest :
  (∀ f s, run k f s = Ret tt (effect f s)) →
  (∀ f s, rd this (effect f s) = rd this s) →
  (∀ f s br, wr this br (effect f s) = effect f (wr this br s)) →
  Forall (λ c, Z.of_nat (length c) < 2 ^ 64) chunks →
  rd this s = Some (MkBufferedReader b (Some d) (Some k)) →
  feed d b (concat chunks) = (frames, rest) →
  read_chunks run this chunks s =
  Ret tt (foldl (λ s f, effect f s)
            (wr this (MkBufferedReader rest (Some d) (Some k)) s) frames).
Proof.
  intros H1 H2 H3 HF. revert b s frames rest.
  induction HF as [|c chunks Hc HF IH]; intros b s frames rest Hrd.
  - intros [= <- <-]. unfold read_chunks. simpl. by rewrite wr_rd.
  - cbn [concat]. rewrite feed_app.
    destruct (feed d b c) as [f1 b1] eqn:E1.
    destruct (feed d b1 (concat chunks)) as [f2 b2] eqn:E2. intros [= <- <-].
    unfold read_chunks. cbn [fold_m].
    erewrite bind_run; [|apply (read_run run this k effect H1 H2 H3 d b c _ s f1 b1 Hrd);
                          [lia|lia|by rewrite Nat2Z.id, firstn_all]].
    fold (read_chunks run this chunks).
    rewrite (IH b1 _ f2 b2); [|by erewrite (fold_effect_rd this effect H2), rd_wr|done].
    by rewrite (fold_effect_wr this effect H3), wr_wr, foldl_app.
Qed.

(** ** Properties *)

(** C13.  However the bytes of a stream are cut into chunks, a
    [BufferedReader] hands its call back the complete frames of the stream, each
    once and in order, and keeps the rest: frames and delimiters followed by the
    rest are the old contents followed by the bytes read, and no frame and not
    the rest has a delimiter in it. *)
Theorem read_chunks_frames {S C} (run : C → bytes → M S unit)
    (this : ref S (BufferedReader C)) `{!LawfulRef this} k (effect : bytes → S → S)
    d b chunks s :
  (∀ f s, run k f s = Ret tt (effect f s)) →
  (∀ f s, rd this (effect f s) = rd this s) →
  (∀ f s br, wr this br (effect f s) = effect f (wr this br s)) →
  Forall (λ c, Z.of_nat (length c) < 2 ^ 64) chunks →
  rd this s = Some (MkBufferedReader b (Some d) (Some k)) → d ∉ b →
  ∃ frames rest,
    unframe d frames ++ rest = b ++ concat chunks ∧
    Forall (λ f, d ∉ f) frames ∧ (d ∉ rest) ∧
    read_chunks run this chunks s =
    Ret tt (foldl (λ s f, effect f s)
              (wr this (MkBufferedReader rest (Some d) (Some k)) s) frames).
Proof.
  intros H1 H2 H3 HF Hrd Hb.
  destruct (feed d b (concat chunks)) as [frames rest] eqn:E.
  exists frames, rest. destruct (feed_no_delim _ _ _ _ _ E Hb) as [Hf Hr].
  split_and!; [by apply feed_unframe|done|done|].
  by apply (read_chunks_run run this k effect d b chunks s frames rest).
Qed.

(** A state with one reader and a log of the frames it delivered. *)
Definition logging_ref : ref (BufferedReader unit * list bytes) (BufferedReader unit) :=
  Ref (λ s, Some s.1) (λ br s, (br, s.2)).

#[export] Instance logging_ref_lawful : LawfulRef logging_ref.
Proof. split; intros; simplify_eq/=; [done|done|]. by destruct s. Qed.

Definition logging_run (_ : unit) (f : bytes) : M (BufferedReader unit * list bytes) unit :=
  modify (λ s, (s.1, s.2 ++ [f])).

Lemma read_chunks_frames_witness :
  read_chunks logging_run logging_ref [str "abc"; str "def;h"; str "ij;"; str "k"]
    (BufferedReader_new ";" tt, [])
  = Ret tt (MkBufferedReader (str "k") (Some ";"%char) (Some tt), [str "abcdef"; str "hij"]) ∧
  ∃ frames rest,
    unframe ";" frames ++ rest = str "abcdef;hij;k" ∧
    read_chunks logging_run logging_ref [str "abc"; str "def;h"; str "ij;"; str "k"]
      (BufferedReader_new ";" tt, []) =
    Ret tt (foldl (λ s f, (s.1, s.2 ++ [f]))
              (MkBufferedReader rest (Some ";"%char) (Some tt), []) frames).
Proof.
  split; [vm_compute; reflexivity|].
  destruct (read_chunks_frames logging_run logging_ref tt (λ f s, (s.1, s.2 ++ [f])) ";" []
              [str "abc"; str "def;h"; str "ij;"; str "k"] (BufferedReader_new ";" tt, []))
    as (frames & rest & H1 & _ & _ & H2).
  - reflexivity.
  - reflexivity.
  - reflexivity.
  - repeat constructor.
  - reflexivity.
  - apply not_elem_of_nil.
  - exists frames, rest. split; [exact H1|exact H2].
Defined.
