(* ===== verification/BufferedWriter.v ===== *)
(** * [asutils::BufferedWriter]

    Models [src/src/main/cpp/common/buffered_writer.cpp]: a queue of bytes with a
    non-destructive read.  The object is reached through a reference [this] into
    the state; the counters of the loops are [uint32_t], the sizes [size_t]. *)

From S2P Require Import Prelude.

Record BufferedWriter := MkBufferedWriter { wbuffer : bytes }.

#[export] Instance BufferedWriter_eq_dec : EqDecision BufferedWriter.
Proof. solve_decision. Defined.

(** The default constructor. *)
Definition BufferedWriter_new : BufferedWriter := MkBufferedWriter [].

Section writer.
Context {S : Type} (this : ref S BufferedWriter).

Definition write (msg_frame : bytes) (size : Z) : M S unit :=
  for_loop 32 size (λ i _,
    c ← index msg_frame i;
    w ← load this;
    store this (MkBufferedWriter (wbuffer w ++ [c]))) tt.

(** Copies into [r_buffer]; the array is returned as it is afterwards. *)
Definition iread (r_buffer : bytes) (size : Z) : M S bytes :=
  for_loop 32 size (λ i r_buffer,
    w ← load this;
    c ← index (wbuffer w) i;
    set_index r_buffer i c) r_buffer.

(** [erase(begin, begin + size)]: undefined when [size] exceeds the contents. *)
Definition clear (size : Z) : M S unit :=
  w ← load this;
  if (0 <=? size) && (size <=? Z.of_nat (length (wbuffer w)))
  then store this (MkBufferedWriter (drop (Z.to_nat size) (wbuffer w)))
  else undef.

Definition size : M S Z :=
  w ← load this; mret (Z.of_nat (length (wbuffer w))).
End writer.

(** ** Lemmas *)
Section lemmas.
Context {S : Type} (this : ref S BufferedWriter) `{!LawfulRef this}.

Lemma write_bytes l b s :
  rd this s = Some (MkBufferedWriter b) →
  fold_m (λ c (_ : unit), w ← load this;
            store this (MkBufferedWriter (wbuffer w ++ [c]))) l tt s =
  Ret tt (wr this (MkBufferedWriter (b ++ l)) s).
Proof.
  revert b s. induction l as [|c l IH]; intros b s Hrd; simpl.
  - by rewrite app_nil_r, wr_rd.
  - rewrite bind_assoc. run_with (load_run _ _ _ Hrd).
    run_with (store_run this s (MkBufferedWriter (b ++ [c])) _ Hrd).
    rewrite (IH (b ++ [c])) by by erewrite rd_wr.
    by rewrite wr_wr, <-app_assoc.
Qed.

Lemma write_run msg b n s :
  rd this s = Some (MkBufferedWriter b) →
  0 ≤ n ≤ Z.of_nat (length msg) → n < 2 ^ 32 →
  write this msg n s =
  Ret tt (wr this (MkBufferedWriter (b ++ take (Z.to_nat n) msg)) s).
Proof.
  intros Hrd Hn H32. unfold write. rewrite for_index_total by done.
  by apply write_bytes.
Qed.

(** Copying [n] bytes over the first [n] places of an array. *)
Lemma iread_run b r n s :
  rd this s = Some (MkBufferedWriter b) →
  0 ≤ n ≤ Z.of_nat (length b) → n ≤ Z.of_nat (length r) → n < 2 ^ 32 →
  iread this r n s = Ret (take (Z.to_nat n) b ++ drop (Z.to_nat n) r) s.
Proof.
  intros Hrd Hn Hr H32. unfold iread. rewrite for_loop_total by done.
  assert (∀ k : nat, Z.of_nat k ≤ n →
    fold_m (λ i r, w ← load this; c ← index (wbuffer w) i; set_index r i c)
      (seqZ (n - Z.of_nat k) (Z.of_nat k))
      (take (Z.to_nat n - k) b ++ drop (Z.to_nat n - k) r) s =
    Ret (take (Z.to_nat n) b ++ drop (Z.to_nat n) r) s) as Hk.
  { induction k as [|k IH]; intros Hle.
    - by rewrite seqZ_nil, Nat.sub_0_r by lia.
    - rewrite seqZ_cons by lia. cbn [fold_m].
      destruct (lookup_lt_is_Some_2 b (Z.to_nat n - Datatypes.S k)) as [c Hc]; [lia|].
      rewrite bind_assoc. run_with (load_run _ _ _ Hrd). cbn [wbuffer].
      rewrite bind_assoc.
      erewrite bind_run; [|apply index_lt with (a := c); [lia|rewrite <-Hc; f_equal; lia]].
      erewrite bind_run; [|apply set_index_lt; rewrite length_app, length_take, length_drop; lia].
      replace (<[_:=c]> _) with (take (Z.to_nat n - k) b ++ drop (Z.to_nat n - k) r).
      + replace (Z.succ _) with (n - Z.of_nat k) by lia.
        replace (Z.pred _) with (Z.of_nat k) by lia. apply IH. lia.
      + replace (Z.to_nat (n - _)) with (length (take (Z.to_nat n - Datatypes.S k) b) + 0)%nat
          by (rewrite length_take; lia).
        rewrite insert_app_r.
        destruct (lookup_lt_is_Some_2 r (Z.to_nat n - Datatypes.S k)) as [x Hx]; [lia|].
        rewrite (drop_S r x _ Hx). cbn [insert list_insert].
        replace (Z.to_nat n - k)%nat with (Datatypes.S (Z.to_nat n - Datatypes.S k)) by lia.
        rewrite (take_S_r _ _ c Hc), <-app_assoc. done. }
  specialize (Hk (Z.to_nat n)). rewrite Z2Nat.id, Z.sub_diag, Nat.sub_diag in Hk by lia.
  by apply Hk.
Qed.

(** Reading past the contents, or writing past the caller's array. *)
Lemma iread_undef b r n s :
  rd this s = Some (MkBufferedWriter b) → n < 2 ^ 32 →
  len b < n ∨ len r < n → iread this r n s = Undef.
Proof.
  intros Hrd H32 Hn. set (m := Z.min (len b) (len r)).
  pose proof (iread_run b r m s Hrd ltac:(lia) ltac:(lia) ltac:(lia)) as E.
  unfold iread in *. rewrite for_loop_total in E by lia.
  rewrite for_loop_total by done.
  replace n with (m + Z.succ (n - m - 1)) by lia.
  rewrite seqZ_app, fold_m_app by lia. run_with E. clear E.
  rewrite seqZ_cons by lia. cbn [fold_m].
  rewrite bind_assoc. run_with (load_run _ _ _ Hrd). cbn [wbuffer].
  rewrite bind_assoc. rewrite (Z.add_0_l m).
  destruct (decide (len b = m)) as [Hb|Hb].
  - rewrite bind_unfold, index_ge by lia. done.
  - destruct (lookup_lt_is_Some_2 b (Z.to_nat m)) as [c Hc]; [lia|].
    erewrite bind_run; [|by apply index_lt; [lia|]].
    rewrite bind_unfold, set_index_ge; [done|].
    rewrite length_app, length_take, length_drop. lia.
Qed.

Lemma clear_run b n s :
  rd this s = Some (MkBufferedWriter b) → 0 ≤ n ≤ Z.of_nat (length b) →
  clear this n s = Ret tt (wr this (MkBufferedWriter (drop (Z.to_nat n) b)) s).
Proof.
  intros Hrd Hn. unfold clear. run_with (load_run _ _ _ Hrd). cbn [wbuffer].
  rewrite (proj2 (Z.leb_le 0 n)), (proj2 (Z.leb_le n _)) by lia.
  by apply store_run with (1 := Hrd).
Qed.

Lemma clear_undef b n s :
  rd this s = Some (MkBufferedWriter b) → Z.of_nat (length b) < n →
  clear this n s = Undef.
Proof.
  intros Hrd Hn. unfold clear. run_with (load_run _ _ _ Hrd). cbn [wbuffer].
  by rewrite (proj2 (Z.leb_gt n _)), andb_false_r by lia.
Qed.

Lemma size_run b s :
  rd this s = Some (MkBufferedWriter b) → size this s = Ret (Z.of_nat (length b)) s.
Proof. intros Hrd. unfold size. by run_with (load_run _ _ _ Hrd). Qed.
End lemmas.

(** ** Properties *)

(** A [BufferedWriter] is a first-in first-out queue of bytes: after
    [write]ing a message, [iread] of [k] bytes followed by [clear] of [k] hands
    over the [k] oldest bytes, whole and in order, and leaves exactly the rest;
    nothing else of the state changes. *)
Theorem writer_fifo {S} (this : ref S BufferedWriter) `{!LawfulRef this} b msg buf k s :
  rd this s = Some (MkBufferedWriter b) →
  len msg < 2 ^ 32 → 0 ≤ k < 2 ^ 32 → k ≤ len b + len msg → len buf = k →
  (write this msg (len msg);;
   r ← iread this buf k;
   clear this k;;
   n ← size this;
   mret (r, n)) s =
  Ret (take (Z.to_nat k) (b ++ msg), len b + len msg - k)
      (wr this (MkBufferedWriter (drop (Z.to_nat k) (b ++ msg))) s).
Proof.
  intros Hrd Hmsg Hk Hle Hbuf.
  run_with (write_run this msg b (len msg) s Hrd ltac:(lia) Hmsg).
  rewrite Nat2Z.id, firstn_all.
  assert (rd this (wr this (MkBufferedWriter (b ++ msg)) s)
          = Some (MkBufferedWriter (b ++ msg))) as Hrd1 by by erewrite rd_wr.
  erewrite bind_run; [|apply (iread_run this (b ++ msg) buf k _ Hrd1); rewrite ?length_app; lia].
  erewrite bind_run; [|apply (clear_run this (b ++ msg) k _ Hrd1); rewrite length_app; lia].
  rewrite wr_wr.
  erewrite bind_run; [|apply size_run; by erewrite rd_wr].
  rewrite (drop_ge buf), app_nil_r by lia.
  rewrite length_drop, length_app. unfold mret, M_ret. do 2 f_equal. lia.
Qed.

Lemma writer_fifo_witness :
  (write self (str "cdef") 4;; r ← iread self (str "...") 3; clear self 3;;
   n ← size self; mret (r, n)) (MkBufferedWriter (str "ab"))
  = Ret (str "abc", 3) (MkBufferedWriter (str "def")).
Proof. apply (writer_fifo self (str "ab") (str "cdef") (str "...") 3); reflexivity || done. Defined.

(** Reading or clearing more than a [BufferedWriter] holds, or copying past
    the end of the caller's array, is undefined behaviour: neither method checks. *)
Theorem writer_overrun {S} (this : ref S BufferedWriter) `{!LawfulRef this} b buf n s :
  rd this s = Some (MkBufferedWriter b) → n < 2 ^ 32 →
  (len b < n → clear this n s = Undef ∧ iread this buf n s = Undef) ∧
  (len buf < n → iread this buf n s = Undef).
Proof.
  intros Hrd H32. split; [intros Hn; split; [by apply clear_undef with (1 := Hrd)|]|intros Hn].
  - apply iread_undef with (1 := Hrd); [done|by left].
  - apply iread_undef with (1 := Hrd); [done|by right].
Qed.

Lemma writer_overrun_witness :
  clear self 3 (MkBufferedWriter (str "ab")) = Undef ∧
  iread self (str "..") 3 (MkBufferedWriter (str "abcd")) = Undef.
Proof.
  split.
  - apply (writer_overrun self (str "ab") (str "...") 3 (MkBufferedWriter (str "ab")));
      reflexivity.
  - apply (writer_overrun self (str "abcd") (str "..") 3 (MkBufferedWriter (str "abcd")));
      reflexivity.
Defined.
