(* ===== verification/UtilsExec.v ===== *)
(** * [asutils::Utils::exec]

    Models the function of [src/src/main/cpp/common/utils.cpp] that runs a command
    and collects its output line by line.  [popen] is an argument: the bytes the
    command writes, or nothing when the pipe cannot be opened.  [fgets] and [feof]
    are modelled from the C library's description, on a pipe that has no read
    errors. *)

From S2P Require Import Prelude Utils BufferedReader.

(** A [FILE] opened for reading: the bytes to come and the end-of-file flag. *)
Record file := File { f_rest : bytes; f_eof : bool }.


(** The characters [fgets] takes: at most [n], up to and with a newline; the
    flag says that the end of the file was met. *)
Fixpoint fgets_chars (n : nat) (l : bytes) : bytes * bytes * bool :=
  match n with
  | O => ([], l, false)
  | Datatypes.S n' =>
      match l with
      | [] => ([], [], true)
      | c :: l' =>
          if Ascii.eqb c NL then ([c], l', false)
          else let '(r, rest, e) := fgets_chars n' l' in (c :: r, rest, e)
      end
  end.

(** The local variables of [exec]: the call back captures [r_lines] by
    reference. *)
Record frame := Frame {
  r_lines : list bytes;
  br : BufferedReader unit;
  pipe : file;
  line_buffer : bytes
}.

Definition br_ref : ref frame (BufferedReader unit) :=
  Ref (λ f, Some (br f)) (λ b f, Frame (r_lines f) b (pipe f) (line_buffer f)).

Definition push_line (line : bytes) (f : frame) : frame :=
  Frame (r_lines f ++ [line]) (br f) (pipe f) (line_buffer f).

(** The call back [cb]. *)
Definition cb (_ : unit) (line_chars : bytes) : M frame unit :=
  modify (push_line line_chars).

(** [fgets(buffer, 128, pipe)]: [false] is the null pointer.  The rest of the
    array keeps what it had. *)
Definition fgets (n : nat) : M frame bool :=
  f ← get_state;
  let '(r, rest, e) := fgets_chars (n - 1) (f_rest (pipe f)) in
  let eof := f_eof (pipe f) || e in
  match r with
  | [] => modify (λ f, Frame (r_lines f) (br f) (File rest eof) (line_buffer f));;
          mret false
  | _ => modify (λ f, Frame (r_lines f) (br f) (File rest eof)
                        (r ++ NUL :: drop (length r + 1) (line_buffer f)));;
         mret true
  end.

(** The number of characters before the first NUL of [buffer]. *)
Definition count_chars : M frame Z :=
  b ← gets line_buffer;
  while_loop 129 (λ '(i, s),
    if i <? 128 then
      c ← index b i;
      if negb (Ascii.eqb c NUL) then mret (inl (i + 1, s + 1)) else mret (inr s)
    else mret (inr s)) (0, 0).

(** One turn of [while (!feof(pipe))]. *)
Definition exec_step (_ : unit) : M frame (unit + unit) :=
  eof ← gets (λ f, f_eof (pipe f));
  if eof : bool then mret (inr tt)
  else
    ok ← fgets 128;
    if ok : bool then
      s ← count_chars;
      b ← gets line_buffer;
      read cb br_ref b s;;
      mret (inl tt)
    else mret (inl tt).

(** [fuel] bounds the turns of the loop; [garbage] is what [char buffer[128]]
    holds before it is written. *)
Definition exec (fuel : nat) (popen : bytes → option bytes) (garbage cmd : bytes)
    : outcome frame (list bytes) :=
  match popen cmd with
  | None => Ret [] (Frame [] (BufferedReader_new NL tt) (File [] false) garbage)
  | Some out =>
      (while_loop fuel exec_step tt;; gets r_lines)
        (Frame [] (BufferedReader_new NL tt) (File out false) garbage)
  end.

(** ** Lemmas *)
#[export] Instance br_ref_lawful : LawfulRef br_ref.
Proof. split; intros; simplify_eq/=; [done|done|]. by destruct s. Qed.

Lemma fgets_chars_spec n l r rest e :
  fgets_chars n l = (r, rest, e) →
  l = r ++ rest ∧ (length r ≤ n)%nat ∧ (e = true → rest = []) ∧
  (r = [] → n ≠ 0%nat → e = true).
Proof.
  revert l r rest e. induction n as [|n IH]; intros l r rest e; simpl.
  - intros [= <- <- <-]. naive_solver.
  - destruct l as [|c l]; [intros [= <- <- <-]; naive_solver lia|].
    destruct (Ascii.eqb c NL); [intros [= <- <- <-]; simpl; naive_solver lia|].
    destruct (fgets_chars n l) as [[r' rest'] e'] eqn:E. intros [= <- <- <-].
    destruct (IH _ _ _ _ E) as (-> & ? & ? & ?). simpl. naive_solver lia.
Qed.

(** The counting loop finds the text of what [fgets] wrote. *)
Lemma count_loop (f : frame) r tail k :
  NUL ∉ r → len r < 128 → (k ≤ length r)%nat →
  while_loop (129 - k) (λ '(i, s),
    if i <? 128 then
      c ← index (r ++ NUL :: tail) i;
      if negb (Ascii.eqb c NUL) then mret (inl (i + 1, s + 1)) else mret (inr s)
    else mret (inr s)) (Z.of_nat k, Z.of_nat k) f = Ret (len r) f.
Proof.
  intros Hr Hlen. remember (length r - k)%nat as m eqn:Hm. revert k Hm.
  induction m as [|m IH]; intros k Hm Hk;
    replace (129 - k)%nat with (Datatypes.S (129 - Datatypes.S k)) by lia;
    cbn [while_loop]; rewrite (proj2 (Z.ltb_lt _ 128)) by lia;
    rewrite bind_assoc.
  - replace k with (length r) by lia.
    erewrite bind_run; [|apply index_lt; [lia|rewrite Nat2Z.id; by apply list_lookup_middle]].
    done.
  - destruct (lookup_lt_is_Some_2 r k) as [c Hc]; [lia|].
    erewrite bind_run; [|apply index_lt; [lia|rewrite Nat2Z.id; by apply lookup_app_l_Some]].
    destruct (Ascii.eqb_spec c NUL) as [->|_].
    { destruct Hr. by apply list_elem_of_lookup_2 in Hc. }
    cbn [negb]. rewrite bind_ret_l.
    replace (Z.of_nat k + 1) with (Z.of_nat (Datatypes.S k)) by lia.
    apply IH; lia.
Qed.

Lemma push_lines fs f :
  foldl (λ f l, push_line l f) f fs = Frame (r_lines f ++ fs) (br f) (pipe f) (line_buffer f).
Proof.
  revert f. induction fs as [|l fs IH]; intros f; simpl.
  - rewrite app_nil_r. by destruct f.
  - rewrite IH. simpl. by rewrite <-app_assoc.
Qed.

(** The reader of [exec] holding [b]. *)
Abbreviation nl_reader b := (MkBufferedReader b (Some NL) (Some tt)).

(** One turn of the loop that reads something. *)
Lemma exec_step_read lines b out buf r rest e fs b' :
  fgets_chars 127 out = (r, rest, e) → r ≠ [] → NUL ∉ out → feed NL b r = (fs, b') →
  ∃ buf', exec_step tt (Frame lines (nl_reader b) (File out false) buf) =
          Ret (inl tt) (Frame (lines ++ fs) (nl_reader b') (File rest e) buf').
Proof.
  intros E Hr Hnul Hf. destruct (fgets_chars_spec _ _ _ _ _ E) as (Hout & Hlen & _ & _).
  assert (NUL ∉ r) as Hnr by (intros H; apply Hnul; rewrite Hout; apply elem_of_app; by left).
  exists (r ++ NUL :: drop (length r + 1) buf).
  set (f1 := Frame lines (nl_reader b) (File rest e) (r ++ NUL :: drop (length r + 1) buf)).
  assert (fgets 128 (Frame lines (nl_reader b) (File out false) buf) = Ret true f1) as Hfgets.
  { unfold fgets, get_state. rewrite bind_unfold. cbn [pipe f_rest f_eof].
    change (128 - 1)%nat with 127%nat. rewrite E. by destruct r. }
  unfold exec_step. rewrite bind_gets. cbn [pipe f_eof].
  run_with Hfgets.
  assert (count_chars f1 = Ret (len r) f1) as Hcount.
  { unfold count_chars. rewrite bind_gets.
    apply (count_loop f1 r _ 0); [done|lia|lia]. }
  run_with Hcount. rewrite bind_gets.
  erewrite bind_run.
  2: { apply (read_run cb br_ref tt push_line) with (d := NL) (b := b) (frames := fs) (rest := b').
       - done. - done. - done. - done.
       - cbn [line_buffer f1]. rewrite length_app. lia.
       - lia.
       - cbn [line_buffer f1]. by rewrite Nat2Z.id, take_app_length. }
  rewrite push_lines. done.
Qed.

Lemma exec_loop fuel lines b out buf :
  NUL ∉ out → (length out + 2 ≤ fuel)%nat →
  ∃ f', while_loop fuel exec_step tt (Frame lines (nl_reader b) (File out false) buf)
        = Ret tt f' ∧ r_lines f' = lines ++ (feed NL b out).1.
Proof.
  revert lines b out buf. induction fuel as [|fuel IH]; intros lines b out buf Hnul Hfuel; [lia|].
  cbn [while_loop].
  destruct (fgets_chars 127 out) as [[r rest] e] eqn:E.
  destruct (fgets_chars_spec _ _ _ _ _ E) as (Hout & Hlen & He & Hnil).
  destruct (decide (r = [])) as [->|Hr].
  - rewrite (Hnil eq_refl ltac:(lia)) in *. rewrite (He eq_refl) in *. subst out.
    destruct fuel as [|fuel]; [simpl in Hfuel; lia|].
    eexists. split; [reflexivity|]. simpl. by rewrite app_nil_r.
  - destruct (feed NL b r) as [fs b'] eqn:Hf.
    destruct (exec_step_read lines b out buf r rest e fs b' E Hr Hnul Hf) as [buf' Hs].
    run_with Hs. subst out. rewrite feed_app, Hf.
    rewrite length_app in Hfuel. apply not_elem_of_app in Hnul as [_ Hnul].
    destruct r as [|c r]; [done|]. simpl in Hfuel. destruct e.
    + rewrite (He eq_refl). destruct fuel as [|fuel]; [lia|].
      eexists. split; [reflexivity|]. simpl. by rewrite app_nil_r.
    + destruct (IH (lines ++ fs) b' rest buf' Hnul ltac:(lia)) as (f' & E' & Hl).
      exists f'. split; [exact E'|]. rewrite Hl.
      destruct (feed NL b' rest) as [f2 b2]. simpl. by rewrite app_assoc.
Qed.

Lemma exec_run fuel popen garbage cmd out :
  popen cmd = Some out → NUL ∉ out → (length out + 2 ≤ fuel)%nat →
  ∃ f, exec fuel popen garbage cmd = Ret (feed NL [] out).1 f.
Proof.
  intros Hp Hnul Hf. unfold exec. rewrite Hp.
  destruct (exec_loop fuel [] [] out garbage Hnul Hf) as (f' & E & Hl).
  exists f'. unfold BufferedReader_new. run_with E. unfold gets. by rewrite Hl.
Qed.

(** ** Properties *)

(** C32.  [Utils::exec], on a command that writes no NUL, ends and returns the
    lines that the command terminated with a newline, in order and without their
    newlines, however long they are; what follows the last newline is lost. *)
Theorem exec_lines fuel popen garbage cmd out :
  popen cmd = Some out → NUL ∉ out → (length out + 2 ≤ fuel)%nat →
  ∃ lines rest f,
    exec fuel popen garbage cmd = Ret lines f ∧
    unframe NL lines ++ rest = out ∧
    Forall (λ l, NL ∉ l) lines ∧ NL ∉ rest.
Proof.
  intros Hp Hnul Hf. destruct (exec_run fuel popen garbage cmd out Hp Hnul Hf) as [f E].
  destruct (feed NL [] out) as [lines rest] eqn:Ef.
  exists lines, rest, f.
  destruct (feed_no_delim _ _ _ _ _ Ef ltac:(apply not_elem_of_nil)).
  split_and!; [done| |done|done]. by apply feed_unframe in Ef.
Qed.

Definition popen_hello (_ : bytes) : option bytes :=
  Some (str "hello" ++ [NL] ++ str "world" ++ [NL] ++ str "bye").

Lemma exec_lines_witness :
  (∃ f, exec 30 popen_hello (replicate 128 "x"%char) [] = Ret [str "hello"; str "world"] f) ∧
  ∃ lines rest f,
    exec 30 popen_hello (replicate 128 "x"%char) [] = Ret lines f ∧
    unframe NL lines ++ rest = str "hello" ++ [NL] ++ str "world" ++ [NL] ++ str "bye".
Proof.
  split; [eexists; vm_compute; reflexivity|].
  destruct (exec_lines 30 popen_hello (replicate 128 "x"%char) [] _ eq_refl)
    as (lines & rest & f & E & U & _).
  - apply (bool_decide_unpack _). vm_compute. exact I.
  - vm_compute. lia.
  - exists lines, rest, f. split; [exact E|exact U].
Defined.
