(* ===== verification/ThreadPool.v ===== *)
(** * [asutils::ThreadPool]

    Models [src/src/main/cpp/common/thread_pool.cpp] as a transition system: the
    worker threads run [do_work], any number of client threads call [add_work] for
    a list of works each.  A step is one statement of a thread between two points
    where the others can be seen; threads interleave freely.  A condition variable
    is its set of waiting threads: [notify_one] wakes one of them, whichever, and a
    waiting thread may also wake without reason.

    A work is a value of type [W]; running it is one step, recorded in
    [executed].  It is taken to return, and not to call [add_work] on its own pool. *)

From S2P Require Import Prelude.
From stdpp Require Export relations.

Section pool.
Context {W : Type}.

(** Where a worker is in [do_work]. *)
Inductive wpc :=
  | WIdle                (** about to lock the mutex *)
  | WCheck               (** mutex held, at [while (w_queue.empty())] *)
  | WWaiting             (** in [c_cv.wait], not notified *)
  | WWoken               (** woken, about to lock the mutex again *)
  | WPopped (w : W)      (** mutex held, [work] taken off the queue *)
  | WNotify (w : W)      (** unlocked, about to notify [p_cv] *)
  | WRun (w : W).        (** about to call [work()] *)

(** Where a client is in [add_work]. *)
Inductive ppc :=
  | PIdle                (** outside, or about to lock the mutex *)
  | PCheck (w : W)       (** mutex held, at [while (w_queue.size() == p_size)] *)
  | PWaiting (w : W)     (** in [p_cv.wait], not notified *)
  | PWoken (w : W)       (** woken, about to lock the mutex again *)
  | PPushed              (** mutex held, the work is in the queue *)
  | PNotify.             (** unlocked, about to notify [c_cv] *)

Inductive tid := Worker (i : nat) | Producer (j : nat).

(** A client is its position and the works it has yet to add.  [added] (with the
    client that added), [taken] and [executed] record the history. *)
Record pool := Pool {
  mutex : option tid;
  w_queue : list W;
  p_size : nat;
  workers : list wpc;
  producers : list (ppc * list W);
  added : list (nat * W);
  taken : list W;
  executed : list W
}.

Definition set_mutex m st :=
  Pool m (w_queue st) (p_size st) (workers st) (producers st) (added st) (taken st) (executed st).
Definition set_worker i pc st :=
  Pool (mutex st) (w_queue st) (p_size st) (<[i:=pc]> (workers st)) (producers st)
    (added st) (taken st) (executed st).
Definition set_producer j p st :=
  Pool (mutex st) (w_queue st) (p_size st) (workers st) (<[j:=p]> (producers st))
    (added st) (taken st) (executed st).

(** [w_queue.push(work)] by client [j]. *)
Definition push j w st :=
  Pool (mutex st) (w_queue st ++ [w]) (p_size st) (workers st) (producers st)
    (added st ++ [(j, w)]) (taken st) (executed st).

(** [w_queue.front()] and [w_queue.pop()] on a queue [w :: q]. *)
Definition pop w q st :=
  Pool (mutex st) q (p_size st) (workers st) (producers st)
    (added st) (taken st ++ [w]) (executed st).

Definition execute w st :=
  Pool (mutex st) (w_queue st) (p_size st) (workers st) (producers st)
    (added st) (taken st) (executed st ++ [w]).

Definition is_wwaiting (pc : wpc) : bool := match pc with WWaiting => true | _ => false end.
Definition is_pwaiting (p : ppc * list W) : bool :=
  match p.1 with PWaiting _ => true | _ => false end.

(** [c_cv.notify_one()]: [choice] is the thread that wakes; none only when none
    waits. *)
Definition notify_consumer (choice : option nat) (st : pool) : option pool :=
  match choice with
  | None => if existsb is_wwaiting (workers st) then None else Some st
  | Some i => match workers st !! i with
              | Some WWaiting => Some (set_worker i WWoken st)
              | _ => None
              end
  end.

(** [p_cv.notify_one()]. *)
Definition notify_producer (choice : option nat) (st : pool) : option pool :=
  match choice with
  | None => if existsb is_pwaiting (producers st) then None else Some st
  | Some j => match producers st !! j with
              | Some (PWaiting w, ws) => Some (set_producer j (PWoken w, ws) st)
              | _ => None
              end
  end.

(** [lck] acquired by [t]: only when nobody holds the mutex. *)
Definition lock (t : tid) (st : pool) : option pool :=
  match mutex st with None => Some (set_mutex (Some t) st) | Some _ => None end.

Definition unlock (st : pool) : pool := set_mutex None st.

(** One step of worker [i] in [do_work]. *)
Definition do_work (i : nat) (choice : option nat) (st : pool) : option pool :=
  match workers st !! i with
  | Some WIdle | Some WWoken => set_worker i WCheck <$> lock (Worker i) st
  | Some WCheck =>
      match w_queue st with
      | [] => Some (set_worker i WWaiting (unlock st))
      | w :: q => Some (set_worker i (WPopped w) (pop w q st))
      end
  | Some WWaiting | None => None
  | Some (WPopped w) => Some (set_worker i (WNotify w) (unlock st))
  | Some (WNotify w) => set_worker i (WRun w) <$> notify_producer choice st
  | Some (WRun w) => Some (set_worker i WIdle (execute w st))
  end.

(** One step of client [j] in [add_work]. *)
Definition add_work (j : nat) (choice : option nat) (st : pool) : option pool :=
  match producers st !! j with
  | Some (PIdle, w :: ws) => set_producer j (PCheck w, ws) <$> lock (Producer j) st
  | Some (PIdle, []) | None => None
  | Some (PCheck w, ws) =>
      if decide (length (w_queue st) = p_size st)
      then Some (set_producer j (PWaiting w, ws) (unlock st))
      else Some (set_producer j (PPushed, ws) (push j w st))
  | Some (PWaiting _, _) => None
  | Some (PWoken w, ws) => set_producer j (PCheck w, ws) <$> lock (Producer j) st
  | Some (PPushed, ws) => Some (set_producer j (PNotify, ws) (unlock st))
  | Some (PNotify, ws) => set_producer j (PIdle, ws) <$> notify_consumer choice st
  end.

(** A wake-up of [wait] that nobody caused. *)
Definition spurious (t : tid) (st : pool) : option pool :=
  match t with
  | Worker i => match workers st !! i with
                | Some WWaiting => Some (set_worker i WWoken st)
                | _ => None
                end
  | Producer j => match producers st !! j with
                  | Some (PWaiting w, ws) => Some (set_producer j (PWoken w, ws) st)
                  | _ => None
                  end
  end.

(** A step that the program takes of itself. *)
Definition run (t : tid) (choice : option nat) (st : pool) : option pool :=
  match t with Worker i => do_work i choice st | Producer j => add_work j choice st end.

Inductive program_step (st st' : pool) : Prop :=
  | Step_run t choice : run t choice st = Some st' → program_step st st'.

Inductive step (st st' : pool) : Prop :=
  | Step_program : program_step st st' → step st st'
  | Step_spurious t : spurious t st = Some st' → step st st'.

(** [build_worker_threads]: one detached thread per turn. *)
Definition build_worker_threads : M pool unit :=
  n ← gets p_size;
  for_loop 32 (Z.of_nat n) (λ _ _,
    modify (λ st, Pool (mutex st) (w_queue st) (p_size st) (workers st ++ [WIdle])
                    (producers st) (added st) (taken st) (executed st))) tt.

(** The constructor, and clients with the works they will add. *)
Definition ThreadPool (size : nat) (jobs : list (list W)) : outcome pool unit :=
  build_worker_threads
    (Pool None [] size [] (map (λ js, (PIdle, js)) jobs) [] [] []).

Definition initial (size : nat) (jobs : list (list W)) : pool :=
  Pool None [] size (replicate size WIdle) (map (λ js, (PIdle, js)) jobs) [] [] [].

Definition reachable (size : nat) (jobs : list (list W)) (st : pool) : Prop :=
  rtc step (initial size jobs) st.

(** A thread at a statement where it holds the mutex. *)
Definition holds (st : pool) (t : tid) : Prop :=
  match t with
  | Worker i => ∃ pc, workers st !! i = Some pc ∧
                  match pc with WCheck | WPopped _ => True | _ => False end
  | Producer j => ∃ p, producers st !! j = Some p ∧
                    match p.1 with PCheck _ | PPushed => True | _ => False end
  end.

(** The work a worker has taken and not yet run. *)
Definition in_flight (pc : wpc) : list W :=
  match pc with WPopped w | WNotify w | WRun w => [w] | _ => [] end.

(** The works a client has not yet put in the queue, the current one first. *)
Definition pending (p : ppc * list W) : list W :=
  match p.1 with PCheck w | PWaiting w | PWoken w => w :: p.2 | _ => p.2 end.

(** The works that client [j] put in the queue, in order. *)
Definition added_by (j : nat) (st : pool) : list W :=
  map snd (filter (λ x, x.1 = j) (added st)).

(** Everything has been added and run, and the workers wait for more. *)
Definition complete (st : pool) : Prop :=
  w_queue st = [] ∧ Forall (λ pc, pc = WWaiting) (workers st) ∧
  Forall (λ p, p = (PIdle, [])) (producers st).
End pool.
Arguments wpc : clear implicits.
Arguments ppc : clear implicits.
Arguments pool : clear implicits.

#[export] Instance tid_eq_dec : EqDecision tid.
Proof. solve_decision. Defined.

(** ** Lemmas *)
Section lemmas.
Context {W : Type}.
Implicit Types (st : pool W) (i j : nat) (w : W) (ws : list W).

(** *** The constructor *)
Lemma build_threads_fold (l : list Z) st u :
  fold_m (λ _ (_ : unit), modify (λ st, Pool (mutex st) (w_queue st) (p_size st)
            (workers st ++ [WIdle]) (producers st) (added st) (taken st) (executed st)))
    l u st =
  Ret tt (Pool (mutex st) (w_queue st) (p_size st)
            (workers st ++ replicate (length l) WIdle) (producers st)
            (added st) (taken st) (executed st)).
Proof.
  revert st u. induction l as [|z l IH]; intros st u; simpl.
  - rewrite app_nil_r. by destruct st, u.
  - rewrite bind_modify, IH. simpl. by rewrite <-app_assoc.
Qed.

Lemma ThreadPool_run size (jobs : list (list W)) :
  (Z.of_nat size < 2 ^ 32)%Z → ThreadPool size jobs = Ret tt (initial size jobs).
Proof.
  intros H. unfold ThreadPool, build_worker_threads. rewrite bind_gets.
  rewrite for_loop_total by done. rewrite build_threads_fold.
  unfold initial. simpl. by rewrite length_seqZ, Nat2Z.id.
Qed.

(** *** The cases of a step *)
Inductive transition st : pool W → Prop :=
  | T_wlock i pc : workers st !! i = Some pc → pc = WIdle ∨ pc = WWoken → mutex st = None →
      transition st (set_worker i WCheck (set_mutex (Some (Worker i)) st))
  | T_wwait i : workers st !! i = Some WCheck → w_queue st = [] →
      transition st (set_worker i WWaiting (unlock st))
  | T_wpop i w q : workers st !! i = Some WCheck → w_queue st = w :: q →
      transition st (set_worker i (WPopped w) (pop w q st))
  | T_wunlock i w : workers st !! i = Some (WPopped w) →
      transition st (set_worker i (WNotify w) (unlock st))
  | T_wnotify i w : workers st !! i = Some (WNotify w) →
      existsb is_pwaiting (producers st) = false →
      transition st (set_worker i (WRun w) st)
  | T_wwake i w j w' ws : workers st !! i = Some (WNotify w) →
      producers st !! j = Some (PWaiting w', ws) →
      transition st (set_worker i (WRun w) (set_producer j (PWoken w', ws) st))
  | T_wrun i w : workers st !! i = Some (WRun w) →
      transition st (set_worker i WIdle (execute w st))
  | T_plock j p w ws : producers st !! j = Some p →
      p = (PIdle, w :: ws) ∨ p = (PWoken w, ws) → mutex st = None →
      transition st (set_producer j (PCheck w, ws) (set_mutex (Some (Producer j)) st))
  | T_pwait j w ws : producers st !! j = Some (PCheck w, ws) →
      length (w_queue st) = p_size st →
      transition st (set_producer j (PWaiting w, ws) (unlock st))
  | T_ppush j w ws : producers st !! j = Some (PCheck w, ws) →
      length (w_queue st) ≠ p_size st →
      transition st (set_producer j (PPushed, ws) (push j w st))
  | T_punlock j ws : producers st !! j = Some (PPushed, ws) →
      transition st (set_producer j (PNotify, ws) (unlock st))
  | T_pnotify j ws : producers st !! j = Some (PNotify, ws) →
      existsb is_wwaiting (workers st) = false →
      transition st (set_producer j (PIdle, ws) st)
  | T_pwake j ws i : producers st !! j = Some (PNotify, ws) →
      workers st !! i = Some WWaiting →
      transition st (set_producer j (PIdle, ws) (set_worker i WWoken st)).

Inductive spurious_transition st : pool W → Prop :=
  | T_wspurious i : workers st !! i = Some WWaiting →
      spurious_transition st (set_worker i WWoken st)
  | T_pspurious j w ws : producers st !! j = Some (PWaiting w, ws) →
      spurious_transition st (set_producer j (PWoken w, ws) st).

Lemma program_step_inv st st' : program_step st st' → transition st st'.
Proof.
  intros [[i|j] choice H]; simpl in H.
  - unfold do_work, lock, notify_producer in H.
    repeat (case_match; simplify_option_eq); econstructor; by eauto.
  - unfold add_work, lock, notify_consumer in H.
    repeat (case_match; simplify_option_eq); econstructor; by eauto.
Qed.

Lemma spurious_inv t st st' : spurious t st = Some st' → spurious_transition st st'.
Proof.
  intros H. unfold spurious in H.
  repeat (case_match; simplify_option_eq); econstructor; by eauto.
Qed.

(** An invariant of the initial state that no step breaks holds when reachable. *)
Lemma reachable_ind size jobs (P : pool W → Prop) :
  P (initial size jobs) →
  (∀ st st', P st → transition st st' → P st') →
  (∀ st st', P st → spurious_transition st st' → P st') →
  ∀ st, reachable size jobs st → P st.
Proof.
  intros Hinit Hstep Hsp. apply rtc_ind_r; [done|].
  intros st st' _ [H|t H] HP; eauto using program_step_inv, spurious_inv.
Qed.

(** *** Mutual exclusion *)
Definition w_holds (pc : wpc W) : bool :=
  match pc with WCheck | WPopped _ => true | _ => false end.
Definition p_holds (p : ppc W * list W) : bool :=
  match p.1 with PCheck _ | PPushed => true | _ => false end.

Lemma holds_worker i st pc :
  workers st !! i = Some pc → holds st (Worker i) ↔ w_holds pc = true.
Proof.
  intros H. simpl. split; [intros (pc' & ? & ?); simplify_eq; by destruct pc|].
  intros Hh. exists pc. by destruct pc.
Qed.

Lemma holds_producer j st p :
  producers st !! j = Some p → holds st (Producer j) ↔ p_holds p = true.
Proof.
  intros H. simpl. split; [intros (p' & ? & ?); simplify_eq; unfold p_holds; by case_match|].
  unfold p_holds. intros Hh. exists p. by case_match.
Qed.

Lemma holds_set_worker i pc0 pc st t :
  workers st !! i = Some pc0 →
  holds (set_worker i pc st) t ↔ (if decide (t = Worker i) then w_holds pc = true else holds st t).
Proof.
  intros H. apply lookup_lt_Some in H. case_decide as Ht.
  - subst. apply holds_worker. by apply list_lookup_insert_eq.
  - destruct t as [i'|j']; simpl; [|done].
    rewrite list_lookup_insert_ne by congruence. done.
Qed.

Lemma holds_set_producer j p0 p st t :
  producers st !! j = Some p0 →
  holds (set_producer j p st) t ↔ (if decide (t = Producer j) then p_holds p = true else holds st t).
Proof.
  intros H. apply lookup_lt_Some in H. case_decide as Ht.
  - subst. apply holds_producer. by apply list_lookup_insert_eq.
  - destruct t as [i'|j']; simpl; [done|].
    rewrite list_lookup_insert_ne by congruence. done.
Qed.

Definition mutex_inv st : Prop := ∀ t, mutex st = Some t ↔ holds st t.

(** Decides [mutex_inv] after a step of one thread. *)
Ltac solve_mutex H :=
  intros t; specialize (H t) as Ht;
  try match goal with Hw : workers ?st !! ?i = Some _ |- _ =>
    pose proof (H (Worker i)) as Hi; rewrite (holds_worker _ _ _ Hw) in Hi end;
  try match goal with Hp : producers ?st !! ?j = Some _ |- _ =>
    pose proof (H (Producer j)) as Hj; rewrite (holds_producer _ _ _ Hp) in Hj end;
  repeat first
    [ erewrite holds_set_worker by (simpl; eassumption)
    | erewrite holds_set_producer by (simpl; eassumption)
    | case_decide ];
  subst; unfold p_holds, w_holds in *; simpl in *;
  naive_solver congruence.

Lemma mutex_inv_transition st st' : mutex_inv st → transition st st' → mutex_inv st'.
Proof.
  intros H. destruct 1; solve_mutex H.
Qed.

Lemma mutex_inv_spurious st st' : mutex_inv st → spurious_transition st st' → mutex_inv st'.
Proof.
  intros H. destruct 1; solve_mutex H.
Qed.

Lemma mutex_inv_initial size (jobs : list (list W)) : mutex_inv (initial size jobs).
Proof.
  intros t. split; [done|]. destruct t as [i|j]; simpl.
  - intros (pc & H & Hpc). apply lookup_replicate_1 in H as [-> _]. done.
  - intros (p & H & Hp). rewrite list_lookup_fmap in H.
    destruct (jobs !! j); simplify_eq/=. done.
Qed.

Lemma reachable_mutex size jobs st : reachable size jobs st → mutex_inv st.
Proof.
  apply reachable_ind; eauto using mutex_inv_initial, mutex_inv_transition, mutex_inv_spurious.
Qed.

(** *** Queue, order and accounting *)

(** The bound of the queue, and every work in exactly one place. *)
Record queue_inv (size : nat) (jobs : list (list W)) st : Prop := {
  qi_size : p_size st = size;
  qi_workers : length (workers st) = size;
  qi_bound : (length (w_queue st) ≤ size)%nat;
  qi_fifo : map snd (added st) = taken st ++ w_queue st;
  qi_taken : taken st ≡ₚ executed st ++ concat (map in_flight (workers st));
  qi_all : concat jobs ≡ₚ map snd (added st) ++ concat (map pending (producers st));
  qi_jobs : ∀ j, (λ p, added_by j st ++ pending p) <$> producers st !! j = jobs !! j
}.

Lemma added_by_push j j' w st :
  added_by j (push j' w st) = added_by j st ++ (if decide (j' = j) then [w] else []).
Proof.
  unfold added_by. simpl. rewrite filter_app, map_app, filter_cons, filter_nil. simpl.
  by case_decide.
Qed.

(** A change of one client that leaves what it has added and will add. *)
Lemma jobs_insert (jobs : list (list W)) (f : nat → list W) l j p p0 :
  (∀ j, (λ p, f j ++ pending p) <$> l !! j = jobs !! j) →
  l !! j = Some p0 → pending p = pending p0 →
  ∀ j', (λ p, f j' ++ pending p) <$> (<[j:=p]> l : list (ppc W * list W)) !! j' = jobs !! j'.
Proof.
  intros H Hj Hp j'. rewrite <-H. destruct (decide (j = j')) as [<-|Hne].
  - rewrite list_lookup_insert_eq by by eapply lookup_lt_Some.
    rewrite Hj. simpl. by rewrite Hp.
  - by rewrite list_lookup_insert_ne.
Qed.

(** A change of one thread that keeps its works. *)
Lemma works_insert {A} (f : A → list W) (t e : list W) l i x y :
  t ≡ₚ e ++ concat (map f l) → l !! i = Some y → f x = f y →
  t ≡ₚ e ++ concat (map f (<[i:=x]> l)).
Proof.
  intros -> Hi Hf. apply Permutation_app_head.
  pose proof (concat_insert f l i x y Hi) as H. rewrite Hf in H.
  by apply Permutation_app_inv_r in H.
Qed.

Ltac solve_queue :=
  simpl in *;
  first [ done | lia
        | by rewrite length_insert
        | by eapply works_insert
        | by eapply jobs_insert ].

Lemma queue_inv_transition size jobs st st' :
  queue_inv size jobs st → transition st st' → queue_inv size jobs st'.
Proof.
  intros [H1 H2 H3 H4 H5 HA H6].
  destruct 1 as [i pc Hi [->| ->] ?| |i w q Hi Hq| | | |i w Hi|j p w ws Hj [->| ->] ?| |j w ws Hj Hlen| | |];
    try (split; solve_queue).
  - split; try solve_queue; simpl; rewrite Hq in *.
    + simpl in H3. lia.
    + by rewrite H4, <-app_assoc.
    + rewrite H5, <-app_assoc. apply Permutation_app_head.
      pose proof (concat_insert in_flight _ i (WPopped w) _ Hi) as H.
      rewrite app_nil_r in H. by rewrite H.
  - split; try solve_queue. simpl. rewrite H5, <-app_assoc. apply Permutation_app_head.
    pose proof (concat_insert in_flight _ i WIdle _ Hi) as H. simpl in H.
    rewrite app_nil_r in H. by rewrite <-H, Permutation_app_comm.
  - split; try solve_queue; simpl.
    + rewrite length_app. simpl. lia.
    + by rewrite map_app, H4, <-app_assoc.
    + rewrite HA, map_app, <-app_assoc. apply Permutation_app_head.
      pose proof (concat_insert pending _ j (PPushed, ws) _ Hj) as H.
      change (pending (PPushed, ws)) with ws in H.
      change (pending (PCheck w, ws)) with ([w] ++ ws) in H.
      rewrite app_assoc in H. apply Permutation_app_inv_r in H.
      by rewrite <-H, Permutation_app_comm.
    + intros j'. rewrite <-H6.
      change (added_by j' (set_producer j (PPushed, ws) (push j w st)))
        with (added_by j' (push j w st)).
      rewrite added_by_push. case_decide as Hjj.
      * subst. rewrite list_lookup_insert_eq by by eapply lookup_lt_Some.
        rewrite Hj. simpl. by rewrite <-app_assoc.
      * rewrite list_lookup_insert_ne by done.
        destruct (producers st !! j'); simpl; by rewrite ?app_nil_r.
Qed.

Lemma queue_inv_spurious size jobs st st' :
  queue_inv size jobs st → spurious_transition st st' → queue_inv size jobs st'.
Proof. intros [H1 H2 H3 H4 H5 HA H6]. destruct 1; split; solve_queue. Qed.

Lemma queue_inv_initial size jobs : queue_inv size jobs (initial size jobs).
Proof.
  split; simpl; [done|by rewrite length_replicate|lia|done| | |].
  - induction size as [|n IH]; [done|]. simpl. done.
  - induction jobs as [|js jobs IH]; [done|]. simpl. by rewrite IH.
  - intros j. rewrite list_lookup_fmap. by destruct (jobs !! j).
Qed.

Lemma reachable_queue size jobs st : reachable size jobs st → queue_inv size jobs st.
Proof.
  apply reachable_ind; eauto using queue_inv_initial, queue_inv_transition, queue_inv_spurious.
Qed.

(** *** No lost wake-ups *)

(** Workers that do not wait, and clients that still have to notify [c_cv]. *)
Definition awake (pc : wpc W) : nat := if is_wwaiting pc then 0 else 1.
Definition signalling (p : ppc W * list W) : nat :=
  match p.1 with PPushed | PNotify => 1 | _ => 0 end.

(** Clients that wait, those in the loop that do not, and workers that still
    have to notify [p_cv]. *)
Definition pwaits (p : ppc W * list W) : nat := if is_pwaiting p then 1 else 0.
Definition entering (p : ppc W * list W) : nat :=
  match p.1 with PCheck _ | PWoken _ => 1 | _ => 0 end.
Definition releasing (pc : wpc W) : nat :=
  match pc with WPopped _ | WNotify _ => 1 | _ => 0 end.

Record wake_inv st : Prop := {
  wi_workers : (0 < p_size st → 0 < length (workers st))%nat;
  wi_bound : (length (w_queue st) ≤ p_size st)%nat;
  wi_consumers : (0 < length (w_queue st))%nat →
    (0 < sum_list_with awake (workers st) + sum_list_with signalling (producers st))%nat;
  wi_producers : (0 < sum_list_with pwaits (producers st))%nat →
    (p_size st - length (w_queue st) ≤
     sum_list_with releasing (workers st) + sum_list_with entering (producers st))%nat
}.

Lemma awake_all (l : list (wpc W)) :
  existsb is_wwaiting l = false → sum_list_with awake l = length l.
Proof.
  induction l as [|pc l IH]; simpl; [done|]. unfold awake at 1.
  intros [-> H]%orb_false_iff. by rewrite IH.
Qed.

(** The sums over a list of threads one of which has moved. *)
Ltac tally :=
  repeat match goal with
  | H : ?l !! ?i = Some ?y |- context [sum_list_with ?f (<[?i:=?x]> ?l)] =>
      let E := fresh "E" in
      pose proof (sum_list_insert f l i x y H) as E;
      let s := fresh "s" in
      set (s := sum_list_with f (<[i:=x]> l)) in *; clearbody s
  | H : ?l !! ?i = Some ?y, H' : context [sum_list_with ?f (<[?i:=?x]> ?l)] |- _ =>
      let E := fresh "E" in
      pose proof (sum_list_insert f l i x y H) as E;
      let s := fresh "s" in
      set (s := sum_list_with f (<[i:=x]> l)) in *; clearbody s
  end.

Ltac solve_wake :=
  simpl in *; try match goal with Hq : w_queue _ = _ |- _ => rewrite Hq in * end;
  simpl in *; rewrite ?length_insert, ?length_app; intros; tally;
  repeat match goal with
  | E : (_ + _ = _ + _)%nat |- _ =>
      progress cbn [awake signalling pwaits entering releasing is_wwaiting is_pwaiting fst] in E
  end; simpl in *; lia.

Lemma wake_inv_transition st st' : wake_inv st → transition st st' → wake_inv st'.
Proof.
  intros [H1 H2 H3 H4].
  destruct 1 as [i pc Hi [->| ->] ?|i Hi Hq|i w q Hi Hq|i w Hi|i w Hi Hnone| |i w Hi
                |j p w ws Hj [->| ->] ?| |j w ws Hj Hlen| |j ws Hj Hnone|].
  6: pose proof (sum_existsb _ _ Hnone) as Hz; change (sum_list_with pwaits (producers st) = 0%nat) in Hz.
  14: pose proof (awake_all _ Hnone) as Hz.
  all: split; solve_wake.
Qed.

Lemma wake_inv_spurious st st' : wake_inv st → spurious_transition st st' → wake_inv st'.
Proof. intros [H1 H2 H3 H4]. destruct 1; split; solve_wake. Qed.

Lemma wake_inv_initial size (jobs : list (list W)) : wake_inv (initial size jobs).
Proof.
  split; simpl; [by rewrite length_replicate|lia|lia|].
  induction jobs as [|js jobs IH]; simpl; [lia|done].
Qed.

Lemma reachable_wake size jobs st : reachable size jobs st → wake_inv st.
Proof.
  apply reachable_ind; eauto using wake_inv_initial, wake_inv_transition, wake_inv_spurious.
Qed.

(** *** A state where no thread can move of itself *)
Definition stuck st : Prop := ∀ st', ¬ program_step st st'.

Lemma stuck_step st t choice : stuck st → run t choice st = None.
Proof.
  intros H. destruct (run t choice st) as [st'|] eqn:E; [|done].
  destruct (H st'). by econstructor.
Qed.

(** A notification always finds someone to wake, or nobody waits. *)
Lemma notify_producer_total st : ∃ choice st', notify_producer choice st = Some st'.
Proof.
  destruct (existsb is_pwaiting (producers st)) eqn:E.
  - apply existsb_exists in E as ((p & ws) & Hin & Hp).
    apply list_elem_of_In, list_elem_of_lookup in Hin as [j Hj].
    destruct p; try done. exists (Some j). eexists. simpl. by rewrite Hj.
  - exists None, st. simpl. by rewrite E.
Qed.

Lemma notify_consumer_total st : ∃ choice st', notify_consumer choice st = Some st'.
Proof.
  destruct (existsb is_wwaiting (workers st)) eqn:E.
  - apply existsb_exists in E as (pc & Hin & Hp).
    apply list_elem_of_In, list_elem_of_lookup in Hin as [i Hi].
    destruct pc; try done. exists (Some i). eexists. simpl. by rewrite Hi.
  - exists None, st. simpl. by rewrite E.
Qed.

(** In a stuck state the mutex is free. *)
Lemma stuck_mutex st : mutex_inv st → stuck st → mutex st = None.
Proof.
  intros HM HS. destruct (mutex st) as [[i|j]|] eqn:E; [..|done]; exfalso.
  - apply HM in E as (pc & Hi & Hpc).
    pose proof (stuck_step st (Worker i) None HS) as H. simpl in H.
    unfold do_work in H. rewrite Hi in H. destruct pc; try done. by case_match.
  - apply HM in E as ([p ws] & Hj & Hp).
    pose proof (stuck_step st (Producer j) None HS) as H. simpl in H.
    unfold add_work in H. rewrite Hj in H. destruct p; try done. by case_decide.
Qed.

Lemma stuck_worker st i pc :
  mutex st = None → stuck st → workers st !! i = Some pc → pc = WWaiting.
Proof.
  intros HM HS Hi.
  pose proof (λ c, stuck_step st (Worker i) c HS) as H. simpl in H. unfold do_work, lock in H.
  rewrite Hi, HM in H.
  destruct pc; try done; try by specialize (H None).
  - specialize (H None). by case_match.
  - destruct (notify_producer_total st) as (c & st' & E). specialize (H c). by rewrite E in H.
Qed.

Lemma stuck_producer st j p ws :
  mutex st = None → stuck st → producers st !! j = Some (p, ws) →
  (p = PIdle ∧ ws = []) ∨ ∃ w, p = PWaiting w.
Proof.
  intros HM HS Hj.
  assert (∀ c, add_work j c st = None) as H by (intros c; apply (stuck_step st (Producer j) c HS)).
  unfold add_work, lock in H. rewrite Hj, HM in H.
  destruct p as [|w|w|w| |]; [destruct ws as [|w ws]|..]; eauto.
  all: try solve [specialize (H None); first [done | by case_decide]].
  destruct (notify_consumer_total st) as (c & st' & E). specialize (H c). by rewrite E in H.
Qed.

(** When no thread can move of itself, all the work is done. *)
Lemma stuck_complete st :
  mutex_inv st → wake_inv st → (0 < p_size st)%nat → stuck st → complete st.
Proof.
  intros HM HW Hpos HS. pose proof (stuck_mutex st HM HS) as Hm.
  assert (sum_list_with awake (workers st) = 0%nat) as Ha.
  { destruct (decide (0 < sum_list_with awake (workers st))%nat) as [H|H]; [|lia].
    apply sum_positive in H as (i & pc & Hi & Hpc).
    rewrite (stuck_worker st i pc Hm HS Hi) in Hpc. unfold awake in Hpc. simpl in Hpc. lia. }
  assert (∀ f, f (PIdle, []) = 0%nat → (∀ w ws, f (PWaiting w, ws) = 0%nat) →
             sum_list_with f (producers st) = 0%nat) as Hp.
  { intros f Hf1 Hf2. destruct (decide (0 < sum_list_with f (producers st))%nat) as [H|H]; [|lia].
    apply sum_positive in H as (j & [p ws] & Hj & H).
    destruct (stuck_producer st j p ws Hm HS Hj) as [[-> ->]|[w ->]]; rewrite ?Hf1, ?Hf2 in H; lia. }
  assert (w_queue st = []) as Hq.
  { destruct HW as [_ _ HC _]. rewrite Ha, (Hp signalling) in HC by done.
    destruct (w_queue st); [done|]. simpl in HC. lia. }
  split_and!; [done| |].
  - apply Forall_lookup. intros i pc Hi. by apply (stuck_worker st i).
  - apply Forall_lookup. intros j [p ws] Hj.
    destruct (stuck_producer st j p ws Hm HS Hj) as [[-> ->]|[w ->]]; [done|exfalso].
    destruct HW as [_ _ _ HP]. rewrite Hq in HP. simpl in HP.
    pose proof (sum_ge pwaits _ _ _ Hj) as Hw. unfold pwaits at 1 in Hw. simpl in Hw.
    rewrite (Hp entering) in HP by done.
    assert (sum_list_with releasing (workers st) = 0%nat) as Hr.
    { destruct (decide (0 < sum_list_with releasing (workers st))%nat) as [H|H]; [|lia].
      apply sum_positive in H as (i & pc & Hi & Hpc).
      rewrite (stuck_worker st i pc Hm HS Hi) in Hpc. simpl in Hpc. lia. }
    lia.
Qed.

(** *** A measure that every step of the program decreases *)
Definition worker_weight (pc : wpc W) : nat :=
  match pc with
  | WWaiting => 0 | WCheck => 1 | WWoken => 2 | WIdle => 2
  | WRun _ => 3 | WNotify _ => 6 | WPopped _ => 7
  end.

Definition producer_weight (p : ppc W * list W) : nat :=
  let rest := (14 * length p.2)%nat in
  match p.1 with
  | PIdle => rest | PNotify => 3 + rest | PPushed => 4 + rest
  | PWaiting _ => 11 + rest | PCheck _ => 12 + rest | PWoken _ => 13 + rest
  end.

Definition measure st : nat :=
  sum_list_with worker_weight (workers st) + sum_list_with producer_weight (producers st)
  + 7 * length (w_queue st).

Lemma measure_decreases st st' : transition st st' → (measure st' < measure st)%nat.
Proof.
  unfold measure.
  destruct 1 as [i pc Hi [->| ->] ?| | | | | | |j p w ws Hj [->| ->] ?| | | | |].
  all: simpl in *; try match goal with Hq : w_queue _ = _ |- _ => rewrite Hq end.
  all: rewrite ?length_app; tally.
  all: repeat match goal with
    | E : (_ + _ = _ + _)%nat |- _ =>
        progress cbn [worker_weight producer_weight fst snd length] in E
    end; simpl in *; lia.
Qed.

Lemma measure_initial size (jobs : list (list W)) :
  measure (initial size jobs) = (2 * size + 14 * length (concat jobs))%nat.
Proof.
  unfold measure. simpl.
  assert (sum_list_with worker_weight (replicate size WIdle) = 2 * size)%nat as ->.
  { induction size as [|n IH]; simpl; lia. }
  assert (sum_list_with producer_weight (map (λ js, (PIdle, js)) jobs)
          = 14 * length (concat jobs))%nat as ->; [|lia].
  induction jobs as [|js jobs IH]; simpl; [done|].
  rewrite length_app, IH. unfold producer_weight. simpl. lia.
Qed.

Lemma nsteps_measure n st st' :
  nsteps program_step n st st' → (n + measure st' ≤ measure st)%nat.
Proof.
  induction 1 as [st|n st0 st1 st2 H _ IH]; [lia|].
  apply program_step_inv, measure_decreases in H. lia.
Qed.

Lemma program_reachable size jobs n st :
  nsteps program_step n (initial size jobs) st → reachable size jobs st.
Proof.
  intros H. apply rtc_nsteps_2 in H. apply (rtc_subrel program_step step); [|done].
  intros ?? ?. by apply Step_program.
Qed.
End lemmas.

(** ** Properties *)

(** C12.  Mutual exclusion: in every reachable state of a pool and its clients,
    at most one thread is at a statement of [add_work] or [do_work] that works on
    the queue, and it is the one the mutex is locked by; and so the queue, however the
    threads are interleaved, never holds more works than its bound. *)
Theorem pool_mutual_exclusion {W} size (jobs : list (list W)) st :
  reachable size jobs st →
  (∀ t, mutex st = Some t ↔ holds st t) ∧ (∀ t t', holds st t → holds st t' → t = t') ∧
  (length (w_queue st) ≤ size)%nat.
Proof.
  intros H. pose proof (reachable_mutex size jobs st H) as HM. split; [done|].
  split; [|apply (reachable_queue size jobs st H)]. intros t t' H1%HM H2%HM. congruence.
Qed.

(** One worker, two clients with a work each. *)
Definition example_run (ts : list tid) : option (pool nat) :=
  foldl (λ o t, st ← o; run t None st) (Some (initial 1 [[7]; [8]]))%nat ts.

Lemma run_reachable {W} size (jobs : list (list W)) ts st :
  foldl (λ o t, st ← o; run t None st) (Some (initial size jobs)) ts = Some st →
  reachable size jobs st.
Proof.
  revert st. induction ts as [|t ts IH] using rev_ind; intros st; simpl.
  - intros [= <-]. apply rtc_refl.
  - rewrite foldl_app. simpl. intros (st1 & E & H)%bind_Some.
    eapply rtc_r; [by apply IH|]. apply Step_program. by econstructor.
Qed.

Lemma pool_mutual_exclusion_witness :
  ∃ st, example_run [Producer 0; Producer 0; Producer 0; Worker 0] = Some st ∧
        holds st (Worker 0) ∧ ∀ t, holds st t → t = Worker 0.
Proof.
  eexists. split; [vm_compute; reflexivity|].
  match goal with |- holds ?st _ ∧ _ =>
    assert (reachable 1 [[7]; [8]]%nat st) as Hr
      by (apply (run_reachable _ _ [Producer 0; Producer 0; Producer 0; Worker 0]); reflexivity)
  end.
  destruct (pool_mutual_exclusion _ _ _ Hr) as (H1 & H2 & _).
  match goal with |- ?P ∧ _ => assert P as Hh by (apply H1; reflexivity) end.
  split; [exact Hh|]. intros t Ht. exact (H2 _ _ Ht Hh).
Defined.

(** C9.  Bounded queue, first in first out, exactly once: in every reachable state
    the queue holds at most [p_size] works; the works added are those taken by
    workers followed by those in the queue, in order; every work taken is run or
    about to be, once; and each client has added its works in its order. *)
Theorem pool_fifo_exactly_once {W} size (jobs : list (list W)) st :
  reachable size jobs st →
  (length (w_queue st) ≤ size)%nat ∧
  map snd (added st) = taken st ++ w_queue st ∧
  taken st ≡ₚ executed st ++ concat (map in_flight (workers st)) ∧
  (∀ j p, producers st !! j = Some p → jobs !! j = Some (added_by j st ++ pending p)).
Proof.
  intros H. destruct (reachable_queue size jobs st H) as [_ _ H3 H4 H5 _ H6].
  split_and!; [done|done|done|]. intros j p Hj. by rewrite <-H6, Hj.
Qed.

Lemma pool_fifo_exactly_once_witness :
  ∃ st, example_run [Producer 0; Producer 0; Producer 0; Worker 0; Worker 0] = Some st ∧
        taken st = [7]%nat ∧ executed st = [] ∧
        taken st ≡ₚ executed st ++ concat (map in_flight (workers st)).
Proof.
  eexists. split; [vm_compute; reflexivity|].
  match goal with |- taken ?st = _ ∧ _ =>
    assert (reachable 1 [[7]; [8]]%nat st) as Hr
      by (apply (run_reachable _ _ [Producer 0; Producer 0; Producer 0; Worker 0; Worker 0]);
          reflexivity)
  end.
  destruct (pool_fifo_exactly_once _ _ _ Hr) as (_ & _ & H & _).
  split; [reflexivity|]. split; [reflexivity|exact H].
Defined.

(** C10.  No deadlock and no lost wake-up: with at least one worker, a reachable
    state in which no thread can move of itself is one where every client has
    added all its works, every work has been run exactly once, the queue is empty
    and the workers wait. *)
Theorem pool_no_deadlock {W} size (jobs : list (list W)) st :
  (0 < size)%nat → reachable size jobs st → stuck st →
  complete st ∧ executed st ≡ₚ concat jobs.
Proof.
  intros Hpos Hr HS. destruct (reachable_queue size jobs st Hr) as [H1 _ _ H4 H5 HA _].
  assert (complete st) as Hc.
  { apply stuck_complete; [by eapply reachable_mutex|by eapply reachable_wake|lia|done]. }
  split; [done|]. destruct Hc as (Hq & Hw & Hp).
  assert (∀ {A} (f : A → list W) l x, f x = [] → Forall (λ y, y = x) l → concat (map f l) = [])
    as Hnil.
  { intros A f l x Hf. induction 1 as [|y l -> _ IH]; [done|]. simpl. by rewrite Hf, IH. }
  rewrite (Hnil _ _ _ _ eq_refl Hw), app_nil_r in H5.
  rewrite HA, (Hnil _ _ _ _ eq_refl Hp), app_nil_r, H4, Hq, app_nil_r. by symmetry.
Qed.

(** A run of the example to its end. *)
Definition example_schedule : list tid :=
  [Producer 0; Producer 0; Producer 0; Producer 0; Worker 0; Worker 0; Worker 0; Worker 0;
   Worker 0; Producer 1; Producer 1; Producer 1; Producer 1; Worker 0; Worker 0; Worker 0;
   Worker 0; Worker 0; Worker 0; Worker 0].

Lemma pool_no_deadlock_witness :
  ∃ st, example_run example_schedule = Some st ∧ stuck st ∧ executed st ≡ₚ [7; 8]%nat.
Proof.
  eexists. split; [vm_compute; reflexivity|].
  match goal with |- stuck ?st ∧ _ =>
    assert (reachable 1 [[7]; [8]]%nat st) as Hr
      by (apply (run_reachable _ _ example_schedule); reflexivity);
    assert (stuck st) as Hs
      by (intros st' [t c Ht]; destruct t as [[|i]|[|[|j]]]; discriminate)
  end.
  split; [exact Hs|].
  destruct (pool_no_deadlock _ _ _ ltac:(apply Nat.lt_0_1) Hr Hs) as [_ H]. exact H.
Defined.

(** C11.  Termination: between wake-ups without reason, the threads of a pool take
    at most [2 * size + 14 * n] steps for [n] works, whatever the schedule; so
    every run that goes on as long as it can reaches a stuck state. *)
Theorem pool_terminates {W} size (jobs : list (list W)) n st :
  nsteps program_step n (initial size jobs) st →
  (n ≤ 2 * size + 14 * length (concat jobs))%nat.
Proof. intros H%nsteps_measure. rewrite measure_initial in H. lia. Qed.

Lemma pool_terminates_witness :
  ∃ st, nsteps program_step 1 (initial 1 [[7]; [8]]%nat) st ∧ (1 ≤ 2 * 1 + 14 * 2)%nat.
Proof.
  eexists. match goal with |- ?P ∧ _ => assert P as H end.
  - apply nsteps_once. apply (Step_run _ _ (Producer 0) None). vm_compute. reflexivity.
  - split; [exact H|]. exact (pool_terminates 1 [[7]; [8]]%nat 1 _ H).
Defined.

(** A pool of size 0 (what [std::thread::hardware_concurrency()] gives when it
    does not know) never accepts a work: whatever happens, nothing is added or
    run, and [add_work] never returns. *)
Theorem pool_size_zero {W} (jobs : list (list W)) st :
  reachable 0 jobs st →
  added st = [] ∧ executed st = [] ∧
  ∀ j p, producers st !! j = Some p → jobs !! j = Some (pending p).
Proof.
  intros Hr. assert (queue_inv 0 jobs st ∧ added st = []) as [[_ _ _ H4 H5 _ H6] Ha].
  { revert st Hr. apply reachable_ind; [by split; [apply queue_inv_initial|]| |].
    - intros st st' [HQ Ha] Ht. split; [by eapply queue_inv_transition|].
      destruct Ht; try done. exfalso. destruct HQ as [H1 _ H3 _ _ _ _]. lia.
    - intros st st' [HQ Ha] Ht. split; [by eapply queue_inv_spurious|]. by destruct Ht. }
  rewrite Ha in H4. symmetry in H4. apply app_eq_nil in H4 as [Ht _].
  rewrite Ht in H5. apply Permutation_nil_l in H5. symmetry in H5.
  apply app_eq_nil in H5 as [He _].
  split_and!; [done|done|]. intros j p Hj. rewrite <-H6, Hj. simpl.
  unfold added_by. by rewrite Ha.
Qed.

Lemma pool_size_zero_witness :
  ∃ st, foldl (λ o t, st ← o; run t None st) (Some (initial 0 [[7]]))%nat
          [Producer 0; Producer 0] = Some st ∧ added st = [] ∧
        producers st = [(PWaiting 7, [])]%nat.
Proof.
  eexists. split; [vm_compute; reflexivity|]. split; [|reflexivity].
  match goal with |- added ?st = _ =>
    assert (reachable 0 [[7]]%nat st) as Hr
      by (apply (run_reachable _ _ [Producer 0; Producer 0]); reflexivity)
  end.
  exact (proj1 (pool_size_zero _ _ Hr)).
Defined.
