(* ===== verification/Kernel.v ===== *)
(** * The operating system and the locks

    The system calls of the library are an interface, [Kernel]: a type of kernel
    states with one operation per call, so that every component is proved
    against any kernel.  [SocketKernel] adds what POSIX documents of stream
    sockets and epoll, as laws about four observations of a kernel state.  The
    file also has the state in which the components run, a [world]: the kernel,
    the mutexes and the component's own data. *)

From S2P Require Import Prelude Utils.

(** The result of a call: [-1] with [errno], or a value. *)
Inductive sysres (A : Type) := SysErr (errno : Z) | SysOk (a : A).
Arguments SysErr {A} _.
Arguments SysOk {A} _.

(** What the C function returns for a call that gives no other value than
    success. *)
Definition int_result {A} (r : sysres A) : Z :=
  match r with SysErr _ => -1 | SysOk _ => 0 end.

Definition EAGAIN : Z := 11.
Definition EWOULDBLOCK : Z := 11.
Definition O_NONBLOCK : Z := 2048.
Definition EPOLLIN : Z := 1.
Definition EPOLLOUT : Z := 4.
Definition EPOLLERR : Z := 8.
Definition EPOLLHUP : Z := 16.

(** [events & bit], as a condition. *)
Definition has (events bit : Z) : bool := negb (Z.land events bit =? 0).

Class Kernel (K : Type) := {
  sys_read (fd count : Z) : K → sysres bytes * K;
  sys_write (fd : Z) (data : bytes) : K → sysres Z * K;
  sys_close (fd : Z) : K → K;
  sys_accept (fd : Z) : K → sysres (Z * bytes) * K;
  sys_getnameinfo (addr : bytes) : K → Z * K;
  sys_getfl (fd : Z) : K → sysres Z * K;
  sys_setfl (fd flags : Z) : K → sysres unit * K;
  sys_epoll_create : K → sysres Z * K;
  sys_epoll_add (ep fd events : Z) : K → sysres unit * K;
  sys_epoll_mod (ep fd events : Z) : K → sysres unit * K;
  sys_epoll_wait (ep max : Z) : K → sysres (list (Z * Z)) * K;
  sys_socket : K → sysres Z * K;
  sys_bind (fd port : Z) : K → sysres unit * K;
  sys_listen (fd : Z) : K → sysres unit * K;
  sys_gethostbyname (host : bytes) : K → option bytes * K;
  sys_connect (fd : Z) (addr : bytes) (port : Z) : K → sysres unit * K;
  sys_gettimeofday : K → (Z * Z) * K
}.

(** What reading gives once everything that has arrived is read: nothing yet,
    the end of the stream, or an error. *)
Inductive ending := Open | Closed | Failed (errno : Z).

Definition is_open (e : ending) : bool := match e with Open => true | _ => false end.

Definition end_result (e : ending) : sysres bytes :=
  match e with
  | Open => SysErr EAGAIN
  | Closed => SysOk []
  | Failed errno => SysErr errno
  end.

(** Stream sockets and epoll: [inbox] is what has arrived and is not read,
    [sent] what was accepted for sending, [interest] the events epoll watches
    for. *)
Class SocketKernel (K : Type) `{Kernel K} := {
  inbox (fd : Z) : K → bytes;
  inbox_end (fd : Z) : K → ending;
  sent (fd : Z) : K → bytes;
  interest (fd : Z) : K → Z;

  failed_errno fd k e : inbox_end fd k = Failed e → e ≠ EAGAIN;
  read_some fd n k : inbox fd k ≠ [] → 0 < n →
    ∃ m k', sys_read fd n k = (SysOk (take m (inbox fd k)), k') ∧
      0 < Z.of_nat m ≤ n ∧ (m ≤ length (inbox fd k))%nat ∧
      inbox fd k' = drop m (inbox fd k);
  read_end fd n k : inbox fd k = [] → 0 < n →
    ∃ k', sys_read fd n k = (end_result (inbox_end fd k), k') ∧ inbox fd k' = [];
  read_frame fd n k fd' :
    inbox_end fd' (sys_read fd n k).2 = inbox_end fd' k ∧
    sent fd' (sys_read fd n k).2 = sent fd' k ∧
    interest fd' (sys_read fd n k).2 = interest fd' k;
  write_sent fd data k :
    match sys_write fd data k with
    | (SysOk r, k') => 0 ≤ r ≤ len data ∧ sent fd k' = sent fd k ++ take (Z.to_nat r) data
    | (SysErr _, k') => sent fd k' = sent fd k
    end;
  write_frame fd data k fd' :
    interest fd' (sys_write fd data k).2 = interest fd' k;
  mod_interest ep fd ev k k' :
    sys_epoll_mod ep fd ev k = (SysOk tt, k') → interest fd k' = ev;
  mod_frame ep fd ev k fd' :
    inbox fd' (sys_epoll_mod ep fd ev k).2 = inbox fd' k ∧
    inbox_end fd' (sys_epoll_mod ep fd ev k).2 = inbox_end fd' k ∧
    sent fd' (sys_epoll_mod ep fd ev k).2 = sent fd' k;
  time_range k :
    0 ≤ (sys_gettimeofday k).1.1 < 2 ^ 50 ∧ 0 ≤ (sys_gettimeofday k).1.2 < 1000000;
  time_frame k fd' :
    inbox fd' (sys_gettimeofday k).2 = inbox fd' k ∧
    inbox_end fd' (sys_gettimeofday k).2 = inbox_end fd' k ∧
    sent fd' (sys_gettimeofday k).2 = sent fd' k ∧
    interest fd' (sys_gettimeofday k).2 = interest fd' k
}.

(** ** Mutexes

    The member mutexes of the socket classes, a local one of the program [sclient],
    and the ones on the heap that a connection's read and write resources point
    to. *)
Inductive mutex :=
  | Conn_mutex | Hs_mutex | Cb_mutex | Eh_mutex | Z_mutex
  | R_mutex | W_mutex | E_mutex
  | Ipc_mutex
  | RR_mutex (p : nat)
  | WR_mutex (p : nat).

#[export] Instance mutex_eq_dec : EqDecision mutex.
Proof. solve_decision. Defined.

(** The mutexes held by the running thread, latest first; the addresses of the
    mutexes on the heap; and, for the analysis of lock orders, every acquisition
    with the mutexes held at that moment. *)
Record lockstate := LockState {
  held : list mutex;
  live : gset nat;
  next_mutex : nat;
  acquired : list (mutex * list mutex)
}.

Definition no_locks : lockstate := LockState [] ∅ 0 [].

Record world (K X : Type) := World { kern : K; locks : lockstate; app : X }.
Arguments World {K X} _ _ _.
Arguments kern {K X} _.
Arguments locks {K X} _.
Arguments app {K X} _.

Definition heap_address (m : mutex) : option nat :=
  match m with RR_mutex p | WR_mutex p => Some p | _ => None end.

Definition is_live (m : mutex) (l : lockstate) : bool :=
  match heap_address m with Some p => bool_decide (p ∈ live l) | None => true end.

Section world.
Context {K X : Type}.

Definition set_kern (k : K) (w : world K X) : world K X := World k (locks w) (app w).
Definition set_locks (l : lockstate) (w : world K X) : world K X := World (kern w) l (app w).
Definition set_app (x : X) (w : world K X) : world K X := World (kern w) (locks w) x.

(** A part of the component's data, as a part of the world. *)
Definition in_app {T} (r : ref X T) : ref (world K X) T :=
  Ref (λ w, rd r (app w)) (λ x w, set_app (wr r x (app w)) w).

#[export] Instance in_app_lawful {T} (r : ref X T) : LawfulRef r → LawfulRef (in_app r).
Proof.
  intros [H1 H2 H3]. split; cbn.
  - intros w x y. apply H1.
  - intros w x y. unfold set_app. cbn. by rewrite H2.
  - intros [k l a] x Hx. unfold set_app. cbn in *. by rewrite H3.
Qed.

Definition syscall {A} (f : K → A * K) : M (world K X) A := λ w,
  let '(a, k) := f (kern w) in Ret a (set_kern k w).

(** [std::mutex::lock]: a thread that holds the mutex waits for itself; a deleted
    mutex must not be used. *)
Definition lock (m : mutex) : M (world K X) unit := λ w,
  let l := locks w in
  if negb (is_live m l) then Undef
  else if bool_decide (m ∈ held l) then Blocked
  else Ret tt (set_locks (LockState (m :: held l) (live l) (next_mutex l)
                            (acquired l ++ [(m, held l)])) w).

(** [std::mutex::unlock]: by the thread that holds it. *)
Definition unlock (m : mutex) : M (world K X) unit := λ w,
  let l := locks w in
  if negb (is_live m l) then Undef
  else if bool_decide (m ∈ held l)
  then Ret tt (set_locks (LockState (filter (λ m', m' ≠ m) (held l)) (live l)
                            (next_mutex l) (acquired l)) w)
  else Undef.

(** [new std::mutex()]. *)
Definition new_mutex : M (world K X) nat := λ w,
  let l := locks w in
  Ret (next_mutex l)
    (set_locks (LockState (held l) ({[next_mutex l]} ∪ live l) (Datatypes.S (next_mutex l))
                  (acquired l)) w).

(** [delete] of the mutex at an address: it must be there, and not be held. *)
Definition delete_mutex (p : nat) : M (world K X) unit := λ w,
  let l := locks w in
  if bool_decide (p ∈ live l ∧ (RR_mutex p ∉ held l) ∧ (WR_mutex p ∉ held l))
  then Ret tt (set_locks (LockState (held l) (live l ∖ {[p]}) (next_mutex l) (acquired l)) w)
  else Undef.

(** [Utils::epoch_millis_now]. *)
Definition epoch_millis `{Kernel K} : M (world K X) Z :=
  epoch_millis_now (syscall sys_gettimeofday).
End world.

(** ** Lemmas *)
Lemma has_or a bit : 0 < bit → has (Z.lor a bit) bit = true.
Proof.
  intros Hb. unfold has. destruct (Z.eqb_spec (Z.land (Z.lor a bit) bit) 0) as [E|E]; [|done].
  rewrite Z.land_lor_distr_l, Z.land_diag in E. apply Z.lor_eq_0_iff in E. lia.
Qed.

(** A single bit, tested and switched. *)
Lemma has_testbit a n : 0 ≤ n → has a (2 ^ n) = Z.testbit a n.
Proof.
  intros Hn. unfold has.
  assert (Z.land a (2 ^ n) = if Z.testbit a n then 2 ^ n else 0) as ->.
  { apply Z.bits_inj'. intros m Hm. rewrite Z.land_spec, Z.pow2_bits_eqb by done.
    destruct (Z.eqb_spec n m) as [<-|Hne].
    - destruct (Z.testbit a n); [by rewrite Z.pow2_bits_true by done|by rewrite Z.bits_0].
    - rewrite andb_false_r. destruct (Z.testbit a n); [by rewrite Z.pow2_bits_false|by rewrite Z.bits_0]. }
  destruct (Z.testbit a n); [|done]. by destruct (Z.eqb_spec (2 ^ n) 0); [lia|].
Qed.

Lemma has_lor a m n : 0 ≤ m → 0 ≤ n → has (Z.lor a (2 ^ m)) (2 ^ n) = has a (2 ^ n) || (m =? n).
Proof. intros Hm Hn. by rewrite !has_testbit, Z.lor_spec, Z.pow2_bits_eqb. Qed.

Lemma has_lxor a m n : 0 ≤ m → 0 ≤ n → has (Z.lxor a (2 ^ m)) (2 ^ n) = xorb (has a (2 ^ n)) (m =? n).
Proof. intros Hm Hn. by rewrite !has_testbit, Z.lxor_spec, Z.pow2_bits_eqb. Qed.

(** Switching one of the two events does not change the other. *)
Lemma in_lor_out a : has (Z.lor a EPOLLOUT) EPOLLIN = has a EPOLLIN.
Proof. etransitivity; [by apply (has_lor a 2 0)|apply orb_false_r]. Qed.

Lemma out_lor_in a : has (Z.lor a EPOLLIN) EPOLLOUT = has a EPOLLOUT.
Proof. etransitivity; [by apply (has_lor a 0 2)|apply orb_false_r]. Qed.

Lemma in_lxor_out a : has (Z.lxor a EPOLLOUT) EPOLLIN = has a EPOLLIN.
Proof. etransitivity; [by apply (has_lxor a 2 0)|apply xorb_false_r]. Qed.

Lemma out_lxor_in a : has (Z.lxor a EPOLLIN) EPOLLOUT = has a EPOLLOUT.
Proof. etransitivity; [by apply (has_lxor a 0 2)|apply xorb_false_r]. Qed.

Section lemmas.
Context {K X : Type}.
Implicit Types (w : world K X).

Lemma syscall_run {A} (f : K → A * K) w :
  syscall f w = Ret (f (kern w)).1 (set_kern (f (kern w)).2 w).
Proof. unfold syscall. by destruct (f (kern w)). Qed.

(** The locks after a mutex is taken, after the one taken last is released, and
    after both: then only the trace of the acquisition is left. *)
Definition acquire (m : mutex) (l : lockstate) : lockstate :=
  LockState (m :: held l) (live l) (next_mutex l) (acquired l ++ [(m, held l)]).
Definition release (l : lockstate) : lockstate :=
  LockState (tail (held l)) (live l) (next_mutex l) (acquired l).
Definition traced (m : mutex) (l : lockstate) : lockstate :=
  LockState (held l) (live l) (next_mutex l) (acquired l ++ [(m, held l)]).

Lemma release_acquire m l : release (acquire m l) = traced m l.
Proof. done. Qed.

(** A mutex is allocated, and freed. *)
Definition allocated (l : lockstate) : lockstate :=
  LockState (held l) ({[next_mutex l]} ∪ live l) (Datatypes.S (next_mutex l)) (acquired l).
Definition freed (p : nat) (l : lockstate) : lockstate :=
  LockState (held l) (live l ∖ {[p]}) (next_mutex l) (acquired l).

Lemma lock_run m w :
  is_live m (locks w) = true → m ∉ held (locks w) →
  lock m w = Ret tt (set_locks (acquire m (locks w)) w).
Proof. intros H1 H2. unfold lock. by rewrite H1, bool_decide_eq_false_2. Qed.

Lemma lock_held m w : is_live m (locks w) = true → m ∈ held (locks w) → lock m w = Blocked.
Proof. intros H1 H2. unfold lock. by rewrite H1, bool_decide_eq_true_2. Qed.

Lemma lock_dead m w : is_live m (locks w) = false → lock m w = Undef.
Proof. intros H1. unfold lock. by rewrite H1. Qed.

Lemma filter_fresh (m : mutex) (l : list mutex) : m ∉ l → filter (λ m', m' ≠ m) l = l.
Proof.
  induction l as [|m' l IH]; [done|].
  intros [? Hm]%not_elem_of_cons. by rewrite filter_cons_True, IH by done.
Qed.

(** Releasing the mutex that was taken last. *)
Lemma unlock_run m l w :
  is_live m (locks w) = true → held (locks w) = m :: l → m ∉ l →
  unlock m w = Ret tt (set_locks (release (locks w)) w).
Proof.
  intros H1 H2 H3. unfold unlock, release. rewrite H1, bool_decide_eq_true_2 by (rewrite H2; set_solver).
  cbn zeta. rewrite H2, filter_cons_False by (intros H; by apply H).
  by rewrite filter_fresh.
Qed.

Lemma delete_mutex_run p w :
  p ∈ live (locks w) → RR_mutex p ∉ held (locks w) → WR_mutex p ∉ held (locks w) →
  delete_mutex p w = Ret tt (set_locks (freed p (locks w)) w).
Proof. intros. unfold delete_mutex. by rewrite bool_decide_eq_true_2. Qed.

Section bind.
Context {A : Type}.

Lemma bind_syscall {B} (f : K → B * K) (k : B → M (world K X) A) w :
  (syscall f ≫= k) w = k (f (kern w)).1 (set_kern (f (kern w)).2 w).
Proof. by rewrite (bind_run _ _ _ _ _ (syscall_run f w)). Qed.

Lemma bind_load {T} (r : ref X T) x (k : T → M (world K X) A) w :
  rd r (app w) = Some x → (load (in_app r) ≫= k) w = k x w.
Proof. intros Hx. by rewrite (bind_run _ _ _ _ _ (load_run (in_app r) w x Hx)). Qed.

Lemma bind_store {T} (r : ref X T) x y (k : unit → M (world K X) A) w :
  rd r (app w) = Some y → (store (in_app r) x ≫= k) w = k tt (set_app (wr r x (app w)) w).
Proof. intros Hx. by rewrite (bind_run _ _ _ _ _ (store_run (in_app r) w x y Hx)). Qed.

Lemma bind_new_mutex (k : nat → M (world K X) A) w :
  (new_mutex ≫= k) w = k (next_mutex (locks w)) (set_locks (allocated (locks w)) w).
Proof. done. Qed.

Lemma bind_lock m (k : unit → M (world K X) A) w :
  is_live m (locks w) = true → m ∉ held (locks w) →
  (lock m ≫= k) w = k tt (set_locks (acquire m (locks w)) w).
Proof. intros H1 H2. by rewrite (bind_run _ _ _ _ _ (lock_run m w H1 H2)). Qed.

Lemma bind_unlock m l (k : unit → M (world K X) A) w :
  is_live m (locks w) = true → held (locks w) = m :: l → m ∉ l →
  (unlock m ≫= k) w = k tt (set_locks (release (locks w)) w).
Proof. intros H1 H2 H3. by rewrite (bind_run _ _ _ _ _ (unlock_run m l w H1 H2 H3)). Qed.
End bind.
End lemmas.

(** ** Lock order

    A rank per mutex, and the property of a run that every mutex was taken while
    only mutexes of smaller rank were held. *)
Section order.
Context (rank : mutex → nat).

Definition below (m : mutex) (hs : list mutex) : Prop := Forall (λ h, (rank h < rank m)%nat) hs.

Definition ordered (l : lockstate) : Prop := Forall (λ a, below a.1 a.2) (acquired l).

Lemma ordered_acquire m l : ordered l → below m (held l) → ordered (acquire m l).
Proof. intros H1 H2. apply Forall_app. by repeat constructor. Qed.

Lemma ordered_traced m l : ordered l → below m (held l) → ordered (traced m l).
Proof. intros H1 H2. apply Forall_app. by repeat constructor. Qed.

(** Threads that each wait for a mutex while they hold others, as the runs above
    record it, cannot all wait for each other. *)
Lemma ordered_no_cycle (threads : list (mutex * list mutex)) :
  threads ≠ [] → Forall (λ t, below t.1 t.2) threads →
  ¬ ∀ t, t ∈ threads → ∃ t', t' ∈ threads ∧ t.1 ∈ t'.2.
Proof.
  intros Hne Hb Hc.
  assert (∀ n, ∃ t, t ∈ threads ∧ (n ≤ rank t.1)%nat) as Hup.
  { induction n as [|n (t & Ht & Hn)].
    - destruct threads as [|t ts]; [done|]. exists t. split; [by left|lia].
    - destruct (Hc t Ht) as (t' & Ht' & Hin). exists t'. split; [done|].
      rewrite Forall_forall in Hb. specialize (Hb t' Ht'). unfold below in Hb.
      rewrite Forall_forall in Hb. specialize (Hb _ Hin). lia. }
  destruct (Hup (Datatypes.S (sum_list_with (λ t, rank t.1) threads))) as (t & Ht & Hn).
  apply list_elem_of_lookup in Ht as [i Hi].
  pose proof (sum_ge (λ t, rank t.1) threads i t Hi). lia.
Qed.
End order.

(** ** The clock *)
Definition now_ms {K} `{Kernel K} (k : K) : Z :=
  let tv := (sys_gettimeofday k).1 in tv.1 * 1000 + Z.quot tv.2 1000.

Section clock.
Context {K X : Type} `{SocketKernel K}.

Lemma now_range (k : K) : 0 ≤ now_ms k < 2 ^ 60.
Proof.
  unfold now_ms. pose proof (time_range k) as [H1 H2].
  destruct (sys_gettimeofday k) as [[s u] k']. cbn [fst snd] in *.
  rewrite Z.quot_div_nonneg by lia.
  pose proof (Z.div_pos u 1000 ltac:(lia) ltac:(lia)).
  assert (u / 1000 < 1000) by (apply Z.div_lt_upper_bound; lia). lia.
Qed.

Lemma epoch_millis_run (w : world K X) :
  epoch_millis w = Ret (now_ms (kern w)) (set_kern (sys_gettimeofday (kern w)).2 w).
Proof.
  unfold epoch_millis, epoch_millis_now. rewrite bind_syscall.
  pose proof (now_range (kern w)) as Hn. destruct (time_range (kern w)) as [H1 H2].
  unfold now_ms in *. cbn zeta in *.
  assert (∀ z, 0 ≤ z < 2 ^ 62 → fits_s64 z = true) as F.
  { intros z Hz. unfold fits_s64.
    by rewrite (proj2 (Z.leb_le _ _)), (proj2 (Z.ltb_lt _ _)) by lia. }
  unfold checked_s64. rewrite F, bind_ret_l, F, bind_ret_l, wrap_small by lia. done.
Qed.
End clock.

(** Runs the statements whose effect is known, one after the other. *)
Ltac lock_side :=
  first [ reflexivity | assumption | solve [auto 2]
        | apply not_elem_of_nil
        | apply bool_decide_eq_true_2; cbn; first [assumption | set_solver]
        | by (cbn; rewrite ?not_elem_of_cons; split_and?; (done || set_solver)) ].

Ltac wstep :=
  first
    [ rewrite bind_assoc | rewrite bind_ret_l | rewrite bind_syscall | rewrite bind_new_mutex
    | rewrite bind_lock by lock_side
    | erewrite bind_load by (cbn; first [eassumption | reflexivity])
    | erewrite bind_store by (cbn; first [eassumption | reflexivity])
    | erewrite bind_unlock by lock_side
    | erewrite unlock_run by lock_side ];
  unfold set_kern, set_locks, set_app;
  cbn [kern locks app held live next_mutex acquire allocated tail fst snd]; rewrite ?release_acquire.
