(* ===== verification/Simulation.v ===== *)
(** * A simulated operating system

    One concrete [Kernel], executable, with the laws of [SocketKernel]: it shows
    that the laws can hold together, and the theorems about sockets are run on it
    in examples. *)

From S2P Require Import Prelude Kernel.

(** What the simulated machine will answer: [inq] and [ends] per descriptor; how
    much each coming [write] accepts ([EAGAIN] when none is left); the connections
    that wait to be accepted, with their addresses; the batches of events of the
    coming [epoll_wait]s; whether [epoll_ctl] fails; the clock. *)
Record sim := Sim {
  inq : gmap Z bytes;
  ends : gmap Z ending;
  outq : gmap Z bytes;
  watched : gmap Z Z;
  rooms : list Z;
  backlog : list (Z * bytes);
  batches : list (list (Z * Z));
  ctl_fails : bool;
  clock : Z * Z;
  next_fd : Z;
  closed : list Z
}.

Definition sim_empty : sim :=
  Sim ∅ ∅ ∅ ∅ [] [] [] false (1000, 0) 5 [].

Definition set_inq (m : gmap Z bytes) (k : sim) : sim :=
  Sim m (ends k) (outq k) (watched k) (rooms k) (backlog k) (batches k) (ctl_fails k)
    (clock k) (next_fd k) (closed k).
Definition set_out (m : gmap Z bytes) (r : list Z) (k : sim) : sim :=
  Sim (inq k) (ends k) m (watched k) r (backlog k) (batches k) (ctl_fails k)
    (clock k) (next_fd k) (closed k).
Definition set_watched (m : gmap Z Z) (k : sim) : sim :=
  Sim (inq k) (ends k) (outq k) m (rooms k) (backlog k) (batches k) (ctl_fails k)
    (clock k) (next_fd k) (closed k).
Definition set_backlog (b : list (Z * bytes)) (k : sim) : sim :=
  Sim (inq k) (ends k) (outq k) (watched k) (rooms k) b (batches k) (ctl_fails k)
    (clock k) (next_fd k) (closed k).
Definition set_batches (b : list (list (Z * Z))) (k : sim) : sim :=
  Sim (inq k) (ends k) (outq k) (watched k) (rooms k) (backlog k) b (ctl_fails k)
    (clock k) (next_fd k) (closed k).
Definition set_next_fd (fd : Z) (k : sim) : sim :=
  Sim (inq k) (ends k) (outq k) (watched k) (rooms k) (backlog k) (batches k) (ctl_fails k)
    (clock k) fd (closed k).
Definition set_closed (l : list Z) (k : sim) : sim :=
  Sim (inq k) (ends k) (outq k) (watched k) (rooms k) (backlog k) (batches k) (ctl_fails k)
    (clock k) (next_fd k) l.
Definition set_clock (c : Z * Z) (k : sim) : sim :=
  Sim (inq k) (ends k) (outq k) (watched k) (rooms k) (backlog k) (batches k) (ctl_fails k)
    c (next_fd k) (closed k).

Definition sim_inbox (fd : Z) (k : sim) : bytes := default [] (inq k !! fd).
Definition sim_end (fd : Z) (k : sim) : ending :=
  match ends k !! fd with
  | None => Open
  | Some (Failed e) => if decide (e = EAGAIN) then Open else Failed e
  | Some e => e
  end.
Definition sim_sent (fd : Z) (k : sim) : bytes := default [] (outq k !! fd).
Definition sim_interest (fd : Z) (k : sim) : Z := default 0 (watched k !! fd).

Definition sim_read (fd n : Z) (k : sim) : sysres bytes * sim :=
  if 0 <? n then
    match sim_inbox fd k with
    | [] => (end_result (sim_end fd k), k)
    | b => (SysOk (take (Z.to_nat n) b), set_inq (<[fd := drop (Z.to_nat n) b]> (inq k)) k)
    end
  else (SysOk [], k).

Definition sim_write (fd : Z) (data : bytes) (k : sim) : sysres Z * sim :=
  match rooms k with
  | [] => (SysErr EAGAIN, k)
  | r :: rs =>
      let n := Z.max 0 (Z.min r (len data)) in
      (SysOk n, set_out (<[fd := sim_sent fd k ++ take (Z.to_nat n) data]> (outq k)) rs k)
  end.

Definition sim_ctl (fd ev : Z) (k : sim) : sysres unit * sim :=
  if ctl_fails k then (SysErr 2, k)
  else (SysOk tt, set_watched (<[fd := ev]> (watched k)) k).

#[export] Instance sim_kernel : Kernel sim := {
  sys_read := sim_read;
  sys_write := sim_write;
  sys_close fd k := set_closed (closed k ++ [fd]) k;
  sys_accept fd k :=
    match backlog k with
    | [] => (SysErr EAGAIN, k)
    | (c, a) :: b => (SysOk (c, a), set_backlog b k)
    end;
  sys_getnameinfo addr k := (match addr with [] => -2 | _ => 0 end, k);
  sys_getfl fd k := (SysOk 2, k);
  sys_setfl fd fl k := (SysOk tt, k);
  sys_epoll_create k := (SysOk (next_fd k), set_next_fd (next_fd k + 1) k);
  sys_epoll_add ep fd ev := sim_ctl fd ev;
  sys_epoll_mod ep fd ev := sim_ctl fd ev;
  sys_epoll_wait ep max k :=
    match batches k with
    | [] => (SysErr 4, k)
    | b :: bs => (SysOk (take (Z.to_nat max) b), set_batches bs k)
    end;
  sys_socket k := (SysOk (next_fd k), set_next_fd (next_fd k + 1) k);
  sys_bind fd port k := (SysOk tt, k);
  sys_listen fd k := (SysOk tt, k);
  sys_gethostbyname host k := (match host with [] => None | _ => Some host end, k);
  sys_connect fd addr port k := (SysOk tt, k);
  sys_gettimeofday k := ((Z.max 0 (Z.min (clock k).1 1000000000000), Z.rem (Z.abs (clock k).2) 1000000), k)
}.

#[export, refine] Instance sim_socket_kernel : SocketKernel sim := {
  inbox := sim_inbox;
  inbox_end := sim_end;
  sent := sim_sent;
  interest := sim_interest
}.
Proof.
  - intros fd k e. unfold sim_end. destruct (ends k !! fd) as [[]|]; try done.
    destruct (decide (errno = EAGAIN)); [done|congruence].
  - intros fd n k Hi Hn. cbn. unfold sim_read.
    rewrite (proj2 (Z.ltb_lt _ _) Hn).
    set (m := Nat.min (Z.to_nat n) (length (sim_inbox fd k))).
    assert (0 < length (sim_inbox fd k))%nat by (destruct (sim_inbox fd k); simpl; [done|lia]).
    exists m, (set_inq (<[fd := drop (Z.to_nat n) (sim_inbox fd k)]> (inq k)) k).
    split_and!; [|lia|lia|lia|].
    + destruct (sim_inbox fd k) as [|c b] eqn:E; [done|].
      do 2 f_equal. destruct (decide (Z.to_nat n ≤ length (c :: b))%nat).
      * by replace m with (Z.to_nat n) by (unfold m; lia).
      * by rewrite !take_ge by (unfold m; lia).
    + unfold sim_inbox at 1. cbn. rewrite lookup_insert_eq. cbn.
      destruct (decide (Z.to_nat n ≤ length (sim_inbox fd k))%nat).
      * by replace m with (Z.to_nat n) by (unfold m; lia).
      * by rewrite !drop_ge by (unfold m; lia).
  - intros fd n k Hi Hn. exists k. cbn. unfold sim_read.
    by rewrite (proj2 (Z.ltb_lt _ _) Hn), Hi.
  - intros fd n k fd'. cbn. unfold sim_read.
    destruct (0 <? n); [destruct (sim_inbox fd k)|]; done.
  - intros fd data k. cbn. unfold sim_write. destruct (rooms k) as [|r rs]; [done|].
    split; [lia|]. unfold sim_sent at 1. cbn. by rewrite lookup_insert_eq.
  - intros fd data k fd'. cbn. unfold sim_write. by destruct (rooms k).
  - intros ep fd ev k k'. cbn. unfold sim_ctl. destruct (ctl_fails k); [done|].
    intros [= <-]. unfold sim_interest. cbn. by rewrite lookup_insert_eq.
  - intros ep fd ev k fd'. cbn. unfold sim_ctl. by destruct (ctl_fails k).
  - intros k. cbn [sys_gettimeofday sim_kernel fst snd]. split; [lia|].
    apply Z.rem_bound_pos; lia.
  - done.
Defined.
