(* ===== verification/SocketUtils.v ===== *)
(** * [asutils::SocketUtils]

    Models [src/src/main/cpp/common/socket_utils.cpp] over any [Kernel]: the message
    frames, the loops that drain a socket into a [BufferedReader] and a
    [BufferedWriter] into a socket, and the epoll helpers.  Arguments that C++
    passes by reference ([reader], [writer], [sfd_events]) are references into the
    world; the log messages are not modelled. *)

From S2P Require Import Prelude Utils BufferedReader BufferedWriter Kernel Simulation.

(** ** The resources of a connection *)
Record ReadR (C : Type) := MkReadR {
  r_br : BufferedReader C;
  r_mutex : nat;
  r_is_valid : bool
}.
Arguments MkReadR {C} _ _ _.
Arguments r_br {C} _.
Arguments r_mutex {C} _.
Arguments r_is_valid {C} _.

Record WriteR := MkWriteR {
  w_bw : BufferedWriter;
  w_mutex : nat;
  w_is_valid : bool
}.

(** ** Message frames *)

(** [result[r_i++] = c], [r_i] a [uint32_t]. *)
Definition put {S} (c : char) (acc : bytes * Z) : M S (bytes * Z) :=
  let '(result, r_i) := acc in
  result ← set_index result r_i c;
  mret (result, wrap 32 (r_i + 1)).

(** [pack_frame] on C arrays; the array [result] is returned as it is afterwards. *)
Definition pack_frame {S} (id msg : bytes) (msg_size : Z) (result : bytes) : M S bytes :=
  acc ← for_loop 8 37 (λ i acc, c ← index id i; put c acc) (result, 0);
  '(result, r_i) ← for_loop 32 msg_size (λ i acc, c ← index msg i; put c acc) acc;
  set_index result r_i EOT.

(** [pack_frame] on vectors. *)
Definition pack_frame_v {S} (id msg result : bytes) : M S bytes :=
  acc ← for_loop 8 37 (λ i acc, c ← index id i; put c acc) (result, 0);
  '(result, r_i) ← for_loop 32 (len msg) (λ i acc, c ← index msg i; put c acc) acc;
  set_index result r_i EOT.

(** [msg_size - 1] is a [size_t]. *)
Definition unpack_frame {S} (msg : bytes) (msg_size : Z) (uuid_v msg_v : bytes)
    : M S (bytes * bytes) :=
  for_loop 32 (wrap 64 (msg_size - 1)) (λ i '(uuid_v, msg_v),
    c ← index msg i;
    if i <? 37 then mret (uuid_v ++ [c], msg_v) else mret (uuid_v, msg_v ++ [c]))
    (uuid_v, msg_v).

(** ** Sockets *)
Section sockets.
Context {K X : Type} `{Kernel K}.

Definition unblock_socket (sfd : Z) : M (world K X) unit :=
  r ← syscall (sys_getfl sfd);
  match r with
  | SysErr _ => exit_with 1
  | SysOk flags =>
      if flags <? 0 then exit_with 1
      else
        r ← syscall (sys_setfl sfd (Z.lor flags O_NONBLOCK));
        if int_result r <? 0 then exit_with 1 else mret tt
  end.

Definition create_and_config_epoll (sfd : Z) : M (world K X) Z :=
  r ← syscall sys_epoll_create;
  match r with
  | SysErr _ => exit_with 1
  | SysOk ep_sfd =>
      r ← syscall (sys_epoll_add ep_sfd sfd EPOLLIN);
      if int_result r <? 0 then exit_with 1 else mret ep_sfd
  end.

(** [add_result] is a [uint32_t]: it is never negative. *)
Definition add_fd_to_epoll (fuel : nat) (ep_sfd sfd : Z) (sa_callback : Z → M (world K X) unit)
    : M (world K X) unit :=
  while_loop fuel (λ _,
    r ← syscall (sys_accept sfd);
    match r with
    | SysErr errno => mret (inr tt)
    | SysOk (cin_fd, cin_addr) =>
        get_name_result ← syscall (sys_getnameinfo cin_addr);
        if get_name_result =? 0 then
          unblock_socket cin_fd;;
          r ← syscall (sys_epoll_add ep_sfd cin_fd EPOLLIN);
          let add_result := wrap 32 (int_result r) in
          if add_result <? 0 then mret (inl tt)
          else sa_callback cin_fd;; mret (inl tt)
        else mret (inl tt)
    end) tt.

(** [update_result] is a [uint32_t]; the branch for a failure only logs. *)
Definition set_epoll (ep_sfd sfd events : Z) : M (world K X) unit :=
  r ← syscall (sys_epoll_mod ep_sfd sfd events);
  let update_result := wrap 32 (int_result r) in
  if update_result <? 0 then mret tt else mret tt.

(** [sfd_events[sfd] |= bit] and the [set_epoll] that follows, under [e_mutex]. *)
Definition arm (bit ep_sfd sfd : Z) (sfd_events : ref (world K X) (gmap Z Z)) (e_mutex : mutex)
    : M (world K X) unit :=
  lock e_mutex;;
  ev ← load sfd_events;
  store sfd_events (<[sfd := Z.lor (get0 ev sfd) bit]> ev);;
  ev ← load sfd_events;
  set_epoll ep_sfd sfd (get0 ev sfd);;
  unlock e_mutex.

Section read.
Context {C : Type} (run : C → bytes → M (world K X) unit).

Definition read_from_sfd (fuel : nat) (ep_sfd sfd : Z)
    (reader : ref (world K X) (BufferedReader C)) (close_callback : M (world K X) unit)
    (sfd_events : ref (world K X) (gmap Z Z)) (e_mutex : mutex) : M (world K X) unit :=
  set_epollin ← while_loop fuel (λ _,
    bytes_read ← syscall (sys_read sfd 1024);
    match bytes_read with
    | SysErr errno =>
        if errno =? EAGAIN then mret (inr true)
        else close_callback;; mret (inr false)
    | SysOk r_buff =>
        if len r_buff =? 0 then close_callback;; mret (inr false)
        else BufferedReader.read run reader r_buff (len r_buff);; mret (inl tt)
    end) tt;
  if set_epollin : bool then arm EPOLLIN ep_sfd sfd sfd_events e_mutex else mret tt.
End read.

(** The loop clears [b_size] bytes whatever number [write] accepted. *)
Definition write_to_sfd (fuel : nat) (ep_sfd sfd : Z)
    (writer : ref (world K X) BufferedWriter) (close_callback : M (world K X) unit)
    (sfd_events : ref (world K X) (gmap Z Z)) (e_mutex : mutex) : M (world K X) unit :=
  while_loop fuel (λ _,
    n ← BufferedWriter.size writer;
    if 0 <? n then
      let b_size := if n <? 1024 then n else 1024 in
      r_buff ← iread writer (replicate (Z.to_nat b_size) NUL) b_size;
      r ← syscall (sys_write sfd r_buff);
      match r with
      | SysErr errno =>
          (if errno =? EAGAIN then arm EPOLLOUT ep_sfd sfd sfd_events e_mutex
           else close_callback);;
          mret (inr tt)
      | SysOk _ => clear writer b_size;; mret (inl tt)
      end
    else mret (inr tt)) tt.
End sockets.

(** ** Frames: lemmas *)

(** The frame of a message: identifier, message, delimiter. *)
Definition frame_of (id msg : bytes) : bytes := id ++ msg ++ [EOT].

Lemma put_all {S} l pre buf (s : S) :
  len l ≤ len buf → len pre + len l < 2 ^ 32 →
  fold_m put l (pre ++ buf, len pre) s =
  Ret (pre ++ l ++ drop (length l) buf, len pre + len l) s.
Proof.
  revert pre buf. induction l as [|c l IH]; intros pre buf Hl Hn; simpl in Hl.
  - simpl. by rewrite Z.add_0_r.
  - destruct buf as [|b buf]; [simpl in Hl; lia|]. cbn [fold_m put].
    rewrite bind_assoc.
    erewrite bind_run; [|apply set_index_lt; rewrite length_app; simpl; lia].
    rewrite Nat2Z.id, insert_app_r_alt, Nat.sub_diag by done.
    rewrite bind_ret_l, wrap_small by (simpl in Hn; lia). cbn [list_insert insert].
    specialize (IH (pre ++ [c]) buf). rewrite <-app_assoc, length_app in IH. simpl in IH.
    replace (len pre + 1) with (Z.of_nat (length pre + 1)) by lia.
    rewrite IH by (simpl in *; lia). cbn [length drop].
    rewrite <-app_assoc. simpl. do 2 f_equal. lia.
Qed.

Lemma pack_frame_run {S} id msg n result (s : S) :
  37 ≤ len id → 0 ≤ n ≤ len msg → 38 + n ≤ len result → 38 + n < 2 ^ 32 →
  pack_frame id msg n result s =
  Ret (take 37 id ++ take (Z.to_nat n) msg ++ EOT :: drop (Z.to_nat (38 + n)) result) s.
Proof.
  intros Hid Hn Hr H32. unfold pack_frame.
  assert (length (take 37 id) = 37%nat) as H37 by (rewrite length_take; lia).
  assert (length (take (Z.to_nat n) msg) = Z.to_nat n) as Hm by (rewrite length_take; lia).
  erewrite bind_run.
  2: { rewrite for_index_total by lia. change (Z.to_nat 37) with 37%nat.
       apply (put_all (take 37 id) [] result); simpl; lia. }
  erewrite bind_run.
  2: { rewrite for_index_total by lia. cbn [app].
       change (Z.of_nat (length (@nil char))) with 0. rewrite Z.add_0_l.
       apply (put_all _ (take 37 id) (drop (length (take 37 id)) result)); rewrite ?length_drop; lia. }
  cbn beta iota.
  rewrite set_index_lt by (rewrite !length_app, !length_drop; lia).
  do 2 f_equal. rewrite Hm, H37, drop_drop, !app_assoc, insert_app_r_alt
    by (rewrite !length_app; lia).
  rewrite <-!app_assoc. do 2 f_equal.
  rewrite length_app, Hm, H37. replace (_ - _)%nat with 0%nat by lia.
  replace (Z.to_nat (38 + n)) with (Datatypes.S (37 + Z.to_nat n)) by lia.
  destruct (lookup_lt_is_Some_2 result (37 + Z.to_nat n)) as [x Hx]; [lia|].
  by rewrite (drop_S _ _ _ Hx).
Qed.

Lemma pack_frame_v_eq {S} id msg result (s : S) :
  pack_frame_v id msg result s = pack_frame id msg (len msg) result s.
Proof. reflexivity. Qed.

(** An array of exactly the size of the frame is filled. *)
Lemma pack_frame_exact {S} id msg result (s : S) :
  len id = 37 → len result = 38 + len msg → 38 + len msg < 2 ^ 32 →
  pack_frame id msg (len msg) result s = Ret (frame_of id msg) s.
Proof.
  intros Hid Hr H32. rewrite pack_frame_run by lia.
  rewrite Nat2Z.id, firstn_all, !take_ge, drop_ge by lia. done.
Qed.

(** The loop over the 37 bytes of an identifier that is too short. *)
Lemma pack_id_short {S} id result (s : S) :
  len id < 37 → len id < len result →
  for_loop 8 37 (λ i acc, c ← index id i; put c acc) (result, 0) s = Undef.
Proof.
  intros Hid Hr. rewrite for_loop_total by lia.
  replace 37 with (len id + Z.succ (36 - len id)) by lia.
  rewrite seqZ_app, fold_m_app, bind_unfold by lia.
  rewrite (fold_m_index_from id put 0 (len id)) by lia.
  rewrite Nat2Z.id, drop_0, firstn_all.
  pose proof (put_all id [] result s) as E. simpl in E.
  change (Z.of_nat 0) with 0 in E. rewrite E by lia.
  rewrite seqZ_cons by lia. cbn [fold_m]. rewrite bind_assoc, bind_unfold.
  by rewrite index_ge by lia.
Qed.

Lemma pack_frame_short {S} id msg n result (s : S) :
  len id < 37 → len id < len result → pack_frame id msg n result s = Undef.
Proof. intros. unfold pack_frame. by rewrite bind_unfold, pack_id_short. Qed.

(** Bytes that do not fit. *)
Lemma put_overflow {S} l pre buf (s : S) :
  len buf < len l → len pre + len buf < 2 ^ 32 → fold_m put l (pre ++ buf, len pre) s = Undef.
Proof.
  revert pre buf. induction l as [|c l IH]; intros pre buf Hl Hn; simpl in Hl; [lia|].
  cbn [fold_m put]. rewrite bind_assoc. destruct buf as [|b buf].
  - rewrite bind_unfold, set_index_ge by (rewrite length_app; cbn; lia). done.
  - erewrite bind_run; [|apply set_index_lt; rewrite length_app; simpl; lia].
    rewrite Nat2Z.id, insert_app_r_alt, Nat.sub_diag by done.
    rewrite bind_ret_l, wrap_small by (simpl in Hn; lia). cbn [list_insert insert].
    specialize (IH (pre ++ [c]) buf). rewrite <-app_assoc, length_app in IH. simpl in IH.
    replace (len pre + 1) with (Z.of_nat (length pre + 1)) by lia.
    apply IH; simpl in *; lia.
Qed.

(** An array that is too small for the frame is overrun. *)
Lemma pack_frame_overrun {S} id msg n result (s : S) :
  37 ≤ len id → 0 ≤ n ≤ len msg → len result < 38 + n → len result < 2 ^ 32 →
  pack_frame id msg n result s = Undef.
Proof.
  intros Hid Hn Hr H32. unfold pack_frame. rewrite bind_unfold.
  assert (∀ (k : Z) (l : bytes) acc (s : S), 0 ≤ k ≤ len l →
    fold_m (λ i acc, c ← index l i; put c acc) (seqZ 0 k) acc s = fold_m put (take (Z.to_nat k) l) acc s) as Hix.
  { intros k l acc s' Hk. rewrite (fold_m_index_from l put 0 k) by lia. by rewrite drop_0. }
  destruct (decide (len result < 37)) as [Hs|Hl].
  { rewrite (for_loop_total 8) by lia. rewrite Hix by lia. pose proof (put_overflow (take 37 id) [] result s) as E.
    cbn [length] in E. change (Z.of_nat 0) with 0 in E. rewrite app_nil_l in E.
    change (Z.to_nat 37) with 37%nat. rewrite E; [done|rewrite length_take; lia|lia]. }
  rewrite (for_loop_total 8), Hix by lia. change (Z.to_nat 37) with 37%nat.
  pose proof (put_all (take 37 id) [] result s) as E. cbn [length] in E. change (Z.of_nat 0) with 0 in E.
  rewrite !app_nil_l in E. rewrite E by (rewrite length_take; lia). clear E. rewrite Z.add_0_l.
  set (pre := take 37 id). set (buf := drop (length pre) result).
  assert (length pre = 37%nat) as Hpre by (unfold pre; rewrite length_take; lia).
  assert (len buf = len result - 37) as Hbuf by (unfold buf; rewrite length_drop; lia).
  rewrite bind_unfold. destruct (decide (len buf < n)) as [Ho|Hf].
  - rewrite (for_loop_undef 32 n (len buf + 1)); [done|lia|lia|]. rewrite Hix by lia.
    apply put_overflow; [rewrite length_take; lia|lia].
  - rewrite (for_loop_total 32), Hix by lia.
    rewrite (put_all (take (Z.to_nat n) msg) pre buf) by (rewrite ?length_take; lia).
    assert (len buf = n) as Hn' by lia. rewrite drop_ge by (rewrite length_take; lia).
    apply set_index_ge. rewrite app_nil_r, length_app, !length_take. lia.
Qed.

Lemma unpack_loop {S} (msg : bytes) n (u v : bytes) (s : S) :
  0 ≤ n ≤ len msg → n < 2 ^ 32 →
  for_loop 32 n (λ i '(uuid_v, msg_v),
    c ← index msg i;
    if i <? 37 then mret (uuid_v ++ [c], msg_v) else mret (uuid_v, msg_v ++ [c])) (u, v) s =
  Ret (u ++ take 37 (take (Z.to_nat n) msg), v ++ drop 37 (take (Z.to_nat n) msg)) s.
Proof.
  intros Hn H32. rewrite for_loop_total by done.
  set (a := Z.min n 37).
  replace n with (a + (n - a)) at 1 by lia. rewrite seqZ_app, fold_m_app by lia.
  assert (∀ (l u v : bytes), foldl (λ (acc : bytes * bytes) c, (acc.1 ++ [c], acc.2)) (u, v) l = (u ++ l, v)) as F1.
  { induction l as [|c l IH]; intros u' v'; simpl; [by rewrite app_nil_r|].
    by rewrite IH, <-app_assoc. }
  assert (∀ (l u v : bytes), foldl (λ (acc : bytes * bytes) c, (acc.1, acc.2 ++ [c])) (u, v) l = (u, v ++ l)) as F2.
  { induction l as [|c l IH]; intros u' v'; simpl; [by rewrite app_nil_r|].
    by rewrite IH, <-app_assoc. }
  erewrite bind_run.
  2: { erewrite (fold_m_ext_in _ (λ i (acc : bytes * bytes), c ← index msg i;
                  mret (acc.1 ++ [c], acc.2))).
       2: { intros i [u' v'] s' Hi. rewrite elem_of_seqZ in Hi.
            rewrite (proj2 (Z.ltb_lt i 37)) by lia. done. }
       rewrite (fold_m_index_from msg (λ c (acc : bytes * bytes), mret (acc.1 ++ [c], acc.2))) by lia.
       by rewrite (fold_m_pure _ (λ (acc : bytes * bytes) c, (acc.1 ++ [c], acc.2))), F1. }
  erewrite (fold_m_ext_in _ (λ i (acc : bytes * bytes), c ← index msg i; mret (acc.1, acc.2 ++ [c]))).
  2: { intros i [u' v'] s' Hi. rewrite elem_of_seqZ in Hi.
       rewrite (proj2 (Z.ltb_ge i 37)) by lia. done. }
  destruct (decide (n ≤ 37)) as [Hle|Hgt].
  - rewrite seqZ_nil by lia. simpl. unfold mret, M_ret.
    change (Z.to_nat 0) with 0%nat. rewrite drop_0.
    replace (Z.to_nat a) with (Z.to_nat n) by lia.
    assert (length (take (Z.to_nat n) msg) ≤ 37)%nat by (rewrite length_take; lia).
    by rewrite (take_ge (take (Z.to_nat n) msg)), (drop_ge (take (Z.to_nat n) msg)), app_nil_r by done.
  - rewrite (fold_m_index_from msg (λ c (acc : bytes * bytes), mret (acc.1, acc.2 ++ [c]))) by lia.
    rewrite (fold_m_pure _ (λ (acc : bytes * bytes) c, (acc.1, acc.2 ++ [c]))), F2 by done.
    rewrite drop_0, take_take, skipn_firstn_comm. do 3 f_equal; f_equal; try lia; f_equal; lia.
Qed.

Lemma unpack_frame_run {S} msg n u v (s : S) :
  1 ≤ n ≤ len msg → n - 1 < 2 ^ 32 →
  unpack_frame msg n u v s =
  Ret (u ++ take 37 (take (Z.to_nat (n - 1)) msg),
       v ++ drop 37 (take (Z.to_nat (n - 1)) msg)) s.
Proof.
  intros Hn H32. unfold unpack_frame. rewrite wrap_small by lia.
  apply unpack_loop; lia.
Qed.

Lemma unpack_frame_of {S} id msg (s : S) :
  len id = 37 → 37 + len msg < 2 ^ 32 →
  unpack_frame (frame_of id msg) (len (frame_of id msg)) [] [] s = Ret (id, msg) s.
Proof.
  intros Hid H32. unfold frame_of.
  assert (len (id ++ msg ++ [EOT]) = 38 + len msg) as Hl by (rewrite !length_app; simpl; lia).
  rewrite unpack_frame_run by lia. rewrite Hl.
  replace (Z.to_nat (38 + len msg - 1)) with (length (id ++ msg)) by (rewrite length_app; lia).
  rewrite app_assoc, take_app_length.
  replace 37%nat with (length id) by lia. by rewrite take_app_length, drop_app_length.
Qed.

(** ** Sockets: lemmas *)
Lemma bind_unit_r {S} (m : M S unit) s : (m;; mret tt) s = m s.
Proof. rewrite bind_unfold. by destruct (m s) as [[] ?|?|?| | |]. Qed.

Section arm.
Context {K X : Type} `{Kernel K}.
Context (sfd_events : ref X (gmap Z Z)) `{!LawfulRef sfd_events} (e_mutex : mutex).

Lemma set_epoll_run ep sfd ev (w : world K X) :
  set_epoll ep sfd ev w = Ret tt (set_kern (sys_epoll_mod ep sfd ev (kern w)).2 w).
Proof.
  unfold set_epoll. run_with (syscall_run (X:=X) (sys_epoll_mod ep sfd ev) w).
  by destruct (_ <? 0).
Qed.

(** What [arm] leaves behind: the mask with the bit set, given to epoll. *)
Definition armed (bit ep sfd : Z) (m : gmap Z Z) (w : world K X) : world K X :=
  let v := Z.lor (get0 m sfd) bit in
  World (sys_epoll_mod ep sfd v (kern w)).2 (traced e_mutex (locks w))
    (wr sfd_events (<[sfd := v]> m) (app w)).

Lemma arm_run bit ep sfd m (w : world K X) :
  rd sfd_events (app w) = Some m →
  is_live e_mutex (locks w) = true → e_mutex ∉ held (locks w) →
  arm bit ep sfd (in_app sfd_events) e_mutex w = Ret tt (armed bit ep sfd m w).
Proof.
  intros Hm Hl Hh. unfold arm. run_with (lock_run e_mutex w Hl Hh).
  assert (rd (in_app sfd_events) (set_locks (acquire e_mutex (locks w)) w) = Some m) as H1 by done.
  run_with (load_run _ _ _ H1).
  run_with (store_run _ _ (<[sfd := Z.lor (get0 m sfd) bit]> m) _ H1).
  erewrite bind_run; [|apply load_run; by erewrite rd_wr].
  run_with (set_epoll_run ep sfd (get0 (<[sfd := Z.lor (get0 m sfd) bit]> m) sfd)
    (wr (in_app sfd_events) (<[sfd := Z.lor (get0 m sfd) bit]> m) (set_locks (acquire e_mutex (locks w)) w))).
  rewrite (unlock_run _ (held (locks w))) by done.
  unfold armed, traced, get0. cbn. by rewrite lookup_insert_eq.
Qed.
End arm.

Section drain.
Context {K X C : Type} `{SocketKernel K} (run : C → bytes → M (world K X) unit).
Context (reader : ref X (BufferedReader C)) `{!LawfulRef reader} (k : C) (fd : Z).
Context (P : list bytes → world K X → Prop) (F : bytes → Prop).
Hypothesis P_wr : ∀ l w br b, rd reader (app w) = Some br → (∀ d, del br = Some d → d ∉ b) →
  P l w → P l (wr (in_app reader) (set_buffer br b) w).
Hypothesis P_run : ∀ l f w br, rd reader (app w) = Some br → call_back br = Some k → P l w → F f →
  ∃ w', run k f w = Ret tt w' ∧ P (l ++ [f]) w' ∧ rd reader (app w') = rd reader (app w) ∧
        inbox fd (kern w') = inbox fd (kern w) ∧ inbox_end fd (kern w') = inbox_end fd (kern w).
Hypothesis P_read : ∀ l w n, P l w → P l (set_kern (sys_read fd n (kern w)).2 w).

(** One chunk goes through the reader. *)
Lemma read_chunk d b data l w frames rest :
  rd reader (app w) = Some (MkBufferedReader b (Some d) (Some k)) → d ∉ b → P l w →
  len data < 2 ^ 64 → feed d b data = (frames, rest) → Forall F frames →
  ∃ w', BufferedReader.read run (in_app reader) data (len data) w = Ret tt w' ∧
        P (l ++ frames) w' ∧ rd reader (app w') = Some (MkBufferedReader rest (Some d) (Some k)) ∧
        inbox fd (kern w') = inbox fd (kern w) ∧ inbox_end fd (kern w') = inbox_end fd (kern w).
Proof.
  intros Hrd Hb HP H64 E HF.
  destruct (read_delivery run (in_app reader) k
    (λ l w', P l w' ∧ inbox fd (kern w') = inbox fd (kern w) ∧
             inbox_end fd (kern w') = inbox_end fd (kern w)) F)
    with (3 := Hrd) (l := l) (data := data) (frames := frames) (rest := rest)
    as (w' & E1 & (HP' & Hi & He) & Hrd'); [| |done|done|done|done|done|by exists w'].
  - intros l' w1 br b' H1 Hd (H2 & H3 & H4). split_and!; [by eapply P_wr|done|done].
  - intros l' f w1 br H1 H2 (H3 & H4 & H5) Hf.
    destruct (P_run l' f w1 br H1 H2 H3 Hf) as (w2 & ? & ? & ? & Hi & He).
    exists w2. by rewrite Hi, He.
Qed.

Lemma read_from_sfd_run fuel ep d b l w frames rest close ev e_mutex :
  rd reader (app w) = Some (MkBufferedReader b (Some d) (Some k)) → d ∉ b → P l w →
  feed d b (inbox fd (kern w)) = (frames, rest) → Forall F frames →
  (length (inbox fd (kern w)) < fuel)%nat →
  ∃ w', P (l ++ frames) w' ∧
        rd reader (app w') = Some (MkBufferedReader rest (Some d) (Some k)) ∧
        inbox fd (kern w') = [] ∧
        read_from_sfd run fuel ep fd (in_app reader) close ev e_mutex w =
        (match inbox_end fd (kern w) with
         | Open => arm EPOLLIN ep fd ev e_mutex
         | _ => close
         end) w'.
Proof.
  revert b l w frames rest. induction fuel as [|fuel IH]; intros b l w frames rest Hrd Hb HP E HF Hf; [lia|].
  unfold read_from_sfd. cbn [while_loop].
  destruct (decide (inbox fd (kern w) = [])) as [Hi|Hi].
  - rewrite Hi in E. injection E as <- <-. rewrite app_nil_r.
    destruct (read_end fd 1024 (kern w) Hi ltac:(lia)) as (k' & E' & Hi').
    exists (set_kern k' w). split_and!; [|done|done|].
    + specialize (P_read l w 1024 HP). by rewrite E' in P_read.
    + rewrite !bind_assoc. run_with (syscall_run (X:=X) (sys_read fd 1024) w). rewrite E'. cbn [fst snd].
      destruct (inbox_end fd (kern w)) as [| |e] eqn:Ee; cbn [end_result].
      * run_pure. done.
      * cbn [length]. change (Z.of_nat 0 =? 0) with true. cbn iota.
        rewrite <-(bind_unit_r close), !bind_assoc. by apply bind_ext.
      * apply failed_errno in Ee. rewrite (proj2 (Z.eqb_neq e EAGAIN) Ee).
        rewrite <-(bind_unit_r close), !bind_assoc. by apply bind_ext.
  - destruct (read_some fd 1024 (kern w) Hi ltac:(lia)) as (m & k' & E' & Hm & Hml & Hi').
    set (data := take m (inbox fd (kern w))) in *.
    assert (len data = Z.of_nat m) as Hd by (unfold data; rewrite length_take; lia).
    rewrite <-(take_drop m (inbox fd (kern w))), feed_app in E. fold data in E.
    destruct (feed d b data) as [f1 b1] eqn:E1.
    destruct (feed d b1 (drop m (inbox fd (kern w)))) as [f2 b2] eqn:E2.
    injection E as <- <-. apply Forall_app in HF as [HF1 HF2].
    assert (inbox_end fd k' = inbox_end fd (kern w)) as He'.
    { pose proof (read_frame fd 1024 (kern w) fd) as (Hx & _). by rewrite E' in Hx. }
    assert (P l (set_kern k' w)) as HP0.
    { specialize (P_read l w 1024 HP). by rewrite E' in P_read. }
    destruct (read_chunk d b data l (set_kern k' w) f1 b1 Hrd Hb HP0 ltac:(lia) E1 HF1)
      as (w1 & Er & HP1 & Hrd1 & Hi1 & He1). cbn [kern set_kern] in Hi1, He1.
    destruct (feed_no_delim _ _ _ _ _ E1 Hb) as [_ Hb1].
    destruct (IH b1 (l ++ f1) w1 f2 b2 Hrd1 Hb1 HP1) as (w2 & HP2 & Hrd2 & Hi2 & Ef).
    + by rewrite Hi1, Hi'.
    + done.
    + rewrite Hi1, Hi', length_drop. lia.
    + exists w2. rewrite <-app_assoc in HP2. split_and!; [done|done|done|].
      rewrite He1, He' in Ef. rewrite <-Ef. unfold read_from_sfd.
      rewrite !bind_assoc. run_with (syscall_run (X:=X) (sys_read fd 1024) w).
      rewrite E'. cbn [fst snd]. rewrite (proj2 (Z.eqb_neq _ _)) by lia.
      rewrite !bind_assoc. run_with Er. by run_pure.
Qed.
End drain.

(** What a run of writes did with the front of the buffer: every chunk with the
    number of its bytes that the kernel accepted. *)
Definition chunks_of (parts : list (bytes * nat)) : bytes := concat (map fst parts).
Definition accepted_of (parts : list (bytes * nat)) : bytes :=
  concat (map (λ p, take p.2 p.1) parts).

(** Bytes that left the buffer without being accepted. *)
Definition lost (parts : list (bytes * nat)) : nat :=
  sum_list_with (λ p, length p.1 - p.2)%nat parts.

Definition well_cut (p : bytes * nat) : Prop :=
  (0 < length p.1)%nat ∧ len p.1 ≤ 1024 ∧ (p.2 ≤ length p.1)%nat.

Lemma chunks_accepted parts :
  Forall well_cut parts →
  (length (chunks_of parts) = length (accepted_of parts) + lost parts)%nat.
Proof.
  induction 1 as [|[c r] parts (_ & _ & Hr) _ IH]; [done|].
  unfold chunks_of, accepted_of, lost in *. cbn in *.
  rewrite !length_app, length_take, IH. lia.
Qed.

Lemma nothing_lost parts :
  Forall well_cut parts → lost parts = 0%nat → accepted_of parts = chunks_of parts.
Proof.
  induction 1 as [|[c r] parts (_ & _ & Hr) _ IH]; [done|].
  unfold chunks_of, accepted_of, lost in *. cbn in *. intros Hl.
  rewrite IH, take_ge by lia. done.
Qed.

Section fill.
Context {K X : Type} `{SocketKernel K}.
Context (writer : ref X BufferedWriter) `{!LawfulRef writer}.

(** One turn of the loop. *)
Lemma write_to_sfd_step fuel ep fd b (w : world K X) close ev e_mutex :
  rd writer (app w) = Some (MkBufferedWriter b) → b ≠ [] →
  write_to_sfd (Datatypes.S fuel) ep fd (in_app writer) close ev e_mutex w =
  match sys_write fd (take 1024 b) (kern w) with
  | (SysErr e, k') =>
      (if e =? EAGAIN then arm EPOLLOUT ep fd ev e_mutex else close) (set_kern k' w)
  | (SysOk _, k') =>
      write_to_sfd fuel ep fd (in_app writer) close ev e_mutex
        (wr (in_app writer) (MkBufferedWriter (drop 1024 b)) (set_kern k' w))
  end.
Proof.
  intros Hrd Hb. assert (rd (in_app writer) w = Some (MkBufferedWriter b)) as Hw by done.
  unfold write_to_sfd. cbn [while_loop]. rewrite bind_assoc. run_with (size_run _ _ _ Hw).
  assert (0 < length b)%nat as Hb0 by (destruct b; simpl; [done|lia]).
  rewrite (proj2 (Z.ltb_lt 0 _)) by lia. set (m := if len b <? 1024 then len b else 1024).
  assert (0 < m ≤ 1024 ∧ m ≤ len b ∧ take (Z.to_nat m) b = take 1024 b ∧ drop (Z.to_nat m) b = drop 1024 b)
    as (Hm & Hmb & Ht & Hd).
  { unfold m. destruct (Z.ltb_spec (len b) 1024); [|split_and!; (lia || done)].
    rewrite Nat2Z.id, firstn_all, (take_ge b 1024), drop_all, (drop_ge b 1024) by lia.
    split_and!; (lia || done). }
  rewrite bind_assoc. erewrite bind_run; [|apply (iread_run _ b _ m _ Hw); rewrite ?length_replicate; lia].
  rewrite (drop_ge (replicate _ _)), app_nil_r by (rewrite length_replicate; lia).
  rewrite Ht, bind_assoc. run_with (syscall_run (X:=X) (sys_write fd (take 1024 b)) w).
  destruct (sys_write fd (take 1024 b) (kern w)) as [[e|r] k'] eqn:Ew; cbn [fst snd].
  - set (fin := if e =? EAGAIN then _ else _).
    rewrite bind_assoc, <-(bind_unit_r fin). by apply bind_ext.
  - rewrite bind_assoc. erewrite bind_run; [|apply (clear_run (in_app writer) b m (set_kern k' w)); [done|lia]].
    rewrite Hd. by run_pure.
Qed.

(** The buffer is empty. *)
Lemma write_to_sfd_empty fuel ep fd (w : world K X) close ev e_mutex :
  rd writer (app w) = Some (MkBufferedWriter []) →
  write_to_sfd (Datatypes.S fuel) ep fd (in_app writer) close ev e_mutex w = Ret tt w.
Proof.
  intros Hrd. assert (rd (in_app writer) w = Some (MkBufferedWriter [])) as Hw by done.
  unfold write_to_sfd. cbn [while_loop]. rewrite bind_assoc. by run_with (size_run _ _ _ Hw).
Qed.

(** The rule of the loop: while it runs [J] holds of what is left and of the kernel, and
    [I] when it has ended; the chunk of a write leaves the buffer unless the write failed. *)
Definition keeps_writing (fd : Z) (J I : bytes → K → Prop) : Prop :=
  (∀ k, J [] k → I [] k) ∧
  ∀ b k, b ≠ [] → J b k →
    match sys_write fd (take 1024 b) k with
    | (SysErr _, k') => I b k'
    | (SysOk _, k') => J (drop 1024 b) k'
    end.

Lemma write_to_sfd_rule fuel ep fd (J I : bytes → K → Prop) b (w : world K X) close ev e_mutex :
  rd writer (app w) = Some (MkBufferedWriter b) → (length b < fuel)%nat →
  keeps_writing fd J I → J b (kern w) →
  ∃ b' w' stop,
    I b' (kern w') ∧ app w' = wr writer (MkBufferedWriter b') (app w) ∧ locks w' = locks w ∧
    (stop = None → b' = []) ∧
    write_to_sfd fuel ep fd (in_app writer) close ev e_mutex w =
    (match stop with
     | None => mret tt
     | Some errno => if errno =? EAGAIN then arm EPOLLOUT ep fd ev e_mutex else close
     end) w'.
Proof.
  intros Hrd Hf [Hend HJ]. revert b w Hrd Hf. induction fuel as [|fuel IH]; intros b w Hrd Hf Hb0; [lia|].
  destruct (decide (b = [])) as [->|Hb].
  { exists [], w, None. rewrite write_to_sfd_empty, wr_rd by done. auto. }
  assert (0 < length b)%nat as Hlen by (destruct b; simpl; [done|lia]).
  rewrite (write_to_sfd_step fuel ep fd b) by done.
  pose proof (HJ b (kern w) Hb Hb0) as Hs.
  destruct (sys_write fd (take 1024 b) (kern w)) as [[e|r] k'].
  - exists b, (set_kern k' w), (Some e). split_and!; try done. cbn. by rewrite wr_rd.
  - destruct (IH (drop 1024 b) (wr (in_app writer) (MkBufferedWriter (drop 1024 b)) (set_kern k' w)))
      as (b' & w' & stop & H1 & H2 & H3 & H4 & H5).
    { cbn. by erewrite rd_wr. }
    { rewrite length_drop. lia. }
    { done. }
    exists b', w', stop. split_and!; try done. rewrite H2. cbn. by rewrite wr_wr.
Qed.

Lemma write_to_sfd_run fuel ep fd b (w : world K X) close ev e_mutex :
  rd writer (app w) = Some (MkBufferedWriter b) → (length b < fuel)%nat →
  ∃ parts b' w' stop,
    chunks_of parts ++ b' = b ∧ Forall well_cut parts ∧
    sent fd (kern w') = sent fd (kern w) ++ accepted_of parts ∧
    app w' = wr writer (MkBufferedWriter b') (app w) ∧ locks w' = locks w ∧
    (stop = None → b' = []) ∧
    write_to_sfd fuel ep fd (in_app writer) close ev e_mutex w =
    (match stop with
     | None => mret tt
     | Some errno => if errno =? EAGAIN then arm EPOLLOUT ep fd ev e_mutex else close
     end) w'.
Proof.
  intros Hrd Hf.
  set (I := λ b' k, ∃ parts, chunks_of parts ++ b' = b ∧ Forall well_cut parts ∧
    sent fd k = sent fd (kern w) ++ accepted_of parts).
  destruct (write_to_sfd_rule fuel ep fd I I b w close ev e_mutex Hrd Hf)
    as (b' & w' & stop & (parts & H1 & H2 & H3) & H4 & H5 & H6 & H7); [| |by exists parts, b', w', stop].
  - split; [done|]. intros b' k Hb (parts & <- & H2 & H3). pose proof (write_sent fd (take 1024 b') k) as Hs.
    destruct (sys_write fd (take 1024 b') k) as [[e|r] k'].
    + exists parts. by rewrite Hs.
    + destruct Hs as [Hr Hs]. exists (parts ++ [(take 1024 b', Z.to_nat r)]).
      unfold chunks_of, accepted_of in *. rewrite !map_app, !concat_app. cbn [map concat fst snd].
      rewrite !app_nil_r, <-!app_assoc, take_drop. split_and!; [done| |by rewrite Hs, H3, app_assoc].
      apply Forall_app. split; [done|]. constructor; [|done]. unfold well_cut. cbn [fst snd].
      assert (0 < length b')%nat by (destruct b'; simpl; [done|lia]). rewrite length_take in *. lia.
  - exists []. cbn. by rewrite app_nil_r.
Qed.

(** A kernel that will accept the next [n] writes of a chunk as a whole. *)
Fixpoint roomy (fd : Z) (n : nat) (k : K) : Prop :=
  match n with
  | O => True
  | Datatypes.S n' => ∀ data, len data ≤ 1024 →
      ∃ k', sys_write fd data k = (SysOk (len data), k') ∧ roomy fd n' k'
  end.

(** Then the whole buffer is sent. *)
Lemma write_to_sfd_all fuel ep fd b n (w : world K X) close ev e_mutex :
  rd writer (app w) = Some (MkBufferedWriter b) → (length b < fuel)%nat →
  roomy fd n (kern w) → len b ≤ 1024 * Z.of_nat n →
  ∃ w', write_to_sfd fuel ep fd (in_app writer) close ev e_mutex w = Ret tt w' ∧
    sent fd (kern w') = sent fd (kern w) ++ b ∧
    app w' = wr writer (MkBufferedWriter []) (app w) ∧ locks w' = locks w.
Proof.
  revert b n w. induction fuel as [|fuel IH]; intros b n w Hrd Hf Hroom Hn; [lia|].
  destruct (decide (b = [])) as [->|Hb].
  { exists w. rewrite write_to_sfd_empty by done. rewrite app_nil_r, wr_rd by done. done. }
  assert (0 < length b)%nat as Hb0 by (destruct b; simpl; [done|lia]).
  rewrite (write_to_sfd_step fuel ep fd b) by done. set (c := take 1024 b).
  destruct n as [|n]; [lia|]. destruct (Hroom c) as (k' & Ew & Hroom'); [unfold c; rewrite length_take; lia|].
  pose proof (write_sent fd c (kern w)) as Hs. rewrite Ew in Hs |- *.
  destruct Hs as [_ Hs]. rewrite Nat2Z.id, firstn_all in Hs.
  destruct (IH (drop 1024 b) n (wr (in_app writer) (MkBufferedWriter (drop 1024 b)) (set_kern k' w)))
    as (w' & E & H1 & H2 & H3).
  - cbn. by erewrite rd_wr.
  - rewrite length_drop. lia.
  - done.
  - rewrite length_drop. lia.
  - exists w'. split_and!; [done| | |done].
    + rewrite H1. cbn. rewrite Hs, <-app_assoc. unfold c. by rewrite take_drop.
    + rewrite H2. cbn. by rewrite wr_wr.
Qed.
End fill.

(** A frame as the reader hands it over, its delimiter put back. *)
Lemma unpack_delivered {S} f (s : S) :
  len f < 2 ^ 32 →
  unpack_frame (f ++ [EOT]) (len (f ++ [EOT])) [] [] s = Ret (take 37 f, drop 37 f) s.
Proof.
  intros H32. assert (len (f ++ [EOT]) = len f + 1) as Hl by (rewrite length_app; simpl; lia).
  rewrite unpack_frame_run by lia. rewrite Hl.
  replace (Z.to_nat (len f + 1 - 1)) with (length f) by lia.
  by rewrite take_app_length.
Qed.

Lemma frame_of_unframe id msg : frame_of id msg = unframe EOT [id ++ msg].
Proof. unfold frame_of, unframe. cbn. by rewrite app_nil_r, app_assoc. Qed.

Section accept.
Context {K X : Type} `{Kernel K}.

Lemma unblock_socket_run sfd flags u k1 k2 (w : world K X) :
  sys_getfl sfd (kern w) = (SysOk flags, k1) → 0 ≤ flags →
  sys_setfl sfd (Z.lor flags O_NONBLOCK) k1 = (SysOk u, k2) →
  unblock_socket sfd w = Ret tt (set_kern k2 w).
Proof.
  intros E1 Hf E2. unfold unblock_socket. run_with (syscall_run (X:=X) (sys_getfl sfd) w).
  rewrite E1. cbn [fst snd]. rewrite (proj2 (Z.ltb_ge flags 0) Hf).
  run_with (syscall_run (X:=X) (sys_setfl sfd (Z.lor flags O_NONBLOCK)) (set_kern k1 w)).
  cbn [kern set_kern]. by rewrite E2.
Qed.
End accept.

(** What the reader hands over, taken apart. *)
Definition decode (f : bytes) : bytes * bytes := (take 37 f, drop 37 f).

(** The bytes on the wire for a list of messages. *)
Definition wire (msgs : list (bytes * bytes)) : bytes :=
  concat (map (λ p, frame_of p.1 p.2) msgs).

Definition sendable (p : bytes * bytes) : Prop := len p.1 = 37 ∧ EOT ∉ p.1 ++ p.2.

Lemma feed_wire msgs :
  Forall sendable msgs → feed EOT [] (wire msgs) = (map (λ p, p.1 ++ p.2) msgs, []).
Proof.
  intros Hs. assert (wire msgs = unframe EOT (map (λ p, p.1 ++ p.2) msgs) ++ []) as ->.
  { rewrite app_nil_r. unfold wire, unframe. rewrite map_map. f_equal.
    apply map_ext. intros [id m]. unfold frame_of. cbn. by rewrite app_assoc. }
  rewrite feed_frames; [cbn; by rewrite app_nil_r|].
  apply Forall_fmap. eapply Forall_impl; [exact Hs|]. by intros p [_ Hp].
Qed.

Lemma decode_sent msgs :
  Forall sendable msgs → map decode (map (λ p, p.1 ++ p.2) msgs) = msgs.
Proof.
  induction 1 as [|[id m] msgs [Hid _] _ IH]; [done|]. cbn in *. rewrite IH. f_equal.
  unfold decode. replace 37%nat with (length id) by lia.
  by rewrite take_app_length, drop_app_length.
Qed.

(** The entry after a message has been sent to it. *)
Definition enqueue (msg : bytes) (y : WriteR) : WriteR :=
  if w_is_valid y then MkWriteR (MkBufferedWriter (wbuffer (w_bw y) ++ msg)) (w_mutex y) true
  else y.

(** ** Properties *)

(** C16.  Packing a message into an array of just the right size and unpacking
    the frame gives back the identifier and the message. *)
Theorem pack_unpack_roundtrip {S} id msg result (s : S) :
  len id = 37 → len result = 38 + len msg → 38 + len msg < 2 ^ 32 →
  (f ← pack_frame_v id msg result; unpack_frame f (len f) [] []) s = Ret (id, msg) s.
Proof.
  intros Hid Hr H32. rewrite bind_unfold, pack_frame_v_eq, pack_frame_exact by done.
  apply unpack_frame_of; lia.
Qed.

Definition sample_id : bytes := replicate 36 "a"%char ++ [NUL].

Lemma pack_unpack_roundtrip_witness :
  (f ← pack_frame_v sample_id (str "hello") (replicate 43 NUL); unpack_frame f (len f) [] []) tt =
  Ret (sample_id, str "hello") tt.
Proof. apply pack_unpack_roundtrip; vm_compute; reflexivity. Defined.

(** A message that is packed and sent to a [BufferedReader] arrives whole
    exactly when neither it nor its identifier has the delimiter character in it:
    the frames have no escape. *)
Theorem frame_transparent id msg result :
  len id = 37 → len result = 38 + len msg → 38 + len msg < 2 ^ 32 →
  (f ← pack_frame_v id msg result; BufferedReader.read logging_run logging_ref f (len f))
    (BufferedReader_new EOT tt, []) =
  Ret tt (BufferedReader_new EOT tt, [id ++ msg]) ↔
  (EOT ∉ id ++ msg).
Proof.
  intros Hid Hr H32. rewrite bind_unfold, pack_frame_v_eq, pack_frame_exact by done.
  assert (len (frame_of id msg) = 38 + len msg) as Hl
    by (unfold frame_of; rewrite !length_app; simpl; lia).
  destruct (feed EOT [] (frame_of id msg)) as [frames rest] eqn:E.
  rewrite (read_run logging_run logging_ref tt (λ f s, (s.1, s.2 ++ [f]))) with
    (d := EOT) (b := []) (frames := frames) (rest := rest);
    [|done|done|done|done|lia|lia|by rewrite Nat2Z.id, firstn_all].
  assert (∀ fs s, foldl (λ (s : BufferedReader unit * list bytes) f, (s.1, s.2 ++ [f])) s fs
                  = (s.1, s.2 ++ fs)) as F.
  { induction fs as [|f fs IH]; intros [br l]; cbn; [by rewrite app_nil_r|].
    rewrite IH. cbn. by rewrite <-app_assoc. }
  rewrite F. cbn. split.
  - intros [= -> ->]. destruct (feed_no_delim _ _ _ _ _ E) as [HF _]; [apply not_elem_of_nil|].
    by apply Forall_cons in HF as [? _].
  - intros Hn. rewrite frame_of_unframe in E.
    rewrite <-(app_nil_r (unframe _ _)), feed_frames in E by by constructor.
    cbn in E. by injection E as <- <-.
Qed.

Lemma frame_transparent_witness :
  (f ← pack_frame_v sample_id [EOT] (replicate 39 NUL);
   BufferedReader.read logging_run logging_ref f (len f)) (BufferedReader_new EOT tt, []) =
  Ret tt (BufferedReader_new EOT tt, [sample_id ++ [EOT]]) ↔ (EOT ∉ sample_id ++ [EOT]).
Proof. apply frame_transparent; vm_compute; reflexivity. Defined.

(** Packing reads 37 bytes of the identifier whatever its length: with a
    shorter one it reads out of range, which is undefined behaviour. *)
Theorem pack_frame_short_id {S} id msg result (s : S) :
  len id < 37 → len result = 38 + len msg → pack_frame_v id msg result s = Undef.
Proof. intros. rewrite pack_frame_v_eq. apply pack_frame_short; lia. Qed.

Lemma pack_frame_short_id_witness :
  pack_frame_v (str "abc") (str "no way bro") (replicate 48 NUL) tt = Undef.
Proof. apply pack_frame_short_id; vm_compute; reflexivity. Defined.

(** C14.  [read_from_sfd] ends, and hands the call back every complete frame of
    what has arrived on the socket, in order, whatever sizes the kernel's reads
    have; the incomplete rest stays in the reader, nothing stays in the socket.
    Then, if the peer is still there, [EPOLLIN] is set again in [sfd_events] and
    in epoll; if it has closed, or reading failed, the close call back runs
    instead.  [P l] stands for what holds of the world when [l] has been delivered. *)
Theorem read_from_sfd_drains {K X C : Type} `{SocketKernel K}
    (run : C → bytes → M (world K X) unit) (reader : ref X (BufferedReader C))
    `{!LawfulRef reader} (ev : ref X (gmap Z Z)) `{!LawfulRef ev} (k : C) fd
    (P : list bytes → world K X → Prop) fuel ep d b w close e_mutex :
  (∀ l w br b, rd reader (app w) = Some br → (∀ d, del br = Some d → d ∉ b) → P l w →
    P l (wr (in_app reader) (set_buffer br b) w)) →
  (∀ l f w0 br, rd reader (app w0) = Some br → call_back br = Some k → P l w0 →
    len f ≤ len b + len (inbox fd (kern w)) →
    ∃ w', run k f w0 = Ret tt w' ∧ P (l ++ [f]) w' ∧ rd reader (app w') = rd reader (app w0) ∧
          inbox fd (kern w') = inbox fd (kern w0) ∧
          inbox_end fd (kern w') = inbox_end fd (kern w0)) →
  (∀ l w n, P l w → P l (set_kern (sys_read fd n (kern w)).2 w)) →
  (∀ l w, P l w → is_live e_mutex (locks w) = true ∧ (e_mutex ∉ held (locks w)) ∧
                  is_Some (rd ev (app w))) →
  rd reader (app w) = Some (MkBufferedReader b (Some d) (Some k)) → P [] w → d ∉ b →
  (length (inbox fd (kern w)) < fuel)%nat →
  ∃ frames rest w',
    unframe d frames ++ rest = b ++ inbox fd (kern w) ∧
    Forall (λ f, d ∉ f) frames ∧ (d ∉ rest) ∧
    P frames w' ∧ rd reader (app w') = Some (MkBufferedReader rest (Some d) (Some k)) ∧
    inbox fd (kern w') = [] ∧
    match inbox_end fd (kern w) with
    | Open =>
        ∃ m, rd ev (app w') = Some m ∧
        read_from_sfd run fuel ep fd (in_app reader) close (in_app ev) e_mutex w =
        Ret tt (armed ev e_mutex EPOLLIN ep fd m w')
    | _ => read_from_sfd run fuel ep fd (in_app reader) close (in_app ev) e_mutex w = close w'
    end.
Proof.
  intros P1 P2 P3 P4 Hrd HP Hd Hf.
  destruct (feed d b (inbox fd (kern w))) as [frames rest] eqn:E.
  destruct (feed_no_delim _ _ _ _ _ E Hd) as [HF Hr].
  destruct (read_from_sfd_run run reader k fd P _ P1 P2 P3 fuel ep d b [] w frames rest close
              (in_app ev) e_mutex Hrd Hd HP E (feed_bound _ _ _ _ _ E) Hf) as (w' & HP' & Hrd' & Hi & Er).
  exists frames, rest, w'. split_and!; try done; [by apply feed_unframe|].
  rewrite Er. destruct (inbox_end fd (kern w)); try done.
  destruct (P4 _ _ HP') as (Hl & Hh & m & Hm). exists m. split; [done|]. by apply arm_run.
Qed.

(** One socket's data: its reader, the frames delivered, its writer, the masks. *)
Record port_state := Port {
  p_reader : BufferedReader unit; p_log : list bytes;
  p_writer : BufferedWriter; p_events : gmap Z Z
}.

Definition p_reader_ref : ref port_state (BufferedReader unit) :=
  Ref (λ s, Some (p_reader s)) (λ x s, Port x (p_log s) (p_writer s) (p_events s)).
Definition p_writer_ref : ref port_state BufferedWriter :=
  Ref (λ s, Some (p_writer s)) (λ x s, Port (p_reader s) (p_log s) x (p_events s)).
Definition p_events_ref : ref port_state (gmap Z Z) :=
  Ref (λ s, Some (p_events s)) (λ x s, Port (p_reader s) (p_log s) (p_writer s) x).

#[export] Instance p_reader_lawful : LawfulRef p_reader_ref.
Proof. split; [done|done|]. by intros [] x [= <-]. Qed.
#[export] Instance p_writer_lawful : LawfulRef p_writer_ref.
Proof. split; [done|done|]. by intros [] x [= <-]. Qed.
#[export] Instance p_events_lawful : LawfulRef p_events_ref.
Proof. split; [done|done|]. by intros [] x [= <-]. Qed.

Definition p_deliver (_ : unit) (f : bytes) : M (world sim port_state) unit :=
  modify (λ w, set_app (Port (p_reader (app w)) (p_log (app w) ++ [f]) (p_writer (app w))
                          (p_events (app w))) w).

(** Three bytes of a frame are in the reader; the rest of it and half of another
    one wait in the socket. *)
Definition sample_world : world sim port_state :=
  World (set_inq {[7 := str "lo" ++ EOT :: str "wor"]} sim_empty) no_locks
    (Port (MkBufferedReader (str "hel") (Some EOT) (Some tt)) [] BufferedWriter_new {[7 := 0]}).

Lemma read_from_sfd_drains_witness :
  ∃ frames rest w',
    unframe EOT frames ++ rest = str "hello" ++ EOT :: str "wor" ∧
    p_log (app w') = frames ∧
    read_from_sfd p_deliver 7 3 7 (in_app p_reader_ref) (mret tt) (in_app p_events_ref) E_mutex
      sample_world = Ret tt (armed p_events_ref E_mutex EPOLLIN 3 7 (p_events (app w')) w').
Proof.
  destruct (read_from_sfd_drains p_deliver p_reader_ref p_events_ref tt 7
    (λ l w, p_log (app w) = l ∧ locks w = no_locks) 7 3 EOT (str "hel") sample_world (mret tt) E_mutex)
    as (frames & rest & w' & H1 & _ & _ & (H2 & _) & _ & _ & m & Hm & H3).
  - done.
  - intros l f w br _ _ [<- Hl] _. eexists. split; [reflexivity|]. done.
  - done.
  - intros l w [_ ->]. split_and!; [done|apply not_elem_of_nil|by eexists].
  - reflexivity.
  - done.
  - vm_compute. set_solver.
  - vm_compute. lia.
  - exists frames, rest, w'. injection Hm as <-. split_and!; [exact H1|exact H2|exact H3].
Defined.

(** C15.  [write_to_sfd] ends.  It sends the buffer in chunks of at most 1024
    bytes, in order, and stops when the buffer is empty, or when a write fails:
    then it waits for [EPOLLOUT], or closes.  Of each chunk the kernel gets the
    number of bytes that it accepts, but the whole chunk leaves the buffer; so
    what is sent and what is left make up the whole message exactly when no write
    accepted fewer bytes than it was given. *)
Theorem write_to_sfd_loss {K X : Type} `{SocketKernel K} (writer : ref X BufferedWriter)
    `{!LawfulRef writer} fuel ep fd b (w : world K X) close ev e_mutex :
  rd writer (app w) = Some (MkBufferedWriter b) → (length b < fuel)%nat →
  ∃ parts b' w' stop,
    chunks_of parts ++ b' = b ∧ Forall well_cut parts ∧
    sent fd (kern w') = sent fd (kern w) ++ accepted_of parts ∧
    app w' = wr writer (MkBufferedWriter b') (app w) ∧
    (stop = None → b' = []) ∧
    write_to_sfd fuel ep fd (in_app writer) close ev e_mutex w =
    (match stop with
     | None => mret tt
     | Some errno => if errno =? EAGAIN then arm EPOLLOUT ep fd ev e_mutex else close
     end) w' ∧
    (sent fd (kern w') ++ b' = sent fd (kern w) ++ b ↔ lost parts = 0%nat).
Proof.
  intros Hrd Hf.
  destruct (write_to_sfd_run writer fuel ep fd b w close ev e_mutex Hrd Hf)
    as (parts & b' & w' & stop & H1 & H2 & H3 & H4 & _ & H5 & H6).
  exists parts, b', w', stop. split_and!; try done. rewrite H3, <-H1, <-app_assoc. split.
  - intros E%(app_inv_head (sent fd (kern w))). apply (f_equal length) in E.
    rewrite !length_app, (chunks_accepted parts H2) in E. lia.
  - intros Hl. by rewrite (nothing_lost parts H2 Hl).
Qed.

(** The kernel accepts 3 of 5 bytes: the other two are gone. *)
Lemma write_to_sfd_loss_witness :
  let w := World (set_out ∅ [3] sim_empty) no_locks
             (Port BufferedReader_default [] (MkBufferedWriter (str "hello")) ∅) in
  (match write_to_sfd 6 3 7 (in_app p_writer_ref) (mret tt) (in_app p_events_ref) E_mutex w with
   | Ret _ w' => (sim_sent 7 (kern w'), wbuffer (p_writer (app w'))) = (str "hel", [])
   | _ => False
   end) ∧
  ∃ parts b' w' stop, chunks_of parts ++ b' = str "hello" ∧
    write_to_sfd 6 3 7 (in_app p_writer_ref) (mret tt) (in_app p_events_ref) E_mutex w =
    (match stop with
     | None => mret tt
     | Some errno =>
         if errno =? EAGAIN then arm EPOLLOUT 3 7 (in_app p_events_ref) E_mutex else mret tt
     end) w'.
Proof.
  split; [vm_compute; reflexivity|].
  destruct (write_to_sfd_loss p_writer_ref 6 3 7 (str "hello")
    (World (set_out ∅ [3] sim_empty) no_locks
       (Port BufferedReader_default [] (MkBufferedWriter (str "hello")) ∅))
    (mret tt) (in_app p_events_ref) E_mutex)
    as (parts & b' & w' & stop & H1 & _ & _ & _ & _ & H2 & _); [reflexivity|vm_compute; lia|].
  exists parts, b', w', stop. split; [exact H1|exact H2].
Defined.

(** A round of [add_fd_to_epoll]: when [accept] gives no connection it ends;
    a connection whose name is not found is passed over, and stays open; any other
    is made non-blocking and given to the call back, also when [epoll_ctl] has
    failed and its events will never be seen ([add_result] is unsigned). *)
Theorem add_fd_to_epoll_rounds {K X : Type} `{Kernel K} fuel ep sfd
    (sa_callback : Z → M (world K X) unit) (w : world K X) :
  (∀ e k1, sys_accept sfd (kern w) = (SysErr e, k1) →
     add_fd_to_epoll (Datatypes.S fuel) ep sfd sa_callback w = Ret tt (set_kern k1 w)) ∧
  (∀ fd addr k1 k2 r, sys_accept sfd (kern w) = (SysOk (fd, addr), k1) →
     sys_getnameinfo addr k1 = (r, k2) → r ≠ 0 →
     add_fd_to_epoll (Datatypes.S fuel) ep sfd sa_callback w =
     add_fd_to_epoll fuel ep sfd sa_callback (set_kern k2 w)) ∧
  (∀ fd addr k1 k2 flags k3 k4 r k5, sys_accept sfd (kern w) = (SysOk (fd, addr), k1) →
     sys_getnameinfo addr k1 = (0, k2) → sys_getfl fd k2 = (SysOk flags, k3) → 0 ≤ flags →
     sys_setfl fd (Z.lor flags O_NONBLOCK) k3 = (SysOk tt, k4) →
     sys_epoll_add ep fd EPOLLIN k4 = (r, k5) →
     add_fd_to_epoll (Datatypes.S fuel) ep sfd sa_callback w =
     (sa_callback fd;; add_fd_to_epoll fuel ep sfd sa_callback) (set_kern k5 w)).
Proof.
  unfold add_fd_to_epoll. cbn [while_loop]. split_and!.
  - intros e k1 E1. rewrite !bind_assoc. run_with (syscall_run (X:=X) (sys_accept sfd) w).
    by rewrite E1.
  - intros fd addr k1 k2 r E1 E2 Hr. rewrite !bind_assoc.
    run_with (syscall_run (X:=X) (sys_accept sfd) w). rewrite E1. cbn [fst snd].
    rewrite !bind_assoc.
    run_with (syscall_run (X:=X) (sys_getnameinfo addr) (set_kern k1 w)).
    cbn [kern set_kern]. rewrite E2. cbn [fst snd]. by rewrite (proj2 (Z.eqb_neq r 0) Hr).
  - intros fd addr k1 k2 flags k3 k4 r k5 E1 E2 E3 Hf E4 E5. rewrite !bind_assoc.
    run_with (syscall_run (X:=X) (sys_accept sfd) w). rewrite E1. cbn [fst snd].
    rewrite !bind_assoc.
    run_with (syscall_run (X:=X) (sys_getnameinfo addr) (set_kern k1 w)).
    cbn [kern set_kern]. rewrite E2. cbn [fst snd Z.eqb]. rewrite !bind_assoc.
    run_with (unblock_socket_run (X:=X) fd flags tt k3 k4 (set_kern k2 (set_kern k1 w)) E3 Hf E4).
    rewrite !bind_assoc.
    run_with (syscall_run (X:=X) (sys_epoll_add ep fd EPOLLIN)
                (set_kern k4 (set_kern k2 (set_kern k1 w)))).
    cbn [kern set_kern]. rewrite E5. cbn [fst snd].
    rewrite (proj2 (Z.ltb_ge _ 0)) by (apply wrap_bounds; lia).
    rewrite !bind_assoc. by apply bind_ext.
Qed.

(** [epoll_ctl] fails, and the connection is still handed to the call back. *)
Lemma add_fd_to_epoll_rounds_witness :
  let k := Sim ∅ ∅ ∅ ∅ [] [(9, str "peer")] [] true (0, 0) 5 [] in
  let add fd : M (world sim (list Z)) unit := modify (λ w, set_app (app w ++ [fd]) w) in
  add_fd_to_epoll 2 3 4 add (World k no_locks []) = Ret tt (World (set_backlog [] k) no_locks [9]).
Proof.
  cbn zeta.
  etransitivity; [eapply (proj2 (proj2 (add_fd_to_epoll_rounds 1 3 4 _ _))); reflexivity || lia|].
  vm_compute. reflexivity.
Defined.
