(* ===== verification/Threads.v ===== *)
(** * Threads

    Any number of threads on one [world], each at a point of its program: a program is a
    list of points, and running a point is one step, which gives the points that come
    before the rest.  A thread keeps its mutexes from one step to the next, and a step
    that takes a mutex of another thread has to wait.  This file has the machine, and how
    a lock order rules out deadlocks. *)

From stdpp Require Import relations.
From S2P Require Import Prelude Utils BufferedReader BufferedWriter Kernel SocketUtils.

(** ** The machine *)
Section machine.
Context {K X T : Type}.

Record thread := Thread { owns : list mutex; todo : list T }.

Record machine := Machine { shared : world K X; threads : list thread }.

(** The world as a thread sees it that owns [hs]. *)
Definition as_thread (hs : list mutex) (w : world K X) : world K X :=
  set_locks (LockState hs (live (locks w)) (next_mutex (locks w)) (acquired (locks w))) w.

(** The mutexes that were taken on the way from [w] to [w']. *)
Definition taken (w w' : world K X) : list mutex :=
  (drop (length (acquired (locks w))) (acquired (locks w'))).*1.

Context (section : T → M (world K X) (list T)).

(** What the world has to grant for a point to be run, what a thread heeds of the others,
    and with which points a program starts. *)
Context (admissible : T → world K X → Prop) (heeded : nat → T → list thread → Prop).
Context (starts : T → Prop).

(** The point [t] of the thread [i], with [rest] to follow, is run. *)
Inductive runs_point (i : nat) (t : T) : machine → machine → Prop :=
  | runs_point_intro w ts hs rest ts' w' :
      ts !! i = Some (Thread hs (t :: rest)) → admissible t w →
      section t (as_thread hs w) = Ret ts' w' →
      (∀ m j th, m ∈ taken w w' → j ≠ i → ts !! j = Some th → m ∉ owns th) →
      runs_point i t (Machine w ts)
        (Machine (as_thread [] w') (<[i := Thread (held (locks w')) (ts' ++ rest)]> ts)).

Inductive machine_step : machine → machine → Prop :=
  | step_point i t m m' : runs_point i t m m' → heeded i t (threads m) → machine_step m m'
  | step_start t w ts : starts t → machine_step (Machine w ts) (Machine w (ts ++ [Thread [] [t]]))
  | step_world w k ts : machine_step (Machine w ts) (Machine (set_kern k w) ts).

End machine.

Arguments thread T : clear implicits.
Arguments machine K X T : clear implicits.

(** ** No deadlock *)
Section deadlock.
Context {K X T : Type} (rank : mutex → nat).
Implicit Types (w : world K X) (th : thread T).

(** Everything taken from [w] to [w'] was taken while [hs] were held. *)
Definition taken_upon (hs : list mutex) w w' : Prop :=
  ∃ new, acquired (locks w') = acquired (locks w) ++ new ∧ Forall (λ e, hs ⊆ e.2) new.

Lemma nothing_taken hs w w' : acquired (locks w') = acquired (locks w) → taken_upon hs w w'.
Proof. intros E. exists []. by rewrite app_nil_r. Qed.

Lemma taken_once hs m w w' :
  acquired (locks w') = acquired (locks w) ++ [(m, held (locks w))] → held (locks w) = hs → taken_upon hs w w'.
Proof. intros E <-. eexists. split; [exact E|]. by repeat constructor. Qed.

Lemma taken_above hs w w' m h :
  ordered rank (locks w') → taken_upon hs w w' → m ∈ taken w w' → h ∈ hs → (rank h < rank m)%nat.
Proof.
  intros Ho (new & E & Hn) Hm Hh. unfold taken in Hm. rewrite E, drop_app_length in Hm.
  apply list_elem_of_fmap in Hm as ([m' H] & -> & Hin). unfold ordered in Ho. rewrite E in Ho.
  apply Forall_app in Ho as [_ Ho]. rewrite Forall_forall in Ho, Hn.
  pose proof (Ho _ Hin) as Hb. pose proof (Hn _ Hin) as Hs. unfold below in Hb. rewrite Forall_forall in Hb.
  apply Hb, Hs, Hh.
Qed.

(** How high the mutexes are that a thread owns. *)
Definition height (hs : list mutex) : nat := foldr (λ m n, Nat.max (Datatypes.S (rank m)) n) 0%nat hs.

Lemma height_cons h hs : height (h :: hs) = Nat.max (Datatypes.S (rank h)) (height hs).
Proof. done. Qed.

Lemma height_ge m hs : m ∈ hs → (rank m < height hs)%nat.
Proof. induction hs as [|h hs IH]; [by intros ?%elem_of_nil|].
  rewrite height_cons. intros [->|Hm]%elem_of_cons; [|specialize (IH Hm)]; lia. Qed.

Lemma height_some hs : (0 < height hs)%nat → ∃ m, m ∈ hs ∧ height hs = Datatypes.S (rank m).
Proof.
  induction hs as [|h hs IH]; [cbn; lia|]. rewrite height_cons. intros Hh.
  destruct (Nat.max_spec (Datatypes.S (rank h)) (height hs)) as [[Hlt ->]|[_ ->]].
  - destruct IH as (m & Hm & E); [lia|]. exists m. split; [by right|done].
  - exists h. split; [by left|done].
Qed.

(** The element with the greatest measure. *)
Lemma greatest {A} (P : A → Prop) `{!∀ x, Decision (P x)} (f : A → nat) (l : list A) :
  (∃ i x, l !! i = Some x ∧ P x) →
  ∃ i x, l !! i = Some x ∧ P x ∧ ∀ j y, l !! j = Some y → P y → (f y ≤ f x)%nat.
Proof.
  induction l as [|a l IH]; intros (i & x & Hi & Hx); [done|].
  destruct (decide (Exists P l)) as [HE|HE].
  - apply Exists_exists in HE as (z & Hz & HPz). apply list_elem_of_lookup in Hz as [k Hk].
    destruct IH as (i1 & x1 & Hi1 & Hx1 & Hmax); [by exists k, z|].
    destruct (decide (P a ∧ (f x1 ≤ f a)%nat)) as [[Ha Hle]|Ha].
    + exists 0%nat, a. split_and!; [done|done|]. intros [|j] y Hy HPy; cbn in Hy; [injection Hy as ->; lia|].
      specialize (Hmax j y Hy HPy). lia.
    + exists (Datatypes.S i1), x1. split_and!; [done|done|]. intros [|j] y Hy HPy; cbn in Hy; [|by apply (Hmax j)].
      injection Hy as ->. destruct (decide (f x1 ≤ f y)%nat); [by destruct Ha|lia].
  - assert (∀ j y, l !! j = Some y → ¬ P y) as Hno.
    { intros j y Hj Hy. apply HE, Exists_exists. exists y. split; [by eapply list_elem_of_lookup_2|done]. }
    destruct i as [|i]; cbn in Hi; [|by destruct (Hno i x)]. injection Hi as ->.
    exists 0%nat, x. split_and!; [done|done|]. intros [|j] y Hy HPy; cbn in Hy;
      [by injection Hy as ->|by destruct (Hno j y)].
Qed.

(** When every thread that is not finished could run but for the mutexes of others, and
    takes them in the order of [rank], some thread can run: the one that owns the
    highest. *)
Lemma some_thread_runs section admissible w (ts : list (thread T)) :
  (∀ i th, ts !! i = Some th → todo th ≠ [] → ∃ t rest ts' w', todo th = t :: rest ∧
     admissible t w ∧ section t (as_thread (owns th) w) = Ret ts' w' ∧
     ordered rank (locks w') ∧ taken_upon (owns th) w w') →
  (∀ i th, ts !! i = Some th → todo th = [] → owns th = []) →
  (∃ i th, ts !! i = Some th ∧ todo th ≠ []) →
  ∃ i t m', runs_point section admissible i t (Machine w ts) m'.
Proof.
  intros Hrun Hfin Hsome.
  assert (∀ th, Decision (todo th ≠ [])) as Hdec by (intros []; cbn; destruct todo0; [right; by intros []|by left]).
  destruct (greatest (λ th, todo th ≠ []) (λ th, height (owns th)) ts Hsome) as (i & th & Hi & Hne & Hmax).
  destruct (Hrun i th Hi Hne) as (t & rest & ts' & w' & Et & Ha & E & Ho & Hup).
  destruct th as [hs l]. cbn [owns todo] in *. subst l. do 3 eexists.
  eapply runs_point_intro; [exact Hi|exact Ha|exact E|]. intros m j th' Hm Hj Hth Hown.
  pose proof (height_ge m (owns th') Hown) as Hge.
  assert (todo th' ≠ []) as Hne' by (intros E'; rewrite (Hfin j th' Hth E') in Hown; by apply elem_of_nil in Hown).
  pose proof (Hmax j th' Hth Hne') as Hle.  cbn [owns] in Hle.
  destruct (height_some hs) as (h & Hh & Eh); [lia|].
  pose proof (taken_above hs w w' m h Ho Hup Hm Hh). lia.
Qed.
End deadlock.
