(* ===== verification/SocketServer.v ===== *)
(** * [asutils::SocketServer]

    Models [src/src/main/cpp/common/socket_server.cpp] over any [Kernel], and the
    message handler of [src/src/main/cpp/sserver/main.cpp].  The state of a server
    is the record [server]; what the three thread pools were given ([add_work],
    see [ThreadPool]) is kept as queues of [task]s, in order.  Each definition is
    the whole of one member function; a function that loops for ever is given the
    number of rounds to run. *)

From S2P Require Import Prelude Utils BufferedReader BufferedWriter Kernel Simulation.
From S2P Require Import SocketUtils.

(** The closures that are handed to the pools: [add_f], [read_f] and [write_f]. *)
Inductive task := AddTask | ReadTask (sfd : Z) | WriteTask (sfd : Z).

#[export] Instance task_eq_dec : EqDecision task.
Proof. solve_decision. Defined.

(** The call back of a reader captures the descriptor it was made for. *)
Record server := Server {
  rrm : gmap Z (ReadR Z);
  wrm : gmap Z WriteR;
  sfd_events : gmap Z Z;
  zm : gmap Z Z;
  i_sfd : Z;
  port : Z;
  ep_sfd : Z;
  a_tp : list task;
  r_tp : list task;
  w_tp : list task
}.

(** The members before the constructor's body runs; [i_sfd] and [ep_sfd] have no
    value yet, the others are empty. *)
Definition server_empty : server := Server ∅ ∅ ∅ ∅ (-1) 0 (-1) [] [] [].

Definition set_rrm (m : gmap Z (ReadR Z)) (s : server) : server :=
  Server m (wrm s) (sfd_events s) (zm s) (i_sfd s) (port s) (ep_sfd s) (a_tp s) (r_tp s) (w_tp s).
Definition set_wrm (m : gmap Z WriteR) (s : server) : server :=
  Server (rrm s) m (sfd_events s) (zm s) (i_sfd s) (port s) (ep_sfd s) (a_tp s) (r_tp s) (w_tp s).
Definition set_sfd_events (m : gmap Z Z) (s : server) : server :=
  Server (rrm s) (wrm s) m (zm s) (i_sfd s) (port s) (ep_sfd s) (a_tp s) (r_tp s) (w_tp s).
Definition set_zm (m : gmap Z Z) (s : server) : server :=
  Server (rrm s) (wrm s) (sfd_events s) m (i_sfd s) (port s) (ep_sfd s) (a_tp s) (r_tp s) (w_tp s).
Definition set_i_sfd (z : Z) (s : server) : server :=
  Server (rrm s) (wrm s) (sfd_events s) (zm s) z (port s) (ep_sfd s) (a_tp s) (r_tp s) (w_tp s).
Definition set_port (z : Z) (s : server) : server :=
  Server (rrm s) (wrm s) (sfd_events s) (zm s) (i_sfd s) z (ep_sfd s) (a_tp s) (r_tp s) (w_tp s).
Definition set_ep_sfd (z : Z) (s : server) : server :=
  Server (rrm s) (wrm s) (sfd_events s) (zm s) (i_sfd s) (port s) z (a_tp s) (r_tp s) (w_tp s).
Definition set_a_tp (l : list task) (s : server) : server :=
  Server (rrm s) (wrm s) (sfd_events s) (zm s) (i_sfd s) (port s) (ep_sfd s) l (r_tp s) (w_tp s).
Definition set_r_tp (l : list task) (s : server) : server :=
  Server (rrm s) (wrm s) (sfd_events s) (zm s) (i_sfd s) (port s) (ep_sfd s) (a_tp s) l (w_tp s).
Definition set_w_tp (l : list task) (s : server) : server :=
  Server (rrm s) (wrm s) (sfd_events s) (zm s) (i_sfd s) (port s) (ep_sfd s) (a_tp s) (r_tp s) l.

(** [&rrm.find(sfd)->second] and [&wrm.find(sfd)->second]: pointers to map
    entries, dangling once the entry is erased. *)
Definition rr_ref (sfd : Z) : ref server (ReadR Z) :=
  Ref (λ s, rrm s !! sfd) (λ x s, set_rrm (<[sfd := x]> (rrm s)) s).
Definition wr_ref (sfd : Z) : ref server WriteR :=
  Ref (λ s, wrm s !! sfd) (λ x s, set_wrm (<[sfd := x]> (wrm s)) s).

(** [rr->br] and [wr->bw]. *)
Definition br_ref (sfd : Z) : ref server (BufferedReader Z) :=
  Ref (λ s, r_br <$> rrm s !! sfd)
    (λ b s, set_rrm (alter (λ x, MkReadR b (r_mutex x) (r_is_valid x)) sfd (rrm s)) s).
Definition bw_ref (sfd : Z) : ref server BufferedWriter :=
  Ref (λ s, w_bw <$> wrm s !! sfd)
    (λ b s, set_wrm (alter (λ x, MkWriteR b (w_mutex x) (w_is_valid x)) sfd (wrm s)) s).

Definition events_ref : ref server (gmap Z Z) := Ref (λ s, Some (sfd_events s)) set_sfd_events.

Section server.
Context {K : Type} `{Kernel K}.
Abbreviation Mw := (M (world K server)).

(** [this->...]. *)
Definition get {A} (f : server → A) : Mw A := gets (λ w, f (app w)).
Definition put (f : server → server) : Mw unit := modify (λ w, set_app (f (app w)) w).

Section handler.
(** The handler given to the constructor: its arguments are the identifier, the
    message and the descriptor; the server it gets by reference is the state. *)
Context (handler : bytes → bytes → Z → Mw unit).

(** The closure [call_back] of [add]. *)
Definition call_back_of (nsfd : Z) (msg_frame : bytes) : Mw unit :=
  let msg_frame := msg_frame ++ [EOT] in
  '(uuid_v, msg_v) ← unpack_frame msg_frame (len msg_frame) [] [];
  handler uuid_v msg_v nsfd.

Definition create_socket : Mw unit :=
  r ← syscall sys_socket;
  let fd := match r with SysErr _ => -1 | SysOk fd => fd end in
  put (set_i_sfd fd);;
  if fd <? 0 then exit_with 1 else mret tt.

(** [htons] takes 16 bits of the port. *)
Definition bind_socket : Mw unit :=
  s ← get id;
  b_result ← syscall (sys_bind (i_sfd s) (wrap 16 (port s)));
  if int_result b_result <? 0 then exit_with 1 else mret tt.

Definition listen_socket : Mw unit :=
  fd ← get i_sfd;
  listen_result ← syscall (sys_listen fd);
  if int_result listen_result <? 0 then exit_with 1 else mret tt.

Definition add (nsfd : Z) : Mw unit :=
  lock R_mutex;;
  p ← new_mutex;
  m ← get rrm;
  put (set_rrm (emplace nsfd (MkReadR (BufferedReader_new EOT nsfd) p true) m));;
  unlock R_mutex;;
  lock W_mutex;;
  p ← new_mutex;
  m ← get wrm;
  put (set_wrm (emplace nsfd (MkWriteR BufferedWriter_new p true) m));;
  unlock W_mutex;;
  lock E_mutex;;
  m ← get sfd_events;
  put (set_sfd_events (<[nsfd := EPOLLIN]> m));;
  unlock E_mutex.

Definition a_zombied (sfd : Z) : Mw unit :=
  lock Z_mutex;;
  now ← epoch_millis;
  m ← get zm;
  put (set_zm (<[sfd := now]> m));;
  unlock Z_mutex.

(** [rr->is_valid = false; this->a_zombied(sfd)]. *)
Definition read_close (sfd : Z) : Mw unit :=
  rr ← load (in_app (rr_ref sfd));
  store (in_app (rr_ref sfd)) (MkReadR (r_br rr) (r_mutex rr) false);;
  a_zombied sfd.

Definition write_close (sfd : Z) : Mw unit :=
  wr ← load (in_app (wr_ref sfd));
  store (in_app (wr_ref sfd)) (MkWriteR (w_bw wr) (w_mutex wr) false);;
  a_zombied sfd.

Definition read (fuel : nat) (sfd : Z) : Mw unit :=
  lock R_mutex;;
  m ← get rrm;
  unlock R_mutex;;
  match m !! sfd with
  | None => mret tt
  | Some _ =>
      rr ← load (in_app (rr_ref sfd));
      lock (RR_mutex (r_mutex rr));;
      rr ← load (in_app (rr_ref sfd));
      (if r_is_valid rr then
         ep ← get ep_sfd;
         read_from_sfd call_back_of fuel ep sfd (in_app (br_ref sfd)) (read_close sfd)
           (in_app events_ref) E_mutex
       else mret tt);;
      rr ← load (in_app (rr_ref sfd));
      unlock (RR_mutex (r_mutex rr))
  end.
End handler.

Definition write (fuel : nat) (sfd : Z) : Mw unit :=
  lock W_mutex;;
  m ← get wrm;
  unlock W_mutex;;
  match m !! sfd with
  | None => mret tt
  | Some _ =>
      wr ← load (in_app (wr_ref sfd));
      lock (WR_mutex (w_mutex wr));;
      wr ← load (in_app (wr_ref sfd));
      (if w_is_valid wr then
         ep ← get ep_sfd;
         write_to_sfd fuel ep sfd (in_app (bw_ref sfd)) (write_close sfd)
           (in_app events_ref) E_mutex
       else mret tt);;
      wr ← load (in_app (wr_ref sfd));
      unlock (WR_mutex (w_mutex wr))
  end.

(** The array on the stack has no values yet: it is filled by [pack_frame]. *)
Definition send_msg (uuid_v msg_v : bytes) (sfd : Z) : Mw unit :=
  let mfs := wrap 32 (37 + len msg_v + 1) in
  msg_frame ← pack_frame_v uuid_v msg_v (replicate (Z.to_nat mfs) NUL);
  lock W_mutex;;
  m ← get wrm;
  unlock W_mutex;;
  match m !! sfd with
  | None => mret tt
  | Some _ =>
      wr ← load (in_app (wr_ref sfd));
      lock (WR_mutex (w_mutex wr));;
      wr ← load (in_app (wr_ref sfd));
      (if w_is_valid wr then BufferedWriter.write (in_app (bw_ref sfd)) msg_frame mfs
       else mret tt);;
      unlock (WR_mutex (w_mutex wr));;
      ep ← get ep_sfd;
      arm EPOLLOUT ep sfd (in_app events_ref) E_mutex
  end.

(** The parts of [close_n_clean]: the read resources, the write resources, the
    epoll resources. *)
Definition clean_rr (sfd : Z) : Mw unit :=
  lock R_mutex;;
  m ← get rrm;
  match m !! sfd with
  | Some rr => delete_mutex (r_mutex rr);; put (set_rrm (delete sfd m))
  | None => mret tt
  end;;
  unlock R_mutex.

Definition clean_wr (sfd : Z) : Mw unit :=
  lock W_mutex;;
  m ← get wrm;
  match m !! sfd with
  | Some wr => delete_mutex (w_mutex wr);; put (set_wrm (delete sfd m))
  | None => mret tt
  end;;
  unlock W_mutex.

Definition clean_events (sfd : Z) : Mw unit :=
  lock E_mutex;;
  m ← get sfd_events;
  put (set_sfd_events (delete sfd m));;
  unlock E_mutex.

Definition clean (sfd : Z) : Mw unit := clean_rr sfd;; clean_wr sfd;; clean_events sfd.

Definition close_fd (sfd : Z) : Mw unit := syscall (λ k, (tt, sys_close sfd k)).

Definition close_n_clean (sfd : Z) : Mw unit := close_fd sfd;; clean sfd.

(** One round of [reap_resources], after its sleep: [iterate] is the order in
    which the hash map is walked. *)
Definition reap (iterate : gmap Z Z → list (Z * Z)) : Mw unit :=
  lock Z_mutex;;
  m ← get zm;
  zv ← fold_m (λ '(sfd, t) zv,
         now ← epoch_millis;
         if 60000 <? wrap 64 (now - t) then close_n_clean sfd;; mret (zv ++ [sfd])
         else mret zv) (iterate m) [];
  fold_m (λ zsfd _, m ← get zm; put (set_zm (delete zsfd m))) zv tt;;
  unlock Z_mutex.

Fixpoint reap_resources (rounds : nat) (iterate : gmap Z Z → list (Z * Z)) : Mw unit :=
  match rounds with
  | O => mret tt
  | Datatypes.S n => reap iterate;; reap_resources n iterate
  end.

(** ** The epoll loop *)

(** [sfd_events[sfd] ^= bit] and the [set_epoll] that follows, under [e_mutex]. *)
Definition disarm (bit sfd : Z) : Mw unit :=
  lock E_mutex;;
  m ← get sfd_events;
  put (set_sfd_events (<[sfd := Z.lxor (get0 m sfd) bit]> m));;
  s ← get id;
  set_epoll (ep_sfd s) sfd (get0 (sfd_events s) sfd);;
  unlock E_mutex.

Definition add_callback : Mw unit := q ← get a_tp; put (set_a_tp (q ++ [AddTask])).

Definition read_callback (sfd : Z) : Mw unit :=
  disarm EPOLLIN sfd;; q ← get r_tp; put (set_r_tp (q ++ [ReadTask sfd])).

Definition write_callback (sfd : Z) : Mw unit :=
  disarm EPOLLOUT sfd;; q ← get w_tp; put (set_w_tp (q ++ [WriteTask sfd])).

(** One entry of [e_events]: the descriptor and its events. *)
Definition handle_event (ev : Z * Z) : Mw unit :=
  let '(fd, events) := ev in
  if has events EPOLLERR || has events EPOLLHUP then a_zombied fd;; close_fd fd
  else
    i ← get i_sfd;
    if fd =? i then add_callback
    else
      (if has events EPOLLIN then read_callback fd else mret tt);;
      (if has events EPOLLOUT then write_callback fd else mret tt).

(** One round of the loop; for a failed [epoll_wait], [n_events] is -1. *)
Definition process_batch : Mw unit :=
  ep ← get ep_sfd;
  r ← syscall (sys_epoll_wait ep 64);
  let '(e_events, n_events) :=
    match r with SysErr _ => ([], -1) | SysOk evs => (evs, len evs) end in
  for_loop 8 n_events (λ i _, ev ← index e_events i; handle_event ev) tt.

Fixpoint process_epoll_events (rounds : nat) : Mw unit :=
  match rounds with
  | O => mret tt
  | Datatypes.S n => process_batch;; process_epoll_events n
  end.

(** The constructor up to the loop of [process_epoll_events]. *)
Definition SocketServer_new (p : Z) : Mw unit :=
  put (set_port p);;
  create_socket;;
  bind_socket;;
  s ← get id;
  unblock_socket (i_sfd s);;
  listen_socket;;
  ep ← create_and_config_epoll (i_sfd s);
  put (set_ep_sfd ep).

(** What a pool's worker does with a task. *)
Definition run_task (handler : bytes → bytes → Z → Mw unit) (fuel : nat) (t : task) : Mw unit :=
  match t with
  | AddTask => s ← get id; add_fd_to_epoll fuel (ep_sfd s) (i_sfd s) add
  | ReadTask sfd => read handler fuel sfd
  | WriteTask sfd => write fuel sfd
  end.

(** The handler of the program [sserver]. *)
Definition sserver_handler (uuid_v msg_v : bytes) (sfd : Z) : Mw unit :=
  send_msg uuid_v (str "no way bro") sfd.
End server.

(** ** References into the server *)
#[export] Instance rr_ref_lawful sfd : LawfulRef (rr_ref sfd).
Proof.
  split.
  - intros s x y _. cbn. by rewrite lookup_insert_eq.
  - intros s x y. unfold set_rrm. cbn. by rewrite insert_insert_eq.
  - intros [] x Hx. unfold set_rrm. cbn in *. by rewrite insert_id.
Qed.

#[export] Instance wr_ref_lawful sfd : LawfulRef (wr_ref sfd).
Proof.
  split.
  - intros s x y _. cbn. by rewrite lookup_insert_eq.
  - intros s x y. unfold set_wrm. cbn. by rewrite insert_insert_eq.
  - intros [] x Hx. unfold set_wrm. cbn in *. by rewrite insert_id.
Qed.

#[export] Instance br_ref_lawful sfd : LawfulRef (br_ref sfd).
Proof.
  split.
  - intros s x y. cbn. rewrite lookup_alter_eq. by destruct (rrm s !! sfd).
  - intros s x y. unfold set_rrm. cbn. by rewrite alter_alter_eq.
  - intros [] x Hx. unfold set_rrm. cbn in *.
    apply fmap_Some in Hx as (rr & Hrr & ->). rewrite alter_id; [done|].
    intros x Hx. rewrite Hrr in Hx. injection Hx as <-. by destruct rr.
Qed.

#[export] Instance bw_ref_lawful sfd : LawfulRef (bw_ref sfd).
Proof.
  split.
  - intros s x y. cbn. rewrite lookup_alter_eq. by destruct (wrm s !! sfd).
  - intros s x y. unfold set_wrm. cbn. by rewrite alter_alter_eq.
  - intros [] x Hx. unfold set_wrm. cbn in *.
    apply fmap_Some in Hx as (wr & Hwr & ->). rewrite alter_id; [done|].
    intros x Hx. rewrite Hwr in Hx. injection Hx as <-. by destruct wr.
Qed.

#[export] Instance events_ref_lawful : LawfulRef events_ref.
Proof. split; [done|done|]. by intros [] x [= <-]. Qed.

(** ** Running the operations *)
Section running.
Context {K : Type} `{SocketKernel K}.
Implicit Types (w : world K server).

Lemma bind_get {A B} (f : server → A) (k : A → M (world K server) B) w :
  (get f ≫= k) w = k (f (app w)) w.
Proof. done. Qed.

Lemma bind_put {B} (f : server → server) (k : unit → M (world K server) B) w :
  (put f ≫= k) w = k tt (set_app (f (app w)) w).
Proof. done. Qed.
End running.

Ltac sstep := first [ rewrite bind_get | rewrite bind_put | wstep ]; unfold set_app; cbn [kern locks app].
Ltac srun := repeat sstep.

Section equations.
Context {K : Type} `{SocketKernel K}.
Implicit Types (l : lockstate) (s : server) (k : K).

Lemma a_zombied_run sfd k l s :
  Z_mutex ∉ held l →
  a_zombied sfd (World k l s) =
  Ret tt (World (sys_gettimeofday k).2 (traced Z_mutex l) (set_zm (<[sfd := now_ms k]> (zm s)) s)).
Proof.
  intros Hz. unfold a_zombied. srun.
  run_with (epoch_millis_run (World k (acquire Z_mutex l) s)). srun. done.
Qed.

(** The locks and the entries after [add]. *)
Definition add_locks l : lockstate :=
  traced E_mutex (traced W_mutex (allocated (traced R_mutex (allocated l)))).

Lemma add_run fd k l s :
  R_mutex ∉ held l → W_mutex ∉ held l → E_mutex ∉ held l →
  add fd (World k l s) =
  Ret tt (World k (add_locks l)
    (Server (emplace fd (MkReadR (BufferedReader_new EOT fd) (next_mutex l) true) (rrm s))
       (emplace fd (MkWriteR BufferedWriter_new (Datatypes.S (next_mutex l)) true) (wrm s))
       (<[fd := EPOLLIN]> (sfd_events s)) (zm s) (i_sfd s) (port s) (ep_sfd s)
       (a_tp s) (r_tp s) (w_tp s))).
Proof. intros H1 H2 H3. unfold add. srun. done. Qed.

(** ** [send_msg] *)
Definition frame_fits (msg_v : bytes) : Prop := 38 + len msg_v < 2 ^ 32.

Lemma packed uuid_v msg_v (w : world K server) :
  37 ≤ len uuid_v → frame_fits msg_v →
  let mfs := wrap 32 (37 + len msg_v + 1) in
  mfs = 38 + len msg_v ∧
  pack_frame_v uuid_v msg_v (replicate (Z.to_nat mfs) NUL) w =
  Ret (frame_of (take 37 uuid_v) msg_v) w.
Proof.
  intros Hu Hm mfs. unfold frame_fits in *.
  assert (mfs = 38 + len msg_v) as E by (unfold mfs; rewrite wrap_small; lia).
  split; [done|]. rewrite E, pack_frame_v_eq, pack_frame_run by (rewrite ?length_replicate; lia).
  rewrite Nat2Z.id, firstn_all, drop_ge by (rewrite length_replicate; lia). done.
Qed.

Lemma send_msg_short uuid_v msg_v sfd w :
  len uuid_v < 37 → frame_fits msg_v → send_msg uuid_v msg_v sfd w = Undef.
Proof.
  unfold frame_fits. intros Hu Hm. unfold send_msg. rewrite bind_unfold.
  rewrite pack_frame_v_eq, pack_frame_short; [done|done|].
  rewrite length_replicate, wrap_small by lia. lia.
Qed.

Lemma send_msg_overrun uuid_v msg_v sfd w :
  37 ≤ len uuid_v → 2 ^ 32 ≤ 38 + len msg_v → send_msg uuid_v msg_v sfd w = Undef.
Proof.
  intros Hu Hm. unfold send_msg. rewrite bind_unfold.
  pose proof (wrap_bounds 32 (37 + len msg_v + 1) ltac:(lia)) as Hw.
  rewrite pack_frame_v_eq, pack_frame_overrun; [done|done|lia|rewrite length_replicate; lia..].
Qed.

Lemma send_msg_none uuid_v msg_v sfd k l s :
  37 ≤ len uuid_v → frame_fits msg_v → W_mutex ∉ held l → wrm s !! sfd = None →
  send_msg uuid_v msg_v sfd (World k l s) = Ret tt (World k (traced W_mutex l) s).
Proof.
  intros Hu Hm Hl Hw. unfold send_msg.
  destruct (packed uuid_v msg_v (World k l s) Hu Hm) as [_ E]. run_with E. srun.
  rewrite Hw. done.
Qed.

(** [send_msg], like [read] and [write], looks up its entry under one mutex and uses it
    under another.  The second part works on the entry whose mutex was [q]: the pointer
    to it dangles when that entry is gone. *)
Definition write_find (sfd : Z) : M (world K server) (option nat) :=
  lock W_mutex;; m ← get wrm; unlock W_mutex;; mret (w_mutex <$> m !! sfd).

Definition send_find (uuid_v msg_v : bytes) (sfd : Z) : M (world K server) (bytes * option nat) :=
  let mfs := wrap 32 (37 + len msg_v + 1) in
  msg_frame ← pack_frame_v uuid_v msg_v (replicate (Z.to_nat mfs) NUL);
  f ← write_find sfd;
  mret (msg_frame, f).

Definition send_found (msg_frame : bytes) (mfs sfd : Z) (q : nat) : M (world K server) unit :=
  wr ← load (in_app (wr_ref sfd));
  if negb (w_mutex wr =? q)%nat then undef
  else
    lock (WR_mutex (w_mutex wr));;
    wr ← load (in_app (wr_ref sfd));
    (if w_is_valid wr then BufferedWriter.write (in_app (bw_ref sfd)) msg_frame mfs
     else mret tt);;
    unlock (WR_mutex (w_mutex wr));;
    ep ← get ep_sfd;
    arm EPOLLOUT ep sfd (in_app events_ref) E_mutex.

Lemma write_find_run fd k l s :
  W_mutex ∉ held l →
  write_find fd (World k l s) = Ret (w_mutex <$> wrm s !! fd) (World k (traced W_mutex l) s).
Proof. intros Hl. unfold write_find. by srun. Qed.

Lemma send_find_run uuid_v msg_v fd k l s :
  37 ≤ len uuid_v → frame_fits msg_v → W_mutex ∉ held l →
  send_find uuid_v msg_v fd (World k l s) =
  Ret (frame_of (take 37 uuid_v) msg_v, w_mutex <$> wrm s !! fd) (World k (traced W_mutex l) s).
Proof.
  intros Hu Hm Hl. unfold send_find. destruct (packed uuid_v msg_v (World k l s) Hu Hm) as [_ E].
  run_with E. by run_with (write_find_run fd k l s Hl).
Qed.

Lemma send_split uuid_v msg_v fd k l s :
  37 ≤ len uuid_v → frame_fits msg_v → W_mutex ∉ held l →
  send_msg uuid_v msg_v fd (World k l s) =
  ('(msg_frame, f) ← send_find uuid_v msg_v fd;
   match f with Some q => send_found msg_frame (38 + len msg_v) fd q | None => mret tt end) (World k l s).
Proof.
  intros Hu Hm Hl. run_with (send_find_run uuid_v msg_v fd k l s Hu Hm Hl).
  unfold send_msg. destruct (packed uuid_v msg_v (World k l s) Hu Hm) as [Hmfs E]. run_with E. srun.
  rewrite Hmfs. destruct (wrm s !! fd) as [y|] eqn:Hy; [|done]. cbn [fmap option_fmap option_map].
  unfold send_found. srun. by rewrite Nat.eqb_refl.
Qed.

(** What is done with a message when the entry is locked. *)
Lemma server_enqueue_run f sfd y (w : world K server) :
  wrm (app w) !! sfd = Some y → len f < 2 ^ 32 →
  (if w_is_valid y then BufferedWriter.write (in_app (bw_ref sfd)) f (len f) else mret tt) w =
  Ret tt (set_app (set_wrm (<[sfd := enqueue f y]> (wrm (app w))) (app w)) w).
Proof.
  intros Hy Hf. unfold enqueue. destruct (w_is_valid y) eqn:Ev.
  - rewrite (write_run (in_app (bw_ref sfd)) f (wbuffer (w_bw y))); [| |lia|done].
    + cbn. rewrite Nat2Z.id, firstn_all. unfold set_wrm. by rewrite (alter_as_insert _ _ _ _ Hy), Ev.
    + cbn. rewrite Hy. by destruct y as [[]].
  - destruct w as [k l s]. cbn in *. unfold set_app, set_wrm. cbn. rewrite insert_id by done. by destruct s.
Qed.

Lemma send_found_run id msg_v sfd k l s y :
  len id = 37 → frame_fits msg_v →
  E_mutex ∉ held l → WR_mutex (w_mutex y) ∉ held l → w_mutex y ∈ live l →
  wrm s !! sfd = Some y →
  let v := Z.lor (get0 (sfd_events s) sfd) EPOLLOUT in
  send_found (frame_of id msg_v) (38 + len msg_v) sfd (w_mutex y) (World k l s) =
  Ret tt (World (sys_epoll_mod (ep_sfd s) sfd v k).2 (traced E_mutex (traced (WR_mutex (w_mutex y)) l))
            (set_sfd_events (<[sfd := v]> (sfd_events s))
               (set_wrm (<[sfd := enqueue (frame_of id msg_v) y]> (wrm s)) s))).
Proof.
  intros Hid Hm He Hwr Hlive Hw v. unfold send_found. srun. rewrite Nat.eqb_refl. cbn [negb]. srun.
  set (s2 := set_wrm (<[sfd := enqueue (frame_of id msg_v) y]> (wrm s)) s).
  assert (len (frame_of id msg_v) = 38 + len msg_v) as Hf
    by (unfold frame_of; rewrite !length_app; cbn [length]; lia).
  pose proof (server_enqueue_run (frame_of id msg_v) sfd y (World k (acquire (WR_mutex (w_mutex y)) l) s) Hw) as E1.
  rewrite Hf in E1. specialize (E1 Hm). cbn [app kern locks] in E1. unfold set_app in E1. cbn in E1.
  run_with E1. srun.
  rewrite (arm_run events_ref E_mutex EPOLLOUT _ sfd (sfd_events s2)); [|done|done|done].
  done.
Qed.

Lemma send_found_stale msg_frame mfs fd q k l s :
  w_mutex <$> wrm s !! fd ≠ Some q → send_found msg_frame mfs fd q (World k l s) = Undef.
Proof.
  intros Hq. unfold send_found. rewrite bind_unfold. unfold load. cbn.
  destruct (wrm s !! fd) as [y|]; [|done].
  by rewrite (proj2 (Nat.eqb_neq (w_mutex y) q)) by (intros E; apply Hq; cbn; by rewrite E).
Qed.

Lemma send_msg_some uuid_v msg_v sfd k l s y :
  37 ≤ len uuid_v → frame_fits msg_v →
  W_mutex ∉ held l → E_mutex ∉ held l → WR_mutex (w_mutex y) ∉ held l → w_mutex y ∈ live l →
  wrm s !! sfd = Some y →
  let v := Z.lor (get0 (sfd_events s) sfd) EPOLLOUT in
  send_msg uuid_v msg_v sfd (World k l s) =
  Ret tt (World (sys_epoll_mod (ep_sfd s) sfd v k).2
            (traced E_mutex (traced (WR_mutex (w_mutex y)) (traced W_mutex l)))
            (set_sfd_events (<[sfd := v]> (sfd_events s))
               (set_wrm (<[sfd := enqueue (frame_of (take 37 uuid_v) msg_v) y]> (wrm s)) s))).
Proof.
  intros Hu Hm Hl He Hwr Hlive Hw v. rewrite send_split by done.
  run_with (send_find_run uuid_v msg_v sfd k l s Hu Hm Hl). rewrite Hw. cbn [fmap option_fmap option_map].
  rewrite send_found_run; try done. rewrite length_take. lia.
Qed.

Lemma disarm_run bit sfd k l s :
  E_mutex ∉ held l →
  let v := Z.lxor (get0 (sfd_events s) sfd) bit in
  disarm bit sfd (World k l s) =
  Ret tt (World (sys_epoll_mod (ep_sfd s) sfd v k).2 (traced E_mutex l)
            (set_sfd_events (<[sfd := v]> (sfd_events s)) s)).
Proof.
  intros He v. unfold disarm. srun. erewrite bind_run by apply set_epoll_run. srun.
  cbn. unfold get0 at 1. rewrite lookup_insert_eq. done.
Qed.

Lemma read_callback_run sfd k l s :
  E_mutex ∉ held l →
  let v := Z.lxor (get0 (sfd_events s) sfd) EPOLLIN in
  read_callback sfd (World k l s) =
  Ret tt (World (sys_epoll_mod (ep_sfd s) sfd v k).2 (traced E_mutex l)
            (set_r_tp (r_tp s ++ [ReadTask sfd]) (set_sfd_events (<[sfd := v]> (sfd_events s)) s))).
Proof. intros He v. unfold read_callback. by run_with (disarm_run EPOLLIN sfd k l s He). Qed.

Lemma write_callback_run sfd k l s :
  E_mutex ∉ held l →
  let v := Z.lxor (get0 (sfd_events s) sfd) EPOLLOUT in
  write_callback sfd (World k l s) =
  Ret tt (World (sys_epoll_mod (ep_sfd s) sfd v k).2 (traced E_mutex l)
            (set_w_tp (w_tp s ++ [WriteTask sfd]) (set_sfd_events (<[sfd := v]> (sfd_events s)) s))).
Proof. intros He v. unfold write_callback. by run_with (disarm_run EPOLLOUT sfd k l s He). Qed.

(** ** [close_n_clean] *)
Definition free_opt (o : option nat) l : lockstate :=
  match o with Some p => freed p l | None => l end.

Definition clean_locks (o o' : option nat) l : lockstate :=
  traced E_mutex (free_opt o' (traced W_mutex (free_opt o (traced R_mutex l)))).

Definition erased (fd : Z) s : server :=
  Server (delete fd (rrm s)) (delete fd (wrm s)) (delete fd (sfd_events s)) (zm s) (i_sfd s)
    (port s) (ep_sfd s) (a_tp s) (r_tp s) (w_tp s).

Lemma clean_rr_run fd k l s :
  let o := r_mutex <$> rrm s !! fd in
  R_mutex ∉ held l →
  (∀ p, o = Some p → p ∈ live l ∧ (RR_mutex p ∉ held l) ∧ (WR_mutex p ∉ held l)) →
  clean_rr fd (World k l s) =
  Ret tt (World k (free_opt o (traced R_mutex l)) (set_rrm (delete fd (rrm s)) s)).
Proof.
  intros o HR Hp. unfold clean_rr. srun. unfold o in *. destruct (rrm s !! fd) as [x|] eqn:E.
  - destruct (Hp _ eq_refl) as (H1 & H2 & H3). rewrite bind_assoc.
    erewrite bind_run; [|apply delete_mutex_run; [done|cbn; set_solver..]]. srun. done.
  - srun. rewrite delete_id by done. by destruct s.
Qed.

Lemma clean_wr_run fd k l s :
  let o := w_mutex <$> wrm s !! fd in
  W_mutex ∉ held l →
  (∀ p, o = Some p → p ∈ live l ∧ (RR_mutex p ∉ held l) ∧ (WR_mutex p ∉ held l)) →
  clean_wr fd (World k l s) =
  Ret tt (World k (free_opt o (traced W_mutex l)) (set_wrm (delete fd (wrm s)) s)).
Proof.
  intros o HR Hp. unfold clean_wr. srun. unfold o in *. destruct (wrm s !! fd) as [x|] eqn:E.
  - destruct (Hp _ eq_refl) as (H1 & H2 & H3). rewrite bind_assoc.
    erewrite bind_run; [|apply delete_mutex_run; [done|cbn; set_solver..]]. srun. done.
  - srun. rewrite delete_id by done. by destruct s.
Qed.

Lemma clean_run fd k l s :
  let o := r_mutex <$> rrm s !! fd in
  let o' := w_mutex <$> wrm s !! fd in
  R_mutex ∉ held l → W_mutex ∉ held l → E_mutex ∉ held l →
  (∀ p, o = Some p ∨ o' = Some p →
     p ∈ live l ∧ (RR_mutex p ∉ held l) ∧ (WR_mutex p ∉ held l)) →
  (∀ p, o = Some p → o' ≠ Some p) →
  clean fd (World k l s) = Ret tt (World k (clean_locks o o' l) (erased fd s)).
Proof.
  intros o o' HR HW HE Hp Hne. unfold clean.
  erewrite bind_run by (apply clean_rr_run; [done|intros p Ho; apply Hp; by left]).
  fold o. erewrite bind_run.
  2: { apply clean_wr_run; [by destruct o|]. cbn. fold o'. intros p Ho.
       destruct (Hp p (or_intror Ho)) as (H1 & H2 & H3).
       destruct o as [q|]; [|done]. split_and!; [|done|done]. cbn.
       specialize (Hne q eq_refl). set_solver. }
  cbn. fold o'. unfold clean_events. destruct o, o'; srun; done.
Qed.
End equations.
