(* ===== verification/ServerProofs.v ===== *)
(** * Correctness of [asutils::SocketServer]

    The invariant of a server's threads ([ok]): every entry of the maps has a live
    mutex of its own, readers split at the delimiter, and mutexes are taken in a
    fixed order.  Then what reading a connection, reaping zombies and each of the
    events do. *)

From S2P Require Import Prelude Utils BufferedReader BufferedWriter Kernel Simulation.
From S2P Require Import SocketUtils SocketServer.

(** ** Well-formed servers

    Every entry has a live mutex of its own, and every reader splits at the
    delimiter, has no delimiter in it and calls back for its own descriptor. *)
Record wf (l : lockstate) (rr : gmap Z (ReadR Z)) (wr : gmap Z WriteR) : Prop := {
  wf_fresh p : p ∈ live l → (p < next_mutex l)%nat;
  wf_rr fd x : rr !! fd = Some x → r_mutex x ∈ live l ∧
    ∃ b, r_br x = MkBufferedReader b (Some EOT) (Some fd) ∧ EOT ∉ b;
  wf_wr fd y : wr !! fd = Some y → w_mutex y ∈ live l;
  wf_rr_inj fd fd' x x' : rr !! fd = Some x → rr !! fd' = Some x' → r_mutex x = r_mutex x' → fd = fd';
  wf_wr_inj fd fd' y y' : wr !! fd = Some y → wr !! fd' = Some y' → w_mutex y = w_mutex y' → fd = fd';
  wf_rw fd fd' x y : rr !! fd = Some x → wr !! fd' = Some y → r_mutex x ≠ w_mutex y
}.

Lemma wf_mono l l' rr wr :
  live l' = live l → next_mutex l' = next_mutex l → wf l rr wr → wf l' rr wr.
Proof. intros E1 E2 []. split; rewrite ?E1, ?E2; eauto. Qed.

Lemma wf_allocated l rr wr : wf l rr wr → wf (allocated l) rr wr.
Proof.
  intros []. split; cbn; eauto.
  - intros p [->%elem_of_singleton|Hp]%elem_of_union; [lia|]. specialize (wf_fresh0 p Hp). lia.
  - intros fd x Hx. destruct (wf_rr0 fd x Hx) as [? ?]. split; [set_solver|done].
  - intros fd y Hy. specialize (wf_wr0 fd y Hy). set_solver.
Qed.

(** The address that was allocated last belongs to no entry yet. *)
Lemma wf_new_rr l rr wr fd x :
  wf l rr wr → rr !! fd = Some x → r_mutex x ≠ next_mutex l.
Proof. intros [] Hx. destruct (wf_rr0 _ _ Hx) as [Hl _]. specialize (wf_fresh0 _ Hl). lia. Qed.

Lemma wf_new_wr l rr wr fd y :
  wf l rr wr → wr !! fd = Some y → w_mutex y ≠ next_mutex l.
Proof. intros [] Hy. specialize (wf_wr0 _ _ Hy). specialize (wf_fresh0 _ wf_wr0). lia. Qed.

Lemma wf_emplace_rr l rr wr fd b :
  wf l rr wr →
  wf (allocated l) (emplace fd (MkReadR (BufferedReader_new EOT fd) (next_mutex l) b) rr) wr.
Proof.
  intros Hwf. pose proof (wf_new_rr l rr wr) as Hn. pose proof (wf_new_wr l rr wr) as Hn'.
  destruct (wf_allocated _ _ _ Hwf). split; try done.
  - intros fd' x [Hx|(-> & -> & _)]%emplace_some; [by eauto|]. cbn. split; [set_solver|].
    eexists. split; [done|]. apply not_elem_of_nil.
  - intros f1 f2 x x' [Hx|(-> & -> & _)]%emplace_some [Hx'|(-> & -> & _)]%emplace_some; cbn; eauto.
    + intros E. by destruct (Hn f1 x Hwf Hx).
    + intros E. by destruct (Hn f2 x' Hwf Hx').
  - intros f1 f2 x y [Hx|(-> & -> & _)]%emplace_some Hy; cbn; eauto.
    intros E. by destruct (Hn' f2 y Hwf Hy).
Qed.

Lemma wf_emplace_wr l rr wr fd b :
  wf l rr wr →
  wf (allocated l) rr (emplace fd (MkWriteR BufferedWriter_new (next_mutex l) b) wr).
Proof.
  intros Hwf. pose proof (wf_new_rr l rr wr) as Hn. pose proof (wf_new_wr l rr wr) as Hn'.
  destruct (wf_allocated _ _ _ Hwf). split; try done.
  - intros fd' y [Hy|(-> & -> & _)]%emplace_some; [by eauto|]. cbn. set_solver.
  - intros f1 f2 y y' [Hy|(-> & -> & _)]%emplace_some [Hy'|(-> & -> & _)]%emplace_some; cbn; eauto.
    + intros E. by destruct (Hn' f1 y Hwf Hy).
    + intros E. by destruct (Hn' f2 y' Hwf Hy').
  - intros f1 f2 x y Hx [Hy|(-> & -> & _)]%emplace_some; cbn; eauto.
Qed.

Lemma wf_delete_rr l rr wr fd :
  wf l rr wr → wf (free_opt (r_mutex <$> rr !! fd) l) (delete fd rr) wr.
Proof.
  intros Hwf. destruct (rr !! fd) as [x|] eqn:E; cbn.
  2: { by rewrite delete_id. }
  destruct Hwf. split; cbn.
  - intros p [Hp _]%elem_of_difference. eauto.
  - intros fd' x' [Hne Hx']%lookup_delete_Some. destruct (wf_rr0 _ _ Hx') as [? ?].
    split; [|done]. apply elem_of_difference. split; [done|].
    intros Heq%elem_of_singleton. apply Hne. eauto.
  - intros fd' y Hy. apply elem_of_difference. split; [by eauto|].
    intros ?%elem_of_singleton. by destruct (wf_rw0 fd fd' x y).
  - intros f1 f2 x1 x2 [_ H1]%lookup_delete_Some [_ H2]%lookup_delete_Some. eauto.
  - done.
  - intros f1 f2 x1 y [_ H1]%lookup_delete_Some. eauto.
Qed.

Lemma wf_delete_wr l rr wr fd :
  wf l rr wr → wf (free_opt (w_mutex <$> wr !! fd) l) rr (delete fd wr).
Proof.
  intros Hwf. destruct (wr !! fd) as [y|] eqn:E; cbn.
  2: { by rewrite delete_id. }
  destruct Hwf. split; cbn.
  - intros p [Hp _]%elem_of_difference. eauto.
  - intros fd' x' Hx'. destruct (wf_rr0 _ _ Hx') as [? ?].
    split; [|done]. apply elem_of_difference. split; [done|].
    intros ?%elem_of_singleton. by destruct (wf_rw0 fd' fd x' y).
  - intros fd' y' [Hne Hy']%lookup_delete_Some. apply elem_of_difference. split; [by eauto|].
    intros Heq%elem_of_singleton. apply Hne. eauto.
  - done.
  - intros f1 f2 y1 y2 [_ H1]%lookup_delete_Some [_ H2]%lookup_delete_Some. eauto.
  - intros f1 f2 x y1 Hx [_ H1]%lookup_delete_Some. eauto.
Qed.

(** An entry changed without touching its mutex. *)
Lemma wf_update_rr l rr wr fd x x' b :
  rr !! fd = Some x → r_mutex x' = r_mutex x →
  r_br x' = MkBufferedReader b (Some EOT) (Some fd) → EOT ∉ b →
  wf l rr wr → wf l (<[fd := x']> rr) wr.
Proof.
  intros Hx Hm Hb Hn []. split; try done.
  - intros fd' z [[<- <-]|[? Hz]]%lookup_insert_Some; [|by eauto].
    destruct (wf_rr0 _ _ Hx) as [? _]. rewrite Hm. split; [done|]. by exists b.
  - intros f1 f2 z z' [[<- <-]|[? Hz]]%lookup_insert_Some [[<- <-]|[? Hz']]%lookup_insert_Some;
      rewrite ?Hm; eauto.
  - intros f1 f2 z y [[<- <-]|[? Hz]]%lookup_insert_Some Hy; rewrite ?Hm; eauto.
Qed.

Lemma wf_update_wr l rr wr fd y y' :
  wr !! fd = Some y → w_mutex y' = w_mutex y →
  wf l rr wr → wf l rr (<[fd := y']> wr).
Proof.
  intros Hy Hm []. split; try done.
  - intros fd' z [[<- <-]|[? Hz]]%lookup_insert_Some; rewrite ?Hm; eauto.
  - intros f1 f2 z z' [[<- <-]|[? Hz]]%lookup_insert_Some [[<- <-]|[? Hz']]%lookup_insert_Some;
      rewrite ?Hm; eauto.
  - intros f1 f2 x z Hx [[<- <-]|[? Hz]]%lookup_insert_Some; rewrite ?Hm; eauto.
Qed.

(** ** The order in which the mutexes are taken *)
Definition server_rank (m : mutex) : nat :=
  match m with RR_mutex _ => 0 | WR_mutex _ => 1 | Z_mutex => 2 | _ => 3 end.

Lemma below_fresh m hs : below server_rank m hs → m ∉ hs.
Proof. unfold below. rewrite Forall_forall. intros Hb Hm. specialize (Hb _ Hm). lia. Qed.

(** A thread of the server that holds [hs]. *)
Record ok {K} (hs : list mutex) (w : world K server) : Prop := {
  ok_held : held (locks w) = hs;
  ok_ordered : ordered server_rank (locks w);
  ok_wf : wf (locks w) (rrm (app w)) (wrm (app w))
}.

Definition heap_free (hs : list mutex) : Prop := ∀ p, (RR_mutex p ∉ hs) ∧ (WR_mutex p ∉ hs).

Lemma heap_free_nil : heap_free [].
Proof. split; apply not_elem_of_nil. Qed.

Lemma heap_free_zombies : heap_free [Z_mutex].
Proof. split; set_solver. Qed.

Lemma ok_traced {K} hs m (k k' : K) l s s' :
  ok (K:=K) hs (World k l s) → below server_rank m hs → rrm s' = rrm s → wrm s' = wrm s →
  ok hs (World k' (traced m l) s').
Proof.
  intros [H1 H2 H3] Hb E1 E2. cbn in *. split; cbn; [done| |].
  - apply ordered_traced; [done|]. by rewrite H1.
  - rewrite E1, E2. by apply (wf_mono l).
Qed.

Lemma ok_kern {K} hs (k k' : K) l s : ok (K:=K) hs (World k l s) → ok hs (World k' l s).
Proof. by intros []. Qed.

Section invariant.
Context {K : Type} `{SocketKernel K}.
Implicit Types (l : lockstate) (s : server) (k : K) (w : world K server).

(** A statement that returns, keeps the invariant and does not touch the map of
    readers nor what has arrived. *)
Definition step_ok (hs : list mutex) (m : M (world K server) unit) w : Prop :=
  ∃ w', m w = Ret tt w' ∧ ok hs w' ∧ rrm (app w') = rrm (app w) ∧
        ∀ fd, inbox fd (kern w') = inbox fd (kern w) ∧
              inbox_end fd (kern w') = inbox_end fd (kern w).

Lemma send_below hs m : below server_rank (WR_mutex 0) hs → (1 ≤ server_rank m)%nat → below server_rank m hs.
Proof.
  unfold below. rewrite !Forall_forall. intros Hb Hr h Hh. specialize (Hb h Hh). cbn in Hb. lia.
Qed.

Lemma send_found_ok hs id msg_v fd y w :
  ok hs w → below server_rank (WR_mutex 0) hs → len id = 37 → frame_fits msg_v →
  wrm (app w) !! fd = Some y →
  step_ok hs (send_found (frame_of id msg_v) (38 + len msg_v) fd (w_mutex y)) w.
Proof.
  intros [H1 H2 H3] Hb Hid Hm Hy. destruct w as [k l s]. cbn in *. eexists. split.
  { apply send_found_run; try (done || (rewrite H1; apply below_fresh, send_below; cbn; (done || lia))).
    by eapply wf_wr. }
  split_and!.
  - split; cbn; [done| |].
    + repeat (apply ordered_traced; [|cbn; rewrite H1; apply send_below; [done|cbn; lia]]). done.
    + eapply wf_mono; [done|done|]. eapply wf_update_wr; [done| |by apply (wf_mono l)].
      unfold enqueue. by destruct (w_is_valid y).
  - done.
  - intros fd'. cbn. by destruct (mod_frame (ep_sfd s) fd
      (Z.lor (get0 (sfd_events s) fd) EPOLLOUT) k fd') as (? & ? & _).
Qed.

Lemma send_msg_ok hs uuid_v msg_v fd w :
  ok hs w → below server_rank (WR_mutex 0) hs → 37 ≤ len uuid_v → frame_fits msg_v →
  step_ok hs (send_msg uuid_v msg_v fd) w.
Proof.
  intros Hok Hb Hu Hm. destruct w as [k l s].
  assert (W_mutex ∉ held l) as Hl.
  { pose proof (ok_held _ _ Hok) as Hh. cbn in Hh. rewrite Hh. apply below_fresh, send_below; [done|cbn; lia]. }
  assert (ok hs (World k (traced W_mutex l) s)) as Hok'.
  { apply (ok_traced hs W_mutex k k l s s); [done|apply send_below; [done|cbn; lia]|done|done]. }
  unfold step_ok. rewrite send_split by done. run_with (send_find_run uuid_v msg_v fd k l s Hu Hm Hl).
  destruct (wrm s !! fd) as [y|] eqn:Hy; [|by eexists].
  destruct (send_found_ok hs (take 37 uuid_v) msg_v fd y _ Hok' Hb) as (w' & E & H'); [|done|done|by exists w'].
  rewrite length_take. lia.
Qed.

Lemma a_zombied_ok hs fd w : ok hs w → below server_rank Z_mutex hs → step_ok hs (a_zombied fd) w.
Proof.
  intros Hok Hb. destruct w as [k l s]. eexists. split.
  { apply a_zombied_run. pose proof (ok_held _ _ Hok) as Hh. cbn in Hh. rewrite Hh.
    by apply below_fresh. }
  split_and!; [|done|].
  - by apply (ok_traced hs Z_mutex k _ l s).
  - intros fd'. cbn. destruct (time_frame k fd') as (? & ? & _). done.
Qed.
Lemma ok_acquire hs m k l s :
  ok hs (World k l s) → below server_rank m hs → ok (m :: hs) (World k (acquire m l) s).
Proof.
  intros [H1 H2 H3] Hb. cbn in *. split; cbn; [by rewrite H1| |by apply (wf_mono l)].
  apply ordered_acquire; [done|]. by rewrite H1.
Qed.

Lemma ok_release hs m k l s : ok (m :: hs) (World k l s) → ok hs (World k (release l) s).
Proof. intros [H1 H2 H3]. cbn in *. split; cbn; [by rewrite H1|done|by apply (wf_mono l)]. Qed.

(** ** Reading the messages of a connection *)
Lemma call_back_of_run handler fd f w :
  len f < 2 ^ 32 → call_back_of handler fd f w = handler (take 37 f) (drop 37 f) fd w.
Proof. intros Hf. unfold call_back_of. cbn zeta. by run_with (unpack_delivered f w Hf). Qed.

(** [read] and [write] look up their entry under one mutex and use it under another.
    The second part works on the entry whose mutex was [p]: the pointer to it
    dangles when that entry is gone. *)
Definition read_find (sfd : Z) : M (world K server) (option nat) :=
  lock R_mutex;; m ← get rrm; unlock R_mutex;; mret (r_mutex <$> m !! sfd).

Definition read_found handler (fuel : nat) (sfd : Z) (p : nat) : M (world K server) unit :=
  rr ← load (in_app (rr_ref sfd));
  if negb (r_mutex rr =? p)%nat then undef
  else
    lock (RR_mutex (r_mutex rr));;
    rr ← load (in_app (rr_ref sfd));
    (if r_is_valid rr then
       ep ← get ep_sfd;
       read_from_sfd (call_back_of handler) fuel ep sfd (in_app (br_ref sfd)) (read_close sfd)
         (in_app events_ref) E_mutex
     else mret tt);;
    rr ← load (in_app (rr_ref sfd));
    unlock (RR_mutex (r_mutex rr)).

Definition write_found (fuel : nat) (sfd : Z) (q : nat) : M (world K server) unit :=
  wr ← load (in_app (wr_ref sfd));
  if negb (w_mutex wr =? q)%nat then undef
  else
    lock (WR_mutex (w_mutex wr));;
    wr ← load (in_app (wr_ref sfd));
    (if w_is_valid wr then
       ep ← get ep_sfd;
       write_to_sfd fuel ep sfd (in_app (bw_ref sfd)) (write_close sfd) (in_app events_ref) E_mutex
     else mret tt);;
    wr ← load (in_app (wr_ref sfd));
    unlock (WR_mutex (w_mutex wr)).

Lemma read_find_run fd k l s :
  R_mutex ∉ held l →
  read_find fd (World k l s) = Ret (r_mutex <$> rrm s !! fd) (World k (traced R_mutex l) s).
Proof. intros Hl. unfold read_find. by srun. Qed.

Lemma read_split handler fuel fd k l s :
  R_mutex ∉ held l →
  read handler fuel fd (World k l s) =
  (f ← read_find fd;
   match f with Some p => read_found handler fuel fd p | None => mret tt end) (World k l s).
Proof.
  intros Hl. run_with (read_find_run fd k l s Hl). unfold read. srun.
  destruct (rrm s !! fd) as [x|] eqn:Hx; [|done]. cbn [fmap option_fmap option_map].
  unfold read_found. srun. by rewrite Nat.eqb_refl.
Qed.

Lemma write_split fuel fd k l s :
  W_mutex ∉ held l →
  write fuel fd (World k l s) =
  (f ← write_find fd;
   match f with Some q => write_found fuel fd q | None => mret tt end) (World k l s).
Proof.
  intros Hl. run_with (write_find_run fd k l s Hl). unfold write. srun.
  destruct (wrm s !! fd) as [y|] eqn:Hy; [|done]. cbn [fmap option_fmap option_map].
  unfold write_found. srun. by rewrite Nat.eqb_refl.
Qed.

(** System calls that only serve the reading side of [fd]. *)
Inductive reading_call (fd : Z) : K → K → Prop :=
  | call_read n k : reading_call fd k (sys_read fd n k).2
  | call_mod ep fd' ev k : reading_call fd k (sys_epoll_mod ep fd' ev k).2
  | call_time k : reading_call fd k (sys_gettimeofday k).2.

(** What reading from [fd] leaves alone by itself: all but the descriptor's reader, its
    bit [EPOLLIN] and its place among the zombies. *)
Record same_rest (fd : Z) (s s' : server) : Prop := {
  rest_wrm : wrm s' = wrm s;
  rest_rrm fd' : fd' ≠ fd → rrm s' !! fd' = rrm s !! fd';
  rest_events fd' : fd' ≠ fd → sfd_events s' !! fd' = sfd_events s !! fd';
  rest_out : has (get0 (sfd_events s') fd) EPOLLOUT = has (get0 (sfd_events s) fd) EPOLLOUT;
  rest_r_tp : r_tp s' = r_tp s;
  rest_w_tp : w_tp s' = w_tp s
}.

Lemma same_rest_refl fd s : same_rest fd s s.
Proof. done. Qed.

(** [T ms] is what a handler has made of the messages [ms]: it may speak of all that
    reading leaves alone, and of the kernel. *)
Definition about_rest (fd : Z) (T : list (bytes * bytes) → world K server → Prop) : Prop :=
  ∀ ms w w', T ms w → same_rest fd (app w) (app w') →
    kern w' = kern w ∨ reading_call fd (kern w) (kern w') → T ms w'.

(** A handler that serves every message in [G]. *)
Definition handles (G : bytes * bytes → Prop) (T : list (bytes * bytes) → world K server → Prop)
    (handler : bytes → bytes → Z → M (world K server) unit) (fd : Z) : Prop :=
  ∀ p ms u m w, ok [RR_mutex p] w → T ms w → G (u, m) →
    ∃ w', handler u m fd w = Ret tt w' ∧ ok [RR_mutex p] w' ∧ T (ms ++ [(u, m)]) w' ∧
          rrm (app w') = rrm (app w) ∧
          (∀ fd', inbox fd' (kern w') = inbox fd' (kern w) ∧
                  inbox_end fd' (kern w') = inbox_end fd' (kern w)).

Section reading.
Context (G : bytes * bytes → Prop) (T : list (bytes * bytes) → world K server → Prop).
Context (handler : bytes → bytes → Z → M (world K server) unit) (fd : Z).
Hypothesis T_frame : about_rest fd T.
Hypothesis handler_ok : handles G T handler fd.

(** While frames are delivered, with the entry's mutex [p] held. *)
Definition delivering (p : nat) (l : list bytes) w : Prop :=
  ok [RR_mutex p] w ∧ T (map decode l) w ∧
  ∃ x, rrm (app w) !! fd = Some x ∧ r_mutex x = p ∧ r_is_valid x = true.

Lemma drain_run fuel p b close w frames rest :
  delivering p [] w → (∃ x, rrm (app w) !! fd = Some x ∧
                            r_br x = MkBufferedReader b (Some EOT) (Some fd)) →
  EOT ∉ b → (length (inbox fd (kern w)) < fuel)%nat →
  len b + len (inbox fd (kern w)) < 2 ^ 32 →
  feed EOT b (inbox fd (kern w)) = (frames, rest) → Forall (λ f, G (decode f)) frames →
  ∃ w', delivering p frames w' ∧ inbox fd (kern w') = [] ∧
        (∃ x, rrm (app w') !! fd = Some x ∧
              r_br x = MkBufferedReader rest (Some EOT) (Some fd)) ∧
        read_from_sfd (call_back_of handler) fuel (ep_sfd (app w)) fd (in_app (br_ref fd)) close
          (in_app events_ref) E_mutex w =
        (match inbox_end fd (kern w) with
         | Open => arm EPOLLIN (ep_sfd (app w)) fd (in_app events_ref) E_mutex
         | _ => close
         end) w'.
Proof.
  intros HP (x & Hx & Hbr) Hb Hfuel H32 E HG.
  destruct (read_from_sfd_run (call_back_of handler) (br_ref fd) fd fd (delivering p)
    (λ f, G (decode f) ∧ len f < 2 ^ 32)) with (fuel := fuel) (ep := ep_sfd (app w)) (d := EOT)
    (b := b) (l := @nil bytes) (w := w) (frames := frames) (rest := rest) (close := close)
    (ev := (in_app events_ref : ref (world K server) _)) (e_mutex := E_mutex) as (w' & HP' & Hrd & Hi & Er).
  - intros l w1 br b' Hrd Hd (Hok & HT & y & Hy & Hyp & Hyv). cbn in Hrd. rewrite Hy in Hrd.
    injection Hrd as <-. destruct (wf_rr _ _ _ (ok_wf _ _ Hok) _ _ Hy) as (_ & b0 & Hb0 & _).
    split_and!.
    + destruct Hok as [H1 H2 H3]. split; [done|done|]. cbn.
      rewrite (alter_as_insert _ _ _ _ Hy). eapply (wf_update_rr _ _ _ fd y _ b'); try done.
      * cbn. by rewrite Hb0.
      * apply Hd. by rewrite Hb0.
    + apply (T_frame _ w1); [done| |by left]. split; try done. cbn. intros fd' Hne. by rewrite lookup_alter_ne.
    + eexists. cbn. rewrite lookup_alter_eq, Hy. done.
  - intros l f w1 br Hrd Hcb (Hok & HT & y & Hy & Hyp & Hyv) [HGf Hf].
    destruct (handler_ok p (map decode l) (take 37 f) (drop 37 f) w1 Hok HT HGf)
      as (w2 & E2 & Hok2 & HT2 & Hrrm & Hio).
    exists w2. rewrite call_back_of_run by done. split_and!; [done| |by cbn; rewrite Hrrm|by apply Hio..].
    split_and!; [done|by rewrite map_app|]. rewrite Hrrm. by exists y.
  - intros l w1 n (Hok & HT & Hy). split_and!; [|by apply (T_frame _ w1); [|apply same_rest_refl|right; constructor]|done].
    destruct w1. by eapply ok_kern.
  - cbn. rewrite Hx. cbn. by rewrite Hbr.
  - done.
  - done.
  - done.
  - rewrite Forall_forall in HG. pose proof (feed_bound _ _ _ _ _ E) as HB.
    rewrite Forall_forall in HB. apply Forall_forall. intros f Hf. split; [by apply HG|].
    specialize (HB f Hf). lia.
  - done.
  - exists w'. split_and!; [done|done| |done].
    cbn in Hrd. apply fmap_Some in Hrd as (y & Hy & ->). by exists y.
Qed.
(** The two ways in which reading ends. *)
Lemma arm_ok p ep w :
  ok [RR_mutex p] w →
  ∃ w', arm EPOLLIN ep fd (in_app events_ref) E_mutex w = Ret tt w' ∧
        ok [RR_mutex p] w' ∧ (∀ ms, T ms w → T ms w') ∧ rrm (app w') = rrm (app w) ∧
        inbox fd (kern w') = inbox fd (kern w) ∧
        get0 (sfd_events (app w')) fd = Z.lor (get0 (sfd_events (app w)) fd) EPOLLIN.
Proof.
  intros Hok. eexists. split.
  { apply (arm_run events_ref E_mutex EPOLLIN _ _ (sfd_events (app w))); [done|done|].
    rewrite (ok_held _ _ Hok). set_solver. }
  destruct w as [k l s]. unfold armed. cbn. split_and!.
  - apply (ok_traced _ E_mutex k _ l s); [done| |done|done].
    repeat constructor.
  - intros ms HT. apply (T_frame _ _ _ HT); [|right; constructor]. split; try done; cbn.
    + intros fd' Hne. by rewrite lookup_insert_ne.
    + unfold get0 at 1. rewrite lookup_insert_eq. cbn. apply out_lor_in.
  - done.
  - apply mod_frame.
  - unfold get0 at 1. by rewrite lookup_insert_eq.
Qed.

Lemma read_close_ok p x w :
  ok [RR_mutex p] w → rrm (app w) !! fd = Some x →
  ∃ w', read_close fd w = Ret tt w' ∧ ok [RR_mutex p] w' ∧ (∀ ms, T ms w → T ms w') ∧
        rrm (app w') = <[fd := MkReadR (r_br x) (r_mutex x) false]> (rrm (app w)) ∧
        inbox fd (kern w') = inbox fd (kern w) ∧ is_Some (zm (app w') !! fd).
Proof.
  intros Hok Hx. destruct w as [k l s]. cbn in Hx. destruct Hok as [H1 H2 H3]. cbn in *.
  destruct (wf_rr _ _ _ H3 _ _ Hx) as (_ & b & Hb & Hn).
  eexists. split.
  { unfold read_close. srun. apply a_zombied_run. rewrite H1. set_solver. }
  cbn. split_and!.
  - split; cbn; [done| |].
    + apply ordered_traced; [done|]. rewrite H1. repeat constructor.
    + apply (wf_mono l); [done|done|]. by eapply wf_update_rr.
  - intros ms HT. apply (T_frame _ _ _ HT); [|right; constructor]. split; try done; cbn.
    intros fd' Hne. by rewrite lookup_insert_ne.
  - done.
  - apply time_frame.
  - by rewrite lookup_insert_eq.
Qed.

Lemma unlock_entry p w z :
  ok [RR_mutex p] w → rrm (app w) !! fd = Some z → r_mutex z = p →
  (rr ← load (in_app (rr_ref fd)); unlock (RR_mutex (r_mutex rr))) w =
  Ret tt (World (kern w) (release (locks w)) (app w)).
Proof.
  intros Hok Hz Hzm. destruct w as [k l s]. cbn in Hz. srun.
  pose proof (ok_held _ _ Hok) as Hh. cbn in Hh. rewrite Hzm.
  pose proof (wf_rr _ _ _ (ok_wf _ _ Hok) _ _ Hz) as [Hl _]. cbn in Hl. rewrite Hzm in Hl.
  by rewrite (unlock_run _ []) by lock_side.
Qed.

(** All that has arrived is read: the entry [y], made as [x], with the rest [br]. *)
Lemma end_of_stream (x y : ReadR Z) e ep w ms br :
  ok [RR_mutex (r_mutex x)] w → T ms w → inbox fd (kern w) = [] → rrm (app w) !! fd = Some y →
  r_mutex y = r_mutex x → r_is_valid y = true → r_br y = br →
  ∃ w', (match e with
         | Open => arm EPOLLIN ep fd (in_app events_ref) E_mutex
         | _ => read_close fd
         end) w = Ret tt w' ∧ ok [RR_mutex (r_mutex x)] w' ∧ T ms w' ∧ inbox fd (kern w') = [] ∧
    rrm (app w') !! fd = Some (MkReadR br (r_mutex x) (is_open e)) ∧
    if is_open e then has (get0 (sfd_events (app w')) fd) EPOLLIN = true
    else is_Some (zm (app w') !! fd).
Proof.
  intros Hok HT Hi Hy Hyp Hyv Hrest.
  destruct (arm_ok (r_mutex x) ep w Hok) as (w3 & E3 & Hok3 & HT3 & Hr3 & Hi3 & He3).
  destruct (read_close_ok (r_mutex x) y w Hok Hy) as (w4 & E4 & Hok4 & HT4 & Hr4 & Hi4 & Hz4).
  destruct y as [yb ym yv]. cbn in *. subst.
  destruct e; [exists w3|exists w4|exists w4]; cbn; split_and!;
    eauto; try congruence; try (by rewrite Hr4, lookup_insert_eq).
  rewrite He3. by apply has_or.
Qed.

Lemma read_found_run fuel k l s x b frames rest :
  ok [] (World k l s) → T [] (World k l s) → rrm s !! fd = Some x → r_is_valid x = true →
  r_br x = MkBufferedReader b (Some EOT) (Some fd) → EOT ∉ b →
  (length (inbox fd k) < fuel)%nat → len b + len (inbox fd k) < 2 ^ 32 →
  feed EOT b (inbox fd k) = (frames, rest) → Forall (λ f, G (decode f)) frames →
  ∃ w', read_found handler fuel fd (r_mutex x) (World k l s) = Ret tt w' ∧ ok [] w' ∧
        T (map decode frames) w' ∧ inbox fd (kern w') = [] ∧
        rrm (app w') !! fd = Some (MkReadR (MkBufferedReader rest (Some EOT) (Some fd)) (r_mutex x)
                                     (is_open (inbox_end fd k))) ∧
        if is_open (inbox_end fd k)
        then has (get0 (sfd_events (app w')) fd) EPOLLIN = true
        else is_Some (zm (app w') !! fd).
Proof.
  intros Hok HT Hx Hv Hbr Hb Hfuel H32 E HG.
  assert (∀ m, m ∉ held l) as Hh.
  { intros m. pose proof (ok_held _ _ Hok) as Hh. cbn in Hh. rewrite Hh. apply not_elem_of_nil. }
  pose proof (wf_rr _ _ _ (ok_wf _ _ Hok) _ _ Hx) as [Hlive _]. cbn in Hlive.
  set (w1 := World k (acquire (RR_mutex (r_mutex x)) l) s).
  assert (read_found handler fuel fd (r_mutex x) (World k l s) =
    (read_from_sfd (call_back_of handler) fuel (ep_sfd s) fd (in_app (br_ref fd)) (read_close fd)
       (in_app events_ref) E_mutex;;
     rr ← load (in_app (rr_ref fd)); unlock (RR_mutex (r_mutex rr))) w1) as ->.
  { unfold read_found. srun. rewrite Nat.eqb_refl. cbn [negb]. srun. rewrite Hv. by srun. }
  assert (ok [RR_mutex (r_mutex x)] w1) as Hok1 by (by apply ok_acquire; [|constructor]).
  destruct (drain_run fuel (r_mutex x) b (read_close fd) w1 frames rest)
    as (w2 & (Hok2 & HT2 & y & Hy & Hyp & Hyv) & Hi2 & (y' & Hy' & Hrest) & Er); try done.
  { split_and!; [done|by apply (T_frame _ _ _ HT); [apply same_rest_refl|left]|by exists x]. }
  { by exists x. }
  rewrite Hy in Hy'. injection Hy' as <-.
  rewrite (bind_unfold _ _ w1). cbn [app kern w1] in Er. rewrite Er. clear Er.
  destruct (end_of_stream x y (inbox_end fd k) (ep_sfd s) w2 (map decode frames)
    (MkBufferedReader rest (Some EOT) (Some fd))) as (w3 & E3 & Hok3 & HT3 & Hi3 & Hx3 & Hend3); try done.
  rewrite E3. rewrite (unlock_entry (r_mutex x) w3 _ Hok3 Hx3 eq_refl).
  eexists. split; [done|]. split_and!; [| |done..].
  - destruct w3. by eapply ok_release.
  - by apply (T_frame _ _ _ HT3); [apply same_rest_refl|left].
Qed.

Lemma read_entry_run fuel k l s x b frames rest :
  ok [] (World k l s) → T [] (World k l s) → rrm s !! fd = Some x → r_is_valid x = true →
  r_br x = MkBufferedReader b (Some EOT) (Some fd) → EOT ∉ b →
  (length (inbox fd k) < fuel)%nat → len b + len (inbox fd k) < 2 ^ 32 →
  feed EOT b (inbox fd k) = (frames, rest) → Forall (λ f, G (decode f)) frames →
  ∃ w', read handler fuel fd (World k l s) = Ret tt w' ∧ ok [] w' ∧
        T (map decode frames) w' ∧ inbox fd (kern w') = [] ∧
        rrm (app w') !! fd = Some (MkReadR (MkBufferedReader rest (Some EOT) (Some fd)) (r_mutex x)
                                     (is_open (inbox_end fd k))) ∧
        if is_open (inbox_end fd k)
        then has (get0 (sfd_events (app w')) fd) EPOLLIN = true
        else is_Some (zm (app w') !! fd).
Proof.
  intros Hok HT Hx Hv Hbr Hb Hfuel H32 E HG.
  assert (R_mutex ∉ held l) as Hh.
  { pose proof (ok_held _ _ Hok) as Hh. cbn in Hh. rewrite Hh. apply not_elem_of_nil. }
  rewrite read_split by done. run_with (read_find_run fd k l s Hh). rewrite Hx.
  eapply read_found_run; try done.
  - by apply (ok_traced _ _ k k l s s); [|constructor|..].
  - by apply (T_frame _ _ _ HT); [apply same_rest_refl|left].
Qed.
End reading.
(** ** Closing and reaping *)
Lemma clean_ok hs fd w :
  ok hs w → heap_free hs → below server_rank E_mutex hs →
  ∃ w', clean fd w = Ret tt w' ∧ ok hs w' ∧ app w' = erased fd (app w) ∧ kern w' = kern w.
Proof.
  intros [H1 H2 H3] Hf Hb. destruct w as [k l s]. cbn in *.
  assert (∀ m, server_rank m = 3%nat → (m ∉ held l) ∧ below server_rank m hs) as Hm.
  { intros m Hr. assert (below server_rank m hs) by by unfold below in *; rewrite Hr.
    rewrite H1. split; [by apply below_fresh|done]. }
  eexists. split.
  { apply clean_run; [by apply Hm..| |].
    - intros p [Hp|Hp]; apply fmap_Some in Hp as (z & Hz & ->); rewrite H1;
        destruct (Hf (r_mutex z)) || destruct (Hf (w_mutex z)).
      + split_and!; [by eapply wf_rr|done|done].
      + split_and!; [by eapply wf_wr|done|done].
    - intros p Hp Hp'. apply fmap_Some in Hp as (x & Hx & ->).
      apply fmap_Some in Hp' as (y & Hy & Hxy). by eapply wf_rw. }
  split_and!; [|done|done]. split; cbn.
  - by destruct (rrm s !! fd), (wrm s !! fd).
  - unfold clean_locks.
    destruct (rrm s !! fd), (wrm s !! fd); cbn;
      repeat (apply Forall_app; split); try done; repeat constructor; cbn; rewrite H1; by apply Hm.
  - eapply (wf_mono (free_opt (w_mutex <$> wrm s !! fd) (free_opt (r_mutex <$> rrm s !! fd) l))).
    + by destruct (rrm s !! fd), (wrm s !! fd).
    + by destruct (rrm s !! fd), (wrm s !! fd).
    + by apply wf_delete_wr, wf_delete_rr.
Qed.

Definition erase_all (zv : list Z) (s : server) : server := foldl (λ s fd, erased fd s) s zv.

Lemma erase_all_spec zv s :
  (zm (erase_all zv s) = zm s ∧ r_tp (erase_all zv s) = r_tp s ∧ w_tp (erase_all zv s) = w_tp s ∧
   ep_sfd (erase_all zv s) = ep_sfd s) ∧
  (∀ fd, rrm (erase_all zv s) !! fd = if decide (fd ∈ zv) then None else rrm s !! fd) ∧
  (∀ fd, wrm (erase_all zv s) !! fd = if decide (fd ∈ zv) then None else wrm s !! fd) ∧
  (∀ fd, sfd_events (erase_all zv s) !! fd =
         if decide (fd ∈ zv) then None else sfd_events s !! fd).
Proof.
  revert s. induction zv as [|z zv IH]; intros s; [done|].
  destruct (IH (erased z s)) as (H1 & H2 & H3 & H4). cbn in *. split_and!; [by apply H1..| | |];
    intros fd; rewrite ?H2, ?H3, ?H4; cbn; destruct (decide (fd = z)) as [->|Hne];
    rewrite ?lookup_delete_eq, ?lookup_delete_ne by done;
    repeat case_decide; set_solver.
Qed.

Section reaping.
(** What holds of the kernel all through a round, in which descriptors in [D] may be
    closed: its clock is between [lo] and [hi]. *)
Context (Tk : K → Prop) (lo hi : Z) (D : Z → Prop).
Hypothesis Tk_time : ∀ k, Tk k → Tk (sys_gettimeofday k).2.
Hypothesis Tk_close : ∀ fd k, D fd → Tk k → Tk (sys_close fd k).
Hypothesis Tk_now : ∀ k, Tk k → lo ≤ now_ms k ≤ hi.

(** The check of an entry, made at some time of the round. *)
Definition judged (expired : bool) (t : Z) : Prop :=
  ∃ now, lo ≤ now ≤ hi ∧ (60000 <? wrap 64 (now - t)) = expired.

Lemma reap_loop entries zv0 w :
  ok [Z_mutex] w → Tk (kern w) → NoDup entries.*1 → Forall D entries.*1 →
  ∃ zv w',
    fold_m (λ '(sfd, t) zv,
      now ← epoch_millis;
      if 60000 <? wrap 64 (now - t) then close_n_clean sfd;; mret (zv ++ [sfd])
      else mret zv) entries zv0 w = Ret (zv0 ++ zv) w' ∧
    ok [Z_mutex] w' ∧ Tk (kern w') ∧ app w' = erase_all zv (app w) ∧
    (∀ fd, fd ∈ zv → ∃ t, (fd, t) ∈ entries ∧ judged true t) ∧
    (∀ fd t, (fd, t) ∈ entries → fd ∉ zv → judged false t).
Proof.
  revert zv0 w. induction entries as [|[sfd t] entries IH]; intros zv0 w Hok Hk Hnd HD.
  { exists [], w. cbn. rewrite app_nil_r. split_and!; [done|done|done|done|set_solver|set_solver]. }
  apply NoDup_cons in Hnd as [Hnin Hnd]. apply Forall_cons in HD as [HDs HD]. cbn [fold_m].
  rewrite bind_assoc. pose proof (epoch_millis_run w) as Et.
  destruct w as [k l s]. cbn in Hk.
  set (w1 := World (sys_gettimeofday k).2 l s).
  assert (ok [Z_mutex] w1) as Hok1 by by eapply ok_kern.
  assert (judged (60000 <? wrap 64 (now_ms k - t)) t) as Hj by (exists (now_ms k); auto).
  destruct (60000 <? wrap 64 (now_ms k - t)) eqn:Ex.
  - destruct (clean_ok [Z_mutex] sfd (World (sys_close sfd (sys_gettimeofday k).2) l s))
      as (w2 & Ec & Hok2 & Happ & Hkern).
    { by eapply ok_kern. }
    { apply heap_free_zombies. }
    { repeat constructor. }
    destruct (IH (zv0 ++ [sfd]) w2 Hok2) as (zv & w' & Ef & Hok' & Hk' & Happ' & Hin & Hout).
    { rewrite Hkern. cbn. by apply Tk_close, Tk_time. }
    { done. }
    { done. }
    exists (sfd :: zv), w'. split_and!; [| |done|by rewrite Happ', Happ| |].
    + run_with Et. cbn [app kern]. rewrite Ex.
      assert (close_n_clean sfd w1 = Ret tt w2) as Ecn
        by by (unfold close_n_clean, close_fd; rewrite bind_syscall).
      rewrite bind_assoc. run_with Ecn. rewrite bind_ret_l, Ef, <-app_assoc. done.
    + done.
    + intros fd [->|Hfd]%elem_of_cons; [exists t; split; [by left|done]|].
      destruct (Hin fd Hfd) as (t' & ? & ?). exists t'. split; [by right|done].
    + intros fd t' [[= -> ->]|Hfd]%elem_of_cons Hn; [set_solver|].
      apply (Hout fd t' Hfd). set_solver.
  - destruct (IH zv0 w1 Hok1) as (zv & w' & Ef & Hok' & Hk' & Happ' & Hin & Hout).
    { by apply Tk_time. }
    { done. }
    { done. }
    exists zv, w'. split_and!; [|done|done|done| |].
    + run_with Et. cbn [app kern]. rewrite Ex. srun. done.
    + intros fd Hfd. destruct (Hin fd Hfd) as (t' & ? & ?). exists t'. split; [by right|done].
    + intros fd t' [[= -> ->]|Hfd]%elem_of_cons Hn; [done|]. by apply (Hout fd t' Hfd).
Qed.

Lemma erase_zombies zv w :
  fold_m (λ zsfd (_ : unit), m ← get zm; put (set_zm (delete zsfd m))) zv tt w =
  Ret tt (World (kern w) (locks w) (set_zm (foldl (λ m z, delete z m) (zm (app w)) zv) (app w))).
Proof.
  revert w. induction zv as [|z zv IH]; intros [k l s]; cbn [fold_m].
  - by destruct s.
  - rewrite bind_assoc. srun. rewrite IH. done.
Qed.

Lemma reap_run (iterate : gmap Z Z → list (Z * Z)) w :
  ok [] w → Tk (kern w) → (∀ m, iterate m ≡ₚ map_to_list m) → (∀ fd, is_Some (zm (app w) !! fd) → D fd) →
  ∃ (zv : list Z) w', reap iterate w = Ret tt w' ∧ ok [] w' ∧
    (∀ fd, rrm (app w') !! fd = if decide (fd ∈ zv) then None else rrm (app w) !! fd) ∧
    (∀ fd, wrm (app w') !! fd = if decide (fd ∈ zv) then None else wrm (app w) !! fd) ∧
    (∀ fd, zm (app w') !! fd = if decide (fd ∈ zv) then None else zm (app w) !! fd) ∧
    (∀ fd, fd ∈ zv → ∃ t, zm (app w) !! fd = Some t ∧ judged true t) ∧
    (∀ fd t, zm (app w) !! fd = Some t → fd ∉ zv → judged false t) ∧
    (∀ fd, sfd_events (app w') !! fd = if decide (fd ∈ zv) then None else sfd_events (app w) !! fd) ∧
    r_tp (app w') = r_tp (app w) ∧ w_tp (app w') = w_tp (app w) ∧ Tk (kern w') ∧ ep_sfd (app w') = ep_sfd (app w).
Proof.
  intros Hok Hk Hit HD. destruct w as [k l s]. pose proof (ok_held _ _ Hok) as Hh. cbn in Hh, Hk.
  destruct (reap_loop (iterate (zm s)) [] (World k (acquire Z_mutex l) s))
    as (zv & w1 & E1 & Hok1 & Hk1 & Happ1 & Hin & Hout).
  { apply ok_acquire; [done|constructor]. }
  { done. }
  { rewrite Hit. apply NoDup_fst_map_to_list. }
  { rewrite Hit. apply Forall_forall. intros fd ([fd' t] & -> & Hin)%list_elem_of_fmap.
    apply HD. exists t. by apply elem_of_map_to_list. }
  destruct (erase_all_spec zv s) as ((Z1 & Z5 & Z6 & Z7) & Z2 & Z3 & Z4).
  exists zv. eexists. split.
  { unfold reap. rewrite bind_lock by (cbn; rewrite ?Hh; lock_side). srun. run_with E1.
    erewrite bind_run by apply erase_zombies. srun.
    apply (unlock_run Z_mutex []); [done|apply (ok_held _ _ Hok1)|apply not_elem_of_nil]. }
  cbn in Happ1. cbn. rewrite Happ1, Z1. split_and!; try done.
  - destruct w1 as [k1 l1 s1], Hok1 as [A B C]. cbn in *. subst s1.
    by apply (ok_release [] Z_mutex).
  - intros fd. by rewrite lookup_foldl_delete.
  - intros fd Hfd. destruct (Hin fd Hfd) as (t & Ht & ?). exists t. split; [|done].
    rewrite Hit in Ht. by apply elem_of_map_to_list.
  - intros fd t Ht. apply Hout. rewrite Hit. by apply elem_of_map_to_list.
Qed.
End reaping.
(** ** The other operations *)
Lemma add_ok hs fd w :
  ok hs w → below server_rank E_mutex hs → ∃ w', add fd w = Ret tt w' ∧ ok hs w'.
Proof.
  intros [H1 H2 H3] Hb. destruct w as [k l s]. cbn in *.
  assert (∀ m, server_rank m = 3%nat → m ∉ hs) as Hm
    by (intros m Hr; apply below_fresh; unfold below in *; by rewrite Hr).
  eexists. split; [apply add_run; rewrite H1; by apply Hm|].
  split; cbn; [done| |].
  - unfold add_locks. cbn. repeat (apply Forall_app; split); try done; cbn; rewrite H1; by repeat constructor.
  - eapply (wf_mono (allocated (allocated l))); [done|done|].
    apply (wf_emplace_wr (allocated l)). by apply wf_emplace_rr.
Qed.

Lemma disarm_ok bit fd w :
  ok [] w → ∃ w', disarm bit fd w = Ret tt w' ∧ ok [] w' ∧ i_sfd (app w') = i_sfd (app w).
Proof.
  intros Hok. destruct w as [k l s]. pose proof (ok_held _ _ Hok) as Hh. cbn in Hh.
  eexists. split; [apply disarm_run; rewrite Hh; apply not_elem_of_nil|].
  split; [|done]. apply (ok_traced _ _ k _ l s); [done|constructor|done|done].
Qed.

Lemma ok_app hs k l s s' :
  rrm s' = rrm s → wrm s' = wrm s → ok hs (World k l s) → ok hs (World (K:=K) k l s').
Proof. intros E1 E2 [H1 H2 H3]. cbn in *. split; cbn; [done|done|]. by rewrite E1, E2. Qed.

Lemma callback_ok (bit fd : Z) (queue : server → server) w :
  (∀ s, rrm (queue s) = rrm s ∧ wrm (queue s) = wrm s) → ok [] w →
  ∃ w', (disarm bit fd;; put queue) w = Ret tt w' ∧ ok [] w'.
Proof.
  intros Hq Hok. destruct (disarm_ok bit fd w Hok) as ([k l s] & E & Hok' & _).
  exists (World k l (queue s)). run_with E. split; [done|].
  destruct (Hq s). by apply (ok_app [] k l s).
Qed.

Lemma read_callback_ok fd w : ok [] w → ∃ w', read_callback fd w = Ret tt w' ∧ ok [] w'.
Proof. by apply (callback_ok EPOLLIN fd (λ s, set_r_tp (r_tp s ++ [ReadTask fd]) s)). Qed.

Lemma write_callback_ok fd w : ok [] w → ∃ w', write_callback fd w = Ret tt w' ∧ ok [] w'.
Proof. by apply (callback_ok EPOLLOUT fd (λ s, set_w_tp (w_tp s ++ [WriteTask fd]) s)). Qed.

Lemma handle_event_ok ev w : ok [] w → ∃ w', handle_event ev w = Ret tt w' ∧ ok [] w'.
Proof.
  intros Hok. destruct ev as [fd events]. unfold handle_event.
  destruct (has events EPOLLERR || has events EPOLLHUP).
  { destruct (a_zombied_ok [] fd w Hok) as (w1 & E1 & Hok1 & _); [constructor|].
    exists (World (sys_close fd (kern w1)) (locks w1) (app w1)). run_with E1. split; [done|].
    destruct w1. by eapply ok_kern. }
  srun. destruct (fd =? i_sfd (app w)).
  { destruct w as [k l s]. eexists. split; [reflexivity|]. by apply (ok_app [] k l s). }
  assert (∃ w1, (if has events EPOLLIN then read_callback fd else mret tt) w = Ret tt w1 ∧ ok [] w1)
    as (w1 & E1 & Hok1).
  { destruct (has events EPOLLIN); [by apply read_callback_ok|by exists w]. }
  run_with E1. destruct (has events EPOLLOUT); [by apply write_callback_ok|by exists w1].
Qed.

Lemma handle_events_ok evs w :
  ok [] w → ∃ w', fold_m (λ ev (_ : unit), handle_event ev) evs tt w = Ret tt w' ∧ ok [] w'.
Proof.
  revert w. induction evs as [|ev evs IH]; intros w Hok; [by exists w|].
  destruct (handle_event_ok ev w Hok) as (w1 & E1 & Hok1).
  destruct (IH w1 Hok1) as (w2 & E2 & Hok2). exists w2. cbn [fold_m]. by run_with E1.
Qed.

(** [epoll_wait] gives no more events than it is asked for. *)
Definition wait_bounded : Prop :=
  ∀ ep k evs k', sys_epoll_wait ep 64 k = (SysOk evs, k') → len evs ≤ 64.

Lemma process_batch_ok w :
  wait_bounded → ok [] w → ∃ w', process_batch w = Ret tt w' ∧ ok [] w'.
Proof.
  intros Hwb Hok. destruct w as [k l s]. unfold process_batch. srun.
  destruct (sys_epoll_wait (ep_sfd s) 64 k) as [[e|evs] k'] eqn:E; cbn [fst snd].
  - exists (World k' l s). split; [done|]. by eapply ok_kern.
  - specialize (Hwb _ _ _ _ E).
    destruct (handle_events_ok evs (World k' l s)) as (w' & E' & Hok'); [by eapply ok_kern|].
    exists w'. split; [|done]. rewrite for_index_total by lia.
    by rewrite Nat2Z.id, firstn_all.
Qed.

(** What writing to [fd] does: it leaves the other descriptors and the reading side
    alone, and when something is left in a valid writer, epoll is asked for
    [EPOLLOUT]. *)
Record written (fd : Z) (s s' : server) : Prop := {
  written_rrm : rrm s' = rrm s;
  written_wrm fd' : fd' ≠ fd → wrm s' !! fd' = wrm s !! fd';
  written_events fd' : fd' ≠ fd → sfd_events s' !! fd' = sfd_events s !! fd';
  written_in : has (get0 (sfd_events s') fd) EPOLLIN = has (get0 (sfd_events s) fd) EPOLLIN;
  written_rest y : wrm s' !! fd = Some y → w_is_valid y = true → wbuffer (w_bw y) ≠ [] →
    has (get0 (sfd_events s') fd) EPOLLOUT = true;
  written_valid : w_is_valid <$> wrm s' !! fd = w_is_valid <$> wrm s !! fd ∨ is_Some (zm s' !! fd);
  written_r_tp : r_tp s' = r_tp s;
  written_w_tp : w_tp s' = w_tp s
}.

(** [J] is what writing to [fd] keeps of the buffer and of the kernel, and [I] what is
    left of it in the end. *)
Record about_writing (fd : Z) (J I : bytes → K → Prop) : Prop := {
  writing_write : keeps_writing fd J I;
  writing_end b k : J b k → I b k;
  writing_mod ep ev b k : I b k → I b (sys_epoll_mod ep fd ev k).2;
  writing_time b k : I b k → I b (sys_gettimeofday k).2
}.

Lemma about_writing_nothing fd : about_writing fd (λ _ _, True) (λ _ _, True).
Proof. split; try done. split; [done|]. intros b k _ _. by destruct (sys_write _ _ _) as [[]]. Qed.

Lemma ok_unheld w m : ok [] w → m ∉ held (locks w).
Proof. intros Hok. rewrite (ok_held _ _ Hok). apply not_elem_of_nil. Qed.

Section writing.
Context (fd : Z) (J I : bytes → K → Prop) (HI : about_writing fd J I).

(** How the writing of the entry [y] may end. *)
Definition write_ends (y : WriteR) w w' : Prop :=
  (∃ y', wrm (app w') !! fd = Some y' ∧ w_mutex y' = w_mutex y ∧ I (wbuffer (w_bw y')) (kern w')) ∧
  written fd (app w) (app w').

Lemma write_close_ok q y w :
  ok [WR_mutex q] w → wrm (app w) !! fd = Some y → I (wbuffer (w_bw y)) (kern w) →
  ∃ w', write_close fd w = Ret tt w' ∧ ok [WR_mutex q] w' ∧ write_ends y w w'.
Proof.
  intros [H1 H2 H3] Hy Hi. destruct w as [k l s]. cbn in *.
  eexists. split.
  { unfold write_close. srun. apply a_zombied_run. rewrite H1. set_solver. }
  cbn. split; [split; cbn; [done| |]|split].
  - apply ordered_traced; [done|]. rewrite H1. repeat constructor.
  - apply (wf_mono l); [done|done|]. by eapply wf_update_wr.
  - eexists. cbn. rewrite lookup_insert_eq. split_and!; [done|done|]. by apply (writing_time _ _ _ HI).
  - split; cbn; try done.
    + intros fd' Hne. by rewrite lookup_insert_ne.
    + intros y'. rewrite lookup_insert_eq. by intros [= <-].
    + right. by rewrite lookup_insert_eq.
Qed.

Lemma write_arm_ok q y ep w :
  ok [WR_mutex q] w → wrm (app w) !! fd = Some y → I (wbuffer (w_bw y)) (kern w) →
  ∃ w', arm EPOLLOUT ep fd (in_app events_ref) E_mutex w = Ret tt w' ∧ ok [WR_mutex q] w' ∧
        write_ends y w w'.
Proof.
  intros Hok Hy Hi. destruct w as [k l s]. cbn in Hy, Hi. pose proof (ok_held _ _ Hok) as Hh. cbn in Hh.
  eexists. split.
  { apply (arm_run events_ref E_mutex EPOLLOUT ep fd (sfd_events s)); [done|done|].
    cbn. rewrite Hh. set_solver. }
  unfold armed. split; [|split; [exists y; split_and!; [done|done|by apply (writing_mod _ _ _ HI)]|]].
  - apply (ok_traced _ _ k _ l s); [done|repeat constructor|done|done].
  - split; cbn; try done.
    + intros fd' Hne. by rewrite lookup_insert_ne.
    + unfold get0 at 1. rewrite lookup_insert_eq. cbn. apply in_lor_out.
    + intros _ _ _ _. unfold get0 at 1. rewrite lookup_insert_eq. cbn. by apply has_or.
    + by left.
Qed.

(** A writer changed first and then handled further. *)
Lemma written_after y b s s' :
  wrm s !! fd = Some y →
  written fd (set_wrm (<[fd := MkWriteR (MkBufferedWriter b) (w_mutex y) (w_is_valid y)]> (wrm s)) s) s' →
  written fd s s'.
Proof.
  intros Hy []. cbn in *. split; try done.
  - intros fd' Hne. by rewrite written_wrm0, lookup_insert_ne.
  - destruct written_valid0 as [E|]; [left|by right]. by rewrite E, lookup_insert_eq, Hy.
Qed.

(** Draining the buffer of an entry, with its mutex held. *)
Lemma fill_ok y w :
  ok [WR_mutex (w_mutex y)] w → wrm (app w) !! fd = Some y → J (wbuffer (w_bw y)) (kern w) →
  ∃ w', (if w_is_valid y then ep ← get ep_sfd;
           write_to_sfd (Datatypes.S (length (wbuffer (w_bw y)))) ep fd (in_app (bw_ref fd))
             (write_close fd) (in_app events_ref) E_mutex
         else mret tt) w = Ret tt w' ∧
        ok [WR_mutex (w_mutex y)] w' ∧ write_ends y w w'.
Proof.
  intros Hok Hy Hi. destruct (w_is_valid y) eqn:Hv.
  2: { exists w. split_and!; [done|done|]. split; [exists y; split_and!; [done|done|by apply (writing_end _ _ _ HI)]|]. split; try done; [|by left].
       rewrite Hy. intros y' [= <-]. by rewrite Hv. }
  srun.
  destruct (write_to_sfd_rule (bw_ref fd) (Datatypes.S (length (wbuffer (w_bw y)))) (ep_sfd (app w)) fd J I
              (wbuffer (w_bw y)) w (write_close fd) (in_app events_ref) E_mutex)
    as (b' & w2 & stop & Hi2 & Happ & Hlocks & Hstop & ->); [|lia|apply HI|done|].
  { cbn. rewrite Hy. cbn. by destruct y as [[]]. }
  set (y2 := MkWriteR (MkBufferedWriter b') (w_mutex y) (w_is_valid y)).
  assert (app w2 = set_wrm (<[fd := y2]> (wrm (app w))) (app w)) as Hw2
    by (rewrite Happ; cbn; unfold set_wrm; by rewrite (alter_as_insert _ _ _ _ Hy)).
  assert (wrm (app w2) !! fd = Some y2) as Hy2 by (rewrite Hw2; apply lookup_insert_eq).
  assert (ok [WR_mutex (w_mutex y)] w2) as Hok2.
  { destruct Hok as [A B D]. split; rewrite ?Hlocks; [done|done|]. rewrite Hw2. cbn. by eapply wf_update_wr. }
  assert (∀ w', write_ends y2 w2 w' → write_ends y w w') as Hw.
  { intros w' [He Hr]. split; [done|]. rewrite Hw2 in Hr. by apply (written_after y b'). }
  destruct stop as [e|].
  - destruct (e =? EAGAIN).
    + destruct (write_arm_ok (w_mutex y) y2 (ep_sfd (app w)) w2) as (w' & ? & ? & ?); eauto.
    + destruct (write_close_ok (w_mutex y) y2 w2) as (w' & ? & ? & ?); eauto.
  - exists w2. split_and!; [done|done|]. apply Hw. split; [by exists y2|]. split; try done; [|by left].
    rewrite Hy2. intros y' [= <-] _ Hb. by destruct Hb; apply Hstop.
Qed.

Lemma write_found_run y k l s :
  ok [] (World k l s) → wrm s !! fd = Some y → J (wbuffer (w_bw y)) k →
  ∃ w', write_found (Datatypes.S (length (wbuffer (w_bw y)))) fd (w_mutex y) (World k l s) = Ret tt w' ∧
        ok [] w' ∧ write_ends y (World k l s) w'.
Proof.
  intros Hok Hy Hi. assert (∀ m, m ∉ held l) as Hh by (intros m; apply (ok_unheld _ m Hok)).
  pose proof (wf_wr _ _ _ (ok_wf _ _ Hok) _ _ Hy) as Hlive. cbn in Hlive.
  unfold write_found. srun. rewrite Nat.eqb_refl. cbn [negb]. srun.
  destruct (fill_ok y (World k (acquire (WR_mutex (w_mutex y)) l) s))
    as (w2 & E2 & Hok2 & (y2 & Hy2 & Hm2 & Hi2) & Hwr); [by apply ok_acquire; [|constructor]|done|done|].
  run_with E2. destruct w2 as [k2 l2 s2]. cbn in Hy2, Hi2. srun. rewrite Hm2.
  exists (World k2 (release l2) s2). split; [|split; [by eapply ok_release|split; [by exists y2|exact Hwr]]].
  pose proof (ok_held _ _ Hok2) as Hh2. cbn in Hh2.
  pose proof (wf_wr _ _ _ (ok_wf _ _ Hok2) _ _ Hy2) as Hl2. cbn in Hl2. rewrite Hm2 in Hl2.
  rewrite (unlock_run _ []) by lock_side. done.
Qed.

(** What waits to be written. *)
Definition pending (s : server) : nat :=
  match wrm s !! fd with Some y => length (wbuffer (w_bw y)) | None => 0%nat end.

Lemma server_write_run w :
  ok [] w → (∀ y, wrm (app w) !! fd = Some y → J (wbuffer (w_bw y)) (kern w)) →
  ∃ w', write (Datatypes.S (pending (app w))) fd w = Ret tt w' ∧ ok [] w' ∧
    written fd (app w) (app w') ∧
    ∀ y, wrm (app w) !! fd = Some y →
      ∃ y', wrm (app w') !! fd = Some y' ∧ w_mutex y' = w_mutex y ∧ I (wbuffer (w_bw y')) (kern w').
Proof.
  intros Hok Hi. destruct w as [k l s]. cbn in Hi. pose proof (ok_unheld _ W_mutex Hok) as Hh. cbn in Hh.
  assert (ok [] (World k (traced W_mutex l) s)) as Hok0
    by (apply (ok_traced _ _ k k l s s); [done|constructor|done|done]).
  rewrite write_split by done. run_with (write_find_run fd k l s Hh).
  unfold pending. cbn [app]. destruct (wrm s !! fd) as [y|] eqn:Hy.
  - destruct (write_found_run y _ _ _ Hok0 Hy (Hi y eq_refl)) as (w' & E & Hok' & He & Hw).
    exists w'. split_and!; [done|done|done|]. intros y' [= <-]. exact He.
  - eexists. split_and!; [reflexivity|done| |done]. split; try done; [|by left]. cbn. by rewrite Hy.
Qed.
End writing.

Lemma write_found_ok fd y k l s :
  ok [] (World k l s) → wrm s !! fd = Some y →
  ∃ w', write_found (Datatypes.S (length (wbuffer (w_bw y)))) fd (w_mutex y) (World k l s) = Ret tt w' ∧ ok [] w' ∧
        written fd s (app w').
Proof.
  intros Hok Hy.
  destruct (write_found_run fd _ _ (about_writing_nothing fd) y k l s Hok Hy I) as (w' & E & Hok' & _ & Hw).
  by exists w'.
Qed.

Lemma write_ok fd w :
  ok [] w →
  ∃ w', write (Datatypes.S (pending fd (app w))) fd w = Ret tt w' ∧ ok [] w' ∧ written fd (app w) (app w').
Proof.
  intros Hok. destruct (server_write_run fd _ _ (about_writing_nothing fd) w Hok) as (w' & E & Hok' & Hw & _); [done|].
  by exists w'.
Qed.

(** Writing the whole buffer of a connection, when the kernel takes it. *)
Lemma write_all_run fd n b q k l s :
  ok [] (World k l s) → wrm s !! fd = Some (MkWriteR (MkBufferedWriter b) q true) →
  roomy fd n k → len b ≤ 1024 * Z.of_nat n →
  ∃ w', write (Datatypes.S (length b)) fd (World k l s) = Ret tt w' ∧ ok [] w' ∧
        sent fd (kern w') = sent fd k ++ b ∧
        app w' = set_wrm (<[fd := MkWriteR BufferedWriter_new q true]> (wrm s)) s.
Proof.
  intros Hok Hy Hroom Hn. destruct (write_ok fd (World k l s) Hok) as (w' & E & Hok' & _).
  unfold pending in E. cbn [app] in E. rewrite Hy in E. cbn in E. exists w'.
  assert (∀ m, m ∉ held l) as Hh by (intros m; apply (ok_unheld _ m Hok)).
  pose proof (wf_wr _ _ _ (ok_wf _ _ Hok) _ _ Hy) as Hlive. cbn in Hlive.
  split; [done|]. split; [done|]. revert E. unfold write. srun. rewrite Hy. srun. cbn [w_is_valid]. srun.
  set (w1 := World k _ s).
  destruct (write_to_sfd_all (bw_ref fd) (Datatypes.S (length b)) (ep_sfd s) fd b n w1 (write_close fd)
    (in_app events_ref) E_mutex) as ([k2 l2 s2] & E2 & Hs & Happ & Hl2); [|lia|done|done|].
  { cbn. by rewrite Hy. }
  cbn in Hs, Happ, Hl2.
  assert (s2 = set_wrm (<[fd := MkWriteR BufferedWriter_new q true]> (wrm s)) s) as ->.
  { rewrite Happ. unfold set_wrm. by rewrite (alter_as_insert _ _ _ _ Hy). }
  run_with E2. erewrite (bind_load _ (MkWriteR BufferedWriter_new q true)) by (cbn; apply lookup_insert_eq).
  cbn [w_mutex]. rewrite (unlock_run _ (held l)) by (rewrite ?Hl2; cbn; (done || by apply bool_decide_eq_true_2)).
  by intros [= <-].
Qed.

(** The pointer found is used when its entry is gone or is another one. *)
Lemma read_found_stale handler fuel fd p k l s :
  r_mutex <$> rrm s !! fd ≠ Some p → read_found handler fuel fd p (World k l s) = Undef.
Proof.
  intros Hp. unfold read_found. rewrite bind_unfold. unfold load. cbn.
  destruct (rrm s !! fd) as [x|]; [|done].
  by rewrite (proj2 (Nat.eqb_neq (r_mutex x) p)) by (intros E; apply Hp; cbn; by rewrite E).
Qed.

Lemma write_found_stale fuel fd q k l s :
  w_mutex <$> wrm s !! fd ≠ Some q → write_found fuel fd q (World k l s) = Undef.
Proof.
  intros Hq. unfold write_found. rewrite bind_unfold. unfold load. cbn.
  destruct (wrm s !! fd) as [y|]; [|done].
  by rewrite (proj2 (Nat.eqb_neq (w_mutex y) q)) by (intros E; apply Hq; cbn; by rewrite E).
Qed.

Lemma read_found_idle handler fuel fd x k l s :
  ok [] (World k l s) → rrm s !! fd = Some x → r_is_valid x = false →
  ∃ l', read_found handler fuel fd (r_mutex x) (World k l s) = Ret tt (World k l' s) ∧ ok [] (World k l' s).
Proof.
  intros Hok Hx Hv. assert (∀ m, m ∉ held l) as Hh by (intros m; apply (ok_unheld _ m Hok)).
  pose proof (wf_rr _ _ _ (ok_wf _ _ Hok) _ _ Hx) as [Hlive _]. cbn in Hlive.
  unfold read_found. srun. rewrite Nat.eqb_refl. cbn [negb]. srun. rewrite Hv. srun.
  exists (traced (RR_mutex (r_mutex x)) l). split; [done|].
  apply (ok_traced _ _ k k _ s s); [done|constructor|done|done].
Qed.

(** A read that finds no valid entry does nothing. *)
Lemma read_idle handler fuel fd k l s :
  ok [] (World k l s) →
  (∀ x, rrm s !! fd = Some x → r_is_valid x = false) →
  ∃ l', read handler fuel fd (World k l s) = Ret tt (World k l' s) ∧ ok [] (World k l' s).
Proof.
  intros Hok Hv. assert (∀ m, m ∉ held l) as Hh by (intros m; apply (ok_unheld _ m Hok)).
  assert (ok [] (World k (traced R_mutex l) s)) as Hok0
    by (apply (ok_traced _ _ k k l s s); [done|constructor|done|done]).
  unfold read. srun. destruct (rrm s !! fd) as [x|] eqn:Hx.
  2: { by exists (traced R_mutex l). }
  pose proof (wf_rr _ _ _ (ok_wf _ _ Hok) _ _ Hx) as [Hlive _]. cbn in Hlive.
  srun. rewrite (Hv x) by done. srun.
  exists (traced (RR_mutex (r_mutex x)) (traced R_mutex l)). split; [done|].
  apply (ok_traced _ _ k k _ s s); [done|constructor|done|done].
Qed.
End invariant.

(** ** The threads of a server

    What the threads of the server, and the program that uses it, do: a
    descriptor accepted, the work of the pools, messages sent, a batch of epoll
    events, a round of the reaper, and changes of the kernel by the rest of the
    world.  Here every step is a whole operation; for steps inside them see
    [ServerThreads]. *)
Section threads.
Context {K : Type} `{SocketKernel K}.
Context (handler : bytes → bytes → Z → M (world K server) unit).
Context (iterate : gmap Z Z → list (Z * Z)).

Inductive action :=
  | Accepted (fd : Z)
  | Reading (fd : Z)
  | Writing (fd : Z)
  | Sending (uuid_v msg_v : bytes) (fd : Z)
  | Events
  | Reaping.

Definition perform (a : action) : M (world K server) unit := λ w,
  match a with
  | Accepted fd => add fd w
  | Reading fd => read handler (Datatypes.S (length (inbox fd (kern w)))) fd w
  | Writing fd => write (Datatypes.S (pending fd (app w))) fd w
  | Sending uuid_v msg_v fd => send_msg uuid_v msg_v fd w
  | Events => process_batch w
  | Reaping => reap iterate w
  end.

(** Messages that may be sent, and streams whose messages the handler can
    take: all identifiers are whole, and nothing is 4 GB long. *)
Definition allowed (a : action) (w : world K server) : Prop :=
  match a with
  | Sending uuid_v msg_v fd => 37 ≤ len uuid_v ∧ frame_fits msg_v
  | Reading fd => ∀ x, rrm (app w) !! fd = Some x →
      let stream := buffer (r_br x) ++ inbox fd (kern w) in
      len stream < 2 ^ 32 - 38 ∧ Forall (λ f, 37 ≤ len f) (feed EOT [] stream).1
  | _ => True
  end.

Inductive server_step : world K server → world K server → Prop :=
  | step_action a w w' : allowed a w → perform a w = Ret tt w' → server_step w w'
  | step_network w k : server_step w (World k (locks w) (app w)).

(** The messages that are allowed above. *)
Definition whole (p : bytes * bytes) : Prop := 37 ≤ len p.1 ∧ frame_fits p.2.

(** Reading an entry whose stream is allowed; afterwards it is invalid or watched. *)
Definition rewatched (fd : Z) (s : server) : Prop :=
  ∀ x, rrm s !! fd = Some x → r_is_valid x = true → has (get0 (sfd_events s) fd) EPOLLIN = true.

(** What an allowed stream is split into. *)
Lemma allowed_feed hs fd x w :
  ok hs w → rrm (app w) !! fd = Some x → allowed (Reading fd) w →
  ∃ b frames rest, r_br x = MkBufferedReader b (Some EOT) (Some fd) ∧ (EOT ∉ b) ∧
    feed EOT b (inbox fd (kern w)) = (frames, rest) ∧ len b + len (inbox fd (kern w)) < 2 ^ 32 ∧
    Forall (λ f, whole (decode f)) frames.
Proof.
  intros Hok Hx Ha. destruct (wf_rr _ _ _ (ok_wf _ _ Hok) _ _ Hx) as (_ & b & Hbr & Hb).
  destruct (Ha x Hx) as [Hlen HF]. rewrite Hbr in Hlen, HF. cbn in Hlen, HF.
  rewrite length_app in Hlen. rewrite feed_buffer in HF by done.
  destruct (feed EOT b (inbox fd (kern w))) as [frames rest] eqn:E. cbn in HF.
  exists b, frames, rest. split_and!; [done|done|done|lia|].
  pose proof (feed_bound _ _ _ _ _ E) as HB. rewrite Forall_forall in HF, HB.
  apply Forall_forall. intros f Hf. specialize (HF f Hf). specialize (HB f Hf). cbn in HB.
  unfold whole, frame_fits, decode. cbn. rewrite length_take, length_drop. lia.
Qed.

Lemma read_found_ok T fd x w :
  about_rest fd T → handles whole T handler fd →
  ok [] w → T [] w → rrm (app w) !! fd = Some x → allowed (Reading fd) w →
  ∃ ms w', read_found handler (Datatypes.S (length (inbox fd (kern w)))) fd (r_mutex x) w = Ret tt w' ∧
           ok [] w' ∧ T ms w' ∧ rewatched fd (app w').
Proof.
  intros HTf Hh Hok HT Hx Ha. destruct w as [k l s]. cbn in Hx, Ha. destruct (r_is_valid x) eqn:Hv.
  2: { destruct (read_found_idle handler (Datatypes.S (length (inbox fd k))) fd x k l s Hok Hx Hv)
         as (l' & E & Hok'). exists [], (World k l' s). split_and!; [done|done| |].
       - apply (HTf _ _ _ HT); [done|by left].
       - intros x'. cbn. rewrite Hx. intros [= <-]. by rewrite Hv. }
  destruct (allowed_feed [] fd x (World k l s) Hok Hx Ha) as (b & frames & rest & Hbr & Hb & E & Hlen & HF).
  cbn [kern] in E, Hlen.
  destruct (read_found_run whole T handler fd) with (fuel := Datatypes.S (length (inbox fd k)))
    (k := k) (l := l) (s := s) (x := x) (b := b) (frames := frames) (rest := rest)
    as (w' & E' & Hok' & HT' & _ & Hx' & Hend); try done; [lia|].
  eexists _, w'. split_and!; [done|done|done|]. intros x'. rewrite Hx'. intros [= <-]. cbn.
  intros Ho. by rewrite Ho in Hend.
Qed.

Lemma read_ok T fd w :
  about_rest fd T → handles whole T handler fd → ok [] w → T [] w → allowed (Reading fd) w →
  ∃ ms w', perform (Reading fd) w = Ret tt w' ∧ ok [] w' ∧ T ms w' ∧ rewatched fd (app w').
Proof.
  intros HTf Hh Hok HT Ha. cbn [perform].
  destruct w as [k l s]. pose proof (ok_unheld _ R_mutex Hok) as Hl. cbn in Hl.
  assert (ok [] (World k (traced R_mutex l) s)) as Hok0
    by (apply (ok_traced _ _ k k l s s); [done|constructor|done|done]).
  assert (T [] (World k (traced R_mutex l) s)) as HT0 by (by apply (HTf _ _ _ HT); [|left]).
  rewrite read_split by done. run_with (read_find_run fd k l s Hl).
  destruct (rrm s !! fd) as [x|] eqn:Hx.
  - exact (read_found_ok T fd x (World k (traced R_mutex l) s) HTf Hh Hok0 HT0 Hx Ha).
  - eexists [], _. split_and!; [reflexivity|done|done|]. intros x. cbn. by rewrite Hx.
Qed.

Lemma about_nothing fd : about_rest fd (λ _ (_ : world K server), True).
Proof. done. Qed.

Lemma allowed_ok a w :
  wait_bounded → (∀ m, iterate m ≡ₚ map_to_list m) →
  (∀ fd, handles whole (λ _ _, True) handler fd) →
  ok [] w → allowed a w → ∃ w', perform a w = Ret tt w' ∧ ok [] w'.
Proof.
  intros Hwb Hit Hh Hok Ha. destruct a as [fd|fd|fd|u m fd| |]; cbn [perform].
  - apply add_ok; [done|constructor].
  - destruct (read_ok _ fd w (about_nothing fd) (Hh fd) Hok I Ha) as (_ & w' & E & Hok' & _). by exists w'.
  - destruct (write_ok fd w Hok) as (w' & E & Hok' & _). by exists w'.
  - destruct Ha. destruct (send_msg_ok [] u m fd w) as (w' & E & Hok' & _); [done|constructor|done..|].
    eauto.
  - by apply process_batch_ok.
  - destruct (reap_run (λ _, True) 0 (2 ^ 60) (λ _, True)) with (iterate := iterate) (w := w)
      as (zv & w' & E & Hok' & _); try done; [|by eauto].
    intros k _. pose proof (now_range k). lia.
Qed.

Lemma reachable_ok w w' :
  wait_bounded → (∀ m, iterate m ≡ₚ map_to_list m) →
  (∀ fd, handles whole (λ _ _, True) handler fd) →
  ok [] w → rtc server_step w w' → ok [] w'.
Proof.
  intros Hwb Hit Hh Hok Hr. induction Hr as [|w w1 w2 Hs _ IH]; [done|]. apply IH. clear IH.
  destruct Hs as [a w w1 Ha E|w k].
  - destruct (allowed_ok a w Hwb Hit Hh Hok Ha) as (w'' & E' & Hok'). rewrite E in E'.
    by injection E' as <-.
  - destruct w. by eapply ok_kern.
Qed.
End threads.

(** ** The handler of [sserver] *)
Section sserver.
Context {K : Type} `{SocketKernel K}.

Lemma sserver_handles_whole fd : handles whole (λ _ _, True) (sserver_handler (K:=K)) fd.
Proof.
  intros p ms u m w Hok _ [Hu _].
  destruct (send_msg_ok [RR_mutex p] u (str "no way bro") fd w) as (w' & E & Hok' & ? & ?);
    [done|repeat constructor|done|done|].
  exists w'. done.
Qed.

(** The answers to the messages [ms]. *)
Definition replies (ms : list (bytes * bytes)) : bytes :=
  concat (map (λ p, frame_of p.1 (str "no way bro")) ms).

Definition answered (fd : Z) (old : bytes) (ms : list (bytes * bytes)) (w : world K server) : Prop :=
  ∃ q, wrm (app w) !! fd = Some (MkWriteR (MkBufferedWriter (old ++ replies ms)) q true).

Lemma answered_frame fd old : about_rest fd (answered fd old).
Proof. intros ms w w' [q Hq] E _. exists q. by rewrite (rest_wrm _ _ _ E). Qed.

Lemma sserver_answers_all fd old :
  handles (λ p, len p.1 = 37) (answered fd old) (sserver_handler (K:=K)) fd.
Proof.
  intros p ms u m w Hok [q Hq] Hu. cbn in Hu.
  destruct (send_msg_ok [RR_mutex p] u (str "no way bro") fd w) as (w' & E & Hok' & Hr & Hio);
    [done|repeat constructor|lia|done|].
  exists w'. split_and!; [done|done| |done|done].
  destruct w as [k l s]. pose proof (ok_held _ _ Hok) as Hh. cbn in Hh, Hq.
  unfold sserver_handler in E.
  rewrite send_msg_some with (y := MkWriteR (MkBufferedWriter (old ++ replies ms)) q true)
    in E; try (done || lia || (cbn; rewrite Hh; set_solver)).
  2: { by apply (wf_wr _ _ _ (ok_wf _ _ Hok) fd (MkWriteR (MkBufferedWriter (old ++ replies ms)) q true)). }
  injection E as <-. exists q. cbn. rewrite lookup_insert_eq. unfold enqueue. cbn.
  unfold replies. rewrite map_app, concat_app. cbn.
  rewrite app_nil_r, app_assoc, take_ge by lia. done.
Qed.

(** A stream that has a frame with a short identifier. *)
Lemma short_frame fd f (w : world K server) :
  len f < 37 → call_back_of sserver_handler fd f w = Undef.
Proof.
  intros Hf. rewrite call_back_of_run by lia. apply send_msg_short; [|done].
  rewrite length_take. lia.
Qed.

Lemma read_short_frame fd b f rest (w : world K server) :
  (∃ x, rrm (app w) !! fd = Some x ∧ r_br x = MkBufferedReader b (Some EOT) (Some fd)) →
  EOT ∉ b → EOT ∉ f → len b + len f < 37 → len (f ++ EOT :: rest) < 2 ^ 64 →
  BufferedReader.read (call_back_of sserver_handler) (in_app (br_ref fd))
    (f ++ EOT :: rest) (len (f ++ EOT :: rest)) w = Undef.
Proof.
  intros (x & Hx & Hbr) Hb Hf Hl H64. unfold BufferedReader.read.
  rewrite for_index_total by lia. rewrite Nat2Z.id, firstn_all, fold_m_app.
  assert (feed EOT b f = ([], b ++ f)) as E.
  { clear -Hf. revert b. induction f as [|c f IH]; intros b; cbn; [by rewrite app_nil_r|].
    apply not_elem_of_cons in Hf as [Hc Hf]. destruct (Ascii.eqb_spec c EOT); [done|].
    by rewrite IH, <-app_assoc. }
  destruct (read_chars_delivery (call_back_of sserver_handler) (in_app (br_ref fd)) fd
    (λ _ _, True) (λ _, False)) with (d := EOT) (b := b) (data := f) (l := @nil bytes) (s := w)
    (frames := @nil bytes) (rest := b ++ f) as (w1 & E1 & _ & Hrd1); try done.
  { cbn. rewrite Hx. cbn. by rewrite Hbr. }
  run_with E1. cbn [fold_m]. unfold read_char. rewrite !bind_assoc.
  run_with (load_run _ _ _ Hrd1). rewrite !bind_assoc. cbn [del assume].
  rewrite bind_ret_l. cbn [buffer call_back]. rewrite Ascii.eqb_refl. cbn [negb].
  rewrite bind_assoc, bind_unfold, short_frame; [done|]. rewrite length_app. lia.
Qed.
End sserver.
