(* ===== verification/ServerTheorems.v ===== *)
(** * Properties of [asutils::SocketServer]

    The theorems about the server, each with an instance on the simulated kernel;
    the lemmas are those of [ServerProofs]. *)

From S2P Require Import Prelude Utils BufferedReader BufferedWriter Kernel Simulation.
From S2P Require Import SocketUtils SocketServer ServerProofs.

(** ** A server to try the theorems on

    One connection, descriptor 7, accepted and idle. *)
Definition sample_server : server :=
  Server {[7 := MkReadR (BufferedReader_new EOT 7) 0 true]}
    {[7 := MkWriteR BufferedWriter_new 1 true]} {[7 := 1]} ∅ 3 8080 4 [] [] [].

Definition sample_locks : lockstate := LockState [] {[0%nat; 1%nat]} 2 [].

Definition server_world (k : sim) : world sim server := World k sample_locks sample_server.

Lemma sample_ok k : ok [] (server_world k).
Proof.
  split; [done|by constructor|]. split; cbn.
  - intros p Hp. set_solver by lia.
  - intros fd x [<- <-]%lookup_singleton_Some. cbn. split; [set_solver|].
    eexists. split; [done|]. apply not_elem_of_nil.
  - intros fd y [<- <-]%lookup_singleton_Some. cbn. set_solver.
  - by intros fd fd' x x' [<- <-]%lookup_singleton_Some [<- <-]%lookup_singleton_Some.
  - by intros fd fd' x x' [<- <-]%lookup_singleton_Some [<- <-]%lookup_singleton_Some.
  - by intros fd fd' x x' [<- <-]%lookup_singleton_Some [<- <-]%lookup_singleton_Some.
Qed.

Lemma sim_wait_bounded : wait_bounded (K := sim).
Proof.
  intros ep k evs k'. cbn. destruct (batches k) as [|b bs]; [done|].
  intros [= <- <-]. rewrite length_take. lia.
Qed.

Definition to_list (m : gmap Z Z) : list (Z * Z) := map_to_list m.

(** ** Properties *)

(** C4.  Messages that are packed one after the other on the wire and read by a
    server reach its handler whole, each once and in the order sent, whatever
    sizes the reads have; afterwards nothing is left in the socket or the reader,
    and the connection is watched for input again, or, when the peer has closed or
    reading failed, is marked invalid and left to the reaper. *)
Theorem server_delivers {K : Type} `{SocketKernel K} (G : bytes * bytes → Prop)
    (T : list (bytes * bytes) → world K server → Prop) handler fd fuel k l s x msgs :
  about_rest fd T → handles G T handler fd →
  ok [] (World k l s) → T [] (World k l s) →
  rrm s !! fd = Some x → r_is_valid x = true → buffer (r_br x) = [] →
  inbox fd k = wire msgs → Forall sendable msgs → Forall G msgs →
  (length (wire msgs) < fuel)%nat → len (wire msgs) < 2 ^ 32 →
  ∃ w', read handler fuel fd (World k l s) = Ret tt w' ∧ ok [] w' ∧ T msgs w' ∧
        inbox fd (kern w') = [] ∧
        rrm (app w') !! fd =
          Some (MkReadR (BufferedReader_new EOT fd) (r_mutex x) (is_open (inbox_end fd k))) ∧
        if is_open (inbox_end fd k)
        then has (get0 (sfd_events (app w')) fd) EPOLLIN = true
        else is_Some (zm (app w') !! fd).
Proof.
  intros HTf Hh Hok HT Hx Hv Hbuf Hi Hs HG Hfuel H32.
  destruct (wf_rr _ _ _ (ok_wf _ _ Hok) _ _ Hx) as (_ & b & Hbr & Hb).
  rewrite Hbr in Hbuf. cbn in Hbuf. subst b.
  destruct (read_entry_run G T handler fd HTf Hh fuel k l s x [] (map (λ p, p.1 ++ p.2) msgs) [])
    as (w' & E & Hok' & HT' & Hrest); try done.
  - by rewrite Hi.
  - rewrite Hi. cbn. lia.
  - rewrite Hi. by apply feed_wire.
  - apply (proj1 (Forall_map decode G _)). by rewrite decode_sent.
  - rewrite decode_sent in HT' by done. by exists w'.
Qed.

Definition two_messages : list (bytes * bytes) :=
  [(sample_id, str "hello"); (replicate 37 "b"%char, [])].

Lemma two_sendable : Forall sendable two_messages.
Proof. repeat constructor; vm_compute; set_solver. Qed.

Lemma server_delivers_witness :
  ∃ w', read sserver_handler 100 7
          (server_world (set_inq {[7 := wire two_messages]} sim_empty)) = Ret tt w' ∧
        answered 7 [] two_messages w'.
Proof.
  destruct (server_delivers (λ p, len p.1 = 37) (answered 7 []) sserver_handler 7 100
    (set_inq {[7 := wire two_messages]} sim_empty) sample_locks sample_server
    (MkReadR (BufferedReader_new EOT 7) 0 true) two_messages)
    as (w' & E & _ & HT & _).
  - apply answered_frame.
  - apply sserver_answers_all.
  - apply sample_ok.
  - exists 1%nat. reflexivity.
  - reflexivity.
  - reflexivity.
  - reflexivity.
  - reflexivity.
  - apply two_sendable.
  - repeat constructor.
  - vm_compute. lia.
  - vm_compute. reflexivity.
  - exists w'. split; [exact E|exact HT].
Defined.

(** C5.  The server never gets stuck, as long as messages are whole.  From a well-formed
    state, whatever allowed actions its threads do, one after the other, and whatever
    happens in the kernel, the state stays well formed and no mutex stays held; and in
    every state that is reached each further allowed action returns: none has undefined
    behaviour (no freed or absent mutex is used, no
    map entry dangles), waits for a mutex its own thread holds, throws, exits or
    runs for ever.  Allowed is every action but to read, or to send, what is not whole: each
    complete frame that a read finds has at least 37 bytes, each identifier that is sent
    too, and nothing is as long as 4 GB.  A shorter frame is undefined behaviour
    ([server_short_frame]).  The handler has to serve whole messages. *)
Theorem server_invariant {K : Type} `{SocketKernel K} handler iterate (w w' : world K server) :
  wait_bounded → (∀ m, iterate m ≡ₚ map_to_list m) →
  (∀ fd, handles whole (λ _ _, True) handler fd) →
  ok [] w → rtc (server_step handler iterate) w w' →
  ok [] w' ∧
  ∀ a, allowed a w' → ∃ w'', perform handler iterate a w' = Ret tt w'' ∧ ok [] w''.
Proof.
  intros Hwb Hit Hh Hok Hr.
  pose proof (reachable_ok handler iterate w w' Hwb Hit Hh Hok Hr) as Hok'.
  split; [done|]. intros a Ha. by apply allowed_ok.
Qed.

Lemma server_invariant_witness :
  ∃ w'', perform sserver_handler to_list (Sending sample_id (str "hi") 9)
           (match add 9 (server_world sim_empty) with Ret _ w => w | _ => server_world sim_empty end)
         = Ret tt w'' ∧ ok [] w''.
Proof.
  apply (server_invariant sserver_handler to_list (server_world sim_empty)).
  - apply sim_wait_bounded.
  - intros m. reflexivity.
  - apply sserver_handles_whole.
  - apply sample_ok.
  - apply rtc_once. apply (step_action _ _ (Accepted 9)); reflexivity.
  - split; [vm_compute; intros E; discriminate E|reflexivity].
Defined.

(** The mutexes of a server are always taken in one order: an entry's read
    mutex, an entry's write mutex, the mutex of the zombies, one of the mutexes of
    the maps.  So threads of a server that each wait for a mutex while they hold
    others never wait for each other in a circle. *)
Theorem server_lock_order {K : Type} `{SocketKernel K} handler iterate
    (threads : list (mutex * list mutex)) :
  wait_bounded → (∀ m, iterate m ≡ₚ map_to_list m) →
  (∀ fd, handles whole (λ _ _, True) handler fd) →
  threads ≠ [] →
  (∀ t, t ∈ threads → ∃ w0 w : world K server,
     ok [] w0 ∧ rtc (server_step handler iterate) w0 w ∧ t ∈ acquired (locks w)) →
  ¬ ∀ t, t ∈ threads → ∃ t', t' ∈ threads ∧ t.1 ∈ t'.2.
Proof.
  intros Hwb Hit Hh Hne Ht. apply (ordered_no_cycle server_rank); [done|].
  apply Forall_forall. intros t Hin. destruct (Ht t Hin) as (w0 & w & Hok & Hr & Ha).
  pose proof (ok_ordered _ _ (reachable_ok handler iterate w0 w Hwb Hit Hh Hok Hr)) as Ho.
  unfold ordered in Ho. rewrite Forall_forall in Ho. by apply Ho.
Qed.

(** One thread reads descriptor 7 and waits for [e_mutex], another waits for the
    read mutex of the entry. *)
Lemma server_lock_order_witness :
  let threads := [(E_mutex, [RR_mutex 0]); (RR_mutex 0, [])] in
  ¬ ∀ t, t ∈ threads → ∃ t', t' ∈ threads ∧ t.1 ∈ t'.2.
Proof.
  cbn zeta. apply (server_lock_order (K := sim) sserver_handler to_list).
  - apply sim_wait_bounded.
  - intros m. reflexivity.
  - apply sserver_handles_whole.
  - intros E. discriminate E.
  - intros t Ht.
    exists (server_world sim_empty),
      (match read sserver_handler 1 7 (server_world sim_empty) with
       | Ret _ w => w | _ => server_world sim_empty end).
    split; [apply sample_ok|]. split.
    + apply rtc_once. apply (step_action _ _ (Reading 7)); [|vm_compute; reflexivity].
      intros x [= <-]. vm_compute. split; [reflexivity|constructor].
    + vm_compute. vm_compute in Ht. set_solver.
Defined.

(** C18.  A round of the reaper closes and cleans exactly the zombies whose time,
    at the moment they are looked at, is more than 60 seconds ago (in unsigned
    arithmetic: a time in the future counts as long ago), whatever the order in
    which the map is walked; all other connections and zombies stay. *)
Theorem reap_exact {K : Type} `{SocketKernel K} (Tk : K → Prop) lo hi
    (iterate : gmap Z Z → list (Z * Z)) (w : world K server) :
  (∀ k, Tk k → Tk (sys_gettimeofday k).2) → (∀ fd k, Tk k → Tk (sys_close fd k)) →
  (∀ k, Tk k → lo ≤ now_ms k ≤ hi) → (∀ m, iterate m ≡ₚ map_to_list m) →
  ok [] w → Tk (kern w) →
  ∃ (zv : list Z) w', reap iterate w = Ret tt w' ∧ ok [] w' ∧
    (∀ fd, rrm (app w') !! fd = if decide (fd ∈ zv) then None else rrm (app w) !! fd) ∧
    (∀ fd, wrm (app w') !! fd = if decide (fd ∈ zv) then None else wrm (app w) !! fd) ∧
    (∀ fd, zm (app w') !! fd = if decide (fd ∈ zv) then None else zm (app w) !! fd) ∧
    (∀ fd, fd ∈ zv → ∃ t now, zm (app w) !! fd = Some t ∧ lo ≤ now ≤ hi ∧
                              60000 < wrap 64 (now - t)) ∧
    (∀ fd t, zm (app w) !! fd = Some t → fd ∉ zv →
       ∃ now, lo ≤ now ≤ hi ∧ wrap 64 (now - t) ≤ 60000).
Proof.
  intros H1 H2 H3 Hit Hok Hk.
  destruct (reap_run Tk lo hi (λ _, True) H1 (λ fd k _, H2 fd k) H3 iterate w Hok Hk Hit (λ _ _, I))
    as (zv & w' & E & Hok' & Hr & Hw & Hz & Hin & Hout & _).
  exists zv, w'. split_and!; try done.
  - intros fd Hfd. destruct (Hin fd Hfd) as (t & Ht & now & Hn & Hj%Z.ltb_lt). by exists t, now.
  - intros fd t Ht Hfd. destruct (Hout fd t Ht Hfd) as (now & Hn & Hj%Z.ltb_ge). by exists now.
Qed.

(** The time is 1000 s; descriptor 7 died at 0 s, descriptor 8 at 999 s. *)
Lemma reap_exact_witness :
  ∃ (zv : list Z) w', reap to_list (World sim_empty sample_locks
                        (set_zm {[7 := 0; 8 := 999000]} sample_server)) = Ret tt w' ∧
    rrm (app w') !! 7 = (if decide (7 ∈ zv) then None else rrm sample_server !! 7) ∧
    (7 ∉ zv → ∃ now, 1000000 ≤ now ≤ 1000000 ∧ wrap 64 (now - 0) ≤ 60000).
Proof.
  destruct (reap_exact (λ k, clock k = (1000, 0)) 1000000 1000000 to_list
    (World sim_empty sample_locks (set_zm {[7 := 0; 8 := 999000]} sample_server)))
    as (zv & w' & E & _ & Hr & _ & _ & _ & Hout).
  - done.
  - done.
  - intros k Hk. unfold now_ms. cbn. rewrite Hk. vm_compute. split; discriminate.
  - intros m. reflexivity.
  - apply (ok_app _ _ _ sample_server); [reflexivity|reflexivity|apply sample_ok].
  - reflexivity.
  - exists zv, w'. split; [exact E|]. split; [exact (Hr 7)|]. intros H7. apply (Hout 7 0); done.
Defined.

(** C17.  [send_msg] appends the message's frame to the writer of the descriptor
    and asks epoll for [EPOLLOUT], changing nothing else; to a descriptor that is
    unknown, or marked invalid, the message is dropped without a sign; with an
    identifier of less than 37 bytes the call has undefined behaviour. *)
Theorem send_msg_effect {K : Type} `{SocketKernel K} uuid_v msg_v fd k l s :
  ok [] (World k l s) → frame_fits msg_v →
  (len uuid_v < 37 → send_msg uuid_v msg_v fd (World k l s) = Undef) ∧
  (37 ≤ len uuid_v → wrm s !! fd = None →
     send_msg uuid_v msg_v fd (World k l s) = Ret tt (World k (traced W_mutex l) s)) ∧
  (∀ y, 37 ≤ len uuid_v → wrm s !! fd = Some y →
     let v := Z.lor (get0 (sfd_events s) fd) EPOLLOUT in
     let y' := if w_is_valid y
               then MkWriteR (MkBufferedWriter
                      (wbuffer (w_bw y) ++ take 37 uuid_v ++ msg_v ++ [EOT])) (w_mutex y) true
               else y in
     ∃ l', send_msg uuid_v msg_v fd (World k l s) =
           Ret tt (World (sys_epoll_mod (ep_sfd s) fd v k).2 l'
                     (set_sfd_events (<[fd := v]> (sfd_events s))
                        (set_wrm (<[fd := y']> (wrm s)) s)))).
Proof.
  intros Hok Hm. assert (∀ m, m ∉ held l) as Hh by (intros m; apply (ok_unheld _ m Hok)).
  split_and!.
  - intros Hu. by apply send_msg_short.
  - intros Hu Hn. by apply send_msg_none.
  - intros y Hu Hy. eexists. rewrite (send_msg_some uuid_v msg_v fd k l s y); [done|done..| |done].
    by eapply (wf_wr _ _ _ (ok_wf _ _ Hok)).
Qed.

Lemma send_msg_effect_witness :
  send_msg (str "short") [] 7 (server_world sim_empty) = Undef ∧
  ∃ l', send_msg sample_id (str "hi") 7 (server_world sim_empty) =
    Ret tt (World (sys_epoll_mod 4 7 5 sim_empty).2 l'
      (set_sfd_events {[7 := 5]} (set_wrm {[7 := MkWriteR (MkBufferedWriter
         (frame_of sample_id (str "hi"))) 1 true]} sample_server))).
Proof.
  split.
  - apply (send_msg_effect (str "short") [] 7 sim_empty sample_locks sample_server);
      [apply sample_ok|vm_compute; reflexivity|vm_compute; reflexivity].
  - apply (send_msg_effect sample_id (str "hi") 7 sim_empty sample_locks sample_server) with
      (y := MkWriteR BufferedWriter_new 1 true);
      [apply sample_ok|vm_compute; reflexivity|vm_compute; intros E; discriminate E|reflexivity].
Defined.

(** C34.  A peer that sends a frame of less than 37 bytes drives [sserver] into
    undefined behaviour: the handler sends its answer under the identifier of the
    frame, which [pack_frame] reads out of range. *)
Theorem server_short_frame {K : Type} `{SocketKernel K} fd x f rest (w : world K server) :
  ok [] w → rrm (app w) !! fd = Some x → EOT ∉ f → len (buffer (r_br x)) + len f < 37 →
  len (f ++ EOT :: rest) < 2 ^ 64 →
  BufferedReader.read (call_back_of sserver_handler) (in_app (br_ref fd))
    (f ++ EOT :: rest) (len (f ++ EOT :: rest)) w = Undef.
Proof.
  intros Hok Hx Hf Hl H64.
  destruct (wf_rr _ _ _ (ok_wf _ _ Hok) _ _ Hx) as (_ & b & Hbr & Hb). rewrite Hbr in Hl.
  apply (read_short_frame fd b); [by exists x|done..].
Qed.

(** The frame arrives, and the server's reading task runs. *)
Lemma server_short_frame_witness :
  read sserver_handler 10 7 (server_world (set_inq {[7 := str "hey" ++ [EOT]]} sim_empty)) = Undef ∧
  BufferedReader.read (call_back_of sserver_handler) (in_app (br_ref 7)) (str "hey" ++ [EOT]) 4
    (server_world sim_empty) = Undef.
Proof.
  split; [vm_compute; reflexivity|].
  apply (server_short_frame 7 (MkReadR (BufferedReader_new EOT 7) 0 true) (str "hey") []).
  - apply sample_ok.
  - reflexivity.
  - vm_compute. set_solver.
  - vm_compute. reflexivity.
  - vm_compute. reflexivity.
Defined.

(** C35.  After [EPOLLERR] or [EPOLLHUP] the descriptor is closed at once, and the
    number can belong to a new connection when the reaper comes.  That connection
    is cleaned away with the old one: [add] neither replaces the old entries nor
    takes the number off the zombies. *)
Theorem error_kills_successor {K : Type} `{SocketKernel K} (Tk : K → Prop) lo hi iterate fd events
    (w : world K server) :
  ok [] w → has events EPOLLERR || has events EPOLLHUP = true →
  (∀ k, Tk k → Tk (sys_gettimeofday k).2) → (∀ fd k, Tk k → Tk (sys_close fd k)) →
  (∀ k, Tk k → lo ≤ now_ms k ≤ hi) → (∀ m, iterate m ≡ₚ map_to_list m) →
  now_ms (kern w) + 60000 < lo → hi < 2 ^ 62 →
  ∃ w1, (handle_event (fd, events);; add fd) w = Ret tt w1 ∧
        rrm (app w1) !! fd = emplace fd (MkReadR (BufferedReader_new EOT fd) (next_mutex (locks w)) true)
                               (rrm (app w)) !! fd ∧
        ∀ k, Tk k → ∃ w2, reap iterate (World k (locks w1) (app w1)) = Ret tt w2 ∧
             rrm (app w2) !! fd = None ∧ wrm (app w2) !! fd = None ∧
             sfd_events (app w1) !! fd = Some EPOLLIN.
Proof.
  intros Hok He H1 H2 H3 Hit Hlo Hhi. destruct w as [k l s]. cbn in Hlo.
  assert (∀ m, m ∉ held l) as Hh by (intros m; apply (ok_unheld _ m Hok)).
  assert (ok [] (World k (traced Z_mutex l) s)) as Hok1
    by (apply (ok_traced _ _ k k l s s); [done|constructor|done|done]).
  set (s1 := set_zm (<[fd := now_ms k]> (zm s)) s).
  set (k1 := sys_close fd (sys_gettimeofday k).2).
  assert (handle_event (fd, events) (World k l s) = Ret tt (World k1 (traced Z_mutex l) s1)) as E1.
  { unfold handle_event. rewrite He. run_with (a_zombied_run fd k l s (Hh _)). done. }
  destruct (add_ok [] fd (World k1 (traced Z_mutex l) s1)) as (w1 & E2 & Hok2);
    [by apply (ok_app [] _ _ s), (ok_kern _ k)|constructor|].
  pose proof E2 as E3. rewrite add_run in E3 by done. injection E3 as E3.
  exists w1. split; [by run_with E1|]. split; [by rewrite <-E3|].
  intros k2 Hk2.
  destruct (reap_run Tk lo hi (λ _, True) H1 (λ fd k _, H2 fd k) H3 iterate (World k2 (locks w1) (app w1)))
    as (zv & w2 & E4 & _ & Hr & Hw & _ & _ & Hout & _); [|done|done|done|].
  { destruct w1. by eapply ok_kern. }
  assert (fd ∈ zv) as Hin.
  { destruct (decide (fd ∈ zv)) as [|Hn]; [done|].
    destruct (Hout fd (now_ms k)) as (now & Hnow & Hj%Z.ltb_ge); [|done|].
    - rewrite <-E3. cbn. by rewrite lookup_insert_eq.
    - pose proof (now_range k). rewrite wrap_small in Hj; lia. }
  exists w2. rewrite Hr, Hw, !decide_True by done. split_and!; [done|done|done|].
  rewrite <-E3. cbn. by rewrite lookup_insert_eq.
Qed.

Lemma error_kills_successor_witness :
  ∃ w1, (handle_event (9, 24);; add 9) (server_world sim_empty) = Ret tt w1 ∧
        ∀ k, clock k = (2000, 0) → ∃ w2, reap to_list (World k (locks w1) (app w1)) = Ret tt w2 ∧
             rrm (app w2) !! 9 = None.
Proof.
  destruct (error_kills_successor (λ k, clock k = (2000, 0)) 2000000 2000000 to_list 9 24
              (server_world sim_empty)) as (w1 & E1 & _ & Hr).
  - apply sample_ok.
  - reflexivity.
  - done.
  - done.
  - intros k Hk. unfold now_ms. cbn. rewrite Hk. vm_compute. split; discriminate.
  - intros m. reflexivity.
  - vm_compute. reflexivity.
  - vm_compute. reflexivity.
  - exists w1. split; [exact E1|]. intros k Hk. destruct (Hr k Hk) as (w2 & E2 & Hn & _).
    exists w2. split; [exact E2|exact Hn].
Defined.

(** [close_n_clean] closes the descriptor first.  A connection that is
    accepted under the same number before the maps are cleaned loses its
    resources: it ends without reader, writer and events, and its reading tasks do
    nothing. *)
Theorem close_race {K : Type} `{SocketKernel K} handler fuel fd (w : world K server) :
  ok [Z_mutex] w →
  ∃ w', (close_fd fd;; add fd;; clean fd) w = Ret tt w' ∧ ok [Z_mutex] w' ∧
        rrm (app w') !! fd = None ∧ wrm (app w') !! fd = None ∧ sfd_events (app w') !! fd = None ∧
        ∃ l', read handler fuel fd (World (kern w') (release (locks w')) (app w')) =
              Ret tt (World (kern w') l' (app w')).
Proof.
  intros Hok. destruct w as [k l s].
  destruct (add_ok [Z_mutex] fd (World (sys_close fd k) l s)) as (w1 & E1 & Hok1);
    [by eapply ok_kern|repeat constructor|].
  destruct (clean_ok [Z_mutex] fd w1 Hok1 heap_free_zombies) as (w2 & E2 & Hok2 & Happ & _);
    [repeat constructor|].
  assert (rrm (app w2) !! fd = None) as Hrr by by rewrite Happ; cbn; rewrite lookup_delete_eq.
  exists w2. split; [unfold close_fd; rewrite bind_syscall; by run_with E1|]. split; [done|].
  split; [done|]. split_and!.
  - by rewrite Happ; cbn; rewrite lookup_delete_eq.
  - by rewrite Happ; cbn; rewrite lookup_delete_eq.
  - destruct w2 as [k2 l2 s2]. cbn in Hrr.
    destruct (read_idle handler fuel fd k2 (release l2) s2) as (l' & E & _).
    + by apply (ok_release [] Z_mutex).
    + by rewrite Hrr.
    + by exists l'.
Qed.

Lemma close_race_witness :
  ∃ w', (close_fd 7;; add 7;; clean 7)
          (World sim_empty (acquire Z_mutex sample_locks) sample_server) = Ret tt w' ∧
        rrm (app w') !! 7 = None.
Proof.
  destruct (close_race (K := sim) sserver_handler 1 7
    (World sim_empty (acquire Z_mutex sample_locks) sample_server)) as (w' & E & _ & H & _).
  - apply ok_acquire; [apply sample_ok|constructor].
  - exists w'. split; [exact E|exact H].
Defined.

(** [add] on a number without entries makes fresh ones: valid, with nothing
    buffered, a new mutex each, and the call back of this connection.  Entries
    that are there already stay as they are, valid or not, with what is buffered
    in them. *)
Theorem add_effect {K : Type} `{SocketKernel K} fd (k : K) l s :
  ok [] (World k l s) →
  ∃ w', add fd (World k l s) = Ret tt w' ∧ ok [] w' ∧ sfd_events (app w') !! fd = Some EPOLLIN ∧
    (∀ fd', fd' ≠ fd → rrm (app w') !! fd' = rrm s !! fd' ∧ wrm (app w') !! fd' = wrm s !! fd') ∧
    (rrm s !! fd = None → ∃ p, (p ∉ live l) ∧
       rrm (app w') !! fd = Some (MkReadR (MkBufferedReader [] (Some EOT) (Some fd)) p true)) ∧
    (wrm s !! fd = None → ∃ p, (p ∉ live l) ∧
       wrm (app w') !! fd = Some (MkWriteR (MkBufferedWriter []) p true)) ∧
    (∀ x, rrm s !! fd = Some x → rrm (app w') !! fd = Some x) ∧
    (∀ y, wrm s !! fd = Some y → wrm (app w') !! fd = Some y).
Proof.
  intros Hok. destruct (add_ok [] fd (World k l s) Hok) as (w' & E & Hok'); [constructor|].
  exists w'. split; [done|]. split; [done|].
  rewrite add_run in E by apply (ok_unheld _ _ Hok). injection E as <-. cbn.
  assert (∀ p, (next_mutex l ≤ p)%nat → p ∉ live l) as Hfresh.
  { intros p Hp Hin. pose proof (wf_fresh _ _ _ (ok_wf _ _ Hok) p Hin). cbn in *. lia. }
  unfold emplace. split_and!.
  - by rewrite lookup_insert_eq.
  - intros fd' Hne. by destruct (rrm s !! fd), (wrm s !! fd); rewrite ?lookup_insert_ne by done.
  - intros ->. exists (next_mutex l). rewrite lookup_insert_eq. auto.
  - intros ->. exists (Datatypes.S (next_mutex l)). rewrite lookup_insert_eq. auto.
  - by intros x Hx; rewrite Hx.
  - by intros y Hy; rewrite Hy.
Qed.

Lemma add_effect_witness :
  ∃ w', add 9 (server_world sim_empty) = Ret tt w' ∧
        rrm (app w') !! 7 = rrm sample_server !! 7 ∧ wrm (app w') !! 7 = wrm sample_server !! 7.
Proof.
  destruct (add_effect 9 sim_empty sample_locks sample_server) as (w' & E & _ & _ & Hne & _).
  - apply sample_ok.
  - exists w'. split; [exact E|]. apply (Hne 7). discriminate.
Defined.

(** An epoll event is dispatched to the right queue, once: an error or
    hang-up marks the descriptor dead and closes it; an event of the listening
    socket queues one task that accepts; input and output events each switch the
    watching of that event over in the mask and in epoll, and queue one task for
    the descriptor. *)
Theorem handle_event_effect {K : Type} `{SocketKernel K} fd events (k : K) l s :
  ok [] (World k l s) →
  let m := get0 (sfd_events s) fd in
  if has events EPOLLERR || has events EPOLLHUP then
    handle_event (fd, events) (World k l s) =
    Ret tt (World (sys_close fd (sys_gettimeofday k).2) (traced Z_mutex l)
              (set_zm (<[fd := now_ms k]> (zm s)) s))
  else if fd =? i_sfd s then
    handle_event (fd, events) (World k l s) =
    Ret tt (World k l (set_a_tp (a_tp s ++ [AddTask]) s))
  else
    ∃ k' l', handle_event (fd, events) (World k l s) =
    Ret tt (World k' l'
      (Server (rrm s) (wrm s)
         (if has events EPOLLIN then
            <[fd := if has events EPOLLOUT then Z.lxor (Z.lxor m EPOLLIN) EPOLLOUT
                    else Z.lxor m EPOLLIN]> (sfd_events s)
          else if has events EPOLLOUT then <[fd := Z.lxor m EPOLLOUT]> (sfd_events s)
          else sfd_events s)
         (zm s) (i_sfd s) (port s) (ep_sfd s) (a_tp s)
         (if has events EPOLLIN then r_tp s ++ [ReadTask fd] else r_tp s)
         (if has events EPOLLOUT then w_tp s ++ [WriteTask fd] else w_tp s))).
Proof.
  intros Hok m. assert (∀ m, m ∉ held l) as Hh by (intros m'; apply (ok_unheld _ m' Hok)).
  unfold handle_event. destruct (has events EPOLLERR || has events EPOLLHUP).
  { by run_with (a_zombied_run fd k l s (Hh _)). }
  destruct (fd =? i_sfd s) eqn:Ei; srun; rewrite Ei; [done|].
  unfold m. destruct (has events EPOLLIN).
  - run_with (read_callback_run fd k l s (Hh _)). destruct (has events EPOLLOUT); [|by eauto].
    rewrite write_callback_run by auto. do 2 eexists. cbn. unfold set_w_tp. cbn.
    by rewrite insert_insert_eq, get0_insert.
  - srun. destruct (has events EPOLLOUT).
    + rewrite write_callback_run by auto. by eauto.
    + do 2 eexists. by destruct s.
Qed.

(** Input and output are both ready; both were watched. *)
Lemma handle_event_effect_witness :
  ∃ k' l', handle_event (7, 5) (World sim_empty sample_locks
      (set_sfd_events {[7 := 5]} sample_server)) =
    Ret tt (World k' l' (set_sfd_events {[7 := 0]}
      (set_r_tp [ReadTask 7] (set_w_tp [WriteTask 7] sample_server)))).
Proof.
  assert (ok [] (World sim_empty sample_locks (set_sfd_events {[7 := 5]} sample_server))) as Hok.
  { apply (ok_app _ _ _ sample_server); [reflexivity|reflexivity|apply sample_ok]. }
  destruct (handle_event_effect 7 5 sim_empty sample_locks
              (set_sfd_events {[7 := 5]} sample_server) Hok) as (k' & l' & E).
  exists k', l'. exact E.
Defined.

(** C23.  The limits of a message's size.  The length of the frame is kept in 32
    bits.  As long as the 38 bytes around a message and the message fit, [send_msg]
    of a server returns, and keeps its state well formed, whatever connection it is
    for.  From there on the array on the stack has the length modulo [2 ^ 32],
    shorter than the frame, and packing writes past its end. *)
Theorem send_msg_bounds {K : Type} `{SocketKernel K} uuid_v msg_v fd (w : world K server) :
  ok [] w → 37 ≤ len uuid_v →
  if 38 + len msg_v <? 2 ^ 32
  then ∃ w', send_msg uuid_v msg_v fd w = Ret tt w' ∧ ok [] w'
  else send_msg uuid_v msg_v fd w = Undef.
Proof.
  intros Hok Hu. destruct (Z.ltb_spec (38 + len msg_v) (2 ^ 32)) as [Hf|Hf].
  - destruct (send_msg_ok [] uuid_v msg_v fd w) as (w' & E & Hok' & _); [done|constructor|done..|].
    by exists w'.
  - by apply send_msg_overrun.
Qed.

Lemma send_msg_bounds_witness :
  send_msg sample_id (replicate (Z.to_nat (2 ^ 32 - 38)) "x"%char) 7 (server_world sim_empty) = Undef.
Proof.
  pose proof (send_msg_bounds sample_id (replicate (Z.to_nat (2 ^ 32 - 38)) "x"%char) 7
    (server_world sim_empty) (sample_ok _)) as E.
  rewrite length_replicate, Z2Nat.id in E by (apply (bool_decide_unpack _); vm_compute; reflexivity).
  apply E. apply (bool_decide_unpack _). vm_compute. reflexivity.
Defined.

(** C39.  Threads that interleave inside an operation.  [read], [write] and [send_msg]
    look up their entry under the map's mutex, let go of it, and then lock the entry's own.
    Whatever the other threads do in between, in whole operations, the rest of the
    operation returns and keeps the state well formed, as long as the entry that was
    found is still there; when the reaper has taken it away meanwhile, or the number
    has a new connection, the pointer to it dangles and the behaviour is undefined.
    Nothing in the code makes the reaper wait for a thread in between. *)
Theorem lookup_race {K : Type} `{SocketKernel K} handler iterate fd (w w1 w' : world K server) :
  wait_bounded → (∀ m, iterate m ≡ₚ map_to_list m) →
  (∀ fd, handles whole (λ _ _, True) handler fd) → ok [] w →
  rtc (server_step handler iterate) w1 w' → allowed (Reading fd) w' →
  (∀ f, read_find fd w = Ret f w1 →
     f = r_mutex <$> rrm (app w) !! fd ∧
     ∀ p, f = Some p →
       let rest := read_found handler (Datatypes.S (length (inbox fd (kern w')))) fd p w' in
       if decide (r_mutex <$> rrm (app w') !! fd = Some p)
       then ∃ w2, rest = Ret tt w2 ∧ ok [] w2 else rest = Undef) ∧
  (∀ f, write_find fd w = Ret f w1 →
     f = w_mutex <$> wrm (app w) !! fd ∧
     ∀ q, f = Some q →
       let n := match wrm (app w') !! fd with Some y => length (wbuffer (w_bw y)) | None => 0%nat end in
       let rest := write_found (Datatypes.S n) fd q w' in
       if decide (w_mutex <$> wrm (app w') !! fd = Some q)
       then ∃ w2, rest = Ret tt w2 ∧ ok [] w2 else rest = Undef) ∧
  (∀ uuid_v msg_v f, 37 ≤ len uuid_v → frame_fits msg_v → send_find uuid_v msg_v fd w = Ret f w1 →
     f = (frame_of (take 37 uuid_v) msg_v, w_mutex <$> wrm (app w) !! fd) ∧
     ∀ q, f.2 = Some q →
       let rest := send_found f.1 (38 + len msg_v) fd q w' in
       if decide (w_mutex <$> wrm (app w') !! fd = Some q)
       then ∃ w2, rest = Ret tt w2 ∧ ok [] w2 else rest = Undef).
Proof.
  intros Hwb Hit Hh Hok Hr Ha. destruct w as [k l s], w' as [k' l' s'].
  pose proof (ok_unheld _ R_mutex Hok) as HR. pose proof (ok_unheld _ W_mutex Hok) as HW. cbn in HR, HW.
  assert (∀ m, rtc (server_step handler iterate) (World k (traced m l) s) (World k' l' s') →
            ok [] (World k' l' s')) as Hok'.
  { intros m. apply reachable_ok; [done..|]. apply (ok_traced _ _ k k l s s); [done|constructor|done|done]. }
  split_and!.
  - intros f Ef. rewrite read_find_run in Ef by done. injection Ef as <- <-. apply Hok' in Hr.
    split; [done|]. intros p _. cbv zeta. destruct (decide _) as [E|E]; [|by apply read_found_stale].
    apply fmap_Some in E as (x & Hx & ->).
    destruct (read_found_ok handler _ fd x _ (about_nothing fd) (Hh fd) Hr I Hx Ha) as (_ & w2 & E2 & Hok2 & _).
    by exists w2.
  - intros f Ef. rewrite write_find_run in Ef by done. injection Ef as <- <-. apply Hok' in Hr.
    split; [done|]. intros q _. cbv zeta. destruct (decide _) as [E|E]; [|by apply write_found_stale].
    apply fmap_Some in E as (y & Hy & ->). cbn in Hy |- *. rewrite Hy.
    destruct (write_found_ok fd y k' l' s' Hr Hy) as (w2 & E2 & Hok2 & _). by exists w2.
  - intros u m f Hu Hm Ef. rewrite send_find_run in Ef by done. injection Ef as <- <-. apply Hok' in Hr.
    split; [done|]. intros q _. cbv zeta. destruct (decide _) as [E|E]; [|by apply send_found_stale].
    apply fmap_Some in E as (y & Hy & ->).
    destruct (send_found_ok [] (take 37 u) m fd y _ Hr) as (w2 & E2 & Hok2 & _);
      [constructor|rewrite length_take; lia|done|done|by exists w2].
Qed.

(** A descriptor that is a zombie since the beginning of time. *)
Definition doomed_server : server := set_zm {[7 := 0]} sample_server.

Lemma lookup_race_witness :
  let w := World sim_empty sample_locks doomed_server in
  ∃ w', rtc (server_step sserver_handler to_list) (World sim_empty (traced R_mutex sample_locks) doomed_server) w' ∧
        read_found sserver_handler 1 7 0 w' = Undef.
Proof.
  intros w.
  set (w1 := World sim_empty (traced R_mutex sample_locks) doomed_server).
  set (w' := match reap to_list w1 with Ret _ w' => w' | _ => w1 end).
  assert (rtc (server_step sserver_handler to_list) w1 w') as Hr.
  { apply rtc_once. apply (step_action _ _ Reaping); [exact I|vm_compute; reflexivity]. }
  exists w'. split; [exact Hr|].
  destruct (lookup_race sserver_handler to_list 7 w w1 w') as [HR _].
  - apply sim_wait_bounded.
  - intros m. reflexivity.
  - apply sserver_handles_whole.
  - destruct (sample_ok sim_empty) as [H1 H2 H3]. split; assumption.
  - exact Hr.
  - intros x Hx. vm_compute in Hx. discriminate Hx.
  - destruct (HR (Some 0%nat) eq_refl) as [_ HU]. exact (HU 0%nat eq_refl).
Defined.
