(* ===== verification/ServerEpoll.v ===== *)
(** * The server's masks and epoll

    The server keeps a mask of events for each descriptor, and tells epoll of every change.
    This file shows that the two stay in step ([in_step]): for a connection that is not
    marked for death, epoll waits for exactly the events of the mask, whatever operation of
    the server comes next.  The rules are those of a logic of what code keeps ([keeps]),
    and go through the member functions statement by statement. *)

From S2P Require Import Prelude Utils BufferedReader BufferedWriter Kernel Simulation.
From S2P Require Import SocketUtils SocketServer ServerProofs ServerTheorems.

(** ** epoll's set of descriptors

    What is documented of a descriptor that is in the set [ep]: its events can be modified,
    and it stays there, with its events, unless it is closed. *)
Class EpollKernel (K : Type) `{SocketKernel K} := {
  watching (ep fd : Z) : K → Prop;

  mod_watched ep fd ev k : watching ep fd k → (sys_epoll_mod ep fd ev k).1 = SysOk tt;
  mod_watching ep fd ev k ep' fd' : watching ep' fd' k → watching ep' fd' (sys_epoll_mod ep fd ev k).2;
  mod_others ep fd ev k fd' : fd' ≠ fd → interest fd' (sys_epoll_mod ep fd ev k).2 = interest fd' k;
  read_watching fd n k ep' fd' : watching ep' fd' k → watching ep' fd' (sys_read fd n k).2;
  write_watching fd data k ep' fd' : watching ep' fd' k → watching ep' fd' (sys_write fd data k).2;
  time_watching k ep' fd' : watching ep' fd' k → watching ep' fd' (sys_gettimeofday k).2;
  wait_watching ep max k ep' fd' : watching ep' fd' k →
    watching ep' fd' (sys_epoll_wait ep max k).2 ∧ interest fd' (sys_epoll_wait ep max k).2 = interest fd' k;
  close_watching fd k ep' fd' : fd' ≠ fd → watching ep' fd' k →
    watching ep' fd' (sys_close fd k) ∧ interest fd' (sys_close fd k) = interest fd' k
}.

#[export, refine] Instance sim_epoll_kernel : EpollKernel sim := {
  watching ep fd k := is_Some (watched k !! fd) ∧ ctl_fails k = false ∧ fd ∉ closed k
}.
Proof.
  - intros ep fd ev k (_ & Hc & _). cbn. unfold sim_ctl. by rewrite Hc.
  - intros ep fd ev k ep' fd' (Hw & Hc & Hn). cbn. unfold sim_ctl. rewrite Hc. cbn. split_and!; [|done|done].
    destruct (decide (fd = fd')) as [->|Hne]; [rewrite lookup_insert_eq; by eexists|by rewrite lookup_insert_ne].
  - intros ep fd ev k fd' Hne. cbn. unfold sim_ctl. destruct (ctl_fails k); [done|]. unfold sim_interest. cbn.
    by rewrite lookup_insert_ne.
  - intros fd n k ep' fd' Hw. cbn. unfold sim_read. destruct (0 <? n); [|done]. by destruct (sim_inbox fd k).
  - intros fd data k ep' fd' Hw. cbn. unfold sim_write. by destruct (rooms k).
  - by intros k ep' fd' Hw.
  - intros ep max k ep' fd' Hw. cbn. by destruct (batches k).
  - intros fd k ep' fd' Hne (Hw & Hc & Hn). cbn. split_and!; [done|done| |done]. set_solver.
Defined.

(** epoll waits for an event of a descriptor. *)
Definition awaits {K} `{EpollKernel K} (ep bit fd : Z) (k : K) : Prop :=
  watching ep fd k ∧ has (interest fd k) bit = true.

Section in_step.
Context {K : Type} `{EpollKernel K}.
Abbreviation Mw := (M (world K server)).
Implicit Types (k : K) (l : lockstate) (s : server) (w : world K server).

Definition has_entry (fd : Z) s : Prop := is_Some (rrm s !! fd) ∨ is_Some (wrm s !! fd).

(** For each connection that is not marked for death, epoll of the set [e] waits for the
    events of its mask. *)
Definition in_step (e : Z) w : Prop :=
  ep_sfd (app w) = e ∧
  ∀ fd, has_entry fd (app w) → zm (app w) !! fd = None →
    watching e fd (kern w) ∧ interest fd (kern w) = get0 (sfd_events (app w)) fd.

(** Changes of the server that concern neither. *)
Record same_masks s s' : Prop := {
  same_ep : ep_sfd s' = ep_sfd s;
  same_zm : zm s' = zm s;
  same_events : sfd_events s' = sfd_events s;
  same_entries fd : has_entry fd s' → has_entry fd s
}.

Lemma in_step_same e w w' : kern w' = kern w → same_masks (app w) (app w') → in_step e w → in_step e w'.
Proof.
  intros Ek [S1 S2 S3 S4] [He Hs]. split; [congruence|]. intros fd Hfd Hz. rewrite Ek, S3. apply Hs; [by apply S4|congruence].
Qed.

(** ** What code keeps *)
Definition keeps (P : world K server → Prop) {A} (m : Mw A) : Prop := ∀ w a w', m w = Ret a w' → P w → P w'.

Lemma keeps_ret P {A} (a : A) : keeps P (mret a).
Proof. by intros w a' w' [= _ <-]. Qed.

Lemma keeps_bind P {A B} (m : Mw A) (f : A → Mw B) : keeps P m → (∀ a, keeps P (f a)) → keeps P (m ≫= f).
Proof.
  intros Hm Hf w b w2 E HP. rewrite bind_unfold in E. destruct (m w) as [a w1| | | | |] eqn:E1; try done.
  eapply Hf; [exact E|]. by eapply Hm.
Qed.

(** The value that was read is one of a state that has the property. *)
Lemma keeps_get P {A B} (g : server → A) (f : A → Mw B) :
  (∀ w, P w → keeps P (f (g (app w)))) → keeps P (get g ≫= f).
Proof. intros Hf w b w' E HP. exact (Hf w HP w b w' E HP). Qed.

Lemma keeps_never P {A} (m : Mw A) : (∀ w a w', m w ≠ Ret a w') → keeps P m.
Proof. intros Hm w a w' E. by destruct (Hm w a w'). Qed.

Lemma keeps_while P {A B} fuel (body : A → Mw (A + B)) a : (∀ a, keeps P (body a)) → keeps P (while_loop fuel body a).
Proof.
  intros Hb. revert a. induction fuel as [|fuel IH]; intros a; cbn; [by apply keeps_never|].
  apply keeps_bind; [done|]. intros [a'|b]; [apply IH|apply keeps_ret].
Qed.

Lemma keeps_for P {A} bits n (body : Z → A → Mw A) a :
  (∀ i a, keeps P (body i a)) → keeps P (for_loop bits n body a).
Proof.
  intros Hb. assert (∀ fuel i a, keeps P (for_from fuel bits i n body a)) as Hf; [|apply Hf].
  induction fuel as [|fuel IH]; intros i a'; cbn; destruct (i <? n); try apply keeps_ret; [by apply keeps_never|].
  apply keeps_bind; [done|]. intros a2. apply IH.
Qed.

Context (e : Z).
Abbreviation kept := (keeps (in_step e)).

(** Code that changes at most the mutexes. *)
Lemma kept_quiet {A} (m : Mw A) :
  (∀ w a w', m w = Ret a w' → kern w' = kern w ∧ same_masks (app w) (app w')) → kept m.
Proof. intros Hm w a w' E. destruct (Hm w a w' E). by apply in_step_same. Qed.

Lemma kept_gets {A} (f : world K server → A) : kept (gets f).
Proof. apply kept_quiet. by intros w a w' [= _ <-]. Qed.

Lemma kept_assume {A} (o : option A) : kept (assume o).
Proof. destruct o; [apply keeps_ret|by apply keeps_never]. Qed.

Lemma kept_index {A} (l : list A) i : kept (index l i).
Proof. unfold index. destruct (i <? 0); [by apply keeps_never|apply kept_assume]. Qed.

Lemma kept_set_index {A} (l : list A) i x : kept (set_index l i x).
Proof. unfold set_index. destruct (_ && _); [apply keeps_ret|by apply keeps_never]. Qed.

Lemma kept_load {U} (r : ref server U) : kept (load (in_app r)).
Proof. apply kept_quiet. intros w a w'. unfold load. destruct (rd _ w); [by intros [= _ <-]|done]. Qed.

Lemma kept_lock m : kept (lock m).
Proof.
  apply kept_quiet. intros w a w'. unfold lock. destruct (negb _); [done|]. destruct (bool_decide _); [done|].
  by intros [= _ <-].
Qed.

Lemma kept_unlock m : kept (unlock m).
Proof.
  apply kept_quiet. intros w a w'. unfold unlock. destruct (negb _); [done|]. destruct (bool_decide _); [|done].
  by intros [= _ <-].
Qed.

(** A reference to a part of an entry. *)
Definition in_entry {U} (r : ref server U) : Prop := ∀ s x y, rd r s = Some y → same_masks s (wr r x s).

Lemma kept_store {U} (r : ref server U) x : in_entry r → kept (store (in_app r) x).
Proof.
  intros Hr. apply kept_quiet. intros w a w'. unfold store. cbn. destruct (rd r (app w)) eqn:E; [|done].
  intros [= _ <-]. split; [done|by eapply Hr].
Qed.

Lemma in_entry_rr fd : in_entry (rr_ref fd).
Proof.
  intros s x y Hy. cbn in Hy. split; try done. intros fd' [Hr|Hw]; [left|by right]. cbn in Hr.
  destruct (decide (fd' = fd)) as [->|Hne]; [by rewrite Hy|by rewrite lookup_insert_ne in Hr].
Qed.

Lemma in_entry_wr fd : in_entry (wr_ref fd).
Proof.
  intros s x y Hy. cbn in Hy. split; try done. intros fd' [Hr|Hw]; [by left|right]. cbn in Hw.
  destruct (decide (fd' = fd)) as [->|Hne]; [by rewrite Hy|by rewrite lookup_insert_ne in Hw].
Qed.

Lemma in_entry_br fd : in_entry (br_ref fd).
Proof.
  intros s x y Hy. cbn in Hy. split; try done. intros fd' [Hr|Hw]; [left|by right]. cbn in Hr.
  rewrite lookup_alter in Hr. case_decide; [subst; by apply fmap_is_Some in Hr|done].
Qed.

Lemma in_entry_bw fd : in_entry (bw_ref fd).
Proof.
  intros s x y Hy. cbn in Hy. split; try done. intros fd' [Hr|Hw]; [by left|right]. cbn in Hw.
  rewrite lookup_alter in Hw. case_decide; [subst; by apply fmap_is_Some in Hw|done].
Qed.

(** The system calls. *)
Lemma kept_syscall {A} (f : K → A * K) :
  (∀ k fd, watching e fd k → watching e fd (f k).2 ∧ interest fd (f k).2 = interest fd k) → kept (syscall f).
Proof.
  intros Hf w a w' E [He Hs]. unfold syscall in E. specialize (Hf (kern w)). destruct (f (kern w)) as [a1 k1].
  injection E as _ <-. split; [done|]. intros fd Hfd Hz. destruct (Hs fd Hfd Hz) as [Hw Hi].
  destruct (Hf fd Hw) as [Hw' Hi']. cbn in *. split; [done|by rewrite Hi'].
Qed.

Lemma kept_read fd n : kept (syscall (sys_read fd n)).
Proof. apply kept_syscall. intros k fd' Hw. split; [by apply read_watching|]. by destruct (read_frame fd n k fd') as (_ & _ & ->). Qed.

Lemma kept_write fd data : kept (syscall (sys_write fd data)).
Proof. apply kept_syscall. intros k fd' Hw. split; [by apply write_watching|apply write_frame]. Qed.

Lemma kept_wait ep max : kept (syscall (sys_epoll_wait ep max)).
Proof. apply kept_syscall. intros k fd' Hw. by apply wait_watching. Qed.

(** The mask of a descriptor is changed, and epoll is told. *)
Lemma in_step_told fd v k l l' s :
  in_step e (World k l s) →
  in_step e (World (sys_epoll_mod e fd v k).2 l' (set_sfd_events (<[fd := v]> (sfd_events s)) s)).
Proof.
  intros [He Hs]. split; [done|]. intros fd' Hfd Hz. destruct (Hs fd' Hfd Hz) as [Hw Hi]. cbn in Hw, Hi |- *.
  split; [by apply mod_watching|]. unfold get0 in *. destruct (decide (fd' = fd)) as [->|Hne].
  - rewrite lookup_insert_eq. cbn. pose proof (mod_watched e fd v k Hw) as Hm.
    destruct (sys_epoll_mod e fd v k) as [r k'] eqn:Em. cbn in Hm. subst r. by eapply mod_interest.
  - by rewrite lookup_insert_ne, mod_others.
Qed.

(** Code that takes a mutex first: it is not held. *)
Lemma keeps_unheld {A} P m (c : unit → Mw A) :
  (∀ w a w', m ∉ held (locks w) → (lock m ≫= c) w = Ret a w' → P w → P w') → keeps P (lock m ≫= c).
Proof.
  intros Hc w a w' E HP. destruct (decide (m ∈ held (locks w))) as [Hin|Hn]; [|by eapply Hc].
  rewrite bind_unfold in E. unfold lock in E. rewrite bool_decide_eq_true_2 in E by done. by destruct (negb _).
Qed.

Lemma kept_arm bit fd : kept (arm bit e fd (in_app events_ref) E_mutex).
Proof.
  apply keeps_unheld. intros [k l s] a w' Hh E HP.
  change (arm bit e fd (in_app events_ref) E_mutex (World k l s) = Ret a w') in E.
  rewrite (arm_run events_ref E_mutex bit e fd (sfd_events s)) in E by done. injection E as _ <-.
  by apply (in_step_told fd _ k l).
Qed.

Lemma kept_disarm bit fd : kept (disarm bit fd).
Proof.
  apply keeps_unheld. intros [k l s] a w' Hh E HP. change (disarm bit fd (World k l s) = Ret a w') in E.
  rewrite disarm_run in E by done. injection E as _ <-. pose proof (proj1 HP) as He. cbn in He. rewrite He.
  by apply (in_step_told fd _ k l).
Qed.

Lemma in_step_marked fd t k l l' s :
  in_step e (World k l s) → in_step e (World (sys_gettimeofday k).2 l' (set_zm (<[fd := t]> (zm s)) s)).
Proof.
  intros [He Hs]. split; [done|]. intros fd' Hfd Hz. cbn in Hz.
  apply lookup_insert_None in Hz as [Hz Hne]. destruct (Hs fd' Hfd Hz) as [Hw Hi]. cbn in *. split; [by apply time_watching|].
  by destruct (time_frame k fd') as (_ & _ & _ & ->).
Qed.

Lemma kept_a_zombied fd : kept (a_zombied fd).
Proof.
  apply keeps_unheld. intros [k l s] a w' Hh E HP. change (a_zombied fd (World k l s) = Ret a w') in E.
  rewrite a_zombied_run in E by done. injection E as _ <-. by eapply in_step_marked.
Qed.

(** What a pool is given. *)
Lemma kept_push f : (∀ s, same_masks s (f s)) → kept (put f).
Proof. intros Hf. apply kept_quiet. by intros w a w' [= _ <-]. Qed.
End in_step.

Create HintDb kept.

#[export] Hint Resolve keeps_ret kept_gets kept_assume kept_index kept_set_index kept_load kept_lock kept_unlock
  kept_store in_entry_rr in_entry_wr in_entry_br in_entry_bw kept_read kept_write kept_wait kept_arm kept_disarm
  kept_a_zombied : kept.

(** Goes through the code. *)
Ltac kept_step :=
  lazymatch goal with
  | |- ∀ _, _ => intro
  | |- keeps _ (match ?x with _ => _ end) => destruct x
  | |- keeps _ (let _ := _ in _) => cbv zeta
  | |- keeps _ (get ep_sfd ≫= _) => apply keeps_get; intros ? [-> _]
  | |- keeps _ (_ ≫= _) => apply keeps_bind
  | |- keeps _ (while_loop _ _ _) => apply keeps_while
  | |- keeps _ (for_loop _ _ _ _) => apply keeps_for
  | |- keeps _ undef => by apply keeps_never
  | |- keeps _ (throw _) => by apply keeps_never
  | |- keeps _ (get _) => apply kept_gets
  end.

Ltac kept := repeat (kept_step || solve [auto with kept]).

Section operations.
Context {K : Type} `{EpollKernel K} (e : Z).
Abbreviation Mw := (M (world K server)).
Abbreviation kept := (keeps (in_step (K := K) e)).
Implicit Types (k : K) (l : lockstate) (s : server) (w : world K server).

Lemma kept_unpack msg n u v : kept (unpack_frame msg n u v).
Proof. unfold unpack_frame. kept. Qed.

Lemma kept_pack id msg r : kept (pack_frame_v id msg r).
Proof. unfold pack_frame_v, SocketUtils.put. kept. Qed.

Lemma kept_buffer_read {C} (run : C → bytes → Mw unit) (r : ref server (BufferedReader C)) data n :
  in_entry r → (∀ c f, kept (run c f)) → kept (BufferedReader.read run (in_app r) data n).
Proof. intros He Hr. unfold BufferedReader.read, read_char. kept. Qed.

Lemma kept_buffer_write fd f n : kept (BufferedWriter.write (in_app (bw_ref fd)) f n).
Proof. unfold BufferedWriter.write. kept. Qed.

Lemma kept_send_msg u m fd : kept (send_msg u m fd).
Proof.
  unfold send_msg. pose proof (kept_pack u m). pose proof (kept_buffer_write fd). kept.
Qed.

Lemma kept_write_op fuel fd : kept (write fuel fd).
Proof.
  unfold write, write_to_sfd, BufferedWriter.size, iread, clear, write_close. kept.
Qed.

Lemma kept_read_op handler fuel fd :
  (∀ u m fd, kept (handler u m fd)) → kept (read handler fuel fd).
Proof.
  intros Hh. assert (∀ c f, kept (call_back_of handler c f)) as Hc.
  { intros c f. unfold call_back_of. pose proof kept_unpack. kept. }
  pose proof (λ data n, kept_buffer_read (call_back_of handler) (br_ref fd) data n (in_entry_br fd) Hc).
  unfold read, read_from_sfd, read_close. kept.
Qed.
End operations.
