(* ===== verification/ServerTasks.v ===== *)
(** * The server: nothing is forgotten

    A connection's descriptor is either watched by epoll or in the hands of the
    pools: an event switches its bit off and queues a task, and the task switches the
    bit on again when it has taken what there was.  This file shows that no connection
    falls in between: input that arrives is seen, and what waits to be written will
    be written.  First by the masks that the server keeps ([masked]); with [in_step],
    by what epoll itself waits for ([attended]).  Last, how a connection is forgotten
    whose events come between its registration with epoll and [add]. *)

From S2P Require Import Prelude Utils BufferedReader BufferedWriter Kernel Simulation.
From S2P Require Import SocketUtils SocketServer ServerProofs ServerTheorems ServerEpoll.

(** ** By the masks

    A valid reader has its bit, or will be read. *)
Definition masked_in (s : server) (fd : Z) : Prop :=
  ∀ x, rrm s !! fd = Some x → r_is_valid x = true →
    has (get0 (sfd_events s) fd) EPOLLIN = true ∨ ReadTask fd ∈ r_tp s.

(** A valid writer that has something to write has its bit, or will be written. *)
Definition masked_out (s : server) (fd : Z) : Prop :=
  ∀ y, wrm s !! fd = Some y → w_is_valid y = true → wbuffer (w_bw y) ≠ [] →
    has (get0 (sfd_events s) fd) EPOLLOUT = true ∨ WriteTask fd ∈ w_tp s.

Definition masked (s : server) : Prop := ∀ fd, masked_in s fd ∧ masked_out s fd.

(** While the reader of [fd] is in the hands of a thread. *)
Definition reading (fd : Z) (s : server) : Prop :=
  (∀ fd', masked_out s fd') ∧ ∀ fd', fd' ≠ fd → masked_in s fd'.

(** Changes that keep attention, for one descriptor. *)
Lemma masked_in_mono s s' fd :
  rrm s' !! fd = rrm s !! fd →
  (has (get0 (sfd_events s) fd) EPOLLIN = true →
     has (get0 (sfd_events s') fd) EPOLLIN = true ∨ ReadTask fd ∈ r_tp s') →
  (ReadTask fd ∈ r_tp s → ReadTask fd ∈ r_tp s') →
  masked_in s fd → masked_in s' fd.
Proof. intros Hr He Ht Ha x Hx Hv. rewrite Hr in Hx. destruct (Ha x Hx Hv); auto. Qed.

Lemma masked_out_mono s s' fd :
  wrm s' !! fd = wrm s !! fd →
  (has (get0 (sfd_events s) fd) EPOLLOUT = true →
     has (get0 (sfd_events s') fd) EPOLLOUT = true ∨ WriteTask fd ∈ w_tp s') →
  (WriteTask fd ∈ w_tp s → WriteTask fd ∈ w_tp s') →
  masked_out s fd → masked_out s' fd.
Proof. intros Hr He Ht Ha y Hy Hv Hb. rewrite Hr in Hy. destruct (Ha y Hy Hv Hb); auto. Qed.

Lemma get0_same (m m' : gmap Z Z) fd : m' !! fd = m !! fd → get0 m' fd = get0 m fd.
Proof. unfold get0. by intros ->. Qed.

(** ** The operations *)
Section operations.
Context {K : Type} `{SocketKernel K}.

Lemma reading_about_rest fd : about_rest fd (λ _ (w : world K server), reading fd (app w)).
Proof.
  intros ms w w' [H1 H2] [R1 R2 R3 R4 R5 R6] _. split.
  - intros fd'. apply (masked_out_mono (app w)); [by rewrite R1| |by rewrite R6|done].
    intros He. left. destruct (decide (fd' = fd)) as [->|Hne]; [by rewrite R4|].
    by rewrite (get0_same _ _ _ (R3 fd' Hne)).
  - intros fd' Hne. apply (masked_in_mono (app w)); [by apply R2| |by rewrite R5|by apply H2].
    intros He. left. by rewrite (get0_same _ _ _ (R3 fd' Hne)).
Qed.

(** Sending. *)
Lemma send_msg_app hs uuid_v msg_v fd (w w' : world K server) :
  ok hs w → below server_rank (WR_mutex 0) hs → 37 ≤ len uuid_v → frame_fits msg_v →
  send_msg uuid_v msg_v fd w = Ret tt w' →
  app w' =
  match wrm (app w) !! fd with
  | None => app w
  | Some y =>
      set_sfd_events (<[fd := Z.lor (get0 (sfd_events (app w)) fd) EPOLLOUT]> (sfd_events (app w)))
        (set_wrm (<[fd := enqueue (frame_of (take 37 uuid_v) msg_v) y]> (wrm (app w))) (app w))
  end.
Proof.
  intros Hok Hb Hu Hm. destruct w as [k l s]. pose proof Hok as [H1 _ H3]. cbn in H1, H3. cbn [app].
  assert (∀ m, (1 ≤ server_rank m)%nat → m ∉ held l) as Hh.
  { intros m Hr. rewrite H1. apply below_fresh. unfold below in *. rewrite Forall_forall in *.
    intros h Hin. specialize (Hb h Hin). cbn in Hb. lia. }
  destruct (wrm s !! fd) as [y|] eqn:Hy.
  - rewrite (send_msg_some _ _ _ _ _ _ y) by
      (first [done | apply Hh; cbn; lia | by eapply wf_wr]). by intros [= <-].
  - rewrite send_msg_none by (first [done | apply Hh; cbn; lia]). by intros [= <-].
Qed.

Lemma send_attends hs uuid_v msg_v fd (w : world K server) :
  ok hs w → below server_rank (WR_mutex 0) hs → 37 ≤ len uuid_v → frame_fits msg_v →
  ∃ w', send_msg uuid_v msg_v fd w = Ret tt w' ∧ ok hs w' ∧ rrm (app w') = rrm (app w) ∧
    (∀ fd', inbox fd' (kern w') = inbox fd' (kern w) ∧ inbox_end fd' (kern w') = inbox_end fd' (kern w)) ∧
    (∀ fd', masked_in (app w) fd' → masked_in (app w') fd') ∧
    (∀ fd', masked_out (app w) fd' → masked_out (app w') fd').
Proof.
  intros Hok Hb Hu Hm. destruct (send_msg_ok hs uuid_v msg_v fd w Hok Hb Hu Hm) as (w' & E & Hok' & Hr & Hio).
  exists w'. do 4 (split; [done|]). rewrite (send_msg_app hs uuid_v msg_v fd w w') by done.
  destruct (wrm (app w) !! fd) as [y|] eqn:Hy; [|done].
  split; intros fd' Ha; destruct (decide (fd' = fd)) as [->|Hne].
  - apply (masked_in_mono (app w)); [done| |done..]. cbn. unfold get0 at 2. rewrite lookup_insert_eq. cbn.
    rewrite in_lor_out. by left.
  - apply (masked_in_mono (app w)); [done| |done..]. cbn. unfold get0 at 2. rewrite lookup_insert_ne by done. by left.
  - intros y' _ _ _. left. cbn. unfold get0 at 1. rewrite lookup_insert_eq. cbn. by apply has_or.
  - apply (masked_out_mono (app w)); [cbn; by rewrite lookup_insert_ne| |done..]. cbn.
    unfold get0 at 2. rewrite lookup_insert_ne by done. by left.
Qed.

(** The handler of [sserver] keeps attention. *)
Lemma sserver_keeps_reading fd :
  handles whole (λ _ (w : world K server), reading fd (app w)) (sserver_handler (K:=K)) fd.
Proof.
  intros p ms u m w Hok [H1 H2] [Hu _].
  destruct (send_attends [RR_mutex p] u (str "no way bro") fd w) as (w' & E & Hok' & Hr & Hio & Hin & Hout);
    [done|repeat constructor|done|done|].
  exists w'. split_and!; [done|done| |done|done]. split; [intros fd'; by apply Hout|].
  intros fd' Hne. by apply Hin, H2.
Qed.

(** Writing. *)
Lemma written_attends fd s s' :
  written fd s s' → (∀ fd', masked_in s fd') → (∀ fd', fd' ≠ fd → masked_out s fd') → masked s'.
Proof.
  intros [W1 W2 W3 W4 W5 _ W6 W7] Hin Hout fd'. split.
  - apply (masked_in_mono s); [by rewrite W1| |by rewrite W6|done]. intros He. left.
    destruct (decide (fd' = fd)) as [->|Hne]; [by rewrite W4|by rewrite (get0_same _ _ _ (W3 fd' Hne))].
  - destruct (decide (fd' = fd)) as [->|Hne].
    + intros y Hy Hv Hb. left. by apply (W5 y).
    + apply (masked_out_mono s); [by apply W2| |by rewrite W7|by apply Hout]. intros He. left.
      by rewrite (get0_same _ _ _ (W3 fd' Hne)).
Qed.

(** An event: the bit is switched, and a task queued. *)
Lemma read_event_attends fd s :
  let v := Z.lxor (get0 (sfd_events s) fd) EPOLLIN in
  masked s → masked (set_r_tp (r_tp s ++ [ReadTask fd]) (set_sfd_events (<[fd := v]> (sfd_events s)) s)).
Proof.
  intros v Ha fd'. destruct (Ha fd') as [Hin Hout]. split.
  - destruct (decide (fd' = fd)) as [->|Hne]; [intros x _ _; right; cbn; set_solver|].
    apply (masked_in_mono s); [done| |cbn; set_solver|done]. cbn. unfold get0 at 2. rewrite lookup_insert_ne by done. by left.
  - apply (masked_out_mono s); [done| |done|done]. cbn. unfold get0 at 2.
    destruct (decide (fd' = fd)) as [->|Hne]; [|rewrite lookup_insert_ne by done; by left].
    rewrite lookup_insert_eq. cbn. unfold v. rewrite out_lxor_in. by left.
Qed.

Lemma write_event_attends fd s :
  let v := Z.lxor (get0 (sfd_events s) fd) EPOLLOUT in
  masked s → masked (set_w_tp (w_tp s ++ [WriteTask fd]) (set_sfd_events (<[fd := v]> (sfd_events s)) s)).
Proof.
  intros v Ha fd'. destruct (Ha fd') as [Hin Hout]. split.
  - apply (masked_in_mono s); [done| |done|done]. cbn. unfold get0 at 2.
    destruct (decide (fd' = fd)) as [->|Hne]; [|rewrite lookup_insert_ne by done; by left].
    rewrite lookup_insert_eq. cbn. unfold v. rewrite in_lxor_out. by left.
  - destruct (decide (fd' = fd)) as [->|Hne]; [intros y _ _ _; right; cbn; set_solver|].
    apply (masked_out_mono s); [done| |cbn; set_solver|done]. cbn. unfold get0 at 2. rewrite lookup_insert_ne by done. by left.
Qed.

Lemma handle_event_attends ev (w : world K server) :
  ok [] w → masked (app w) →
  ∃ w', handle_event ev w = Ret tt w' ∧ ok [] w' ∧ masked (app w').
Proof.
  intros Hok Ha. destruct (handle_event_ok ev w Hok) as (w' & E & Hok'). exists w'. do 2 (split; [done|]).
  clear Hok'. destruct ev as [fd events], w as [k l s]. cbn in Ha. revert E.
  assert (∀ m, m ∉ held l) as Hh by (intros m; apply (ok_unheld _ m Hok)).
  unfold handle_event. destruct (has events EPOLLERR || has events EPOLLHUP).
  { run_with (a_zombied_run fd k l s (Hh _)). by intros [= <-]. }
  srun. destruct (fd =? i_sfd s); [by intros [= <-]|].
  destruct (has events EPOLLIN).
  - run_with (read_callback_run fd k l s (Hh _)). apply (read_event_attends fd) in Ha.
    destruct (has events EPOLLOUT); [|by intros [= <-]].
    rewrite write_callback_run by apply Hh. intros [= <-]. exact (write_event_attends fd _ Ha).
  - srun. destruct (has events EPOLLOUT); [|by intros [= <-]].
    rewrite write_callback_run by apply Hh. intros [= <-]. exact (write_event_attends fd _ Ha).
Qed.

Lemma handle_events_attends evs (w : world K server) :
  ok [] w → masked (app w) →
  ∃ w', fold_m (λ ev (_ : unit), handle_event ev) evs tt w = Ret tt w' ∧ masked (app w').
Proof.
  revert w. induction evs as [|ev evs IH]; intros w Hok Ha; [by exists w|].
  destruct (handle_event_attends ev w Hok Ha) as (w1 & E1 & Hok1 & Ha1).
  destruct (IH w1 Hok1 Ha1) as (w2 & E2 & Ha2). exists w2. cbn [fold_m]. by run_with E1.
Qed.

Lemma process_batch_attends (w w' : world K server) :
  wait_bounded → ok [] w → masked (app w) → process_batch w = Ret tt w' → masked (app w').
Proof.
  intros Hwb Hok Ha. destruct w as [k l s]. unfold process_batch. srun.
  destruct (sys_epoll_wait (ep_sfd s) 64 k) as [[e|evs] k'] eqn:E; cbn [fst snd].
  - by intros [= <-].
  - specialize (Hwb _ _ _ _ E). rewrite for_index_total by lia. rewrite Nat2Z.id, firstn_all.
    destruct (handle_events_attends evs (World k' l s)) as (w2 & E2 & Ha2); [by eapply ok_kern|done|].
    unfold set_kern. cbn [locks app]. rewrite E2. by intros [= <-].
Qed.

(** A new connection. *)
Lemma add_attends fd (w w' : world K server) :
  ok [] w → masked (app w) → wrm (app w) !! fd = None → add fd w = Ret tt w' → masked (app w').
Proof.
  intros Hok Ha Hnone. destruct w as [k l s]. cbn in Ha, Hnone.
  rewrite add_run by apply (ok_unheld _ _ Hok). intros [= <-] fd'. cbn [app].
  destruct (decide (fd' = fd)) as [->|Hne].
  - split; [intros x _ _; left; cbn; unfold get0; by rewrite lookup_insert_eq|].
    intros y Hy _ Hb. cbn in Hy. unfold emplace in Hy. rewrite Hnone, lookup_insert_eq in Hy. by injection Hy as <-.
  - destruct (Ha fd') as [Hin Hout]. split.
    + apply (masked_in_mono s); [|intros He; left|done|done]; cbn.
      * unfold emplace. by destruct (rrm s !! fd); rewrite ?lookup_insert_ne.
      * by rewrite get0_same with (m := sfd_events s) by by rewrite lookup_insert_ne.
    + apply (masked_out_mono s); [|intros He; left|done|done]; cbn.
      * unfold emplace. by rewrite Hnone, lookup_insert_ne.
      * by rewrite get0_same with (m := sfd_events s) by by rewrite lookup_insert_ne.
Qed.

(** What is cleaned away needs no attention. *)
Lemma reap_attends (iterate : gmap Z Z → list (Z * Z)) (w w' : world K server) :
  (∀ m, iterate m ≡ₚ map_to_list m) → ok [] w → masked (app w) →
  reap iterate w = Ret tt w' → masked (app w').
Proof.
  intros Hit Hok Ha E.
  destruct (reap_run (λ _, True) 0 (2 ^ 60) (λ _, True)) with (iterate := iterate) (w := w)
    as (zv & w2 & E2 & _ & Hr & Hw & _ & _ & _ & He & Ht & Hu & _); try done.
  { intros k _. pose proof (now_range k). lia. }
  rewrite E in E2. injection E2 as <-. intros fd. specialize (Hr fd). specialize (Hw fd). specialize (He fd).
  case_decide.
  - split; [intros x Hx|intros y Hy]; congruence.
  - destruct (Ha fd) as [Hin Hout]. split.
    + apply (masked_in_mono (app w)); [done| |by rewrite Ht|done]. rewrite (get0_same _ _ _ He). by left.
    + apply (masked_out_mono (app w)); [done| |by rewrite Hu|done]. rewrite (get0_same _ _ _ He). by left.
Qed.

(** ** By epoll *)
Context `{!EpollKernel K} (e : Z).

Lemma in_step_add fd (w w' : world K server) :
  ok [] w → in_step e w → watching e fd (kern w) → interest fd (kern w) = EPOLLIN →
  add fd w = Ret tt w' → in_step e w'.
Proof.
  intros Hok [He Hs] Hw Hi. destruct w as [k l s]. rewrite add_run by apply (ok_unheld _ _ Hok). intros [= <-].
  split; [done|]. intros fd' Hfd Hz. cbn in Hfd, Hz, Hw, Hi |- *. unfold get0. destruct (decide (fd' = fd)) as [->|Hne].
  - by rewrite lookup_insert_eq.
  - rewrite lookup_insert_ne by done. apply Hs; [|done]. unfold has_entry in *. cbn in Hfd.
    unfold emplace in Hfd. destruct (rrm s !! fd), (wrm s !! fd); by rewrite ?lookup_insert_ne in Hfd.
Qed.

Lemma kept_event ev : keeps (in_step (K := K) e) (handle_event ev).
Proof.
  destruct ev as [fd events]. unfold handle_event. destruct (has events EPOLLERR || has events EPOLLHUP).
  - intros [k l s] a w' E HP. destruct (decide (Z_mutex ∈ held l)) as [Hin|Hn].
    { rewrite bind_unfold in E. unfold a_zombied in E. rewrite bind_unfold in E. unfold lock in E. cbn in E.
      by rewrite bool_decide_eq_true_2 in E. }
    revert E. run_with (a_zombied_run fd k l s Hn). intros [= _ <-].
    apply (in_step_marked e fd (now_ms k) _ _ (traced Z_mutex l)) in HP as [He Hs].
    split; [done|]. intros fd' Hfd Hz. destruct (Hs fd' Hfd Hz) as [Hw Hi]. cbn in Hw, Hi, Hz |- *.
    apply lookup_insert_None in Hz as [_ Hne]. rewrite <-Hi. apply close_watching; [by apply not_eq_sym|done].
  - apply keeps_bind; [apply kept_gets|]. intros i. destruct (fd =? i).
    { unfold add_callback. apply keeps_bind; [apply kept_gets|]. intros q. by apply kept_push. }
    apply keeps_bind; intros; destruct (has events _); try apply keeps_ret; unfold read_callback, write_callback;
      (apply keeps_bind; [apply kept_disarm|]); intros _; (apply keeps_bind; [apply kept_gets|]); intros q; by apply kept_push.
Qed.

Lemma kept_batch : keeps (in_step (K := K) e) process_batch.
Proof.
  unfold process_batch. apply keeps_get. intros w [-> _]. apply keeps_bind; [apply kept_wait|]. intros [err|evs];
    apply keeps_for; intros i _; (apply keeps_bind; [apply kept_index|apply kept_event]).
Qed.

Lemma in_step_reap (iterate : gmap Z Z → list (Z * Z)) (w w' : world K server) :
  (∀ m, iterate m ≡ₚ map_to_list m) → ok [] w → in_step e w → reap iterate w = Ret tt w' → in_step e w'.
Proof.
  intros Hit Hok [He Hs] E.
  destruct (reap_run (λ k, ∀ fd, has_entry fd (app w) → zm (app w) !! fd = None →
      watching e fd k ∧ interest fd k = get0 (sfd_events (app w)) fd) 0 (2 ^ 60) (λ fd, is_Some (zm (app w) !! fd)))
    with (iterate := iterate) (w := w) as (zv & w2 & E2 & _ & Hr & Hw & Hz & _ & _ & Hm & _ & _ & Hk & Hep).
  - intros k Hk fd Hfd Hz. destruct (Hk fd Hfd Hz) as [? <-]. split; [by apply time_watching|].
    by destruct (time_frame k fd) as (_ & _ & _ & ->).
  - intros fd k Hd Hk fd' Hfd Hz. destruct (Hk fd' Hfd Hz) as [? <-]. apply close_watching; [|done].
    intros ->. rewrite Hz in Hd. by destruct Hd.
  - intros k _. pose proof (now_range k). lia.
  - done.
  - exact Hs.
  - done.
  - done.
  - rewrite E in E2. injection E2 as <-. split; [by rewrite Hep|].
    intros fd Hfd Hzn. rewrite Hz in Hzn. unfold has_entry in Hfd. rewrite Hr, Hw in Hfd.
    unfold get0. rewrite Hm. case_decide; [by destruct Hfd as [[]|[]]|]. by apply Hk.
Qed.
End operations.

(** ** The pools at work

    The steps of a server whose tasks come from the queues: a reading or a writing
    thread takes the first task of its queue and runs it; a connection comes with a
    number that has no writer yet, and has been registered with epoll; messages are sent;
    the event loop and the reaper have a round; the rest of the system takes any step
    that leaves alone what epoll watches. *)

(** A handler that keeps what this file is about, whatever it is given. *)
Class Attentive {K} `{SocketKernel K} `{!EpollKernel K} (handler : bytes → bytes → Z → M (world K server) unit) := {
  attentive_reading fd : handles whole (λ _ (w : world K server), reading fd (app w)) handler fd;
  attentive_step e u m fd : keeps (in_step e) (handler u m fd)
}.

#[export, refine] Instance sserver_attentive {K} `{EpollKernel K} : Attentive (sserver_handler (K := K)) := {
  attentive_reading := sserver_keeps_reading
}.
Proof. intros e u m fd. apply kept_send_msg. Defined.

(** Each valid connection that is not marked for death is waited for by epoll, or has its
    task in a queue. *)
Definition attended_in {K} `{EpollKernel K} (w : world K server) (fd : Z) : Prop :=
  ∀ x, rrm (app w) !! fd = Some x → r_is_valid x = true →
    awaits (ep_sfd (app w)) EPOLLIN fd (kern w) ∨ ReadTask fd ∈ r_tp (app w).

Definition attended_out {K} `{EpollKernel K} (w : world K server) (fd : Z) : Prop :=
  ∀ y, wrm (app w) !! fd = Some y → w_is_valid y = true → wbuffer (w_bw y) ≠ [] →
    awaits (ep_sfd (app w)) EPOLLOUT fd (kern w) ∨ WriteTask fd ∈ w_tp (app w).

Definition attended {K} `{EpollKernel K} (w : world K server) : Prop :=
  ∀ fd, zm (app w) !! fd = None → attended_in w fd ∧ attended_out w fd.

Lemma masked_attended {K} `{EpollKernel K} e (w : world K server) :
  masked (app w) → in_step e w → attended w.
Proof.
  intros Ha [He Hs] fd Hz. destruct (Ha fd) as [Hin Hout]. split.
  - intros x Hx Hv. destruct (Hin x Hx Hv) as [Hb|Ht]; [left|by right].
    destruct (Hs fd) as [Hw Hi]; [left; by eexists|done|]. split; [by rewrite He|by rewrite Hi].
  - intros y Hy Hv Hb. destruct (Hout y Hy Hv Hb) as [Hh|Ht]; [left|by right].
    destruct (Hs fd) as [Hw Hi]; [right; by eexists|done|]. split; [by rewrite He|by rewrite Hi].
Qed.

Section tasks.
Context {K : Type} `{EpollKernel K}.
Context (handler : bytes → bytes → Z → M (world K server) unit) `{!Attentive handler}.
Context (iterate : gmap Z Z → list (Z * Z)).

Definition from_queue (a : action) (w w1 : world K server) : Prop :=
  match a with
  | Accepted fd =>
      wrm (app w) !! fd = None ∧ watching (ep_sfd (app w)) fd (kern w) ∧ interest fd (kern w) = EPOLLIN ∧ w1 = w
  | Reading fd => ∃ q, r_tp (app w) = ReadTask fd :: q ∧ w1 = set_app (set_r_tp q (app w)) w
  | Writing fd => ∃ q, w_tp (app w) = WriteTask fd :: q ∧ w1 = set_app (set_w_tp q (app w)) w
  | _ => w1 = w
  end.

(** A step of the rest of the system: input, accepted connections and so on. *)
Definition elsewhere (ep : Z) (k k' : K) : Prop :=
  ∀ fd, watching ep fd k → watching ep fd k' ∧ interest fd k' = interest fd k.

Inductive task_step : world K server → world K server → Prop :=
  | task_action a w w1 w' :
      from_queue a w w1 → allowed a w1 → perform handler iterate a w1 = Ret tt w' → task_step w w'
  | task_network w k : elsewhere (ep_sfd (app w)) (kern w) k → task_step w (World k (locks w) (app w)).

Context (Hwb : wait_bounded (K := K)) (Hit : ∀ m, iterate m ≡ₚ map_to_list m).

(** A thread takes a reading task. *)
Lemma take_read fd q s : r_tp s = ReadTask fd :: q → masked s → reading fd (set_r_tp q s).
Proof.
  intros Hq Ha. split; [intros fd'; exact (proj2 (Ha fd'))|]. intros fd' Hne x Hx Hv.
  destruct (proj1 (Ha fd') x Hx Hv) as [He|Ht]; [by left|right].
  rewrite Hq in Ht. apply elem_of_cons in Ht as [[= ->]|Ht]; done.
Qed.

Lemma read_task fd q w :
  ok [] w → masked (app w) → r_tp (app w) = ReadTask fd :: q →
  let w1 := set_app (set_r_tp q (app w)) w in allowed (Reading fd) w1 →
  ∃ w', perform handler iterate (Reading fd) w1 = Ret tt w' ∧ ok [] w' ∧ masked (app w').
Proof.
  intros Hok Ha Hq w1 Hal.
  destruct (read_ok handler iterate (λ _ w, reading fd (app w)) fd w1) as (ms & w' & E & Hok' & [Hout Hin] & Hre);
    [apply reading_about_rest|apply attentive_reading| |by apply take_read|done|].
  { destruct w as [k l s]. by apply (ok_app [] k l s). }
  exists w'. do 2 (split; [done|]). intros fd'. split; [|done].
  destruct (decide (fd' = fd)) as [->|Hne]; [|by apply Hin]. intros x Hx Hv. left. by apply (Hre x).
Qed.

Lemma write_task fd q w :
  ok [] w → masked (app w) → w_tp (app w) = WriteTask fd :: q →
  ∃ w', perform handler iterate (Writing fd) (set_app (set_w_tp q (app w)) w) = Ret tt w' ∧
        ok [] w' ∧ masked (app w').
Proof.
  intros Hok Ha Hq. set (w1 := set_app _ w).
  destruct (write_ok fd w1) as (w' & E & Hok' & Hw).
  { destruct w as [k l s]. by apply (ok_app [] k l s). }
  exists w'. do 2 (split; [done|]). apply (written_attends fd _ _ Hw); [intros fd'; exact (proj1 (Ha fd'))|].
  intros fd' Hne y Hy Hv Hb. destruct (proj2 (Ha fd') y Hy Hv Hb) as [He|Ht]; [by left|right].
  cbn. rewrite Hq in Ht. apply elem_of_cons in Ht as [[= ->]|Ht]; done.
Qed.

(** The masks, whatever step is taken. *)
Lemma task_masked w w' :
  ok [] w → masked (app w) → task_step w w' → ok [] w' ∧ masked (app w').
Proof.
  intros Hok Ha Hs. destruct Hs as [a w w1 w' Hq Hal E|w k _]; [|split; [destruct w; by eapply ok_kern|done]].
  destruct a as [fd|fd|fd|u m fd| |]; cbn [from_queue] in Hq.
  - destruct Hq as (Hn & _ & _ & ->). cbn [perform] in E. split; [|by apply (add_attends fd w)].
    destruct (add_ok [] fd w Hok) as (w2 & E2 & Hok2); [constructor|]. rewrite E in E2. by injection E2 as <-.
  - destruct Hq as (q & Hq & ->). destruct (read_task fd q w Hok Ha Hq Hal) as (w2 & E2 & H2).
    rewrite E in E2. by injection E2 as <-.
  - destruct Hq as (q & Hq & ->). destruct (write_task fd q w Hok Ha Hq) as (w2 & E2 & H2).
    rewrite E in E2. by injection E2 as <-.
  - subst w1. destruct Hal as [Hu Hm].
    destruct (send_attends [] u m fd w) as (w2 & E2 & Hok2 & _ & _ & Hin & Hout); [done|constructor|done|done|].
    cbn [perform] in E. rewrite E in E2. injection E2 as <-. split; [done|].
    intros fd'. destruct (Ha fd'). auto.
  - subst w1. cbn [perform] in E. split; [|by apply (process_batch_attends w)].
    destruct (process_batch_ok w Hwb Hok) as (w2 & E2 & Hok2). rewrite E in E2. by injection E2 as <-.
  - subst w1. cbn [perform] in E. split; [|by apply (reap_attends iterate w)].
    destruct (reap_run (λ _, True) 0 (2 ^ 60) (λ _, True)) with (iterate := iterate) (w := w)
      as (zv & w2 & E2 & Hok2 & _); try done; [intros k _; pose proof (now_range k); lia|].
    rewrite E in E2. by injection E2 as <-.
Qed.

(** What epoll waits for, whatever step is taken. *)
Lemma task_in_step e w w' : ok [] w → in_step e w → task_step w w' → in_step e w'.
Proof.
  intros Hok Hi Hs. destruct Hs as [a w w1 w' Hq Hal E|w k Hk].
  - destruct a as [fd|fd|fd|u m fd| |]; cbn [from_queue] in Hq.
    + destruct Hq as (_ & Hw & Hv & ->). rewrite (proj1 Hi) in Hw. by apply (in_step_add e fd w).
    + destruct Hq as (q & _ & ->). eapply (kept_read_op e handler); [intros; apply attentive_step|exact E|].
      revert Hi. by apply in_step_same.
    + destruct Hq as (q & _ & ->). eapply kept_write_op; [exact E|]. revert Hi. by apply in_step_same.
    + subst w1. by eapply kept_send_msg.
    + subst w1. by eapply kept_batch.
    + subst w1. by apply (in_step_reap e iterate w).
  - destruct Hi as [He Hs]. split; [done|]. intros fd Hfd Hz. destruct (Hs fd Hfd Hz) as [Hw Hv].
    cbn in Hw, Hv |- *. rewrite <-Hv. rewrite <-He in *. by apply Hk.
Qed.

Lemma tasks_attend e w w' :
  ok [] w → masked (app w) → in_step e w → rtc task_step w w' → ok [] w' ∧ masked (app w') ∧ in_step e w'.
Proof.
  intros Hok Ha Hi Hr. induction Hr as [|w w1 w2 Hs _ IH]; [done|].
  pose proof (task_in_step e w w1 Hok Hi Hs). destruct (task_masked w w1 Hok Ha Hs). auto.
Qed.
End tasks.

(** A server that has no connection yet. *)
Lemma new_masked {K} (w : world K server) : rrm (app w) = ∅ → wrm (app w) = ∅ → masked (app w).
Proof. intros Hr Hw fd. split; intros x Hx; [rewrite Hr in Hx|rewrite Hw in Hx]; done. Qed.

Lemma new_in_step {K} `{EpollKernel K} (w : world K server) :
  rrm (app w) = ∅ → wrm (app w) = ∅ → in_step (ep_sfd (app w)) w.
Proof. intros Hr Hw. split; [done|]. intros fd [Hf|Hf]; [rewrite Hr in Hf|rewrite Hw in Hf]; by destruct Hf. Qed.

(** C8.  No connection is forgotten.  From a server without connections, whatever comes and
    whatever the threads do, in whole operations: for each valid connection that is not
    marked for death, epoll itself waits for input, or a reading task is queued; and if
    it has something to write, epoll waits for room, or a writing task is queued.  So when
    the queues are empty, epoll waits for everything that can still come; and a task
    that is taken from its queue returns.  What is assumed: epoll does what is documented
    of descriptors in its set, and the rest of the system takes no descriptor out of the
    set; a connection comes with a number that has no writer ([add] keeps an old writer and
    forgets that epoll was asked for its room), and no second event of it was handled between its
    registration with epoll and [add] (what happens then is [add_race]); messages are
    whole ([allowed]). *)
Theorem no_connection_forgotten {K : Type} `{EpollKernel K} handler `{!Attentive handler} iterate
    (w w' : world K server) :
  wait_bounded → (∀ m, iterate m ≡ₚ map_to_list m) →
  ok [] w → rrm (app w) = ∅ → wrm (app w) = ∅ → rtc (task_step handler iterate) w w' →
  attended w' ∧
  (r_tp (app w') = [] → w_tp (app w') = [] → ∀ fd, zm (app w') !! fd = None →
     (∀ x, rrm (app w') !! fd = Some x → r_is_valid x = true → awaits (ep_sfd (app w')) EPOLLIN fd (kern w')) ∧
     ∀ y, wrm (app w') !! fd = Some y → w_is_valid y = true → wbuffer (w_bw y) ≠ [] →
       awaits (ep_sfd (app w')) EPOLLOUT fd (kern w')) ∧
  (∀ fd w1, from_queue (Reading fd) w' w1 → allowed (Reading fd) w1 →
     ∃ w2, perform handler iterate (Reading fd) w1 = Ret tt w2) ∧
  (∀ fd w1, from_queue (Writing fd) w' w1 → ∃ w2, perform handler iterate (Writing fd) w1 = Ret tt w2).
Proof.
  intros Hwb Hit Hok Hr Hw Hs.
  destruct (tasks_attend handler iterate Hwb Hit (ep_sfd (app w)) w w') as (Hok' & Ha & Hi);
    [done|by apply new_masked|by apply new_in_step|done|].
  pose proof (masked_attended _ _ Ha Hi) as Hat. split_and!; [done| | |].
  - intros Er Ew fd Hz. destruct (Hat fd Hz) as [Hin Hout]. split.
    + intros x Hx Hv. destruct (Hin x Hx Hv) as [|Ht]; [done|]. rewrite Er in Ht. by apply not_elem_of_nil in Ht.
    + intros y Hy Hv Hb. destruct (Hout y Hy Hv Hb) as [|Ht]; [done|]. rewrite Ew in Ht. by apply not_elem_of_nil in Ht.
  - intros fd w1 (q & Hq & ->) Hal. destruct (read_task handler iterate fd q w' Hok' Ha Hq Hal) as (w2 & E & _). by exists w2.
  - intros fd w1 (q & Hq & ->). destruct (write_task handler iterate fd q w' Hok' Ha Hq) as (w2 & E & _). by exists w2.
Qed.

(** A server that listens on 3, with the set 4 of epoll, and has no connection yet. *)
Definition empty_world (k : sim) : world sim server :=
  World k (LockState [] ∅ 0 []) (Server ∅ ∅ ∅ ∅ 3 8080 4 [] [] []).

Lemma empty_ok k : ok [] (empty_world k).
Proof.
  split; [done|constructor|]. split; cbn; by intros *; rewrite ?lookup_empty.
Qed.

(** A connection comes, then a message; its event is handled, and the reading task runs.
    The answer is waiting, and epoll waits for room. *)
Lemma no_connection_forgotten_witness :
  let k := set_watched {[7 := 1]}
             (set_batches [[(7, 1)]] (set_inq {[7 := wire [(sample_id, str "hello")]]} sim_empty)) in
  ∃ w', rtc (task_step sserver_handler to_list) (empty_world k) w' ∧ r_tp (app w') = [] ∧
        attended w' ∧ awaits 4 EPOLLOUT 7 (kern w').
Proof.
  intros k. set (w0 := empty_world k).
  set (w1 := match add 7 w0 with Ret _ w => w | _ => w0 end).
  set (w2 := match process_batch w1 with Ret _ w => w | _ => w1 end).
  set (w3 := set_app (set_r_tp [] (app w2)) w2).
  set (w' := match perform sserver_handler to_list (Reading 7) w3 with Ret _ w => w | _ => w3 end).
  assert (rtc (task_step sserver_handler to_list) w0 w') as Hr.
  { apply (rtc_l _ _ w1); [|apply (rtc_l _ _ w2); [|apply rtc_once]].
    - apply (task_action _ _ (Accepted 7) _ w0); [|exact I|vm_compute; reflexivity].
      split_and!; [reflexivity|split_and!; [by eexists|reflexivity|apply not_elem_of_nil]|reflexivity|reflexivity].
    - apply (task_action _ _ Events _ w1); [reflexivity|exact I|vm_compute; reflexivity].
    - apply (task_action _ _ (Reading 7) _ w3); [exists []; split; vm_compute; reflexivity| |vm_compute; reflexivity].
      intros x Hx. vm_compute in Hx. injection Hx as <-. vm_compute.
      split; [reflexivity|repeat constructor; discriminate]. }
  exists w'. split; [exact Hr|]. split; [vm_compute; reflexivity|].
  destruct (no_connection_forgotten sserver_handler to_list w0 w') as (Ha & He & _).
  - apply sim_wait_bounded.
  - intros m. reflexivity.
  - apply empty_ok.
  - reflexivity.
  - reflexivity.
  - exact Hr.
  - split; [exact Ha|].
    refine (proj2 (He _ _ 7 _) (MkWriteR (MkBufferedWriter (frame_of sample_id (str "no way bro"))) 1 true) _ _ _);
      vm_compute; [reflexivity..|discriminate].
Defined.

(** ** Events that come before [add]

    [accept_conn] registers a new descriptor with epoll and then calls [add]; the loop of
    events and the reading threads do not wait for that. *)
Section early.
Context {K : Type} `{EpollKernel K}.
Context (handler : bytes → bytes → Z → M (world K server) unit).

(** A reading thread takes the first task of its queue and runs it. *)
Definition take_task : M (world K server) unit :=
  q ← get r_tp;
  match q with
  | ReadTask fd :: q' => put (set_r_tp q');; read handler 1 fd
  | _ => mret tt
  end.

(** Input is reported, and its task is run. *)
Definition early_event (fd : Z) : M (world K server) unit := handle_event (fd, EPOLLIN);; take_task.

(** Nothing is known of the connection yet. *)
Record unknown (fd : Z) (w : world K server) : Prop := {
  unknown_ok : ok [] w;
  unknown_listen : fd ≠ i_sfd (app w);
  unknown_reader : rrm (app w) !! fd = None;
  unknown_tasks : r_tp (app w) = [];
  unknown_watched : watching (ep_sfd (app w)) fd (kern w)
}.

Lemma early_event_run fd w :
  unknown fd w →
  let v := Z.lxor (get0 (sfd_events (app w)) fd) EPOLLIN in
  ∃ w', early_event fd w = Ret tt w' ∧ unknown fd w' ∧ ep_sfd (app w') = ep_sfd (app w) ∧
        get0 (sfd_events (app w')) fd = v ∧ interest fd (kern w') = v.
Proof.
  intros [Hok Hl Hr Ht Hw] v. destruct w as [k l s]. cbn in *.
  assert (∀ m, m ∉ held l) as Hh by (intros m; apply (ok_unheld _ m Hok)).
  set (s1 := set_sfd_events (<[fd := v]> (sfd_events s)) s).
  set (k1 := (sys_epoll_mod (ep_sfd s) fd v k).2).
  assert (handle_event (fd, EPOLLIN) (World k l s) = Ret tt (World k1 (traced E_mutex l) (set_r_tp [ReadTask fd] s1))) as E1.
  { unfold handle_event. change (has EPOLLIN EPOLLERR || has EPOLLIN EPOLLHUP) with false. cbn iota. srun.
    rewrite (proj2 (Z.eqb_neq _ _) Hl). change (has EPOLLIN EPOLLIN) with true. change (has EPOLLIN EPOLLOUT) with false.
    cbn iota. run_with (read_callback_run fd k l s (Hh _)). by rewrite Ht. }
  assert (take_task (World k1 (traced E_mutex l) (set_r_tp [ReadTask fd] s1)) =
          Ret tt (World k1 (traced R_mutex (traced E_mutex l)) (set_r_tp [] s1))) as E2.
  { unfold take_task. srun. cbn [r_tp set_r_tp]. srun. rewrite read_split by apply (Hh R_mutex).
    erewrite bind_run by (apply read_find_run, (Hh R_mutex)). cbn. by rewrite Hr. }
  eexists. split; [unfold early_event; run_with E1; exact E2|]. cbn. split_and!; [|done| |].
  - split; cbn; [|done..|by apply mod_watching].
    apply (ok_traced [] R_mutex k1 k1 (traced E_mutex l) s1); [|constructor|done|done].
    by apply (ok_traced [] E_mutex k k1 l s); [|constructor|..].
  - unfold get0. by rewrite lookup_insert_eq.
  - pose proof (mod_watched (ep_sfd s) fd v k Hw) as Hm. unfold k1.
    destruct (sys_epoll_mod (ep_sfd s) fd v k) as [r k'] eqn:Em. cbn in Hm. subst r. by eapply mod_interest.
Qed.

(** The connection becomes known. *)
Lemma late_add_run fd w :
  unknown fd w →
  ∃ w' x, add fd w = Ret tt w' ∧ kern w' = kern w ∧ ep_sfd (app w') = ep_sfd (app w) ∧ r_tp (app w') = [] ∧
          rrm (app w') !! fd = Some x ∧ r_is_valid x = true ∧ get0 (sfd_events (app w')) fd = EPOLLIN.
Proof.
  intros [Hok _ Hr Ht _]. destruct w as [k l s]. rewrite add_run by apply (ok_unheld _ _ Hok). do 2 eexists.
  split; [done|]. cbn in *. unfold emplace, get0. rewrite Hr, !lookup_insert_eq. by split_and!.
Qed.
End early.

(** C38.  How a connection is forgotten: the race between registering a descriptor with epoll
    and [add].  If one event of a new connection is handled before [add] runs, all is
    well: epoll waits for input.  If two are (input that is there is reported by every
    [epoll_wait] until it is read, and the reading tasks find no reader yet), the bits
    that they switch leave epoll with no interest at all, while [add] writes the mask
    as if it had: the reader is valid, no task is queued, and epoll does not wait for
    input.  The input is not read, unless something is sent to the connection and its mask
    is written again. *)
Theorem add_race {K : Type} `{EpollKernel K} handler fd (w : world K server) :
  unknown fd w → sfd_events (app w) !! fd = None →
  (∃ w1, (early_event handler fd;; add fd) w = Ret tt w1 ∧ awaits (ep_sfd (app w1)) EPOLLIN fd (kern w1)) ∧
  ∃ w2, (early_event handler fd;; early_event handler fd;; add fd) w = Ret tt w2 ∧
        get0 (sfd_events (app w2)) fd = EPOLLIN ∧ interest fd (kern w2) = 0 ∧ ¬ attended_in w2 fd.
Proof.
  intros Hu Hn. destruct (early_event_run handler fd w Hu) as (w1 & E1 & Hu1 & Hep1 & Hg1 & Hi1).
  assert (get0 (sfd_events (app w)) fd = 0) as Hz by (unfold get0; by rewrite Hn). rewrite Hz in Hg1, Hi1. split.
  - destruct (late_add_run fd w1 Hu1) as (w' & x & E & Hk & Hep & _). exists w'. split; [by run_with E1|].
    rewrite Hep, Hk. split; [apply Hu1|by rewrite Hi1].
  - destruct (early_event_run handler fd w1 Hu1) as (w2 & E2 & Hu2 & Hep2 & Hg2 & Hi2). rewrite Hg1 in Hi2.
    destruct (late_add_run fd w2 Hu2) as (w' & x & E & Hk & Hep & Ht & Hx & Hv & Hm). exists w'.
    split; [run_with E1; by run_with E2|]. rewrite Hk. split_and!; [done|exact Hi2|]. intros Ha.
    destruct (Ha x Hx Hv) as [[_ Hb]|Hb]; [|rewrite Ht in Hb; by apply not_elem_of_nil in Hb].
    by rewrite Hk, Hi2 in Hb.
Qed.

Lemma add_race_witness :
  unknown 7 (empty_world (set_watched {[7 := 1]} sim_empty)) ∧
  ∃ w2, (early_event sserver_handler 7;; early_event sserver_handler 7;; add 7)
          (empty_world (set_watched {[7 := 1]} sim_empty)) = Ret tt w2 ∧ interest 7 (kern w2) = 0.
Proof.
  assert (unknown 7 (empty_world (set_watched {[7 := 1]} sim_empty))) as Hu.
  { split; [apply empty_ok|discriminate|reflexivity|reflexivity|].
    split_and!; [by eexists|reflexivity|apply not_elem_of_nil]. }
  split; [exact Hu|]. destruct (add_race sserver_handler 7 _ Hu eq_refl) as [_ (w2 & E & _ & Hi & _)]. exists w2. split; [exact E|exact Hi].
Defined.
