(* ===== verification/ServerThreads.v ===== *)
(** * The server's threads inside its operations

    [ServerProofs] takes each member function of the server as one step.  Here the
    functions are cut at their mutexes and system calls: between two points of a function
    any other thread may run, and a thread keeps its mutexes from point to point.  The
    loops that read a socket into a buffer and write a buffer to a socket are cut at each
    turn; a message that is complete is handed to the handler, whose calls of [send_msg]
    run through points of their own, under the mutex of the reader.  The file has the
    points, what each needs of the mutexes that its thread holds ([needs]) and what it
    refers to ([good]), and that each returns from a well-formed state, leaves one, and
    takes mutexes only on top of those that are held ([section_ok]). *)

From stdpp Require Import relations.
From S2P Require Import Prelude Utils BufferedReader BufferedWriter Kernel Simulation SocketUtils.
From S2P Require Import Threads SocketServer ServerProofs ServerTheorems.

(** ** The points of the member functions

    The first three groups are [add], [read] and [write]; [p] and [q] are the mutexes of
    the entries that were found. *)
Inductive point :=
  | PAdd (fd : Z) | PAddWriter (fd : Z) | PAddEvents (fd : Z)
  | PRead (fd : Z) | PReadLock (fd : Z) (p : nat) | PReadCheck (fd : Z) (p : nat) | PReadSome (fd : Z) (p : nat)
  | PFeed (fd : Z) (p : nat) (data : bytes) | PFeedClear (fd : Z) (p : nat)
  | PReadInvalid (fd : Z) (p : nat) | PReadUnlock (fd : Z) (p : nat)
  | PWrite (fd : Z) | PWriteLock (fd : Z) (q : nat) | PWriteCheck (fd : Z) (q : nat) | PWriteSome (fd : Z) (q : nat)
  | PWriteInvalid (fd : Z) (q : nat) | PWriteUnlock (fd : Z) (q : nat)
  | PSend (uuid_v msg_v : bytes) (fd : Z) | PSendLock (f : bytes) (mfs fd : Z) (q : nat)
  | PSendBody (f : bytes) (mfs fd : Z) (q : nat) | PSendUnlock (fd : Z) (q : nat)
  | PArm (bit fd : Z) | PZombie (fd : Z)
  | PPoll | PEvent (ev : Z * Z) | PClose (fd : Z) | PDisarm (bit fd : Z) | PPush (t : task)
  | PReap | PScan (entries : list (Z * Z)) (zv : list Z) | PCleanReader (fd : Z) | PCleanWriter (fd : Z)
  | PCleanEvents (fd : Z) | PErase (zv : list Z).

Section server_threads.
Context {K : Type} `{SocketKernel K}.
Abbreviation Mw := (M (world K server)).

(** The handler is given by the messages that it sends, with [send_msg]: for an
    identifier, a message and a descriptor, each with its identifier and descriptor. *)
Context (sends : bytes → bytes → Z → list (bytes * bytes * Z)) (iterate : gmap Z Z → list (Z * Z)).

(** A pointer to an entry: it dangles when the entry is gone or is another one. *)
Definition found_reader (fd : Z) (p : nat) : Mw (ReadR Z) :=
  rr ← load (in_app (rr_ref fd)); if negb (r_mutex rr =? p)%nat then undef else mret rr.

Definition found_writer (fd : Z) (q : nat) : Mw WriteR :=
  wr ← load (in_app (wr_ref fd)); if negb (w_mutex wr =? q)%nat then undef else mret wr.

Definition push_task (t : task) : Mw unit :=
  put (λ s, match t with
            | AddTask => set_a_tp (a_tp s ++ [AddTask]) s
            | ReadTask fd => set_r_tp (r_tp s ++ [ReadTask fd]) s
            | WriteTask fd => set_w_tp (w_tp s ++ [WriteTask fd]) s
            end).

(** [add] *)
Definition add_reader (nsfd : Z) : Mw unit :=
  lock R_mutex;;
  p ← new_mutex;
  m ← get rrm;
  put (set_rrm (emplace nsfd (MkReadR (BufferedReader_new EOT nsfd) p true) m));;
  unlock R_mutex.

Definition add_writer (nsfd : Z) : Mw unit :=
  lock W_mutex;;
  p ← new_mutex;
  m ← get wrm;
  put (set_wrm (emplace nsfd (MkWriteR BufferedWriter_new p true) m));;
  unlock W_mutex.

Definition add_events (nsfd : Z) : Mw unit :=
  lock E_mutex;;
  m ← get sfd_events;
  put (set_sfd_events (<[nsfd := EPOLLIN]> m));;
  unlock E_mutex.

(** One turn of the loop of [read_from_sfd], with the entry locked. *)
Definition read_some_points (fd : Z) (p : nat) : Mw (list point) :=
  bytes_read ← syscall (sys_read fd 1024);
  mret match bytes_read with
       | SysErr errno => if errno =? EAGAIN then [PArm EPOLLIN fd] else [PReadInvalid fd p; PZombie fd]
       | SysOk r_buff =>
           if len r_buff =? 0 then [PReadInvalid fd p; PZombie fd] else [PFeed fd p r_buff; PReadSome fd p]
       end.

(** The loop of [BufferedReader::read] and the call back of [add], for the characters that
    are left: up to the handler's calls, or the next character. *)
Definition feed_points (fd : Z) (p : nat) (data : bytes) : Mw (list point) :=
  match data with
  | [] => mret []
  | c :: data' =>
      rr ← found_reader fd p;
      let br := r_br rr in
      d ← assume (del br);
      if negb (Ascii.eqb c d) then
        store (in_app (br_ref fd)) (set_buffer br (buffer br ++ [c]));; mret [PFeed fd p data']
      else
        match call_back br with
        | None => throw BadFunctionCall
        | Some nsfd =>
            let msg_frame := buffer br ++ [EOT] in
            '(uuid_v, msg_v) ← unpack_frame msg_frame (len msg_frame) [] [];
            mret (map (λ x, PSend x.1.1 x.1.2 x.2) (sends uuid_v msg_v nsfd) ++ [PFeedClear fd p; PFeed fd p data'])
        end
  end.

(** One turn of the loop of [write_to_sfd], with the entry locked. *)
Definition write_some_points (fd : Z) (q : nat) : Mw (list point) :=
  wr ← found_writer fd q;
  let writer := in_app (bw_ref fd) in
  n ← BufferedWriter.size writer;
  if 0 <? n then
    let b_size := if n <? 1024 then n else 1024 in
    r_buff ← iread writer (replicate (Z.to_nat b_size) NUL) b_size;
    r ← syscall (sys_write fd r_buff);
    match r with
    | SysErr errno => mret (if errno =? EAGAIN then [PArm EPOLLOUT fd] else [PWriteInvalid fd q; PZombie fd])
    | SysOk _ => clear writer b_size;; mret [PWriteSome fd q]
    end
  else mret [].

Definition send_body (f : bytes) (mfs fd : Z) (q : nat) : Mw unit :=
  wr ← found_writer fd q;
  if w_is_valid wr then BufferedWriter.write (in_app (bw_ref fd)) f mfs else mret tt.

(** The events of one entry of [e_events]. *)
Definition event_points (i fd events : Z) : list point :=
  if has events EPOLLERR || has events EPOLLHUP then [PZombie fd; PClose fd]
  else if fd =? i then [PPush AddTask]
  else
    (if has events EPOLLIN then [PDisarm EPOLLIN fd; PPush (ReadTask fd)] else []) ++
    (if has events EPOLLOUT then [PDisarm EPOLLOUT fd; PPush (WriteTask fd)] else []).

(** What happens at a point, and the points that come next. *)
Definition server_section (t : point) : Mw (list point) :=
  match t with
  | PAdd fd => add_reader fd;; mret [PAddWriter fd]
  | PAddWriter fd => add_writer fd;; mret [PAddEvents fd]
  | PAddEvents fd => add_events fd;; mret []
  | PRead fd =>
      f ← read_find fd;
      mret match f with Some p => [PReadLock fd p] | None => [] end
  | PReadLock fd p => rr ← found_reader fd p; lock (RR_mutex (r_mutex rr));; mret [PReadCheck fd p; PReadUnlock fd p]
  | PReadCheck fd p => rr ← found_reader fd p; mret (if r_is_valid rr then [PReadSome fd p] else [])
  | PReadSome fd p => read_some_points fd p
  | PFeed fd p data => feed_points fd p data
  | PFeedClear fd p => rr ← found_reader fd p; store (in_app (br_ref fd)) (set_buffer (r_br rr) []);; mret []
  | PReadInvalid fd p =>
      rr ← found_reader fd p; store (in_app (rr_ref fd)) (MkReadR (r_br rr) (r_mutex rr) false);; mret []
  | PReadUnlock fd p => rr ← found_reader fd p; unlock (RR_mutex (r_mutex rr));; mret []
  | PWrite fd =>
      f ← write_find fd;
      mret match f with Some q => [PWriteLock fd q] | None => [] end
  | PWriteLock fd q => wr ← found_writer fd q; lock (WR_mutex (w_mutex wr));; mret [PWriteCheck fd q; PWriteUnlock fd q]
  | PWriteCheck fd q => wr ← found_writer fd q; mret (if w_is_valid wr then [PWriteSome fd q] else [])
  | PWriteSome fd q => write_some_points fd q
  | PWriteInvalid fd q =>
      wr ← found_writer fd q; store (in_app (wr_ref fd)) (MkWriteR (w_bw wr) (w_mutex wr) false);; mret []
  | PWriteUnlock fd q => wr ← found_writer fd q; unlock (WR_mutex (w_mutex wr));; mret []
  | PSend uuid_v msg_v fd =>
      '(f, got) ← send_find uuid_v msg_v fd;
      mret match got with Some q => [PSendLock f (wrap 32 (37 + len msg_v + 1)) fd q] | None => [] end
  | PSendLock f mfs fd q =>
      wr ← found_writer fd q; lock (WR_mutex (w_mutex wr));; mret [PSendBody f mfs fd q; PSendUnlock fd q]
  | PSendBody f mfs fd q => send_body f mfs fd q;; mret []
  | PSendUnlock fd q => wr ← found_writer fd q; unlock (WR_mutex (w_mutex wr));; mret [PArm EPOLLOUT fd]
  | PArm bit fd => ep ← get ep_sfd; arm bit ep fd (in_app events_ref) E_mutex;; mret []
  | PZombie fd => a_zombied fd;; mret []
  | PPoll =>
      ep ← get ep_sfd;
      r ← syscall (sys_epoll_wait ep 64);
      mret match r with SysErr _ => [] | SysOk evs => map PEvent evs end
  | PEvent (fd, events) => i ← get i_sfd; mret (event_points i fd events)
  | PClose fd => close_fd fd;; mret []
  | PDisarm bit fd => disarm bit fd;; mret []
  | PPush t => push_task t;; mret []
  | PReap => lock Z_mutex;; m ← get zm; mret [PScan (iterate m) []]
  | PScan [] zv => mret [PErase zv]
  | PScan ((fd, t) :: entries) zv =>
      now ← epoch_millis;
      mret (if 60000 <? wrap 64 (now - t)
            then [PClose fd; PCleanReader fd; PCleanWriter fd; PCleanEvents fd; PScan entries (zv ++ [fd])]
            else [PScan entries zv])
  | PCleanReader fd => clean_rr fd;; mret []
  | PCleanWriter fd => clean_wr fd;; mret []
  | PCleanEvents fd => clean_events fd;; mret []
  | PErase zv => fold_m (λ zsfd _, m ← get zm; put (set_zm (delete zsfd m))) zv tt;; unlock Z_mutex;; mret []
  end.
End server_threads.

(** The points where the operations start: a connection, a reading and a writing task, a
    message to send, a round of the epoll loop, a round of the reaper. *)
Definition starts_operation (t : point) : Prop :=
  match t with
  | PAdd _ | PRead _ | PWrite _ | PSend _ _ _ | PPoll | PReap => True
  | _ => False
  end.

(** The handler of the program [sserver]. *)
Definition sserver_sends (uuid_v msg_v : bytes) (sfd : Z) : list (bytes * bytes * Z) :=
  [(uuid_v, str "no way bro", sfd)].

(** It is the one of [SocketServer]. *)
Lemma sserver_sends_handler {K} `{SocketKernel K} u m fd (w : world K server) :
  sserver_handler u m fd w = fold_m (λ x _, send_msg x.1.1 x.1.2 x.2) (sserver_sends u m fd) tt w.
Proof.
  unfold sserver_handler. cbn. change (send_msg u (str "no way bro") fd w = (send_msg u (str "no way bro") fd ≫= λ a, mret a) w).
  rewrite bind_unfold. by destruct (send_msg u (str "no way bro") fd w).
Qed.

(** The messages of a handler that gets whole messages are whole. *)
Class WholeReplies (sends : bytes → bytes → Z → list (bytes * bytes * Z)) : Prop :=
  replies_whole u m fd : whole (u, m) → Forall (λ x, whole x.1) (sends u m fd).

#[export] Instance sserver_replies : WholeReplies sserver_sends.
Proof. intros u m fd [Hu _]. by repeat constructor. Qed.

(** ** The invariant *)

(** The mutexes that a program has to let go of. *)
Definition owed (t : point) : list mutex :=
  match t with
  | PReadUnlock fd p => [RR_mutex p]
  | PWriteUnlock fd q | PSendUnlock fd q => [WR_mutex q]
  | PScan _ _ | PErase _ => [Z_mutex]
  | _ => []
  end.

Definition holds (l : list point) : list mutex := l ≫= owed.

(** What a point needs of the mutexes that the points after it still have to let go of:
    the mutex of the entry that it works on is the only one there is, or the latest; or
    those that it takes come after all others. *)
Definition needs (t : point) (hs : list mutex) : Prop :=
  match t with
  | PReadCheck _ p | PReadSome _ p | PFeed _ p _ | PFeedClear _ p | PReadInvalid _ p => hs = [RR_mutex p]
  | PWriteCheck _ q | PWriteSome _ q | PWriteInvalid _ q => hs = [WR_mutex q]
  | PSend _ _ _ => below server_rank (WR_mutex 0) hs
  | PSendLock _ _ _ q | PSendUnlock _ q => below server_rank (WR_mutex q) hs
  | PSendBody _ _ _ q => head hs = Some (WR_mutex q)
  | PArm _ _ => below server_rank E_mutex hs
  | PZombie _ => below server_rank Z_mutex hs
  | PClose _ => True
  | PCleanReader _ | PCleanWriter _ | PCleanEvents _ => hs = [Z_mutex]
  | _ => hs = []
  end.

(** The entry that a point has found. *)
Definition finds_reader (t : point) : option (Z * nat) :=
  match t with
  | PReadLock fd p | PReadCheck fd p | PReadSome fd p | PFeed fd p _ | PFeedClear fd p | PReadInvalid fd p
  | PReadUnlock fd p => Some (fd, p)
  | _ => None
  end.

Definition finds_writer (t : point) : option (Z * nat) :=
  match t with
  | PWriteLock fd q | PWriteCheck fd q | PWriteSome fd q | PWriteInvalid fd q | PWriteUnlock fd q
  | PSendLock _ _ fd q | PSendBody _ _ fd q | PSendUnlock fd q => Some (fd, q)
  | _ => None
  end.

Definition finds_nothing (t : point) : Prop := finds_reader t = None ∧ finds_writer t = None.

(** The points of the reaper, in whose programs no entry is ever found. *)
Definition reaping (t : point) : Prop :=
  match t with
  | PReap | PScan _ _ | PCleanReader _ | PCleanWriter _ | PCleanEvents _ | PErase _ => True
  | _ => False
  end.

#[export] Instance reaping_dec t : Decision (reaping t).
Proof. destruct t; cbn; apply _. Defined.

(** Programs whose points have what they need. *)
Fixpoint fits (l : list point) : Prop :=
  match l with
  | [] => True
  | t :: rest => needs t (holds rest) ∧ (reaping t → Forall finds_nothing rest) ∧ fits rest
  end.

(** The mutex that protects what a point uses of an entry. *)
Definition uses (t : point) : option mutex :=
  match t with
  | PReadCheck _ p | PReadSome _ p | PFeed _ p _ | PFeedClear _ p | PReadInvalid _ p => Some (RR_mutex p)
  | PWriteCheck _ q | PWriteSome _ q | PWriteInvalid _ q | PSendBody _ _ _ q => Some (WR_mutex q)
  | _ => None
  end.

Lemma uses_held t rest m : fits (t :: rest) → uses t = Some m → m ∈ holds (t :: rest).
Proof.
  intros [Hn _] Hu. unfold holds. cbn [mbind list_bind]. apply elem_of_app. right. fold (holds rest).
  destruct t; try done; cbn in Hn, Hu; injection Hu as <-; try (rewrite Hn; by left).
  destruct (holds rest); [done|]. injection Hn as ->. by left.
Qed.

(** The messages that are on their way have the lengths they are said to have. *)
Definition carries (t : point) : Prop :=
  match t with
  | PSend uuid_v msg_v _ => whole (uuid_v, msg_v)
  | PSendLock f mfs _ _ | PSendBody f mfs _ _ => mfs = len f ∧ len f < 2 ^ 32
  | _ => True
  end.

(** What was found is still there. *)
Definition good (s : server) (t : point) : Prop :=
  (∀ fd p, finds_reader t = Some (fd, p) → r_mutex <$> rrm s !! fd = Some p) ∧
  (∀ fd q, finds_writer t = Some (fd, q) → w_mutex <$> wrm s !! fd = Some q) ∧
  carries t.

(** A point takes no entry away but the one that it is there to clean. *)
Definition spares (t : point) (s s' : server) : Prop :=
  (∀ fd p, t ≠ PCleanReader fd → r_mutex <$> rrm s !! fd = Some p → r_mutex <$> rrm s' !! fd = Some p) ∧
  (∀ fd q, t ≠ PCleanWriter fd → w_mutex <$> wrm s !! fd = Some q → w_mutex <$> wrm s' !! fd = Some q).

Lemma spares_same t s s' : rrm s' = rrm s → wrm s' = wrm s → spares t s s'.
Proof. intros E1 E2. split; intros fd p _; by rewrite ?E1, ?E2. Qed.

Lemma good_spared t t' s s' :
  spares t s s' →
  (∀ fd, t = PCleanReader fd → ∀ p, finds_reader t' ≠ Some (fd, p)) →
  (∀ fd, t = PCleanWriter fd → ∀ q, finds_writer t' ≠ Some (fd, q)) →
  good s t' → good s' t'.
Proof.
  intros [HR HW] Hr Hw (H1 & H2 & H3). split_and!; [| |done].
  - intros fd p Hf. apply HR; [|by apply H1]. intros E. by destruct (Hr fd E p).
  - intros fd q Hf. apply HW; [|by apply H2]. intros E. by destruct (Hw fd E q).
Qed.

(** Points that refer to nothing. *)
Lemma good_nothing s t : finds_nothing t → carries t → good s t.
Proof. intros [H1 H2] H3. split_and!; [by rewrite H1|by rewrite H2|done]. Qed.

Lemma good_reader s t fd x :
  finds_reader t = Some (fd, r_mutex x) → finds_writer t = None → carries t → rrm s !! fd = Some x → good s t.
Proof.
  intros H1 H2 H3 Hx. split_and!; [|by rewrite H2|done]. rewrite H1. intros ? ? [= <- <-]. by rewrite Hx.
Qed.

Lemma good_writer s t fd y :
  finds_writer t = Some (fd, w_mutex y) → finds_reader t = None → carries t → wrm s !! fd = Some y → good s t.
Proof.
  intros H1 H2 H3 Hy. split_and!; [by rewrite H2| |done]. rewrite H1. intros ? ? [= <- <-]. by rewrite Hy.
Qed.

Lemma holds_app l1 l2 : holds (l1 ++ l2) = holds l1 ++ holds l2.
Proof. apply bind_app. Qed.

(** Points that hold nothing, pushed before the rest. *)
Definition free (hs : list mutex) (t : point) : Prop := owed t = [] ∧ needs t hs ∧ ¬ reaping t.

Lemma free_holds hs ts : Forall (free hs) ts → holds ts = [].
Proof. induction 1 as [|t ts [Ht _] _ IH]; [done|]. unfold holds in *. cbn. by rewrite Ht, IH. Qed.

Lemma free_fits ts rest : Forall (free (holds rest)) ts → fits rest → fits (ts ++ rest).
Proof.
  intros Hf Hr. induction Hf as [|t ts (H1 & H2 & H3) Hts IH]; [done|]. cbn [app fits].
  split_and!; [|by intros|done]. by rewrite holds_app, (free_holds _ _ Hts), app_nil_l.
Qed.

(** A thread sees its own mutexes, and the state the others have left. *)
Lemma ok_as_thread {K} hs (w : world K server) : ok [] w → ok hs (as_thread hs w).
Proof. intros [H1 H2 H3]. split; [done|done|]. by apply (wf_mono (locks w)). Qed.

Lemma ok_as_nobody {K} hs (w : world K server) : ok hs w → ok [] (as_thread [] w).
Proof. intros [H1 H2 H3]. split; [done|done|]. by apply (wf_mono (locks w)). Qed.

(** ** The points, one by one *)
Section sections.
Context {K : Type} `{SocketKernel K}.
Implicit Types (k : K) (l : lockstate) (s : server) (w : world K server).

(** What holds after the point [t], with [rest] still to follow. *)
Record after (t : point) (rest : list point) w (ts' : list point) w' : Prop := {
  after_ok : ok (holds (ts' ++ rest)) w';
  after_fits : fits (ts' ++ rest);
  after_good : Forall (good (app w')) ts';
  after_spares : spares t (app w) (app w');
  after_taken : taken_upon (holds (t :: rest)) w w';
  after_owns x : x ∈ holds (ts' ++ rest) → x ∈ holds (t :: rest) ∨ x ∈ taken w w'
}.

Lemma holds_cons t rest : holds (t :: rest) = owed t ++ holds rest.
Proof. done. Qed.

(** A point that holds nothing, and leaves points that hold nothing. *)
Lemma after_free t rest w ts' w' :
  owed t = [] → Forall (free (holds rest)) ts' → fits rest → ok (holds rest) w' →
  Forall (good (app w')) ts' → spares t (app w) (app w') → taken_upon (holds rest) w w' → after t rest w ts' w'.
Proof.
  intros Ht Hf Hr Hok Hg Hs Hu. assert (holds (ts' ++ rest) = holds rest) as E
    by (by rewrite holds_app, (free_holds _ _ Hf)).
  split; rewrite ?E, ?holds_cons, ?Ht, ?app_nil_l; [done|by apply free_fits|done|done|done|by left].
Qed.

(** Nothing changes but the kernel. *)
Lemma after_kern t rest k l s k' ts' :
  owed t = [] → Forall (free (holds rest)) ts' → fits rest → ok (holds rest) (World k l s) →
  Forall (good s) ts' → after t rest (World k l s) ts' (World k' l s).
Proof.
  intros Ht Hf Hr Hok Hg.
  apply after_free; [done|done|done|by eapply ok_kern|done|by apply spares_same|by apply nothing_taken].
Qed.

(** A mutex is taken and let go of, and no entry is touched. *)
Lemma after_traced t rest m k l s k' s' ts' :
  owed t = [] → Forall (free (holds rest)) ts' → fits rest → ok (holds rest) (World k l s) →
  below server_rank m (holds rest) → rrm s' = rrm s → wrm s' = wrm s → Forall (good s') ts' →
  after t rest (World k l s) ts' (World k' (traced m l) s').
Proof.
  intros Ht Hf Hr Hok Hb E1 E2 Hg.
  apply after_free; [done|done|done|by apply (ok_traced _ _ k _ l s)|done|by apply spares_same|].
  apply (taken_once _ m); [done|]. exact (ok_held _ _ Hok).
Qed.

(** An entry is changed, but not its mutex. *)
Lemma ok_reader hs k k' l s fd x x' b :
  ok hs (World k l s) → rrm s !! fd = Some x → r_mutex x' = r_mutex x →
  r_br x' = MkBufferedReader b (Some EOT) (Some fd) → EOT ∉ b →
  ok hs (World k' l (set_rrm (<[fd := x']> (rrm s)) s)).
Proof. intros [H1 H2 H3] Hx Hm Hb Hn. split; [done|done|]. cbn. by eapply wf_update_rr. Qed.

Lemma ok_writer hs k k' l s fd y y' :
  ok hs (World k l s) → wrm s !! fd = Some y → w_mutex y' = w_mutex y →
  ok hs (World k' l (set_wrm (<[fd := y']> (wrm s)) s)).
Proof. intros [H1 H2 H3] Hy Hm. split; [done|done|]. cbn. by eapply wf_update_wr. Qed.

Lemma spares_reader t fd x x' s :
  rrm s !! fd = Some x → r_mutex x' = r_mutex x → spares t s (set_rrm (<[fd := x']> (rrm s)) s).
Proof.
  intros Hx Hm. split; [|done]. intros fd' p _. cbn. destruct (decide (fd' = fd)) as [->|Hne].
  - by rewrite Hx, lookup_insert_eq; cbn; rewrite Hm.
  - by rewrite lookup_insert_ne.
Qed.

Lemma spares_writer t fd y y' s :
  wrm s !! fd = Some y → w_mutex y' = w_mutex y → spares t s (set_wrm (<[fd := y']> (wrm s)) s).
Proof.
  intros Hy Hm. split; [done|]. intros fd' q _. cbn. destruct (decide (fd' = fd)) as [->|Hne].
  - by rewrite Hy, lookup_insert_eq; cbn; rewrite Hm.
  - by rewrite lookup_insert_ne.
Qed.

Lemma after_reader t rest k k' l s fd x x' b ts' :
  owed t = [] → Forall (free (holds rest)) ts' → fits rest → ok (holds rest) (World k l s) →
  rrm s !! fd = Some x → r_mutex x' = r_mutex x → r_br x' = MkBufferedReader b (Some EOT) (Some fd) → EOT ∉ b →
  Forall (good (set_rrm (<[fd := x']> (rrm s)) s)) ts' →
  after t rest (World k l s) ts' (World k' l (set_rrm (<[fd := x']> (rrm s)) s)).
Proof.
  intros Ht Hf Hr Hok Hx Hm Hb Hn Hg.
  apply after_free; [done|done|done|by eapply ok_reader|done|by eapply spares_reader|by apply nothing_taken].
Qed.

Lemma after_writer t rest k k' l s fd y y' ts' :
  owed t = [] → Forall (free (holds rest)) ts' → fits rest → ok (holds rest) (World k l s) →
  wrm s !! fd = Some y → w_mutex y' = w_mutex y →
  Forall (good (set_wrm (<[fd := y']> (wrm s)) s)) ts' →
  after t rest (World k l s) ts' (World k' l (set_wrm (<[fd := y']> (wrm s)) s)).
Proof.
  intros Ht Hf Hr Hok Hy Hm Hg.
  apply after_free; [done|done|done|by eapply ok_writer|done|by eapply spares_writer|by apply nothing_taken].
Qed.

(** A mutex is taken, for the points that come next, the last of which lets go of it. *)
Lemma after_acquired t rest m ts t' k l s :
  owed t = [] → ok (holds rest) (World k l s) → below server_rank m (holds rest) → fits rest →
  owed t' = [m] → needs t' (holds rest) → (reaping t' → Forall finds_nothing rest) →
  Forall (free (m :: holds rest)) ts → Forall (good s) (ts ++ [t']) →
  after t rest (World k l s) (ts ++ [t']) (World k (acquire m l) s).
Proof.
  intros Ht Hok Hb Hr Ho Hn Hre Hf Hg. assert (holds (t' :: rest) = m :: holds rest) as E by (by rewrite holds_cons, Ho).
  assert (holds ((ts ++ [t']) ++ rest) = m :: holds rest) as E'.
  { by rewrite <-app_assoc, holds_app, (free_holds _ _ Hf), app_nil_l. }
  split; rewrite ?E'; [by apply ok_acquire| |done|by apply spares_same| |].
  - rewrite <-app_assoc. change ([t'] ++ rest) with (t' :: rest). apply free_fits; [by rewrite E|]. by split_and!.
  - rewrite holds_cons, Ht, app_nil_l. apply (taken_once _ m); [done|exact (ok_held _ _ Hok)].
  - intros x [->|Hx]%elem_of_cons; [right|left; by rewrite holds_cons, Ht]. unfold taken. cbn.
    rewrite drop_app_length. by left.
Qed.

(** The mutex of the point is let go of. *)
Lemma after_released t rest m ts' k l s s' :
  owed t = [m] → ok (holds (t :: rest)) (World k l s) → fits rest → Forall (free (holds rest)) ts' →
  Forall (good s') ts' → rrm s' = rrm s → wrm s' = wrm s →
  after t rest (World k l s) ts' (World k (release l) s').
Proof.
  intros Ht Hok Hr Hf Hg E1 E2. rewrite holds_cons, Ht in Hok.
  assert (holds (ts' ++ rest) = holds rest) as E by (by rewrite holds_app, (free_holds _ _ Hf)).
  split; rewrite ?E; [|by apply free_fits|done|by apply spares_same|by apply nothing_taken|].
  - apply ok_release in Hok as [H1 H2 H3]. split; [done|done|]. cbn in *. by rewrite E1, E2.
  - intros x Hx. left. rewrite holds_cons. apply elem_of_app. by right.
Qed.

Lemma emplace_spares {A} (f : A → nat) (m : gmap Z A) fd fd' x p :
  f <$> m !! fd = Some p → f <$> emplace fd' x m !! fd = Some p.
Proof.
  intros Hp. unfold emplace. destruct (m !! fd') eqn:E; [done|].
  rewrite lookup_insert_ne; [done|]. intros ->. by rewrite E in Hp.
Qed.

Lemma found_reader_run {B} fd x (k : ReadR Z → M (world K server) B) w :
  rrm (app w) !! fd = Some x → (found_reader fd (r_mutex x) ≫= k) w = k x w.
Proof. intros Hx. unfold found_reader. srun. rewrite Nat.eqb_refl. cbn [negb]. by srun. Qed.

Lemma found_writer_run {B} fd y (k : WriteR → M (world K server) B) w :
  wrm (app w) !! fd = Some y → (found_writer fd (w_mutex y) ≫= k) w = k y w.
Proof. intros Hy. unfold found_writer. srun. rewrite Nat.eqb_refl. cbn [negb]. by srun. Qed.

Lemma bind_store_br {B} fd x br (k : unit → M (world K server) B) w :
  rrm (app w) !! fd = Some x →
  (store (in_app (br_ref fd)) br ≫= k) w =
  k tt (set_app (set_rrm (<[fd := MkReadR br (r_mutex x) (r_is_valid x)]> (rrm (app w))) (app w)) w).
Proof.
  intros Hx. erewrite bind_store by (cbn; by rewrite Hx). cbn [wr br_ref].
  by rewrite (alter_as_insert _ _ _ _ Hx).
Qed.

Lemma event_points_free i fd events : Forall (λ t, free [] t ∧ finds_nothing t ∧ carries t) (event_points i fd events).
Proof.
  assert (∀ t, owed t = [] → needs t [] → ¬ reaping t → finds_nothing t → carries t →
    free [] t ∧ finds_nothing t ∧ carries t) as Hp by (intros; by split_and!).
  unfold event_points. destruct (_ || _).
  { repeat (apply Forall_cons; split; [apply Hp; first [done|by intros []|constructor]|]). constructor. }
  destruct (fd =? i); [apply Forall_singleton, Hp; first [done|by intros []]|].
  apply Forall_app. split; destruct (has _ _);
    repeat (apply Forall_cons; split; [apply Hp; first [done|by intros []]|]); constructor.
Qed.

Lemma sent_length u m : 37 ≤ len u → len (frame_of (take 37 u) m) = 38 + len m.
Proof. intros Hu. unfold frame_of. rewrite !length_app, length_take. cbn [length]. lia. Qed.
End sections.

(** Lists of points that hold nothing, and that refer to nothing but what is at hand. *)
Ltac free_list :=
  repeat (apply Forall_cons; split; [split_and!; first [done|by intros []|auto]|]); apply Forall_nil; exact I.
Ltac good_list tac :=
  repeat (apply Forall_cons; split; [first [tac|by apply good_nothing]|]); apply Forall_nil; exact I.

(** What the network has to grant: only whole messages come to an end. *)
Definition granted {K} `{SocketKernel K} (t : point) (w : world K server) : Prop :=
  match t with
  | PFeed fd p (c :: _) => c = EOT → ∀ x, rrm (app w) !! fd = Some x →
      37 ≤ len (buffer (r_br x)) ∧ len (buffer (r_br x)) + 1 < 2 ^ 32
  | _ => True
  end.

Section points.
Context {K : Type} `{SocketKernel K}.
Implicit Types (k : K) (l : lockstate) (s : server) (w : world K server).
Context (sends : bytes → bytes → Z → list (bytes * bytes * Z)) `{!WholeReplies sends}.
Context (iterate : gmap Z Z → list (Z * Z)).
Abbreviation section := (server_section sends iterate).

(** The point [t] is run to its end, and leaves what it should. *)
Definition runs_well t rest w : Prop := ∃ ts' w', section t w = Ret ts' w' ∧ after t rest w ts' w'.

Lemma add_well t rest w :
  match t with PAdd _ | PAddWriter _ | PAddEvents _ => True | _ => False end →
  holds rest = [] → fits rest → ok [] w → runs_well t rest w.
Proof.
  intros Ht Hh Hr Hok. pose proof (ok_unheld _ R_mutex Hok) as HR. pose proof (ok_unheld _ W_mutex Hok) as HW.
  pose proof (ok_unheld _ E_mutex Hok) as HE. destruct w as [k l s]. pose proof Hok as [H1 H2 H3]. cbn in H1, H2, H3, HR, HW, HE.
  assert (∀ m, ordered server_rank (traced m (allocated l))) as Ho
    by (intros m; apply (ordered_traced _ _ (allocated l)); [done|]; cbn; rewrite H1; constructor).
  destruct t; try done; unfold runs_well; cbn [server_section].
  - eexists [PAddWriter fd], _. split; [unfold add_reader; srun; reflexivity|].
    apply after_free; rewrite ?Hh; [done|free_list|done| |good_list fail| |by apply (taken_once _ R_mutex)].
    + split; cbn; [done|apply Ho|]. eapply (wf_mono (allocated l)); [done|done|]. by apply wf_emplace_rr.
    + split; [|done]. intros fd' p _. apply emplace_spares.
  - eexists [PAddEvents fd], _. split; [unfold add_writer; srun; reflexivity|].
    apply after_free; rewrite ?Hh; [done|free_list|done| |good_list fail| |by apply (taken_once _ W_mutex)].
    + split; cbn; [done|apply Ho|]. eapply (wf_mono (allocated l)); [done|done|]. by apply wf_emplace_wr.
    + split; [done|]. intros fd' p _. apply emplace_spares.
  - eexists [], _. split; [unfold add_events; by srun|].
    apply after_traced; rewrite ?Hh; [done|by apply Forall_nil|done|done|constructor|done|done|by apply Forall_nil].
Qed.

(** The entries are looked up. *)
Lemma find_well t rest w :
  match t with PRead _ | PWrite _ | PSend _ _ _ => True | _ => False end →
  needs t (holds rest) → fits rest → ok (holds rest) w → carries t → runs_well t rest w.
Proof.
  intros Ht Hn Hr Hok Hc. pose proof (ok_held _ _ Hok) as Hh. destruct w as [k l s]. cbn in Hh.
  destruct t; try done; unfold runs_well; cbn [server_section]; cbn [needs] in Hn.
  - run_with (read_find_run fd k l s ltac:(rewrite Hh, Hn; apply not_elem_of_nil)). eexists _, _. split; [reflexivity|].
    destruct (rrm s !! fd) as [x|] eqn:Hx; cbn; apply after_traced; rewrite ?Hn; try done; try by constructor.
    + free_list.
    + by rewrite <-Hn.
    + apply Forall_singleton. by apply (good_reader _ _ fd x).
    + by rewrite <-Hn.
  - run_with (write_find_run fd k l s ltac:(rewrite Hh, Hn; apply not_elem_of_nil)). eexists _, _. split; [reflexivity|].
    destruct (wrm s !! fd) as [y|] eqn:Hy; cbn; apply after_traced; rewrite ?Hn; try done; try by constructor.
    + free_list.
    + by rewrite <-Hn.
    + apply Forall_singleton. by apply (good_writer _ _ fd y).
    + by rewrite <-Hn.
  - destruct Hc as [Hu Hm]. cbn in Hu, Hm.
    assert (below server_rank W_mutex (holds rest)) as Hb by (apply send_below; [done|cbn; lia]).
    run_with (send_find_run uuid_v msg_v fd k l s Hu Hm ltac:(rewrite Hh; by apply below_fresh)).
    eexists _, _. split; [reflexivity|]. unfold frame_fits in Hm.
    destruct (wrm s !! fd) as [y|] eqn:Hy; cbn [fmap option_fmap option_map]; apply after_traced; try done; try by constructor.
    + free_list.
    + apply Forall_singleton, (good_writer _ _ fd y); [done|done| |done]. cbn [carries]. unfold frame_fits in Hm.
      rewrite sent_length, wrap_small by lia. lia.
Qed.

(** A mutex is taken. *)
Lemma lock_well t rest w :
  match t with PReadLock _ _ | PWriteLock _ _ | PSendLock _ _ _ _ | PReap => True | _ => False end →
  needs t (holds rest) → (reaping t → Forall finds_nothing rest) → fits rest → ok (holds rest) w → good (app w) t →
  runs_well t rest w.
Proof.
  intros Ht Hn Hre Hr Hok (HR & HW & Hc). pose proof (ok_wf _ _ Hok) as Hwf. pose proof (ok_held _ _ Hok) as Hh.
  destruct w as [k l s]. cbn in Hwf, Hh.
  destruct t; try done; unfold runs_well; cbn [server_section]; cbn [needs] in Hn.
  - specialize (HR fd p eq_refl). apply fmap_Some in HR as (x & Hx & ->).
    pose proof (proj1 (wf_rr _ _ _ Hwf _ _ Hx)) as Hl. rewrite found_reader_run by done.
    assert (RR_mutex (r_mutex x) ∉ held l) by (rewrite Hh, Hn; apply not_elem_of_nil).
    eexists _, _. split; [by srun|]. apply (after_acquired _ _ _ [_]); rewrite ?Hn; try done; try by constructor.
    + by rewrite <-Hn.
    + free_list.
    + good_list ltac:(by apply (good_reader _ _ fd x)).
  - specialize (HW fd q eq_refl). apply fmap_Some in HW as (y & Hy & ->).
    pose proof (wf_wr _ _ _ Hwf _ _ Hy) as Hl. rewrite found_writer_run by done.
    assert (WR_mutex (w_mutex y) ∉ held l) by (rewrite Hh, Hn; apply not_elem_of_nil).
    eexists _, _. split; [by srun|]. apply (after_acquired _ _ _ [_]); rewrite ?Hn; try done; try by constructor.
    + by rewrite <-Hn.
    + free_list.
    + good_list ltac:(by apply (good_writer _ _ fd y)).
  - specialize (HW fd q eq_refl). apply fmap_Some in HW as (y & Hy & ->).
    pose proof (wf_wr _ _ _ Hwf _ _ Hy) as Hl. rewrite found_writer_run by done.
    assert (WR_mutex (w_mutex y) ∉ held l) by (rewrite Hh; by apply below_fresh).
    eexists _, _. split; [by srun|]. apply (after_acquired _ _ _ [_]); try done.
    + free_list.
    + good_list ltac:(by apply (good_writer _ _ fd y)).
  - assert (Z_mutex ∉ held l) by (rewrite Hh, Hn; apply not_elem_of_nil).
    eexists _, _. split; [by srun|]. apply (after_acquired _ _ _ []); rewrite ?Hn; try done; try by constructor.
    + by rewrite <-Hn.
Qed.

(** A mutex is let go of. *)
Lemma unlock_well t rest w :
  match t with PReadUnlock _ _ | PWriteUnlock _ _ | PSendUnlock _ _ | PErase _ => True | _ => False end →
  needs t (holds rest) → fits rest → ok (holds (t :: rest)) w → good (app w) t → runs_well t rest w.
Proof.
  intros Ht Hn Hr Hok (HR & HW & _). pose proof (ok_wf _ _ Hok) as Hwf. pose proof (ok_held _ _ Hok) as Hh.
  rewrite holds_cons in Hh.
  destruct w as [k l s]. cbn in Hwf, Hh.
  destruct t; try done; unfold runs_well; cbn [server_section owed needs] in *.
  - specialize (HR fd p eq_refl). apply fmap_Some in HR as (x & Hx & ->).
    pose proof (proj1 (wf_rr _ _ _ Hwf _ _ Hx)) as Hl. rewrite (found_reader_run fd x) by done.
    rewrite Hn in Hh. srun. eexists [], _. split; [reflexivity|].
    apply (after_released _ _ (RR_mutex (r_mutex x)) _ _ _ s); try done; by apply Forall_nil.
  - specialize (HW fd q eq_refl). apply fmap_Some in HW as (y & Hy & ->).
    pose proof (wf_wr _ _ _ Hwf _ _ Hy) as Hl. rewrite (found_writer_run fd y) by done.
    rewrite Hn in Hh. srun. eexists [], _. split; [reflexivity|].
    apply (after_released _ _ (WR_mutex (w_mutex y)) _ _ _ s); try done; by apply Forall_nil.
  - specialize (HW fd q eq_refl). apply fmap_Some in HW as (y & Hy & ->).
    pose proof (wf_wr _ _ _ Hwf _ _ Hy) as Hl. rewrite (found_writer_run fd y) by done.
    assert (WR_mutex (w_mutex y) ∉ holds rest) by (by apply below_fresh).
    erewrite (bind_unlock _ (holds rest)) by (cbn; first [done | by apply bool_decide_eq_true_2]).
    eexists [PArm EPOLLOUT fd], _. split; [reflexivity|].
    apply (after_released _ _ (WR_mutex (w_mutex y)) _ _ _ s); try done; [|good_list fail].
    apply Forall_singleton. split_and!; [done| |by intros []]. apply (send_below _ E_mutex); [done|cbn; lia].
  - rewrite Hn in Hh. run_with (erase_zombies zv (World k l s)). srun. eexists [], _. split; [reflexivity|].
    apply (after_released _ _ Z_mutex _ _ _ s); try done; by apply Forall_nil.
Qed.
End points.

(** ** The other points *)
Section other_points.
Context {K : Type} `{SocketKernel K}.
Implicit Types (k : K) (l : lockstate) (s : server) (w : world K server).
Context (sends : bytes → bytes → Z → list (bytes * bytes * Z)) `{!WholeReplies sends}.
Context (iterate : gmap Z Z → list (Z * Z)).
Abbreviation section := (server_section sends iterate).
Abbreviation runs_well := (runs_well sends iterate).

(** A reader, with its mutex held. *)
Lemma reading_well t rest w :
  match t with PReadCheck _ _ | PReadSome _ _ | PFeedClear _ _ | PReadInvalid _ _ => True | _ => False end →
  needs t (holds rest) → fits rest → ok (holds rest) w → good (app w) t → runs_well t rest w.
Proof.
  intros Ht Hn Hr Hok (HR & _ & _). pose proof (ok_wf _ _ Hok) as Hwf. destruct w as [k l s]. cbn in Hwf.
  assert (below server_rank Z_mutex (holds rest)) as HZ by (destruct t; try done; cbn in Hn; rewrite Hn; repeat constructor).
  assert (below server_rank E_mutex (holds rest)) as HE by (destruct t; try done; cbn in Hn; rewrite Hn; repeat constructor).
  destruct t; try done; unfold ServerThreads.runs_well; cbn [server_section]; cbn [needs] in Hn;
    specialize (HR fd p eq_refl); apply fmap_Some in HR as (x & Hx & ->);
    destruct (wf_rr _ _ _ Hwf _ _ Hx) as (_ & b & Hb & Hnb).
  - rewrite (found_reader_run fd x) by done. eexists _, _. split; [reflexivity|]. destruct (r_is_valid x).
    + apply after_kern; try done; [free_list|good_list ltac:(by apply (good_reader _ _ fd x))].
    + apply after_kern; [done|by apply Forall_nil|done|done|by apply Forall_nil].
  - unfold read_some_points. srun. eexists _, _. split; [reflexivity|].
    assert (∀ ts', (ts' = [PReadInvalid fd (r_mutex x); PZombie fd] ∨ ts' = [PArm EPOLLIN fd] ∨
      ∃ data, ts' = [PFeed fd (r_mutex x) data; PReadSome fd (r_mutex x)]) →
      after (PReadSome fd (r_mutex x)) rest (World k l s) ts' (World (sys_read fd 1024 k).2 l s)) as Ha.
    { intros ts' [->|[->|[data ->]]]; apply after_kern; try done;
        first [free_list|good_list ltac:(by apply (good_reader _ _ fd x))]. }
    destruct (_.1) as [e|r].
    + destruct (e =? EAGAIN); apply Ha; auto.
    + destruct (len r =? 0); apply Ha; eauto.
  - rewrite (found_reader_run fd x) by done. rewrite (bind_store_br fd x) by done.
    eexists _, _. split; [reflexivity|]. rewrite Hb.
    eapply (after_reader _ _ _ _ _ _ _ x); try done; try (by apply Forall_nil). apply not_elem_of_nil.
  - rewrite (found_reader_run fd x) by done. srun.
    eexists _, _. split; [reflexivity|]. cbn [wr rr_ref].
    eapply (after_reader _ _ _ _ _ _ _ x); try done; try (by apply Forall_nil); exact Hb.
Qed.

(** A character of what was read. *)
Lemma feed_well fd p data rest w :
  let t := PFeed fd p data in
  holds rest = [RR_mutex p] → fits rest → ok (holds rest) w → good (app w) t → granted t w → runs_well t rest w.
Proof.
  intros t Hn Hr Hok (HR & _ & _) Hg. pose proof (ok_wf _ _ Hok) as Hwf. destruct w as [k l s]. cbn in Hwf.
  specialize (HR fd p eq_refl). apply fmap_Some in HR as (x & Hx & ->).
  destruct (wf_rr _ _ _ Hwf _ _ Hx) as (_ & b & Hb & Hnb).
  unfold ServerThreads.runs_well, t. cbn [server_section]. destruct data as [|c data]; cbn [feed_points].
  { eexists [], _. split; [reflexivity|]. apply after_kern; [done|by apply Forall_nil|done|done|by apply Forall_nil]. }
  rewrite (found_reader_run fd x) by done. cbv zeta. rewrite Hb. cbn [del assume]. rewrite bind_ret_l.
  destruct (Ascii.eqb_spec c EOT) as [->|Hc]; cbn [negb call_back buffer].
  - specialize (Hg eq_refl x Hx). rewrite Hb in Hg. cbn [buffer] in Hg. destruct Hg as [Hlen H32].
    run_with (unpack_delivered b (World k l s) ltac:(lia)). eexists _, _. split; [reflexivity|].
    assert (whole (take 37 b, drop 37 b)) as Hw.
    { split; cbn; [rewrite length_take|unfold frame_fits; rewrite length_drop]; lia. }
    pose proof (replies_whole (take 37 b) (drop 37 b) fd Hw) as HF. clear - Hn Hr Hok HF Hx.
    set (l1 := sends (take 37 b) (drop 37 b) fd) in *. clearbody l1.
    assert (below server_rank (WR_mutex 0) (holds rest)) as HW by (rewrite Hn; repeat constructor).
    apply after_kern; try done; apply Forall_app; split.
    + apply Forall_map, Forall_true. intros y. split_and!; [done|done|by intros []].
    + free_list.
    + apply Forall_map. eapply Forall_impl; [exact HF|]. intros [[u m] fd'] Hy. by apply good_nothing.
    + good_list ltac:(by apply (good_reader _ _ fd x)).
  - rewrite (bind_store_br fd x) by done. eexists _, _. split; [reflexivity|].
    eapply (after_reader _ _ _ _ _ _ _ x _ (b ++ [c])); try done.
    + free_list.
    + rewrite not_elem_of_app. split; [done|]. intros E%list_elem_of_singleton. by apply Hc.
    + apply Forall_singleton.
      apply (good_reader _ _ fd (MkReadR (MkBufferedReader (b ++ [c]) (Some EOT) (Some fd)) (r_mutex x) (r_is_valid x)));
        [done|done|done|]. cbn. by rewrite lookup_insert_eq.
Qed.

(** One turn of the loop of [write_to_sfd]: an empty buffer ends it, and so does a write
    that fails. *)
Lemma write_some_run fd y b k l s :
  wrm s !! fd = Some y → w_bw y = MkBufferedWriter b →
  write_some_points fd (w_mutex y) (World k l s) =
  (if decide (b = []) then Ret [] (World k l s)
   else
     let '(r, k') := sys_write fd (take 1024 b) k in
     match r with
     | SysErr e => Ret (if e =? EAGAIN then [PArm EPOLLOUT fd] else [PWriteInvalid fd (w_mutex y); PZombie fd]) (World k' l s)
     | SysOk _ => Ret [PWriteSome fd (w_mutex y)]
         (World k' l (set_wrm (<[fd := MkWriteR (MkBufferedWriter (drop 1024 b)) (w_mutex y) (w_is_valid y)]> (wrm s)) s))
     end).
Proof.
  intros Hy Hb. unfold write_some_points. rewrite (found_writer_run fd y) by done. cbv zeta.
  assert (∀ k', rd (in_app (bw_ref fd)) (World k' l s) = Some (MkBufferedWriter b)) as Hw by (intros k'; cbn; by rewrite Hy, <-Hb).
  run_with (size_run _ _ _ (Hw k)). destruct (decide (b = [])) as [->|Hne]; [done|].
  assert (0 < length b)%nat as Hb0 by (destruct b; simpl; [done|lia]).
  rewrite (proj2 (Z.ltb_lt 0 _)) by lia. set (m := if len b <? 1024 then len b else 1024).
  assert (0 < m ≤ 1024 ∧ m ≤ len b ∧ take (Z.to_nat m) b = take 1024 b ∧ drop (Z.to_nat m) b = drop 1024 b)
    as (Hm & Hmb & Ht & Hd).
  { unfold m. destruct (Z.ltb_spec (len b) 1024); [|split_and!; (lia || done)].
    rewrite Nat2Z.id, firstn_all, (take_ge b 1024), drop_all, (drop_ge b 1024) by lia.
    split_and!; (lia || done). }
  erewrite bind_run; [|apply (iread_run _ b _ m _ (Hw k)); rewrite ?length_replicate; lia].
  rewrite (drop_ge (replicate _ _)), app_nil_r by (rewrite length_replicate; lia). rewrite Ht, bind_syscall. cbn [kern].
  destruct (sys_write fd (take 1024 b) k) as [[e|r] k']; cbn [fst snd set_kern locks app]; [done|].
  erewrite bind_run; [|apply (clear_run (in_app (bw_ref fd)) b m); [apply Hw|lia]].
  rewrite Hd. unfold set_app, mret, M_ret. cbn. by rewrite (alter_as_insert _ _ _ _ Hy).
Qed.

(** A writer, with its mutex held. *)
Lemma writing_well t rest w :
  match t with PWriteCheck _ _ | PWriteSome _ _ | PWriteInvalid _ _ | PSendBody _ _ _ _ => True | _ => False end →
  needs t (holds rest) → fits rest → ok (holds rest) w → good (app w) t → runs_well t rest w.
Proof.
  intros Ht Hn Hr Hok (_ & HW & Hc). destruct w as [k l s].
  destruct t; try done; unfold ServerThreads.runs_well; cbn [server_section]; cbn [needs] in Hn;
    specialize (HW fd q eq_refl); apply fmap_Some in HW as (y & Hy & ->).
  - rewrite (found_writer_run fd y) by done. eexists _, _. split; [reflexivity|]. destruct (w_is_valid y).
    + apply after_kern; try done; [free_list|good_list ltac:(by apply (good_writer _ _ fd y))].
    + apply after_kern; [done|by apply Forall_nil|done|done|by apply Forall_nil].
  - destruct (w_bw y) as [b] eqn:Hb. rewrite (write_some_run fd y b) by done.
    assert (below server_rank Z_mutex (holds rest)) as HZ by (rewrite Hn; repeat constructor).
    assert (below server_rank E_mutex (holds rest)) as HE by (rewrite Hn; repeat constructor).
    destruct (decide _); [eexists [], _; split; [reflexivity|]; apply after_kern; try done; by apply Forall_nil|].
    destruct (sys_write _ _ _) as [[e|r] k']; eexists _, _; (split; [reflexivity|]).
    + destruct (e =? EAGAIN); apply after_kern; try done;
        first [free_list|good_list ltac:(by apply (good_writer _ _ fd y))].
    + eapply (after_writer _ _ _ _ _ _ _ y); try done; [free_list|].
      set (y' := MkWriteR _ _ _). good_list ltac:(by apply (good_writer _ _ fd y'); [..|cbn; rewrite lookup_insert_eq]).
  - rewrite (found_writer_run fd y) by done. srun. eexists _, _. split; [reflexivity|]. cbn [wr wr_ref].
    eapply (after_writer _ _ _ _ _ _ _ y); try done; by apply Forall_nil.
  - destruct Hc as [-> Hf]. unfold send_body. rewrite bind_assoc, (found_writer_run fd y) by done.
    run_with (server_enqueue_run f fd y (World k l s) Hy Hf). eexists _, _. split; [reflexivity|].
    eapply (after_writer _ _ _ _ _ _ _ y); try done; try (by apply Forall_nil).
    unfold enqueue. by destruct (w_is_valid y).
Qed.

(** The points that work on the masks, the zombies, the kernel and the queues. *)
Lemma quiet_well t rest w :
  match t with
  | PArm _ _ | PZombie _ | PPoll | PEvent _ | PClose _ | PDisarm _ _ | PPush _ => True
  | _ => False
  end →
  needs t (holds rest) → fits rest → ok (holds rest) w → runs_well t rest w.
Proof.
  intros Ht Hn Hr Hok. pose proof (ok_held _ _ Hok) as Hh. destruct w as [k l s]. cbn in Hh.
  destruct t; try done; unfold ServerThreads.runs_well; cbn [server_section]; cbn [needs] in Hn.
  - srun. run_with (arm_run events_ref E_mutex bit (ep_sfd s) fd (sfd_events s) (World k l s) eq_refl eq_refl
      ltac:(cbn; rewrite Hh; by apply below_fresh)).
    eexists [], _. split; [reflexivity|]. apply after_traced; try done; by apply Forall_nil.
  - run_with (a_zombied_run fd k l s ltac:(rewrite Hh; by apply below_fresh)).
    eexists [], _. split; [reflexivity|]. apply after_traced; try done; by apply Forall_nil.
  - srun. eexists _, _. split; [reflexivity|]. destruct (_.1) as [e|evs].
    + apply after_kern; try done; by apply Forall_nil.
    + apply after_kern; try done; apply Forall_forall; intros ? (ev & -> & _)%list_elem_of_fmap.
      * split_and!; [done|done|by intros []].
      * by apply good_nothing.
  - destruct ev as [fd events]. srun. eexists _, _. split; [reflexivity|].
    pose proof (event_points_free (i_sfd s) fd events) as He. rewrite Hn in *.
    apply after_kern; rewrite ?Hn; try done; (eapply Forall_impl; [exact He|]); [by intros t (Hf & _)|].
    intros t (_ & Hf & Hc). by apply good_nothing.
  - unfold close_fd. srun. eexists [], _. split; [reflexivity|]. apply after_kern; try done; by apply Forall_nil.
  - run_with (disarm_run bit fd k l s ltac:(rewrite Hh, Hn; apply not_elem_of_nil)).
    eexists [], _. split; [reflexivity|]. apply after_traced; rewrite ?Hn in *; try done; by constructor.
  - eexists [], _. split; [reflexivity|]. unfold set_app. cbn [kern locks app].
    apply after_free; try done; try (by apply Forall_nil).
    + destruct Hok as [H1 H2 H3]. split; [done|done|]. by destruct t.
    + by destruct t; apply spares_same.
    + by apply nothing_taken.
Qed.
End other_points.

(** ** The reaper, and any point *)
Section all_points.
Context {K : Type} `{SocketKernel K}.
Implicit Types (k : K) (l : lockstate) (s : server) (w : world K server).
Context (sends : bytes → bytes → Z → list (bytes * bytes * Z)) `{!WholeReplies sends}.
Context (iterate : gmap Z Z → list (Z * Z)).
Abbreviation section := (server_section sends iterate).
Abbreviation runs_well := (runs_well sends iterate).

(** The resources of an entry are taken away, with the mutex of the zombies held. *)
Lemma clean_well t rest w :
  match t with PCleanReader _ | PCleanWriter _ | PCleanEvents _ => True | _ => False end →
  needs t (holds rest) → fits rest → ok (holds rest) w → runs_well t rest w.
Proof.
  intros Ht Hn Hr Hok. pose proof Hok as [H1 H2 H3]. destruct w as [k l s]. cbn in H1, H2, H3.
  assert (holds rest = [Z_mutex]) as Hz by (by destruct t). clear Hn.
  assert (∀ m, server_rank m = 3%nat → (m ∉ held l) ∧ below server_rank m (held l)) as Hm.
  { intros m Hm. rewrite H1, Hz. split; [by intros ->%list_elem_of_singleton|]. constructor; [cbn; lia|constructor]. }
  destruct t; try done; unfold ServerThreads.runs_well; cbn [server_section].
  - eexists [], _. erewrite bind_run.
    2: { apply clean_rr_run; [by apply Hm|]. rewrite H1, Hz. intros p (x & Hx & ->)%fmap_Some.
         split_and!; [by eapply wf_rr|set_solver..]. }
    split; [reflexivity|]. apply after_free; try done; try (by apply Forall_nil).
    + split; cbn; [by destruct (rrm s !! fd)| |by apply wf_delete_rr, (wf_mono l)].
      pose proof (ordered_traced server_rank R_mutex l H2 (proj2 (Hm R_mutex eq_refl))). by destruct (rrm s !! fd).
    + split; [|done]. intros fd' p Hne Hp. cbn. rewrite lookup_delete_ne; [done|]. intros ->. by destruct Hne.
    + apply (taken_once _ R_mutex); [|done]. cbn. by destruct (rrm s !! fd).
  - eexists [], _. erewrite bind_run.
    2: { apply clean_wr_run; [by apply Hm|]. rewrite H1, Hz. intros p (x & Hx & ->)%fmap_Some.
         split_and!; [by eapply wf_wr|set_solver..]. }
    split; [reflexivity|]. apply after_free; try done; try (by apply Forall_nil).
    + split; cbn; [by destruct (wrm s !! fd)| |by apply wf_delete_wr, (wf_mono l)].
      pose proof (ordered_traced server_rank W_mutex l H2 (proj2 (Hm W_mutex eq_refl))). by destruct (wrm s !! fd).
    + split; [done|]. intros fd' p Hne Hp. cbn. rewrite lookup_delete_ne; [done|]. intros ->. by destruct Hne.
    + apply (taken_once _ W_mutex); [|done]. cbn. by destruct (wrm s !! fd).
  - pose proof (Hm E_mutex eq_refl) as [Hh Hb]. eexists [], _. unfold clean_events. split; [by srun|].
    apply after_traced; try done; try (by apply Forall_nil). by rewrite <-H1.
Qed.

(** The walk through the zombies. *)
Lemma scan_well entries zv rest w :
  holds rest = [] → Forall finds_nothing rest → fits rest → ok [Z_mutex] w → runs_well (PScan entries zv) rest w.
Proof.
  intros Hn Hf Hr Hok. destruct w as [k l s].
  assert (∀ ts t' k', Forall (λ t, owed t = [] ∧ needs t [Z_mutex] ∧ finds_nothing t ∧ carries t) ts →
    owed t' = [Z_mutex] → needs t' [] → finds_nothing t' → carries t' →
    after (PScan entries zv) rest (World k l s) (ts ++ [t']) (World k' l s)) as Ha.
  { intros ts t' k' Hts Ho Hn' Hf' Hc'. assert (holds (t' :: rest) = [Z_mutex]) as E by (by rewrite holds_cons, Ho, Hn).
    assert (holds ((ts ++ [t']) ++ rest) = [Z_mutex]) as E'.
    { rewrite <-app_assoc, holds_app. change ([t'] ++ rest) with (t' :: rest). rewrite E.
      clear - Hts. induction Hts as [|t ts (Ht & _) _ IH]; [done|]. by rewrite holds_cons, Ht. }
    split; rewrite ?E', ?holds_cons, ?Hn; [by eapply ok_kern| | |by apply spares_same|by apply nothing_taken|by left].
    - rewrite <-app_assoc. change ([t'] ++ rest) with (t' :: rest). clear E' Hok.
      induction Hts as [|t ts (H1 & H2 & H3 & H4) Hts IH]; [cbn; rewrite Hn; by split_and!|].
      rewrite <-app_comm_cons. cbn [fits].
      assert (holds (ts ++ t' :: rest) = [Z_mutex]) as E'.
      { rewrite holds_app, E. clear - Hts. induction Hts as [|t ts (Ht & _) _ IH]; [done|]. by rewrite holds_cons, Ht. }
      rewrite E'. split_and!; [done| |done]. intros _. apply Forall_app. split; [|by constructor].
      eapply Forall_impl; [exact Hts|]. by intros ? (_ & _ & ? & _).
    - apply Forall_app. split; [|by apply Forall_singleton, good_nothing].
      eapply Forall_impl; [exact Hts|]. intros ? (_ & _ & ? & ?). by apply good_nothing. }
  unfold ServerThreads.runs_well. destruct entries as [|[fd t] entries]; cbn [server_section].
  - eexists [PErase zv], _. split; [reflexivity|]. by apply (Ha []); [apply Forall_nil|..].
  - run_with (epoch_millis_run (World k l s)). eexists _, _. split; [reflexivity|]. destruct (60000 <? _).
    + apply (Ha [_; _; _; _]); [|done..]. repeat (apply Forall_cons; split; [done|]). by apply Forall_nil.
    + by apply (Ha []); [apply Forall_nil|..].
Qed.

(** At every point the section is run to its end, and what it leaves is well-formed. *)
Lemma section_ok t rest w :
  fits (t :: rest) → ok (holds (t :: rest)) w → good (app w) t → granted t w → runs_well t rest w.
Proof.
  intros (Hn & Hre & Hr) Hok Hg Ha. pose proof Hok as Hok'. rewrite holds_cons in Hok'.
  destruct t; cbn [owed] in Hok'; rewrite ?app_nil_l in Hok'; first
    [ by apply add_well; rewrite ?Hn in *
    | by apply find_well; [..|apply Hg]
    | by apply lock_well
    | by apply reading_well
    | by apply feed_well
    | by apply writing_well
    | by apply unlock_well
    | by apply quiet_well
    | by apply clean_well
    | by apply scan_well; rewrite ?Hn in Hok'; auto ].
Qed.
End all_points.
