(* ===== verification/ServerInterleaving.v ===== *)
(** * The server's interleaved threads

    The points of [ServerThreads], run by any number of threads in any order: the
    invariant of the machine and the theorems. *)

From stdpp Require Import relations.
From S2P Require Import Prelude Utils BufferedReader BufferedWriter Kernel Simulation SocketUtils.
From S2P Require Import Threads SocketServer ServerProofs ServerTheorems ServerThreads.

(** ** The invariant of the machine *)
Section interleaving.
Context {K : Type} `{SocketKernel K}.
Context (sends : bytes → bytes → Z → list (bytes * bytes * Z)) `{!WholeReplies sends}.
Context (iterate : gmap Z Z → list (Z * Z)).
Abbreviation section := (server_section sends iterate).

(** The reaper comes to an entry's resources when no other thread has found them: this the
    code does not see to. *)
Definition spared (i : nat) (t : point) (ts : list (thread point)) : Prop :=
  ∀ j th t', ts !! j = Some th → j ≠ i → t' ∈ todo th →
    (∀ fd, t = PCleanReader fd → ∀ p, finds_reader t' ≠ Some (fd, p)) ∧
    (∀ fd, t = PCleanWriter fd → ∀ q, finds_writer t' ≠ Some (fd, q)).

(** Threads start with an operation; messages that are sent are whole. *)
Definition begins (t : point) : Prop := starts_operation t ∧ carries t.

Abbreviation step := (machine_step section granted spared begins).

Record machine_ok (m : machine K server point) : Prop := {
  machine_shared : ok [] (shared m);
  machine_threads i th : threads m !! i = Some th →
    owns th = holds (todo th) ∧ fits (todo th) ∧ Forall (good (app (shared m))) (todo th);
  machine_disjoint i j th th' x : i ≠ j → threads m !! i = Some th → threads m !! j = Some th' →
    x ∈ owns th → x ∉ owns th'
}.

Lemma begins_ok t s : begins t → fits [t] ∧ good s t ∧ holds [t] = [].
Proof.
  intros [Ht Hc]. split_and!; [|by apply good_nothing; [destruct t|]|by destruct t].
  destruct t; try done; split_and!; try done; constructor.
Qed.

(** What a section leaves of the points that are still to come. *)
Lemma rest_good t rest s s' :
  fits (t :: rest) → spares t s s' → Forall (good s) rest → Forall (good s') rest.
Proof.
  intros (_ & Hre & _) Hs Hg. rewrite Forall_forall in Hg |- *. intros t' Hin.
  assert (reaping t → finds_nothing t') as Hn by (intros Hr; specialize (Hre Hr); rewrite Forall_forall in Hre; by apply Hre).
  eapply good_spared; [exact Hs| | |by apply Hg].
  - intros fd -> p. by destruct (Hn I) as [-> _].
  - intros fd -> p. by destruct (Hn I) as [_ ->].
Qed.

(** The next section of a thread. *)
Lemma next_section m i hs t rest :
  machine_ok m → threads m !! i = Some (Thread hs (t :: rest)) → granted t (shared m) →
  hs = holds (t :: rest) ∧ ∃ ts' w', section t (as_thread hs (shared m)) = Ret ts' w' ∧
    after t rest (as_thread hs (shared m)) ts' w'.
Proof.
  intros [Hok Hth _] Hi Hg. destruct (Hth _ _ Hi) as (Ho & Hsh & Hgood). cbn in Ho, Hsh, Hgood.
  split; [done|]. apply Forall_cons in Hgood as [Hgt _]. subst hs.
  apply (section_ok sends iterate); [done|by apply ok_as_thread|done|done].
Qed.

Lemma point_step_ok i t m m' :
  machine_ok m → runs_point section granted i t m m' → spared i t (threads m) → machine_ok m'.
Proof.
  intros Hm Hr Hsp. destruct Hr as [w ts hs rest ts' w' Hi Hg E Htaken]. cbn [threads] in Hsp.
  destruct (next_section _ i hs t rest Hm Hi Hg) as (Ehs & ts1 & w1 & E1 & [Aok Ash Ag As _ Ao]).
  cbn [shared] in E1. rewrite E in E1. injection E1 as <- <-. destruct Hm as [Hok Hth Hdis]. cbn in Hok, Hth, Hdis.
  destruct (Hth _ _ Hi) as (_ & Hsh & Hgood). cbn in Hsh, Hgood. apply Forall_cons in Hgood as [_ Hgr].
  pose proof (lookup_lt_Some _ _ _ Hi) as Hlt. pose proof (ok_held _ _ Aok) as Hh.
  assert (∀ j th x, j ≠ i → ts !! j = Some th → x ∈ held (locks w') → x ∉ owns th) as Hnew.
  { intros j th x Hj Hjth Hx. rewrite Hh in Hx. destruct (Ao x Hx) as [Hx'|Hx'].
    - eapply (Hdis i j); [done|exact Hi|exact Hjth|]. cbn. by rewrite Ehs.
    - by eapply Htaken. }
  split; cbn [shared threads].
  - by eapply ok_as_nobody.
  - intros j th. destruct (decide (j = i)) as [->|Hj].
    + rewrite list_lookup_insert_eq by done. intros [= <-]. cbn. split_and!; [done|done|].
      apply Forall_app. split; [done|]. by eapply rest_good.
    + rewrite list_lookup_insert_ne by done. intros Hjth. destruct (Hth _ _ Hjth) as (H1 & H2 & H3).
      split_and!; [done|done|]. cbn. rewrite Forall_forall in H3 |- *. intros t' Hin.
      destruct (Hsp j th t' Hjth Hj Hin) as [S1 S2].
      by eapply good_spared; [exact As|exact S1|exact S2|apply H3].
  - intros j j' th th' x Hne. destruct (decide (j = i)) as [->|Hj].
    + rewrite list_lookup_insert_eq, list_lookup_insert_ne by done. intros [= <-] Hth'. by apply (Hnew j').
    + rewrite list_lookup_insert_ne by done. intros Hjth. destruct (decide (j' = i)) as [->|Hj'].
      * rewrite list_lookup_insert_eq by done. intros [= <-] Hx Hx'. by apply (Hnew j th x).
      * rewrite list_lookup_insert_ne by done. intros Hjth'. by apply (Hdis j j').
Qed.

Lemma step_ok m m' : machine_ok m → step m m' → machine_ok m'.
Proof.
  intros Hm Hs. destruct Hs as [i t m m' Hr Hsp|t w ts Hb|w k ts]; [by eapply point_step_ok| |].
  - destruct (begins_ok t (app w) Hb) as (B1 & B2 & B3). destruct Hm as [Hok Hth Hdis]. cbn in Hok, Hth, Hdis.
    split; cbn [shared threads]; [done| |].
    + intros i th [[_ Hi]|[-> <-]]%lookup_snoc_Some; [exact (Hth _ _ Hi)|]. cbn [owns todo].
      split_and!; [by rewrite B3|done|by constructor].
    + intros i j th th' x Hne [[_ Hi]|[_ <-]]%lookup_snoc_Some [[_ Hj]|[_ <-]]%lookup_snoc_Some.
      * by apply (Hdis i j).
      * intros _. apply not_elem_of_nil.
      * by intros ?%elem_of_nil.
      * by intros ?%elem_of_nil.
  - destruct Hm as [Hok Hth Hdis]. split; [|exact Hth|exact Hdis]. destruct w. by eapply ok_kern.
Qed.

Lemma reached_ok w m : ok [] w → rtc step (Machine w []) m → machine_ok m.
Proof.
  intros Hok Hr. assert (machine_ok (Machine w [])) as Hm
    by (split; [done|intros i th Hi; discriminate Hi|intros i j th th' x _ Hi; discriminate Hi]).
  revert Hm. induction Hr as [|m m1 m2 Hs _ IH]; intros Hm; [done|]. by apply IH, (step_ok m).
Qed.

End interleaving.

(** ** Properties *)

(** C6.  Safety of the server's threads, cut at every mutex and system call.  However many
    threads run the operations of a server, in whatever order their points come, handlers
    and the messages they send included: what a thread does next never has undefined
    behaviour (no entry, and no mutex, that it has found is gone when it comes to use it),
    never throws, and does not wait for a mutex of its own; it uses the buffer and the
    state of an entry only while it owns the entry's mutex; no two threads own the same
    mutex; and the state stays well-formed.  Two things are taken for granted.  A message
    that comes to its end has the 37 characters of an identifier, and less than 4 GiB
    ([granted]; [server_short_frame] shows what a shorter one does).  And the reaper does
    not come to an entry that another thread has found ([spared]): nothing in the code
    makes it wait, and [lookup_race] shows what happens then. *)
Theorem server_threads_safe {K : Type} `{SocketKernel K} sends `{!WholeReplies sends} iterate
    (w : world K server) (m : machine K server point) :
  ok [] w →
  rtc (machine_step (server_section sends iterate) granted spared begins) (Machine w []) m →
  ok [] (shared m) ∧
  (∀ i j th th' x, i ≠ j → threads m !! i = Some th → threads m !! j = Some th' → x ∈ owns th → x ∉ owns th') ∧
  ∀ i th t rest, threads m !! i = Some th → todo th = t :: rest →
    (∀ x, uses t = Some x → x ∈ owns th) ∧
    (granted t (shared m) →
     ∃ ts' w', server_section sends iterate t (as_thread (owns th) (shared m)) = Ret ts' w').
Proof.
  intros Hok Hr. pose proof (reached_ok sends iterate w m Hok Hr) as Hm.
  split_and!; [apply Hm|apply Hm|]. intros i [hs l] t rest Hi El. cbn in El. subst l. split.
  - intros x Hx. destruct (machine_threads _ Hm _ _ Hi) as (-> & Hf & _). by eapply uses_held.
  - intros Hg. destruct (next_section sends iterate m i hs t rest Hm Hi Hg) as (_ & ts' & w' & E & _). by exists ts', w'.
Qed.

(** *** An example

    One thread reads a whole message and is about to send the answer, with the mutex of
    the reader; another is to send to the same descriptor. *)
Definition one_message : bytes := frame_of sample_id (str "hi").

Definition grants (t : point) (w : world sim server) : bool :=
  match t with
  | PFeed fd _ _ => match rrm (app w) !! fd with
                    | Some x => bool_decide (37 ≤ len (buffer (r_br x)) ∧ len (buffer (r_br x)) + 1 < 2 ^ 32)
                    | None => false
                    end
  | _ => true
  end.

(** The first thread goes on for some steps. *)
Fixpoint advance (n : nat) (m : machine sim server point) : machine sim server point :=
  match n, threads m with
  | Datatypes.S n', Thread hs (t :: rest) :: ths =>
      match server_section sserver_sends to_list t (as_thread hs (shared m)) with
      | Ret ts' w' =>
          if grants t (shared m) || negb (match t with PFeed _ _ (c :: _) => Ascii.eqb c EOT | _ => false end)
          then advance n' (Machine (as_thread [] w') (Thread (held (locks w')) (ts' ++ rest) :: ths))
          else m
      | _ => m
      end
  | _, _ => m
  end.

Definition idle (th : thread point) : Prop := owns th = [] ∧ Forall finds_nothing (todo th).

Abbreviation sserver_step := (machine_step (server_section sserver_sends to_list) granted spared begins).

Lemma advance_reached n m : Forall idle (tail (threads m)) → rtc sserver_step m (advance n m).
Proof.
  revert m. induction n as [|n IH]; intros [w ts] Hi; [constructor|]. cbn [advance threads shared].
  destruct ts as [|[hs [|t rest]] ths]; [constructor..|]. cbn [threads tail] in Hi.
  destruct (server_section _ _ t _) as [ts' w'| | | | |] eqn:E; try apply rtc_refl.
  destruct (_ || _) eqn:Eg; [|apply rtc_refl].
  eapply rtc_l; [|by apply IH]. rewrite Forall_forall in Hi.
  assert (∀ j th, j ≠ 0%nat → (Thread hs (t :: rest) :: ths) !! j = Some th → idle th) as Hidle.
  { intros [|j] th Hne Hj; [done|]. by apply Hi, (list_elem_of_lookup_2 _ j). }
  apply (step_point _ _ _ _ 0 t).
  - change (Thread (held (locks w')) (ts' ++ rest) :: ths) with
      (<[0%nat := Thread (held (locks w')) (ts' ++ rest)]> (Thread hs (t :: rest) :: ths)).
    eapply runs_point_intro; [done| |exact E|].
    + destruct t as [| | | | | | |fd p [|c data]| | | | | | | | | | | | | | | | | | | | | | | | | |]; try done.
      intros -> x Hx. cbn in Eg. rewrite Hx in Eg. by apply orb_true_iff in Eg as [Hb%bool_decide_eq_true|?].
    + intros x j th _ Hj Hth. destruct (Hidle j th Hj Hth) as [-> _]. apply not_elem_of_nil.
  - intros j th t' Hth Hj Hin. destruct (Hidle j th Hj Hth) as [_ Hf]. rewrite Forall_forall in Hf.
    destruct (Hf t' Hin) as [-> ->]. by split.
Qed.

Definition busy_machine : machine sim server point :=
  advance 45 (Machine (server_world (set_inq {[7 := one_message]} sim_empty))
                [Thread [] [PRead 7]; Thread [] [PSend sample_id (str "hi") 7]]).

Lemma busy_threads :
  threads busy_machine =
  [Thread [RR_mutex 0] [PSendLock (frame_of sample_id (str "no way bro")) 48 7 1; PFeedClear 7 0; PFeed 7 0 [];
                        PReadSome 7 0; PReadUnlock 7 0];
   Thread [] [PSend sample_id (str "hi") 7]].
Proof. vm_compute. reflexivity. Qed.

Lemma busy_reached :
  rtc sserver_step (Machine (server_world (set_inq {[7 := one_message]} sim_empty)) []) busy_machine.
Proof.
  eapply rtc_l; [by apply (step_start _ _ _ _ (PRead 7))|].
  eapply rtc_l; [apply (step_start _ _ _ _ (PSend sample_id (str "hi") 7))|].
  { split; [done|]. split; vm_compute; [intros E; discriminate E|reflexivity]. }
  apply advance_reached. repeat constructor.
Qed.

Lemma server_threads_safe_witness :
  ∃ ts' w', server_section sserver_sends to_list (PSendLock (frame_of sample_id (str "no way bro")) 48 7 1)
              (as_thread [RR_mutex 0] (shared busy_machine)) = Ret ts' w'.
Proof.
  destruct (server_threads_safe sserver_sends to_list (server_world (set_inq {[7 := one_message]} sim_empty)) busy_machine)
    as (_ & _ & Hnext).
  - apply sample_ok.
  - apply busy_reached.
  - destruct (Hnext 0%nat _ _ _ ltac:(rewrite busy_threads; reflexivity) eq_refl) as [_ Hrun]. exact (Hrun I).
Defined.

(** C7.  The server's threads never wait for each other for ever.  In every state that they
    reach, while one of them has something to do, one of them can do what it does next
    without waiting for a mutex of another: the mutexes of readers are taken before those
    of writers, these before that of the zombies, and those of the maps after all others.
    (The reaper coming to an entry that it ought to spare counts among the things that can
    be done: it does not wait.) *)
Theorem server_threads_no_deadlock {K : Type} `{SocketKernel K} sends `{!WholeReplies sends} iterate
    (w : world K server) (m : machine K server point) :
  ok [] w →
  rtc (machine_step (server_section sends iterate) granted spared begins) (Machine w []) m →
  (∀ i th t rest, threads m !! i = Some th → todo th = t :: rest → granted t (shared m)) →
  (∃ i th, threads m !! i = Some th ∧ todo th ≠ []) →
  ∃ i t m', runs_point (server_section sends iterate) granted i t m m'.
Proof.
  intros Hok Hr Hg Hsome. pose proof (reached_ok sends iterate w m Hok Hr) as Hm.
  destruct m as [w1 ts]. apply (some_thread_runs server_rank); [|intros i th Hi E|done].
  - intros i [hs [|t rest]] Hi Hne; [done|]. pose proof (Hg i _ t rest Hi eq_refl) as Ht.
    destruct (next_section sends iterate _ i hs t rest Hm Hi Ht) as (Ehs & ts' & w' & E & Ha).
    exists t, rest, ts', w'. split_and!; [done|exact Ht|exact E|apply Ha|]. cbn [owns shared] in *. subst hs.
    exact (after_taken _ _ _ _ _ Ha).
  - destruct (machine_threads _ Hm _ _ Hi) as (-> & _ & _). by rewrite E.
Qed.

Lemma server_threads_no_deadlock_witness :
  ∃ i t m', runs_point (server_section sserver_sends to_list) granted i t busy_machine m'.
Proof.
  apply (server_threads_no_deadlock sserver_sends to_list (server_world (set_inq {[7 := one_message]} sim_empty))).
  - apply sample_ok.
  - apply busy_reached.
  - rewrite busy_threads. intros [|[|i]] th t rest Hi E; [| |discriminate Hi]; injection Hi as <-; injection E as <- <-; exact I.
  - exists 1%nat, (Thread [] [PSend sample_id (str "hi") 7]). rewrite busy_threads. split; [reflexivity|]. intros E. discriminate E.
Defined.
