(* ===== verification/Service.v ===== *)
(** * The server [sserver] as a service

    What the clients of [sserver] may rely on: each connection is a responder that
    answers every complete message of its stream, once and in order, with the
    identifier of the message.  The responder is an abstract machine on two streams of
    bytes; the refinement theorem maps every operation of any thread, on this and on
    other connections, to its steps. *)

From stdpp Require Import relations.
From S2P Require Import Prelude Utils BufferedReader BufferedWriter Kernel Simulation SocketUtils.
From S2P Require Import SocketServer ServerProofs ServerTheorems ServerTasks.

(** ** The specification

    A connection: what has come and is not answered yet, and what has been promised to
    the other side. *)
Record conn := Conn { unread : bytes; promised : bytes }.

(** The answers to the complete messages of a stream. *)
Definition answers_to (stream : bytes) : bytes := replies (map decode (feed EOT [] stream).1).

(** The steps of the responder, each with the data that come with it. *)
Inductive conn_step : conn → bytes → conn → Prop :=
  | conn_idle c : conn_step c [] c
  | conn_arrive i o data : conn_step (Conn i o) data (Conn (i ++ data) o)
  | conn_serve i o : conn_step (Conn i o) [] (Conn (feed EOT [] i).2 (o ++ answers_to i)).

(** Many steps, with all the data that come with them. *)
Inductive runs {St} (R : St → bytes → St → Prop) : St → bytes → St → Prop :=
  | runs_refl s : runs R s [] s
  | runs_step s1 x s2 y s3 : R s1 x s2 → runs R s2 y s3 → runs R s1 (x ++ y) s3.

Lemma answers_to_app x y :
  answers_to (x ++ y) = answers_to x ++ replies (map decode (feed EOT (feed EOT [] x).2 y).1).
Proof.
  unfold answers_to, replies. rewrite feed_app. destruct (feed EOT [] x) as [f1 b1]. cbn [fst snd].
  destruct (feed EOT b1 y) as [f2 b2]. cbn [fst]. by rewrite !map_app, concat_app.
Qed.

(** The rest of a stream has no complete message. *)
Lemma rest_partial i : EOT ∉ (feed EOT [] i).2.
Proof.
  destruct (feed EOT [] i) as [frames rest] eqn:E.
  apply (feed_no_delim _ _ _ _ _ E), not_elem_of_nil.
Qed.

Lemma feed_rest i data : feed EOT [] ((feed EOT [] i).2 ++ data) = feed EOT (feed EOT [] i).2 data.
Proof. apply feed_buffer, rest_partial. Qed.

Lemma answers_to_rest i data :
  answers_to (i ++ data) = answers_to i ++ answers_to ((feed EOT [] i).2 ++ data).
Proof. rewrite answers_to_app. f_equal. unfold answers_to. by rewrite feed_rest. Qed.

(** What is promised, with what there is to answer, is the same however the steps are
    interleaved. *)
Lemma conn_promise c x c' :
  runs conn_step c x c' →
  promised c' ++ answers_to (unread c') = promised c ++ answers_to (unread c ++ x).
Proof.
  induction 1 as [c|c1 x c2 y c3 Hs _ IH]; [by rewrite app_nil_r|]. rewrite IH.
  destruct Hs as [c|i o data|i o]; cbn [app unread promised].
  - done.
  - by rewrite <-app_assoc.
  - by rewrite (answers_to_rest i), <-app_assoc.
Qed.

(** ** Kernels that keep their connections apart

    What a system call on one descriptor does not do to another. *)
Class ConnectionKernel (K : Type) `{SocketKernel K} := {
  read_apart fd n k fd' : fd' ≠ fd → inbox fd' (sys_read fd n k).2 = inbox fd' k;
  write_apart fd data k fd' : fd' ≠ fd → sent fd' (sys_write fd data k).2 = sent fd' k;
  write_inbox fd data k fd' : inbox fd' (sys_write fd data k).2 = inbox fd' k;
  close_apart fd k fd' : fd' ≠ fd →
    inbox fd' (sys_close fd k) = inbox fd' k ∧ sent fd' (sys_close fd k) = sent fd' k;
  wait_apart ep n k fd' :
    inbox fd' (sys_epoll_wait ep n k).2 = inbox fd' k ∧ sent fd' (sys_epoll_wait ep n k).2 = sent fd' k
}.

#[export] Instance sim_connection_kernel : ConnectionKernel sim.
Proof.
  split; cbn; unfold sim_read, sim_write, sim_inbox, sim_sent.
  - intros fd n k fd' Hne. destruct (0 <? n); [|done].
    destruct (default [] (inq k !! fd)); [done|]. cbn. by rewrite lookup_insert_ne.
  - intros fd data k fd' Hne. destruct (rooms k); [done|]. cbn. by rewrite lookup_insert_ne.
  - intros fd data k fd'. by destruct (rooms k).
  - done.
  - intros ep n k fd'. by destruct (batches k).
Qed.

(** ** The program *)
Section service.
Context {K : Type} `{ConnectionKernel K}.
Context (iterate : gmap Z Z → list (Z * Z)) (fd : Z).
Implicit Types (w : world K server) (k : K).

(** The abstract connection: the reader's buffer comes before what the kernel has, and
    what the kernel took before what the writer holds. *)
Definition abs_conn w : option conn :=
  x ← rrm (app w) !! fd;
  y ← wrm (app w) !! fd;
  Some (Conn (buffer (r_br x) ++ inbox fd (kern w)) (sent fd (kern w) ++ wbuffer (w_bw y))).

(** The kernel takes the chunks of the next [n] writes whole, or not at all. *)
Fixpoint unsplit (n : nat) k : Prop :=
  match n with
  | O => True
  | Datatypes.S n' => ∀ data, len data ≤ 1024 →
      match sys_write fd data k with
      | (SysOk r, k') => r = len data ∧ unsplit n' k'
      | (SysErr _, _) => True
      end
  end.

(** The operations of the threads of [sserver]: its handler is the only one that sends to
    the connection. *)
Definition proper_action (a : action) w : Prop :=
  match a with
  | Sending _ _ fd' => fd' ≠ fd
  | Writing fd' => fd' = fd → unsplit (pending fd (app w)) (kern w)
  | _ => True
  end.

(** A step of a thread, after which the connection is still no zombie, or more data on the
    network. *)
Inductive serve_step : world K server → bytes → world K server → Prop :=
  | serve_action a w w' :
      allowed a w → proper_action a w → perform sserver_handler iterate a w = Ret tt w' →
      zm (app w') !! fd = None → serve_step w [] w'
  | serve_network data k w :
      inbox fd k = inbox fd (kern w) ++ data → sent fd k = sent fd (kern w) →
      serve_step w data (World k (locks w) (app w)).

(** A connection at work. *)
Record serving w : Prop := {
  serving_ok : ok [] w;
  serving_alive : zm (app w) !! fd = None;
  serving_reader : ∃ x, rrm (app w) !! fd = Some x ∧ r_is_valid x = true;
  serving_writer : ∃ y, wrm (app w) !! fd = Some y ∧ w_is_valid y = true
}.

(** ** Steps that have nothing to do with the connection *)
Record untouched w w' : Prop := {
  untouched_rrm : rrm (app w') !! fd = rrm (app w) !! fd;
  untouched_wrm : wrm (app w') !! fd = wrm (app w) !! fd;
  untouched_inbox : inbox fd (kern w') = inbox fd (kern w);
  untouched_sent : sent fd (kern w') = sent fd (kern w)
}.

#[local] Instance untouched_preorder : PreOrder untouched.
Proof. split; [done|]. intros w1 w2 w3 [] []. split; congruence. Qed.

Lemma untouched_abs w w' : untouched w w' → abs_conn w' = abs_conn w.
Proof. intros [E1 E2 E3 E4]. unfold abs_conn. by rewrite E1, E2, E3, E4. Qed.

Lemma untouched_serving w w' :
  untouched w w' → serving w → ok [] w' → zm (app w') !! fd = None → serving w'.
Proof. intros [E1 E2 _ _] [] Hok Hz. by split; rewrite ?E1, ?E2. Qed.

Lemma untouched_mod k l s l' s' ep fd' ev :
  rrm s' !! fd = rrm s !! fd → wrm s' !! fd = wrm s !! fd →
  untouched (World k l s) (World (sys_epoll_mod ep fd' ev k).2 l' s').
Proof. intros E1 E2. destruct (mod_frame ep fd' ev k fd) as (? & _ & ?). by split. Qed.

Lemma untouched_time k l s l' s' :
  rrm s' !! fd = rrm s !! fd → wrm s' !! fd = wrm s !! fd →
  untouched (World k l s) (World (sys_gettimeofday k).2 l' s').
Proof. intros E1 E2. destruct (time_frame k fd) as (? & _ & ? & _). by split. Qed.

(** Sending leaves what has been sent to the kernel, and other connections. *)
Lemma send_kernel hs u m fd' w w' :
  ok hs w → below server_rank (WR_mutex 0) hs → 37 ≤ len u → frame_fits m →
  send_msg u m fd' w = Ret tt w' →
  sent fd (kern w') = sent fd (kern w) ∧ zm (app w') = zm (app w) ∧ (fd' ≠ fd → untouched w w').
Proof.
  intros Hok Hb Hu Hm E. assert (sent fd (kern w') = sent fd (kern w) ∧ inbox fd (kern w') = inbox fd (kern w))
    as [E1 E2].
  { destruct w as [k l s]. pose proof Hok as [A1 _ A3]. cbn in A1, A3.
    assert (∀ m, (1 ≤ server_rank m)%nat → m ∉ held l) as Hh
      by (intros m' Hr; rewrite A1; by apply below_fresh, send_below).
    destruct (wrm s !! fd') as [y|] eqn:Hy.
    - rewrite (send_msg_some _ _ _ _ _ _ y) in E by
        (first [done | apply Hh; cbn; lia | by eapply wf_wr]).
      injection E as <-. cbn. by destruct (mod_frame (ep_sfd s) fd' (Z.lor (get0 (sfd_events s) fd') EPOLLOUT) k fd)
        as (? & _ & ?).
    - rewrite send_msg_none in E by (first [done | apply Hh; cbn; lia]). by injection E as <-. }
  pose proof (send_msg_app hs u m fd' w w' Hok Hb Hu Hm E) as Ha.
  split_and!; [done|rewrite Ha; by destruct (wrm (app w) !! fd')|].
  intros Hne. split; [..|done|done]; rewrite Ha; destruct (wrm (app w) !! fd'); try done.
  cbn. by rewrite lookup_insert_ne.
Qed.

(** A descriptor accepted. *)
Lemma add_untouched fd' w w' :
  serving w → add fd' w = Ret tt w' → untouched w w' ∧ zm (app w') = zm (app w).
Proof.
  intros [Hok _ (x & Hx & _) (y & Hy & _)]. destruct w as [k l s]. cbn in Hx, Hy.
  rewrite add_run by apply (ok_unheld _ _ Hok). intros [= <-]. split; [|done].
  split; cbn; try done; unfold emplace; destruct (decide (fd' = fd)) as [->|Hne].
  - by rewrite Hx.
  - destruct (rrm s !! fd'); [done|]. by rewrite lookup_insert_ne.
  - by rewrite Hy.
  - destruct (wrm s !! fd'); [done|]. by rewrite lookup_insert_ne.
Qed.

(** The work of a reading thread on another connection. *)
Lemma untouched_about_rest fd' w : fd' ≠ fd → about_rest fd' (λ _ w', untouched w w').
Proof.
  intros Hne _ w1 w2 U E Hk. transitivity w1; [done|]. split.
  - apply (rest_rrm _ _ _ E). congruence.
  - by rewrite (rest_wrm _ _ _ E).
  - destruct Hk as [->|[n k|ep fd2 ev k|k]]; [done|by apply read_apart; congruence|by apply mod_frame|by apply time_frame].
  - destruct Hk as [->|[n k|ep fd2 ev k|k]]; [done|by apply read_frame|by apply mod_frame|by apply time_frame].
Qed.

Lemma untouched_handles fd' w :
  fd' ≠ fd → handles whole (λ _ w', untouched w w') (sserver_handler (K:=K)) fd'.
Proof.
  intros Hne p ms u m w1 Hok U [Hu Hm]. cbn in Hu, Hm.
  destruct (send_msg_ok [RR_mutex p] u (str "no way bro") fd' w1) as (w2 & E & Hok2 & Hr & Hio);
    [done|repeat constructor|done|done|].
  exists w2. split_and!; [done|done| |done|done]. transitivity w1; [done|].
  apply (send_kernel [RR_mutex p] u (str "no way bro") fd' w1 w2); try done. repeat constructor.
Qed.

Lemma read_untouched fd' w w' :
  fd' ≠ fd → ok [] w → allowed (Reading fd') w →
  perform sserver_handler iterate (Reading fd') w = Ret tt w' → ok [] w' ∧ untouched w w'.
Proof.
  intros Hne Hok Ha E.
  destruct (read_ok sserver_handler iterate (λ _ w', untouched w w') fd' w) as (ms & w2 & E2 & Hok2 & U & _); try done.
  - by apply untouched_about_rest.
  - by apply untouched_handles.
  - rewrite E in E2. by injection E2 as <-.
Qed.

(** The work of a writing thread on another connection. *)
Lemma write_untouched fd' w w' :
  fd' ≠ fd → ok [] w → perform sserver_handler iterate (Writing fd') w = Ret tt w' →
  ok [] w' ∧ untouched w w'.
Proof.
  intros Hne Hok E. set (I := λ (_ : bytes) k, inbox fd k = inbox fd (kern w) ∧ sent fd k = sent fd (kern w)).
  assert (about_writing fd' I I) as HI.
  { split; [split; [done|]|done|..].
    - intros b k _ [E1 E2]. pose proof (write_inbox fd' (take 1024 b) k fd) as F1.
      pose proof (write_apart fd' (take 1024 b) k fd) as F2.
      destruct (sys_write fd' (take 1024 b) k) as [[e|r] k']; cbn in F1, F2; split; rewrite ?F1, ?F2; congruence.
    - intros ep ev b k [E1 E2]. destruct (mod_frame ep fd' ev k fd) as (F1 & _ & F2). split; congruence.
    - intros b k [E1 E2]. destruct (time_frame k fd) as (F1 & _ & F2 & _). split; congruence. }
  cbn [perform] in E.
  destruct (decide (is_Some (wrm (app w) !! fd'))) as [[y Hy]|Hn].
  - destruct (server_write_run fd' I I HI w Hok) as (w2 & E2 & Hok2 & Hw & Hi); [done|].
    rewrite E in E2. injection E2 as <-. destruct (Hi y Hy) as (y' & _ & _ & Hi1 & Hi2).
    split; [done|]. split; [by rewrite (written_rrm _ _ _ Hw)|apply (written_wrm _ _ _ Hw); congruence|done|done].
  - apply eq_None_not_Some in Hn. destruct w as [k l s]. cbn in Hn.
    assert (W_mutex ∉ held l) as Hl by apply (ok_unheld _ W_mutex Hok).
    rewrite write_split in E by done. revert E. run_with (write_find_run fd' k l s Hl). rewrite Hn. intros [= <-].
    split; [|done]. by apply (ok_traced _ _ k k l s s); [|constructor|..].
Qed.

(** ** The loop of events and the reaper *)

(** A part of a round of the loop: zombies stay zombies, and while the connection is
    none, it is left alone. *)
Definition passes w w' : Prop :=
  (zm (app w') !! fd = None → zm (app w) !! fd = None ∧ untouched w w').

Lemma passes_trans w1 w2 w3 : passes w1 w2 → passes w2 w3 → passes w1 w3.
Proof. intros P1 P2 Hz. destruct (P2 Hz) as [Hz2 U2]. destruct (P1 Hz2) as [Hz1 U1]. split; [done|by etransitivity]. Qed.

Lemma handle_event_passes ev w w' :
  ok [] w → handle_event ev w = Ret tt w' → passes w w'.
Proof.
  intros Hok. destruct ev as [fd' events], w as [k l s].
  assert (∀ m, m ∉ held l) as Hh by (intros m; apply (ok_unheld _ m Hok)).
  unfold handle_event. destruct (has events EPOLLERR || has events EPOLLHUP).
  { run_with (a_zombied_run fd' k l s (Hh _)). intros [= <-]. unfold passes. cbn.
    intros [Hz Hne]%lookup_insert_None. split; [done|].
    destruct (close_apart fd' (sys_gettimeofday k).2 fd) as [E1 E2]; [congruence|].
    destruct (time_frame k fd) as (F1 & _ & F2 & _). split; cbn; congruence. }
  srun. destruct (fd' =? i_sfd s); [by intros [= <-]|].
  destruct (has events EPOLLIN).
  - run_with (read_callback_run fd' k l s (Hh _)).
    destruct (has events EPOLLOUT); [rewrite write_callback_run by apply Hh|]; intros [= <-] Hz;
      (split; [done|]); [|by apply untouched_mod].
    etransitivity; [by apply (untouched_mod _ l s l s)|]. by apply untouched_mod.
  - srun. destruct (has events EPOLLOUT); [rewrite write_callback_run by apply Hh|]; intros [= <-] Hz;
      [split; [done|by apply untouched_mod]|done].
Qed.

Lemma handle_events_pass evs w w' :
  ok [] w → fold_m (λ ev (_ : unit), handle_event ev) evs tt w = Ret tt w' → passes w w'.
Proof.
  revert w. induction evs as [|ev evs IH]; intros w Hok; [by intros [= <-]|]. cbn [fold_m].
  destruct (handle_event_ok ev w Hok) as (w1 & E1 & Hok1). run_with E1. intros E.
  apply (passes_trans _ w1); [by apply (handle_event_passes ev)|by apply IH].
Qed.

Lemma process_batch_passes w w' :
  wait_bounded → ok [] w → process_batch w = Ret tt w' → passes w w'.
Proof.
  intros Hwb Hok. destruct w as [k l s]. unfold process_batch. srun.
  pose proof (wait_apart (ep_sfd s) 64 k fd) as [F1 F2].
  destruct (sys_epoll_wait (ep_sfd s) 64 k) as [[e|evs] k'] eqn:E; cbn [fst snd] in *.
  - intros [= <-] Hz. split; [done|]. by split.
  - specialize (Hwb _ _ _ _ E). rewrite for_index_total by lia. rewrite Nat2Z.id, firstn_all.
    unfold set_kern. cbn [locks app]. intros E2. apply (passes_trans _ (World k' l s)).
    + intros Hz. split; [done|]. by split.
    + apply (handle_events_pass evs); [by eapply ok_kern|done].
Qed.

(** A round of the reaper, while the connection is no zombie. *)
Lemma reap_untouched w w' :
  (∀ m, iterate m ≡ₚ map_to_list m) → ok [] w → zm (app w) !! fd = None → reap iterate w = Ret tt w' →
  untouched w w'.
Proof.
  intros Hit Hok Hz E.
  destruct (reap_run (λ k, inbox fd k = inbox fd (kern w) ∧ sent fd k = sent fd (kern w)) 0 (2 ^ 60)
      (λ fd', fd' ≠ fd))
    with (iterate := iterate) (w := w)
    as (zv & w2 & E2 & _ & Hr & Hw & _ & Hzv & _ & _ & _ & _ & [Hi Hs] & _); try done.
  - intros k [E1 E2]. destruct (time_frame k fd) as (F1 & _ & F2 & _). split; congruence.
  - intros fd' k Hne [E1 E2]. destruct (close_apart fd' k fd) as [F1 F2]; [congruence|]. split; congruence.
  - intros k _. pose proof (now_range k). lia.
  - intros fd' [t Ht] ->. congruence.
  - rewrite E in E2. injection E2 as <-.
    assert (fd ∉ zv) as Hn by (intros Hin; destruct (Hzv fd Hin) as (t & Ht & _); congruence).
    split; [by rewrite Hr, decide_False|by rewrite Hw, decide_False|done|done].
Qed.

(** ** The work on the connection itself *)
Lemma abs_serving w :
  serving w → ∃ b p o q,
    rrm (app w) !! fd = Some (MkReadR (MkBufferedReader b (Some EOT) (Some fd)) p true) ∧ (EOT ∉ b) ∧
    wrm (app w) !! fd = Some (MkWriteR (MkBufferedWriter o) q true) ∧
    abs_conn w = Some (Conn (b ++ inbox fd (kern w)) (sent fd (kern w) ++ o)).
Proof.
  intros [Hok _ ([br p v] & Hx & Hv) ([[o] q v'] & Hy & Hv')]. cbn in Hv, Hv'. subst.
  destruct (wf_rr _ _ _ (ok_wf _ _ Hok) _ _ Hx) as (_ & b & Hb & Hn). cbn in Hb. subst br.
  exists b, p, o, q. split_and!; [done..|]. unfold abs_conn. by rewrite Hx, Hy.
Qed.

(** What the answers are made of: the writer's buffer grows, and nothing is sent yet. *)
Definition answering (old out : bytes) (ms : list (bytes * bytes)) w : Prop :=
  answered fd old ms w ∧ sent fd (kern w) = out.

Lemma answering_frame old out : about_rest fd (answering old out).
Proof.
  intros ms w w' [[q Hq] Hs] E Hk. split; [exists q; by rewrite (rest_wrm _ _ _ E)|]. rewrite <-Hs.
  destruct Hk as [->|[n k|ep fd' ev k|k]]; [done|by apply read_frame|by apply mod_frame|by apply time_frame].
Qed.

Lemma sserver_answering old out :
  handles (λ p, len p.1 = 37) (answering old out) (sserver_handler (K:=K)) fd.
Proof.
  intros p ms u m w Hok [Ha Hs] Hu. cbn in Hu.
  destruct (sserver_answers_all fd old p ms u m w Hok Ha Hu) as (w' & E & Hok' & Ha' & Hr & Hio).
  exists w'. split_and!; [done|done| |done|done]. split; [done|]. rewrite <-Hs.
  destruct (send_kernel [RR_mutex p] u (str "no way bro") fd w w') as [Hk _]; try (done || lia).
  repeat constructor.
Qed.

(** A reading thread answers all the messages that have come. *)
Lemma read_serves w w' :
  serving w → allowed (Reading fd) w →
  perform sserver_handler iterate (Reading fd) w = Ret tt w' → zm (app w') !! fd = None →
  serving w' ∧ ∃ i o, abs_conn w = Some (Conn i o) ∧
    abs_conn w' = Some (Conn (feed EOT [] i).2 (o ++ answers_to i)).
Proof.
  intros S Ha E Hz. pose proof (serving_ok _ S) as Hok.
  destruct (abs_serving w S) as (b & p & o & q & Hx & Hb & Hy & Habs).
  destruct w as [k l s]. cbn in Hx, Hy, Habs, E, Ha. destruct (Ha _ Hx) as [Hlen HF]. cbn in Hlen, HF.
  rewrite length_app in Hlen. rewrite feed_buffer in HF by done.
  destruct (feed EOT b (inbox fd k)) as [frames rest] eqn:Ef. cbn in HF.
  destruct (read_entry_run (λ p, len p.1 = 37) (answering o (sent fd k)) sserver_handler fd
      (answering_frame _ _) (sserver_answering _ _) (Datatypes.S (length (inbox fd k))) k l s
      (MkReadR (MkBufferedReader b (Some EOT) (Some fd)) p true) b frames rest)
    as (w2 & E2 & Hok2 & [[q' Hw2] Hs2] & Hi2 & Hx2 & Hend); try done.
  - split; [|done]. exists q. cbn. unfold replies. cbn. by rewrite app_nil_r.
  - lia.
  - lia.
  - eapply Forall_impl; [exact HF|]. intros f Hf. cbn in *. rewrite length_take. lia.
  - rewrite E in E2. injection E2 as <-. destruct (inbox_end fd k) eqn:He; cbn in Hx2, Hend; cycle 1;
      [by destruct Hend as [? Hend]; rewrite Hz in Hend..|].
    split; [split; [done|done|by eexists|by eexists]|]. do 2 eexists. split; [exact Habs|].
    unfold abs_conn, answers_to. rewrite Hx2, Hw2. cbn. rewrite Hi2, Hs2, feed_buffer, Ef by done. cbn.
    by rewrite app_nil_r, app_assoc.
Qed.

Lemma unsplit_mono n n' k : (n' ≤ n)%nat → unsplit n k → unsplit n' k.
Proof.
  revert n k. induction n' as [|n' IH]; intros n k Hn Hu; [done|]. destruct n as [|n]; [lia|].
  intros data Hd. specialize (Hu data Hd). destruct (sys_write fd data k) as [[e|r] k']; [done|].
  destruct Hu as [-> Hu]. split; [done|]. apply (IH n); [lia|done].
Qed.

(** A writing thread only moves bytes from the buffer to the kernel. *)
Lemma write_serves w w' :
  serving w → unsplit (pending fd (app w)) (kern w) →
  perform sserver_handler iterate (Writing fd) w = Ret tt w' → zm (app w') !! fd = None →
  serving w' ∧ abs_conn w' = abs_conn w.
Proof.
  intros S Hu E Hz. pose proof (serving_ok _ S) as Hok. cbn [perform] in E.
  destruct (abs_serving w S) as (b & p & o & q & Hx & Hb & Hy & Habs).
  set (I := λ o' k, sent fd k ++ o' = sent fd (kern w) ++ o ∧ inbox fd k = inbox fd (kern w)).
  set (J := λ o' k, I o' k ∧ unsplit (length o') k).
  assert (about_writing fd J I) as HI.
  { split; [split; [by intros k []|]|by intros o' k []|..].
    - intros o' k Ho [[E1 E2] Hu']. pose proof (write_sent fd (take 1024 o') k) as Hs.
      pose proof (write_inbox fd (take 1024 o') k fd) as Hi.
      assert (0 < length o')%nat by (destruct o'; simpl; [done|lia]).
      destruct (length o') as [|n] eqn:En; [lia|]. specialize (Hu' (take 1024 o')). rewrite length_take in Hu'.
      destruct (sys_write fd (take 1024 o') k) as [[e|r] k']; cbn in Hi; [by split; rewrite ?Hs, ?Hi|].
      destruct Hs as [_ Hs]. destruct Hu' as [-> Hu']; [lia|]. split; [split|].
      + by rewrite Hs, Nat2Z.id, take_ge, <-app_assoc, take_drop by (rewrite length_take; lia).
      + by rewrite Hi.
      + apply (unsplit_mono n); [rewrite length_drop; lia|done].
    - intros ep ev o' k [E1 E2]. destruct (mod_frame ep fd ev k fd) as (F1 & _ & F2). split; congruence.
    - intros o' k [E1 E2]. destruct (time_frame k fd) as (F1 & _ & F2 & _). split; congruence. }
  destruct (server_write_run fd J I HI w Hok) as (w2 & E2 & Hok2 & Hw & Hi).
  { rewrite Hy. intros y [= <-]. unfold pending in Hu. rewrite Hy in Hu. by split. }
  rewrite E in E2. injection E2 as <-. destruct (Hi _ Hy) as (y & Hy' & _ & Hs & Hi'). destruct Hw.
  rewrite <-written_rrm in Hx. destruct written_valid as [Hv|[? Hv]]; [|congruence].
  rewrite Hy, Hy' in Hv. injection Hv as Hv.
  split; [split; [done|done|by eexists|by eexists]|]. rewrite Habs. unfold abs_conn. rewrite Hx, Hy'. cbn.
  by rewrite Hs, Hi'.
Qed.

(** Every operation is a step of the responder. *)
Lemma step_refines w x w' :
  wait_bounded → (∀ m, iterate m ≡ₚ map_to_list m) → serving w → serve_step w x w' →
  serving w' ∧ ∃ c c', abs_conn w = Some c ∧ abs_conn w' = Some c' ∧ conn_step c x c'.
Proof.
  intros Hwb Hit S Hs. pose proof (serving_ok _ S) as Hok.
  destruct (abs_serving w S) as (b & p & o & q & Hx & Hb & Hy & Habs).
  destruct Hs as [a w w' Ha Hp E Hz|data k w Hi Hs].
  - assert (ok [] w') as Hok'.
    { destruct (allowed_ok sserver_handler iterate a w Hwb Hit sserver_handles_whole Hok Ha) as (w2 & E2 & Hok2).
      rewrite E in E2. by injection E2 as <-. }
    assert (untouched w w' → serving w' ∧ ∃ c c', abs_conn w = Some c ∧ abs_conn w' = Some c' ∧ conn_step c [] c')
      as Hu.
    { intros U. split; [by apply (untouched_serving w)|]. rewrite (untouched_abs _ _ U), Habs.
      do 2 eexists. split_and!; [done|done|constructor]. }
    destruct a as [fd'|fd'|fd'|u m fd'| |].
    + by apply Hu, (add_untouched fd').
    + destruct (decide (fd' = fd)) as [->|Hne]; [|by apply Hu, (read_untouched fd')].
      destruct (read_serves w w' S Ha E Hz) as (S' & i & out & E1 & E2). split; [done|].
      do 2 eexists. split_and!; [done|done|constructor].
    + destruct (decide (fd' = fd)) as [->|Hne]; [|by apply Hu, (write_untouched fd')].
      destruct (write_serves w w' S (Hp eq_refl) E Hz) as [S' E']. split; [done|]. rewrite E', Habs.
      do 2 eexists. split_and!; [done|done|constructor].
    + destruct Ha as [Hu' Hm]. apply Hu. apply (send_kernel [] u m fd' w w'); try done. constructor.
    + apply Hu. by apply (process_batch_passes w w').
    + apply Hu, reap_untouched; try done. apply S.
  - split; [destruct S; split; try done; destruct w; by eapply ok_kern|]. rewrite Habs.
    exists (Conn (b ++ inbox fd (kern w)) (sent fd (kern w) ++ o)). eexists. split_and!; [done|..].
    + unfold abs_conn. cbn. by rewrite Hx, Hy.
    + cbn. rewrite Hi, Hs, app_assoc. constructor.
Qed.

Lemma runs_refine w x w' :
  wait_bounded → (∀ m, iterate m ≡ₚ map_to_list m) → serving w → runs serve_step w x w' →
  serving w' ∧ ∃ c c', abs_conn w = Some c ∧ abs_conn w' = Some c' ∧ runs conn_step c x c'.
Proof.
  intros Hwb Hit S Hr. induction Hr as [w|w1 x w2 y w3 Hs _ IH].
  - split; [done|]. destruct (abs_serving w S) as (b & p & o & q & _ & _ & _ & ->).
    do 2 eexists. split_and!; [done|done|constructor].
  - destruct (step_refines w1 x w2 Hwb Hit S Hs) as (S2 & c1 & c2 & E1 & E2 & Hc).
    destruct (IH S2) as (S3 & c2' & c3 & E2' & E3 & Hc'). rewrite E2 in E2'. injection E2' as <-.
    split; [done|]. exists c1, c3. split_and!; [done|done|by econstructor].
Qed.
End service.

(** ** Properties *)

(** C2.  What [sserver] does for a connection that lives, whose frames are whole, and
    whose chunks the kernel takes whole.  Whatever allowed operations its threads do, in
    whatever order they come, on this connection and on others, and however the data
    arrive, cut anywhere: each operation is a step of the responder of the
    specification.  So the bytes that were
    sent, those that wait in the writer, and the answers to what is not read yet are
    together the answers to the complete messages of all that has come, one for each, in
    order; once everything is read and written, all of them have been sent.  The three
    conditions, which the steps [serve_step] carry: the connection is not marked for death;
    the kernel takes each chunk that is written as a whole or not at all ([unsplit]), since
    [write_to_sfd] drops what a short write has left ([write_to_sfd_loss]); and every
    complete frame that is read has 37 bytes or more ([allowed]), since a shorter one is
    undefined behaviour ([server_short_frame]). *)
Theorem sserver_refines_responder {K : Type} `{ConnectionKernel K} iterate fd w x w' :
  wait_bounded → (∀ m, iterate m ≡ₚ map_to_list m) → serving fd w → runs (serve_step iterate fd) w x w' →
  serving fd w' ∧ ∃ c c',
    abs_conn fd w = Some c ∧ abs_conn fd w' = Some c' ∧ runs conn_step c x c' ∧
    promised c' ++ answers_to (unread c') = promised c ++ answers_to (unread c ++ x) ∧
    (inbox fd (kern w') = [] → pending fd (app w') = 0%nat →
     sent fd (kern w') = promised c ++ answers_to (unread c ++ x)).
Proof.
  intros Hwb Hit S Hr.
  destruct (runs_refine iterate fd w x w' Hwb Hit S Hr) as (S' & c & c' & E & E' & Hc).
  pose proof (conn_promise _ _ _ Hc) as Hp.
  split; [done|]. exists c, c'. split_and!; [done..|]. intros Hi Hn. rewrite <-Hp.
  destruct (abs_serving fd w' S') as (b & p & o & q & _ & Hb & Hy & Habs).
  unfold pending in Hn. rewrite Hy in Hn. apply nil_length_inv in Hn. cbn in Hn. subst o.
  rewrite E', Hi, !app_nil_r in Habs. injection Habs as ->. cbn [unread promised].
  unfold answers_to. pose proof (feed_buffer EOT b [] Hb) as Ef. rewrite app_nil_r in Ef. rewrite Ef. cbn.
  by rewrite app_nil_r.
Qed.

(** The simulated kernel, with room for some whole chunks, takes no part of one. *)
Lemma sim_unsplit fd n m k : rooms k = replicate m 1024 → unsplit fd n k.
Proof.
  revert m k. induction n as [|n IH]; intros m k Hk; [done|]. intros data Hd. cbn. unfold sim_write.
  rewrite Hk. destruct m as [|m]; cbn; [done|]. rewrite Z.min_r, Z.max_r by lia. split; [done|]. by apply (IH m).
Qed.

(** Data for descriptor 7, and the state after an operation. *)
Definition arrives (data : bytes) (w : world sim server) : world sim server :=
  World (set_inq (<[7 := inbox 7 (kern w) ++ data]> (inq (kern w))) (kern w)) (locks w) (app w).

Definition performed (a : action) (w : world sim server) : world sim server :=
  match perform sserver_handler to_list a w with Ret _ w' => w' | _ => w end.

Lemma arrives_step data w : serve_step to_list 7 w data (arrives data w).
Proof.
  apply serve_network; [|done]. cbn. unfold sim_inbox at 1. cbn. by rewrite lookup_insert_eq.
Qed.

Lemma sample_serving k : serving 7 (server_world k).
Proof.
  split; [apply sample_ok|done|exists (MkReadR (BufferedReader_new EOT 7) 0 true)|
    exists (MkWriteR BufferedWriter_new 1 true)]; by split.
Qed.

(** Two messages arrive, cut within the second; an event, a reading thread, another
    connection, the rest, and the two threads again. *)
Lemma sserver_refines_responder_witness :
  ∃ w', runs (serve_step to_list 7) (server_world (set_batches [[(7, 1)]] (set_out ∅ [1024] sim_empty)))
          (wire two_messages) w' ∧ sent 7 (kern w') = replies two_messages.
Proof.
  set (w0 := server_world (set_batches [[(7, 1)]] (set_out ∅ [1024] sim_empty))).
  set (w1 := arrives (take 50 (wire two_messages)) w0).
  set (w2 := performed Events w1).
  set (w3 := performed (Reading 7) w2).
  set (w4 := performed (Accepted 9) w3).
  set (w5 := arrives (drop 50 (wire two_messages)) w4).
  set (w6 := performed (Reading 7) w5).
  set (w7 := performed (Writing 7) w6).
  assert (runs (serve_step to_list 7) w0 (wire two_messages) w7) as Hr.
  { change (wire two_messages) with (take 50 (wire two_messages) ++ [] ++ [] ++ [] ++ drop 50 (wire two_messages) ++ [] ++ [] ++ []).
    apply (runs_step _ w0 _ w1); [apply arrives_step|].
    apply (runs_step _ w1 _ w2); [apply (serve_action _ _ Events); [exact I|exact I|vm_compute; reflexivity..]|].
    apply (runs_step _ w2 _ w3); [apply (serve_action _ _ (Reading 7)); [|exact I|vm_compute; reflexivity..]|].
    { intros x Hx. vm_compute in Hx. injection Hx as <-. vm_compute.
      split; [reflexivity|repeat constructor; discriminate]. }
    apply (runs_step _ w3 _ w4); [apply (serve_action _ _ (Accepted 9)); [exact I|exact I|vm_compute; reflexivity..]|].
    apply (runs_step _ w4 _ w5); [apply arrives_step|].
    apply (runs_step _ w5 _ w6); [apply (serve_action _ _ (Reading 7)); [|exact I|vm_compute; reflexivity..]|].
    { intros x Hx. vm_compute in Hx. injection Hx as <-. vm_compute.
      split; [reflexivity|repeat constructor; discriminate]. }
    apply (runs_step _ w6 _ w7); [|apply runs_refl].
    apply (serve_action _ _ (Writing 7)); [exact I| |vm_compute; reflexivity..].
    intros _. apply (sim_unsplit 7 _ 1). vm_compute. reflexivity. }
  exists w7. split; [exact Hr|].
  destruct (sserver_refines_responder to_list 7 w0 (wire two_messages) w7) as (_ & c & c' & E & _ & _ & _ & Hsent).
  - apply sim_wait_bounded.
  - intros m. reflexivity.
  - apply sample_serving.
  - exact Hr.
  - rewrite Hsent by (vm_compute; reflexivity). vm_compute in E. injection E as <-. vm_compute. reflexivity.
Defined.
