(* ===== verification/SocketClient.v ===== *)
(** * [asutils::SocketClient]

    Models [src/src/main/cpp/common/socket_client.cpp] over any [Kernel].  The
    state is the record [client]; what its thread pools are given is kept as
    queues, and the epoll threads it starts as the list of their descriptors.
    Response call backs are closures: [UserCb] tags the caller's, whose bodies are
    an argument, and [BlockCb] is the one of the blocking [send_msg], which
    captures that call's local variables, here a [frame] in the state. *)

From S2P Require Import Prelude Utils BufferedReader BufferedWriter Kernel SocketUtils.

(** [sfd] and [ep_sfd] have no value until a connection is made. *)
Record HostStatus := MkHostStatus {
  is_healthy : bool;
  hs_sfd : option Z;
  hs_ep_sfd : option Z
}.

Inductive callback := UserCb (tag : nat) | BlockCb (frame : nat).

#[export] Instance callback_eq_dec : EqDecision callback.
Proof. solve_decision. Defined.

(** The locals of a blocking [send_msg] that its call back writes to. *)
Record frame := Frame { f_success : bool; f_result : bytes; f_ss : bool }.

(** The closures [process_f] and [write_f]. *)
Inductive client_task := ReadTask (ep_sfd sfd : Z) | WriteTask (ep_sfd sfd : Z).

Record client := Client {
  desired_hosts : list bytes;
  h_status : gmap bytes HostStatus;
  zm : gmap Z Z;
  conns : gmap Z bytes;
  call_backs : gmap Z (gmap bytes callback);
  rrm : gmap Z (ReadR (Z * Z));
  wrm : gmap Z WriteR;
  sfd_events : gmap Z Z;
  e_hosts : list bytes;
  r_tp : list client_task;
  w_tp : list client_task;
  ep_threads : list Z;
  frames : gmap nat frame;
  next_frame : nat
}.

Definition client_new (hosts : list bytes) : client :=
  Client hosts ∅ ∅ ∅ ∅ ∅ ∅ ∅ [] [] [] [] ∅ 0.

(** Updates of single members. *)
Definition upd_h_status f (c : client) : client :=
  Client (desired_hosts c) (f (h_status c)) (zm c) (conns c) (call_backs c) (rrm c) (wrm c)
    (sfd_events c) (e_hosts c) (r_tp c) (w_tp c) (ep_threads c) (frames c) (next_frame c).
Definition upd_zm f (c : client) : client :=
  Client (desired_hosts c) (h_status c) (f (zm c)) (conns c) (call_backs c) (rrm c) (wrm c)
    (sfd_events c) (e_hosts c) (r_tp c) (w_tp c) (ep_threads c) (frames c) (next_frame c).
Definition upd_conns f (c : client) : client :=
  Client (desired_hosts c) (h_status c) (zm c) (f (conns c)) (call_backs c) (rrm c) (wrm c)
    (sfd_events c) (e_hosts c) (r_tp c) (w_tp c) (ep_threads c) (frames c) (next_frame c).
Definition upd_call_backs f (c : client) : client :=
  Client (desired_hosts c) (h_status c) (zm c) (conns c) (f (call_backs c)) (rrm c) (wrm c)
    (sfd_events c) (e_hosts c) (r_tp c) (w_tp c) (ep_threads c) (frames c) (next_frame c).
Definition upd_rrm f (c : client) : client :=
  Client (desired_hosts c) (h_status c) (zm c) (conns c) (call_backs c) (f (rrm c)) (wrm c)
    (sfd_events c) (e_hosts c) (r_tp c) (w_tp c) (ep_threads c) (frames c) (next_frame c).
Definition upd_wrm f (c : client) : client :=
  Client (desired_hosts c) (h_status c) (zm c) (conns c) (call_backs c) (rrm c) (f (wrm c))
    (sfd_events c) (e_hosts c) (r_tp c) (w_tp c) (ep_threads c) (frames c) (next_frame c).
Definition upd_sfd_events f (c : client) : client :=
  Client (desired_hosts c) (h_status c) (zm c) (conns c) (call_backs c) (rrm c) (wrm c)
    (f (sfd_events c)) (e_hosts c) (r_tp c) (w_tp c) (ep_threads c) (frames c) (next_frame c).
Definition upd_e_hosts f (c : client) : client :=
  Client (desired_hosts c) (h_status c) (zm c) (conns c) (call_backs c) (rrm c) (wrm c)
    (sfd_events c) (f (e_hosts c)) (r_tp c) (w_tp c) (ep_threads c) (frames c) (next_frame c).
Definition upd_r_tp f (c : client) : client :=
  Client (desired_hosts c) (h_status c) (zm c) (conns c) (call_backs c) (rrm c) (wrm c)
    (sfd_events c) (e_hosts c) (f (r_tp c)) (w_tp c) (ep_threads c) (frames c) (next_frame c).
Definition upd_w_tp f (c : client) : client :=
  Client (desired_hosts c) (h_status c) (zm c) (conns c) (call_backs c) (rrm c) (wrm c)
    (sfd_events c) (e_hosts c) (r_tp c) (f (w_tp c)) (ep_threads c) (frames c) (next_frame c).
Definition upd_ep_threads f (c : client) : client :=
  Client (desired_hosts c) (h_status c) (zm c) (conns c) (call_backs c) (rrm c) (wrm c)
    (sfd_events c) (e_hosts c) (r_tp c) (w_tp c) (f (ep_threads c)) (frames c) (next_frame c).
Definition upd_frames f (c : client) : client :=
  Client (desired_hosts c) (h_status c) (zm c) (conns c) (call_backs c) (rrm c) (wrm c)
    (sfd_events c) (e_hosts c) (r_tp c) (w_tp c) (ep_threads c) (f (frames c)) (next_frame c).
Definition upd_next_frame f (c : client) : client :=
  Client (desired_hosts c) (h_status c) (zm c) (conns c) (call_backs c) (rrm c) (wrm c)
    (sfd_events c) (e_hosts c) (r_tp c) (w_tp c) (ep_threads c) (frames c) (f (next_frame c)).

(** Pointers to entries of the maps, and to their buffers. *)
Definition rr_ref (sfd : Z) : ref client (ReadR (Z * Z)) :=
  Ref (λ c, rrm c !! sfd) (λ x, upd_rrm (insert sfd x)).
Definition wr_ref (sfd : Z) : ref client WriteR :=
  Ref (λ c, wrm c !! sfd) (λ x, upd_wrm (insert sfd x)).
Definition br_ref (sfd : Z) : ref client (BufferedReader (Z * Z)) :=
  Ref (λ c, r_br <$> rrm c !! sfd)
    (λ b, upd_rrm (alter (λ x, MkReadR b (r_mutex x) (r_is_valid x)) sfd)).
Definition bw_ref (sfd : Z) : ref client BufferedWriter :=
  Ref (λ c, w_bw <$> wrm c !! sfd)
    (λ b, upd_wrm (alter (λ x, MkWriteR b (w_mutex x) (w_is_valid x)) sfd)).
Definition events_ref : ref client (gmap Z Z) :=
  Ref (λ c, Some (sfd_events c)) (λ m, upd_sfd_events (λ _, m)).

(** The value that [operator[]] puts into a map of [HostStatus]. *)
Definition no_status : HostStatus := MkHostStatus false (Some 0) (Some 0).

Section client.
Context {K : Type} `{Kernel K}.
Abbreviation Mc := (M (world K client)).

Definition get {A} (f : client → A) : Mc A := gets (λ w, f (app w)).
Definition put (f : client → client) : Mc unit := modify (λ w, set_app (f (app w)) w).

(** [operator[]] of the hash maps: an absent entry is made. *)
Definition status_of (node : bytes) : Mc HostStatus :=
  m ← get h_status;
  match m !! node with
  | Some st => mret st
  | None => put (upd_h_status (insert node no_status));; mret no_status
  end.

Definition node_of (sfd : Z) : Mc bytes :=
  m ← get conns;
  match m !! sfd with
  | Some node => mret node
  | None => put (upd_conns (insert sfd []));; mret []
  end.

Definition call_backs_of (sfd : Z) : Mc (gmap bytes callback) :=
  m ← get call_backs;
  match m !! sfd with
  | Some cbs => mret cbs
  | None => put (upd_call_backs (insert sfd ∅));; mret ∅
  end.

(** ** Connecting *)

(** The locals [host] and [port], set inside the [try] block; [false] when it was
    left by an exception. *)
Definition parse_node (node : bytes) : Mc (bool * bytes * Z) :=
  hp ← split node ":";
  catch_std
    (host ← index hp 0;
     p ← index hp 1;
     port ← stoi p;
     mret (true, host, wrap 32 port))
    (λ _, mret (false, [], 0)).

Definition make_connection (node : bytes) : Mc bool :=
  '(parsed, host, port) ← parse_node node;
  '(success, status) ←
    (if negb parsed then mret (false, MkHostStatus false None None)
     else
       server ← syscall (sys_gethostbyname (c_text host));
       r ← syscall sys_socket;
       let sfd := match r with SysErr _ => -1 | SysOk fd => fd end in
       if sfd <? 0 then mret (false, MkHostStatus false None None)
       else
         addr ← assume server;
         c_result ← syscall (sys_connect sfd addr (wrap 16 port));
         if int_result c_result <? 0 then mret (false, MkHostStatus false None None)
         else
           unblock_socket sfd;;
           ep ← create_and_config_epoll sfd;
           lock Conn_mutex;;
           put (upd_conns (insert sfd node));;
           unlock Conn_mutex;;
           lock E_mutex;;
           put (upd_sfd_events (insert sfd EPOLLIN));;
           unlock E_mutex;;
           put (upd_ep_threads (λ l, l ++ [ep]));;
           mret (true, MkHostStatus true (Some sfd) (Some ep)));
  lock Hs_mutex;;
  put (upd_h_status (insert node status));;
  unlock Hs_mutex;;
  mret success.

(** Adds a node to the list of those to try again. *)
Definition push_e_host (node : bytes) : Mc unit :=
  lock Eh_mutex;;
  put (upd_e_hosts (λ l, l ++ [node]));;
  unlock Eh_mutex.

Definition connect_to_hosts : Mc Z :=
  hosts ← get desired_hosts;
  fold_m (λ t s_conns,
    ok ← make_connection t;
    if ok : bool then mret (wrap 32 (s_conns + 1))
    else push_e_host t;; mret s_conns) hosts 0.

(** [e_hosts.erase(e_hosts.begin() + i)]. *)
Definition erase_e_host (i : Z) : Mc unit :=
  l ← get e_hosts;
  if (0 <=? i) && (i <? len l) then put (upd_e_hosts (λ l, delete (Z.to_nat i) l)) else undef.

(** One round of [retry_conn], after its sleep. *)
Definition retry_round : Mc unit :=
  lock Eh_mutex;;
  hosts ← get e_hosts;
  sci ← for_loop 32 (len hosts) (λ i sci,
    hosts ← get e_hosts;
    node ← index hosts i;
    ok ← make_connection node;
    mret (if ok : bool then sci ++ [i] else sci)) [];
  for_loop 32 (len sci) (λ i _, k ← index sci i; erase_e_host k) tt;;
  unlock Eh_mutex.

Fixpoint retry_conn (rounds : nat) : Mc unit :=
  match rounds with
  | O => mret tt
  | Datatypes.S n => retry_round;; retry_conn n
  end.

(** ** Dead connections *)
Definition a_zombied (sfd : Z) : Mc unit :=
  lock Conn_mutex;;
  node ← node_of sfd;
  unlock Conn_mutex;;
  lock Hs_mutex;;
  st ← status_of node;
  put (upd_h_status (insert node (MkHostStatus false (hs_sfd st) (hs_ep_sfd st))));;
  unlock Hs_mutex;;
  lock Z_mutex;;
  now ← epoch_millis;
  put (upd_zm (insert sfd now));;
  unlock Z_mutex.

Definition close_fd (fd : Z) : Mc unit := syscall (λ k, (tt, sys_close fd k)).

Definition clean_rr (sfd : Z) : Mc unit :=
  lock R_mutex;;
  m ← get rrm;
  match m !! sfd with
  | Some rr => delete_mutex (r_mutex rr);; put (upd_rrm (delete sfd))
  | None => mret tt
  end;;
  unlock R_mutex.

Definition clean_wr (sfd : Z) : Mc unit :=
  lock W_mutex;;
  m ← get wrm;
  match m !! sfd with
  | Some wr => delete_mutex (w_mutex wr);; put (upd_wrm (delete sfd))
  | None => mret tt
  end;;
  unlock W_mutex.

Definition close_n_clean (ep_sfd sfd : Z) : Mc unit :=
  lock Conn_mutex;;
  node ← node_of sfd;
  put (upd_conns (delete sfd));;
  unlock Conn_mutex;;
  close_fd sfd;;
  close_fd ep_sfd;;
  lock Cb_mutex;;
  put (upd_call_backs (delete sfd));;
  unlock Cb_mutex;;
  clean_rr sfd;;
  clean_wr sfd;;
  lock E_mutex;;
  put (upd_sfd_events (delete sfd));;
  unlock E_mutex.

(** One round of [reap_resources], for each zombie and all: [iterate] is the order of
    the hash map. *)
Definition reap_entry (zombie : Z * Z) (zv : list Z) : Mc (list Z) :=
  let '(sfd, t) := zombie in
  now ← epoch_millis;
  if 60000 <? wrap 64 (now - t) then
    lock Conn_mutex;;
    node ← node_of sfd;
    unlock Conn_mutex;;
    st ← status_of node;
    ep_sfd ← assume (hs_ep_sfd st);
    close_n_clean ep_sfd sfd;;
    let zv := zv ++ [sfd] in
    ok ← make_connection node;
    (if negb ok then push_e_host node else mret tt);;
    mret zv
  else mret zv.

Definition reap (iterate : gmap Z Z → list (Z * Z)) : Mc unit :=
  lock Z_mutex;;
  m ← get zm;
  zv ← fold_m reap_entry (iterate m) [];
  fold_m (λ zsfd _, put (upd_zm (delete zsfd))) zv tt;;
  unlock Z_mutex.

Fixpoint reap_resources (rounds : nat) (iterate : gmap Z Z → list (Z * Z)) : Mc unit :=
  match rounds with
  | O => mret tt
  | Datatypes.S n => reap iterate;; reap_resources n iterate
  end.

(** ** Responses *)
Section responses.
(** The caller's call backs. *)
Context (run_cb : nat → bytes → Mc unit).

(** [da_callback(std::move(msg_v))].  The call back of a blocking [send_msg] sets
    that call's locals; the call must still be there. *)
Definition call (cb : callback) (msg_v : bytes) : Mc unit :=
  match cb with
  | UserCb tag => run_cb tag msg_v
  | BlockCb f =>
      m ← get frames;
      _ ← assume (m !! f);
      put (upd_frames (insert f (Frame true msg_v true)))
  end.

(** The closure [call_back] of [read]. *)
Definition call_back_of (fds : Z * Z) (msg_frame : bytes) : Mc unit :=
  let '(ep_sfd, sfd) := fds in
  let msg_frame := msg_frame ++ [EOT] in
  '(uuid_v, msg_v) ← unpack_frame msg_frame (len msg_frame) [] [];
  lock Cb_mutex;;
  cbs ← call_backs_of sfd;
  match cbs !! uuid_v with
  | Some da_callback =>
      catch_std (call da_callback msg_v) (λ _, a_zombied sfd);;
      cbs ← call_backs_of sfd;
      put (upd_call_backs (insert sfd (delete uuid_v cbs)))
  | None => mret tt
  end;;
  unlock Cb_mutex.

Definition read_close (sfd : Z) : Mc unit :=
  rr ← load (in_app (rr_ref sfd));
  store (in_app (rr_ref sfd)) (MkReadR (r_br rr) (r_mutex rr) false);;
  a_zombied sfd.

Definition read (fuel : nat) (ep_sfd sfd : Z) : Mc unit :=
  lock R_mutex;;
  m ← get rrm;
  match m !! sfd with
  | None =>
      p ← new_mutex;
      put (upd_rrm (emplace sfd (MkReadR (BufferedReader_new EOT (ep_sfd, sfd)) p true)))
  | Some _ => mret tt
  end;;
  unlock R_mutex;;
  rr ← load (in_app (rr_ref sfd));
  lock (RR_mutex (r_mutex rr));;
  rr ← load (in_app (rr_ref sfd));
  (if r_is_valid rr then
     read_from_sfd call_back_of fuel ep_sfd sfd (in_app (br_ref sfd)) (read_close sfd)
       (in_app events_ref) E_mutex
   else mret tt);;
  rr ← load (in_app (rr_ref sfd));
  unlock (RR_mutex (r_mutex rr)).
End responses.

(** The writer of a descriptor, made when there is none. *)
Definition find_writer (sfd : Z) : Mc unit :=
  lock W_mutex;;
  m ← get wrm;
  match m !! sfd with
  | None =>
      p ← new_mutex;
      put (upd_wrm (emplace sfd (MkWriteR BufferedWriter_new p true)))
  | Some _ => mret tt
  end;;
  unlock W_mutex.

Definition write_close (sfd : Z) : Mc unit :=
  wr ← load (in_app (wr_ref sfd));
  store (in_app (wr_ref sfd)) (MkWriteR (w_bw wr) (w_mutex wr) false);;
  a_zombied sfd.

Definition write (fuel : nat) (ep_sfd sfd : Z) : Mc unit :=
  find_writer sfd;;
  wr ← load (in_app (wr_ref sfd));
  lock (WR_mutex (w_mutex wr));;
  wr ← load (in_app (wr_ref sfd));
  (if w_is_valid wr then
     write_to_sfd fuel ep_sfd sfd (in_app (bw_ref sfd)) (write_close sfd)
       (in_app events_ref) E_mutex
   else mret tt);;
  wr ← load (in_app (wr_ref sfd));
  unlock (WR_mutex (w_mutex wr)).

(** ** Sending *)

(** [send_msg] to the host at an index, with a call back and an identifier: the
    characters of [uuid_str.c_str()] are those of the string and a NUL. *)
Definition send_msg (data : bytes) (size : Z) (ni : Z) (resp_callback : option callback)
    (uuid_str : bytes) : Mc bool :=
  lock Hs_mutex;;
  hosts ← get desired_hosts;
  node ← index hosts ni;
  st ← status_of node;
  unlock Hs_mutex;;
  if negb (is_healthy st) then mret false
  else
    st ← status_of node;
    sfd ← assume (hs_sfd st);
    ep_sfd ← assume (hs_ep_sfd st);
    match resp_callback with
    | Some cb =>
        lock Cb_mutex;;
        cbs ← call_backs_of sfd;
        put (upd_call_backs (insert sfd (<[uuid_str := cb]> cbs)));;
        unlock Cb_mutex
    | None => mret tt
    end;;
    let mfs := wrap 32 (37 + size + 1) in
    msg_frame ← pack_frame (uuid_str ++ [NUL]) data size (replicate (Z.to_nat mfs) NUL);
    find_writer sfd;;
    wr ← load (in_app (wr_ref sfd));
    lock (WR_mutex (w_mutex wr));;
    wr ← load (in_app (wr_ref sfd));
    result ← (if w_is_valid wr
              then BufferedWriter.write (in_app (bw_ref sfd)) msg_frame mfs;; mret true
              else mret false);
    unlock (WR_mutex (w_mutex wr));;
    (if result : bool then arm EPOLLOUT ep_sfd sfd (in_app events_ref) E_mutex else mret tt);;
    mret result.

(** libuuid, see [build_uuid_str]. *)
Context (uuid_generate : Mc bytes) (uuid_unparse_lower : bytes → bytes).

(** [hash % n], undefined for 0. *)
Definition host_of (hash_key : bytes) : Mc Z :=
  hash ← hash_it hash_key;
  hosts ← get desired_hosts;
  if len hosts =? 0 then undef else mret (wrap 32 (hash mod len hosts)).

Definition send_msg_key (data : bytes) (size : Z) (hash_key : bytes)
    (resp_callback : option callback) : Mc bool :=
  ni ← host_of hash_key;
  uuid_str ← build_uuid_str uuid_generate uuid_unparse_lower;
  send_msg data size ni resp_callback uuid_str.

(** [while(!ss && w_status == no_timeout) w_status = cv.wait_for(...)]: each wait
    is one element of [waits]; it runs what other threads do meanwhile, and tells
    whether the wait timed out. *)
Fixpoint wait_loop (f : nat) (timed_out : bool) (waits : list (Mc bool)) : Mc unit :=
  m ← get frames;
  fr ← assume (m !! f);
  if f_ss fr || timed_out then mret tt
  else
    match waits with
    | [] => no_fuel
    | w :: waits' => t ← w; wait_loop f t waits'
    end.

(** The blocking [send_msg]: the result and the vector it fills. *)
Definition send_msg_wait (waits : list (Mc bool)) (data : bytes) (size ni : Z) (result : bytes)
    : Mc (bool * bytes) :=
  hosts ← get desired_hosts;
  node ← index hosts ni;
  st ← status_of node;
  sfd ← assume (hs_sfd st);
  f ← get next_frame;
  put (λ c, upd_frames (insert f (Frame false result false))
              (upd_next_frame Datatypes.S c));;
  uuid_str ← build_uuid_str uuid_generate uuid_unparse_lower;
  success ← send_msg data size ni (Some (BlockCb f)) uuid_str;
  m ← get frames;
  fr ← assume (m !! f);
  put (upd_frames (insert f (Frame success (f_result fr) (f_ss fr))));;
  (if success : bool then wait_loop f false waits else mret tt);;
  lock Cb_mutex;;
  cbs ← call_backs_of sfd;
  put (upd_call_backs (insert sfd (delete uuid_str cbs)));;
  unlock Cb_mutex;;
  m ← get frames;
  fr ← assume (m !! f);
  put (upd_frames (delete f));;
  mret (f_success fr, f_result fr).

Definition send_msg_wait_key (waits : list (Mc bool)) (data : bytes) (size : Z) (hash_key : bytes)
    (result : bytes) : Mc (bool * bytes) :=
  ni ← host_of hash_key;
  send_msg_wait waits data size ni result.

(** ** The epoll threads *)
Definition disarm (bit ep_sfd sfd : Z) : Mc unit :=
  lock E_mutex;;
  put (λ c, upd_sfd_events (insert sfd (Z.lxor (get0 (sfd_events c) sfd) bit)) c);;
  m ← get sfd_events;
  set_epoll ep_sfd sfd (get0 m sfd);;
  unlock E_mutex.

Definition read_callback (ep_sfd sfd : Z) : Mc unit :=
  disarm EPOLLIN ep_sfd sfd;;
  put (upd_r_tp (λ q, q ++ [ReadTask ep_sfd sfd])).

Definition write_callback (ep_sfd sfd : Z) : Mc unit :=
  disarm EPOLLOUT ep_sfd sfd;;
  put (upd_w_tp (λ q, q ++ [WriteTask ep_sfd sfd])).

Definition handle_event (ep_sfd : Z) (ev : Z * Z) : Mc unit :=
  let '(fd, events) := ev in
  if has events EPOLLERR || has events EPOLLHUP then
    a_zombied fd;; close_fd ep_sfd;; close_fd fd
  else
    (if has events EPOLLIN then read_callback ep_sfd fd else mret tt);;
    (if has events EPOLLOUT then write_callback ep_sfd fd else mret tt).

(** The loop of an epoll thread; it ends when [epoll_wait] fails. *)
Definition process_epoll_events (fuel : nat) (ep_sfd : Z) : Mc unit :=
  while_loop fuel (λ _,
    r ← syscall (sys_epoll_wait ep_sfd 64);
    match r with
    | SysErr _ => close_fd ep_sfd;; mret (inr tt)
    | SysOk evs =>
        for_loop 8 (len evs) (λ i _, ev ← index evs i; handle_event ep_sfd ev) tt;;
        mret (inl tt)
    end) tt.
End client.
