(* ===== verification/ClientProofs.v ===== *)
(** * The client: what its operations do

    Lemmas about [SocketClient]: its references are lawful; [make_connection] is
    [dial], a function of the kernel alone, followed by one update of the client;
    the frames of responses are dispatched as [dispatch] says; sending, and
    retrying hosts. *)

From Stdlib Require Import Sorted.
From S2P Require Import Prelude Utils BufferedReader BufferedWriter Kernel SocketUtils SocketClient.

(** ** References into the client *)
#[export] Instance c_rr_ref_lawful sfd : LawfulRef (rr_ref sfd).
Proof.
  split.
  - intros s x y _. cbn. by rewrite lookup_insert_eq.
  - intros s x y. cbn. unfold upd_rrm. cbn. by rewrite insert_insert_eq.
  - intros [] x Hx. cbn in *. unfold upd_rrm. cbn. by rewrite insert_id.
Qed.

#[export] Instance c_wr_ref_lawful sfd : LawfulRef (wr_ref sfd).
Proof.
  split.
  - intros s x y _. cbn. by rewrite lookup_insert_eq.
  - intros s x y. cbn. unfold upd_wrm. cbn. by rewrite insert_insert_eq.
  - intros [] x Hx. cbn in *. unfold upd_wrm. cbn. by rewrite insert_id.
Qed.

#[export] Instance c_br_ref_lawful sfd : LawfulRef (br_ref sfd).
Proof.
  split.
  - intros s x y. cbn. rewrite lookup_alter_eq. by destruct (rrm s !! sfd).
  - intros s x y. cbn. unfold upd_rrm. cbn. by rewrite alter_alter_eq.
  - intros [] x Hx. cbn in *. unfold upd_rrm. cbn.
    apply fmap_Some in Hx as (rr & Hrr & ->). rewrite alter_id; [done|].
    intros x Hx. rewrite Hrr in Hx. injection Hx as <-. by destruct rr.
Qed.

#[export] Instance c_bw_ref_lawful sfd : LawfulRef (bw_ref sfd).
Proof.
  split.
  - intros s x y. cbn. rewrite lookup_alter_eq. by destruct (wrm s !! sfd).
  - intros s x y. cbn. unfold upd_wrm. cbn. by rewrite alter_alter_eq.
  - intros [] x Hx. cbn in *. unfold upd_wrm. cbn.
    apply fmap_Some in Hx as (wr & Hwr & ->). rewrite alter_id; [done|].
    intros x Hx. rewrite Hwr in Hx. injection Hx as <-. by destruct wr.
Qed.

#[export] Instance c_events_ref_lawful : LawfulRef events_ref.
Proof. split; [done|done|]. by intros [] x [= <-]. Qed.

(** ** Running the operations *)
Section running.
Context {K : Type} `{SocketKernel K}.

Lemma c_bind_get {A B} (f : client → A) (k : A → M (world K client) B) w :
  (get f ≫= k) w = k (f (app w)) w.
Proof. done. Qed.

Lemma c_bind_put {B} (f : client → client) (k : unit → M (world K client) B) w :
  (put f ≫= k) w = k tt (set_app (f (app w)) w).
Proof. done. Qed.

(** [operator[]] of a map, when the entry is there. *)
Lemma status_there {B} node st (f : HostStatus → M (world K client) B) w :
  h_status (app w) !! node = Some st → (status_of node ≫= f) w = f st w.
Proof. intros Hs. unfold status_of. rewrite bind_assoc, c_bind_get. by rewrite Hs. Qed.

Lemma node_there {B} sfd node (f : bytes → M (world K client) B) w :
  conns (app w) !! sfd = Some node → (node_of sfd ≫= f) w = f node w.
Proof. intros Hn. unfold node_of. rewrite bind_assoc, c_bind_get. by rewrite Hn. Qed.
End running.

Ltac cstep := first
  [ rewrite c_bind_get | rewrite c_bind_put | wstep
  | rewrite (bind_run _ _ _ _ _ (epoch_millis_run _)) ]; unfold set_app, set_kern; cbn [kern locks app].
Ltac crun := repeat cstep.

(** ** Connecting

    What a node's text means: [None] when reading it is undefined, [Some None]
    when its port is not a number. *)
Definition parsed (node : bytes) : option (option (bytes * Z)) :=
  match split_ref ":" node with
  | host :: port :: _ =>
      Some (match strtol port with
            | Some z => if fits_s32 z then Some (host, wrap 32 z) else None
            | None => None
            end)
  | _ => None
  end.

Section dial.
Context {K : Type} `{Kernel K}.

Definition sys {A} (f : K → A * K) : M K A := λ k, let '(a, k') := f k in Ret a k'.

(** Making a connection, as far as the kernel is concerned: the descriptor and
    the epoll descriptor, or [None] when it fails. *)
Definition dial (node : bytes) : M K (option (Z * Z)) :=
  match parsed node with
  | None => undef
  | Some None => mret None
  | Some (Some (host, port)) =>
      server ← sys (sys_gethostbyname (c_text host));
      r ← sys sys_socket;
      match r with
      | SysErr _ => mret None
      | SysOk fd =>
          if fd <? 0 then mret None
          else
            addr ← assume server;
            r ← sys (sys_connect fd addr (wrap 16 port));
            match r with
            | SysErr _ => mret None
            | SysOk _ =>
                fl ← sys (sys_getfl fd);
                match fl with
                | SysErr _ => exit_with 1
                | SysOk flags =>
                    if flags <? 0 then exit_with 1
                    else
                      r ← sys (sys_setfl fd (Z.lor flags O_NONBLOCK));
                      match r with
                      | SysErr _ => exit_with 1
                      | SysOk _ =>
                          ep ← sys sys_epoll_create;
                          match ep with
                          | SysErr _ => exit_with 1
                          | SysOk ep =>
                              r ← sys (sys_epoll_add ep fd EPOLLIN);
                              match r with
                              | SysErr _ => exit_with 1
                              | SysOk _ => mret (Some (fd, ep))
                              end
                          end
                      end
                end
            end
      end
  end.
End dial.

(** What is known of a host after an attempt. *)
Definition status_after (r : option (Z * Z)) : HostStatus :=
  match r with
  | Some (sfd, ep) => MkHostStatus true (Some sfd) (Some ep)
  | None => MkHostStatus false None None
  end.

(** [l'] differs from [l] by locks that were taken and released, and by new
    mutexes. *)
Definition fresh_locks (l : lockstate) : Prop := ∀ p, p ∈ live l → (p < next_mutex l)%nat.

Definition extends (l l' : lockstate) : Prop := live l ⊆ live l' ∧ (fresh_locks l → fresh_locks l').

#[export] Instance extends_preorder : PreOrder extends.
Proof. split; [done|]. intros l1 l2 l3 [H1 H2] [H3 H4]. split; [set_solver|auto]. Qed.

Lemma extends_allocated l : extends l (allocated l).
Proof.
  split; cbn; [set_solver|]. intros Hf p. unfold allocated. cbn.
  intros [->%elem_of_singleton|Hp%Hf]%elem_of_union; lia.
Qed.

Definition grown (l l' : lockstate) : Prop := held l' = held l ∧ extends l l'.

Lemma grown_refl l : grown l l.
Proof. done. Qed.

Lemma grown_traced l m l' : grown l l' → grown l (traced m l').
Proof. done. Qed.

Lemma grown_trans l1 l2 l3 : grown l1 l2 → grown l2 l3 → grown l1 l3.
Proof. intros [H1 H2] [H3 H4]. split; [congruence|by etransitivity]. Qed.

(** The client after an attempt to connect to a node. *)
Definition connected (node : bytes) (r : option (Z * Z)) (c : client) : client :=
  upd_h_status (insert node (status_after r))
    (match r with
     | Some (sfd, ep) =>
         upd_ep_threads (λ l, l ++ [ep])
           (upd_sfd_events (insert sfd EPOLLIN) (upd_conns (insert sfd node) c))
     | None => c
     end).

Definition connect_locks (r : option (Z * Z)) (l : lockstate) : lockstate :=
  traced Hs_mutex
    (match r with Some _ => traced E_mutex (traced Conn_mutex l) | None => l end).

Definition dialled (r : option (Z * Z)) : bool := match r with Some _ => true | None => false end.

(** What follows a run of [dial], in the client. *)
Definition after_dial {K A} (o : outcome K A) (l : lockstate) (c : client)
    (f : A → K → outcome (world K client) bool) : outcome (world K client) bool :=
  match o with
  | Ret a k => f a k
  | Throw e k => Throw e (World k l c)
  | Exit n k => Exit n (World k l c)
  | Undef => Undef
  | Blocked => Blocked
  | NoFuel => NoFuel
  end.

Lemma bind_sys {K A B} (f : K → A * K) (g : A → M K B) k :
  (sys f ≫= g) k = g (f k).1 (f k).2.
Proof. unfold sys, mbind, M_bind. by destruct (f k). Qed.

Ltac dial_steps :=
  repeat first [rewrite bind_assoc | rewrite bind_ret_l | rewrite bind_syscall | rewrite bind_sys];
  unfold set_kern; cbn [kern locks app fst snd].

Section connecting.
Context {K : Type} `{SocketKernel K}.
Implicit Types (l : lockstate) (c : client) (k : K).

Lemma parse_node_run node (w : world K client) :
  len node < 2 ^ 64 →
  parse_node node w =
  match parsed node with
  | None => Undef
  | Some None => Ret (false, [], 0) w
  | Some (Some (host, port)) => Ret (true, host, port) w
  end.
Proof.
  intros Hn. unfold parse_node. run_with (split_run node ":" w Hn). unfold parsed.
  destruct (split_ref ":" node) as [|host [|p ps]]; [done|done|].
  unfold catch_std. rewrite (bind_run _ _ _ host w), (bind_run _ _ _ p w) by done.
  unfold stoi. destruct (strtol p) as [z|]; [|done]. by destruct (fits_s32 z).
Qed.

(** The rest of [make_connection]: the host's status is entered. *)
Lemma enter_status node b st k l c :
  Hs_mutex ∉ held l →
  (lock Hs_mutex;; put (upd_h_status (insert node st));; unlock Hs_mutex;; mret b) (World k l c) =
  Ret (b : bool) (World k (traced Hs_mutex l) (upd_h_status (insert node st) c)).
Proof. intros Hh. crun. done. Qed.

Ltac no_dial := cbn [int_result Z.ltb Z.compare]; rewrite bind_ret_l; cbn beta iota; by rewrite enter_status.

Lemma make_connection_run node k l c :
  len node < 2 ^ 64 → Conn_mutex ∉ held l → E_mutex ∉ held l → Hs_mutex ∉ held l →
  make_connection node (World k l c) =
  after_dial (dial node k) l c
    (λ r k', Ret (dialled r) (World k' (connect_locks r l) (connected node r c))).
Proof.
  intros Hn H1 H2 H3. unfold make_connection. rewrite (bind_unfold (parse_node node)).
  rewrite parse_node_run by done. unfold dial.
  destruct (parsed node) as [[[host port]|]|]; [| |done].
  2: { cbn [negb]. no_dial. }
  cbn [negb]. unfold unblock_socket, create_and_config_epoll.
  dial_steps. destruct (sys_socket _).1 as [e|fd].
  { change (-1 <? 0) with true. no_dial. }
  destruct (fd <? 0); [no_dial|].
  destruct (sys_gethostbyname _ _).1 as [addr|]; [|done]. cbn [assume].
  dial_steps. destruct (sys_connect _ _ _ _).1 as [e|[]]; [no_dial|].
  cbn [int_result Z.ltb Z.compare]. dial_steps. destruct (sys_getfl _ _).1 as [e|flags]; [done|].
  destruct (flags <? 0); [done|].
  dial_steps. destruct (sys_setfl _ _ _).1 as [e|[]]; [done|].
  cbn [int_result Z.ltb Z.compare]. dial_steps. destruct (sys_epoll_create _).1 as [e|ep]; [done|].
  dial_steps. destruct (sys_epoll_add _ _ _ _).1 as [e|[]]; [done|].
  cbn [int_result Z.ltb Z.compare]. rewrite !bind_ret_l. crun. done.
Qed.

(** *** All hosts *)
Fixpoint dial_all (nodes : list bytes) : M K (list (option (Z * Z))) :=
  match nodes with
  | [] => mret []
  | node :: nodes' => r ← dial node; rs ← dial_all nodes'; mret (r :: rs)
  end.

(** After an attempt whose failure is noted for [retry_conn]. *)
Definition attempted (c : client) (p : bytes * option (Z * Z)) : client :=
  let c' := connected p.1 p.2 c in
  match p.2 with Some _ => c' | None => upd_e_hosts (λ hs, hs ++ [p.1]) c' end.

Definition short_name (node : bytes) : Prop := len node < 2 ^ 64.

(** The number of attempts that succeeded, and the nodes of those that failed. *)
Definition successes (rs : list (option (Z * Z))) : nat := length (filter is_Some rs).

Fixpoint failures (nodes : list bytes) (rs : list (option (Z * Z))) : list bytes :=
  match nodes, rs with
  | node :: nodes', None :: rs' => node :: failures nodes' rs'
  | _ :: nodes', Some _ :: rs' => failures nodes' rs'
  | _, _ => []
  end.

Lemma dial_all_length nodes k rs k' : dial_all nodes k = Ret rs k' → length rs = length nodes.
Proof.
  revert k rs k'. induction nodes as [|node nodes IH]; intros k rs k'; cbn; [by intros [= <- <-]|].
  rewrite bind_unfold. destruct (dial node k) as [r k1| | | | |] eqn:E; try done.
  rewrite bind_unfold. destruct (dial_all nodes k1) as [rs' k2| | | | |] eqn:E'; try done.
  intros [= <- <-]. cbn. by erewrite IH.
Qed.

Lemma connect_fold nodes k l c n rs k' :
  Forall short_name nodes → held l = [] → dial_all nodes k = Ret rs k' →
  n + len nodes < 2 ^ 32 → 0 ≤ n →
  ∃ l', fold_m (λ t s_conns,
          ok ← make_connection t;
          if ok : bool then mret (wrap 32 (s_conns + 1)) else push_e_host t;; mret s_conns)
          nodes n (World k l c) =
        Ret (n + Z.of_nat (successes rs)) (World k' l' (foldl attempted c (zip nodes rs))) ∧
        grown l l'.
Proof.
  intros Hs. revert k l c n rs. induction Hs as [|node nodes Hn _ IH]; intros k l c n rs Hl; cbn [dial_all].
  { intros [= <- <-] _ _. exists l. split; [|done]. cbn. by rewrite Z.add_0_r. }
  rewrite bind_unfold. destruct (dial node k) as [r k1| | | | |] eqn:E; try done.
  rewrite bind_unfold. destruct (dial_all nodes k1) as [rs' k2| | | | |] eqn:E'; try done.
  intros [= <- <-] Hlen Hn0. cbn [fold_m length] in *.
  assert (∀ m, m ∉ held l) as Hh by (intros m; rewrite Hl; apply not_elem_of_nil).
  rewrite !bind_assoc, bind_unfold, (make_connection_run node k l c) by done.
  rewrite E. cbn [after_dial].
  set (l1 := connect_locks r l).
  assert (grown l l1) as Hg1 by (unfold l1; by destruct r).
  assert (held l1 = []) as Hl1 by (by rewrite (proj1 Hg1)).
  destruct r as [fds|]; cbn [dialled zip zip_with foldl attempted snd fst].
  - rewrite bind_ret_l. rewrite wrap_small by lia.
    destruct (IH k1 l1 (connected node (Some fds) c) (n + 1) rs' Hl1 E' ltac:(lia) ltac:(lia))
      as (l' & -> & Hl'). exists l'. split; [|by apply (grown_trans l l1)]. f_equal. unfold successes.
    rewrite filter_cons_True by done. cbn [length]. lia.
  - assert (∀ m, m ∉ held l1) as Hh1 by (intros m; rewrite Hl1; apply not_elem_of_nil).
    unfold push_e_host. crun.
    destruct (IH k1 (traced Eh_mutex l1) (attempted c (node, None)) n rs' Hl1 E' ltac:(lia) Hn0)
      as (l' & E2 & Hl'). exists l'. split; [|by apply (grown_trans l l1)]. unfold successes.
    rewrite filter_cons_False by (by intros [? ?]). exact E2.
Qed.

Lemma connect_fold_undef nodes k l c n :
  Forall short_name nodes → held l = [] → dial_all nodes k = Undef →
  fold_m (λ t s_conns,
    ok ← make_connection t;
    if ok : bool then mret (wrap 32 (s_conns + 1)) else push_e_host t;; mret s_conns)
    nodes n (World k l c) = Undef.
Proof.
  intros Hs. revert k l c n. induction Hs as [|node nodes Hn _ IH]; intros k l c n Hl; cbn [dial_all]; [done|].
  assert (∀ m, m ∉ held l) as Hh by (intros m; rewrite Hl; apply not_elem_of_nil).
  cbn [fold_m]. rewrite !bind_assoc, !bind_unfold, (make_connection_run node k l c) by done.
  destruct (dial node k) as [r k1| | | | |] eqn:E; try done. cbn [after_dial].
  rewrite bind_unfold. destruct (dial_all nodes k1) as [rs' k2| | | | |] eqn:E'; try done. intros _.
  assert (held (connect_locks r l) = []) as Hl1 by (by destruct r).
  destruct r as [fds|]; cbn [dialled]; [rewrite bind_ret_l; by apply IH|].
  assert (∀ m, m ∉ held (connect_locks None l)) as Hh1 by (intros m; rewrite Hl1; apply not_elem_of_nil).
  unfold push_e_host. crun. by apply IH.
Qed.

Lemma attempted_e_hosts nodes rs c :
  length rs = length nodes →
  e_hosts (foldl attempted c (zip nodes rs)) = e_hosts c ++ failures nodes rs.
Proof.
  revert rs c. induction nodes as [|node nodes IH]; intros [|r rs] c Hl; try done.
  - cbn. by rewrite app_nil_r.
  - injection Hl as Hl. cbn [zip zip_with foldl]. rewrite IH by done.
    destruct r as [[sfd ep]|]; cbn; [done|]. by rewrite <-app_assoc.
Qed.

Lemma attempted_status nodes rs c :
  h_status (foldl attempted c (zip nodes rs)) =
  foldl (λ m p, <[p.1 := status_after p.2]> m) (h_status c) (zip nodes rs).
Proof.
  revert rs c. induction nodes as [|node nodes IH]; intros [|r rs] c; try done.
  cbn [zip zip_with foldl]. rewrite IH. by destruct r as [[sfd ep]|].
Qed.

Lemma status_last (nodes : list bytes) (rs : list (option (Z * Z))) (m : gmap bytes HostStatus) i node r :
  NoDup nodes → nodes !! i = Some node → rs !! i = Some r →
  foldl (λ m p, <[p.1 := status_after p.2]> m) m (zip nodes rs) !! node = Some (status_after r).
Proof.
  assert (∀ (nodes : list bytes) (rs : list (option (Z * Z))) (m : gmap bytes HostStatus) node, node ∉ nodes →
    foldl (λ m p, <[p.1 := status_after p.2]> m) m (zip nodes rs) !! node = m !! node) as Hout.
  { clear. induction nodes as [|a nodes IH]; intros [|r rs] m node Hn; try done.
    apply not_elem_of_cons in Hn as [H1 H2]. cbn. rewrite IH by done.
    by rewrite lookup_insert_ne. }
  revert rs m i. induction nodes as [|a nodes IH]; intros [|r' rs] m [|i] Hnd Hi Hr; try done;
    apply NoDup_cons in Hnd as [Ha Hnd]; cbn in *.
  - injection Hi as ->. injection Hr as ->. rewrite Hout by done. by rewrite lookup_insert_eq.
  - by eapply IH.
Qed.

Lemma successes_failures nodes rs :
  length rs = length nodes → (successes rs + length (failures nodes rs) = length nodes)%nat.
Proof.
  revert rs. induction nodes as [|node nodes IH]; intros [|[fds|] rs] Hl; try done;
    injection Hl as Hl; unfold successes in *; specialize (IH rs Hl); cbn [failures length].
  - rewrite filter_cons_True by done. cbn. lia.
  - rewrite filter_cons_False by (by intros [? ?]). lia.
Qed.
End connecting.

(** ** Retrying hosts

    A list without the elements at some positions; it starts at position [i]. *)
Fixpoint without {A} (i : Z) (ps : list Z) (l : list A) : list A :=
  match l with
  | [] => []
  | a :: l' => if bool_decide (i ∈ ps) then without (i + 1) ps l' else a :: without (i + 1) ps l'
  end.

(** The positions of the attempts that succeeded. *)
Fixpoint succeeded (i : Z) (rs : list (option (Z * Z))) : list Z :=
  match rs with
  | [] => []
  | Some _ :: rs' => i :: succeeded (i + 1) rs'
  | None :: rs' => succeeded (i + 1) rs'
  end.

(** Where an element is that is erased after [k] elements before it. *)
Fixpoint shifted (k : Z) (ps : list Z) : list Z :=
  match ps with [] => [] | p :: ps' => (p + k) :: shifted (k + 1) ps' end.

Lemma without_ext {A} i ps ps' (l : list A) :
  (∀ j, i ≤ j → j ∈ ps ↔ j ∈ ps') → without i ps l = without i ps' l.
Proof.
  revert i. induction l as [|a l IH]; intros i H; [done|]. cbn.
  rewrite (bool_decide_ext (i ∈ ps) (i ∈ ps')) by (apply H; lia).
  by rewrite (IH (i + 1)) by (intros; apply H; lia).
Qed.

Lemma without_next {A} i ps (l : list A) :
  without (i + 1) (map (Z.add 1) ps) l = without i ps l.
Proof.
  revert i. induction l as [|a l IH]; intros i; [done|]. cbn. rewrite IH.
  by rewrite (bool_decide_ext (i + 1 ∈ map (Z.add 1) ps) (i ∈ ps))
    by (rewrite list_elem_of_fmap; split; [intros (y & ? & ?); replace i with y by lia; done|
                                     intros; exists i; split; [lia|done]]).
Qed.

Lemma without_delete {A} i p ps (l : list A) :
  (p < length l)%nat → Forall (λ q, i + Z.of_nat p ≤ q) ps →
  without i ps (delete p l) = without i ((i + Z.of_nat p) :: map (Z.add 1) ps) l.
Proof.
  rewrite Forall_forall. revert i l. induction p as [|p IH]; intros i [|a l] Hp Hq; cbn in Hp; try lia; cbn.
  - rewrite Z.add_0_r, bool_decide_eq_true_2 by set_solver.
    rewrite (without_ext (i + 1) (i :: _) (map (Z.add 1) ps)) by set_solver by lia.
    by rewrite without_next.
  - assert (i ∉ ps) by (intros Hi; specialize (Hq i Hi); lia).
    rewrite !bool_decide_eq_false_2; [|by rewrite not_elem_of_cons, list_elem_of_fmap; split;
      [lia|intros (y & E & Hy); specialize (Hq y Hy); lia]|done].
    f_equal. rewrite IH; [|lia|intros q Hi; specialize (Hq q Hi); lia].
    do 2 f_equal. lia.
Qed.

Lemma shifted_next k ps : shifted (k + 1) ps = map (Z.add 1) (shifted k ps).
Proof. revert k. induction ps as [|p ps IH]; intros k; [done|]. cbn. rewrite IH. f_equal. lia. Qed.

Lemma shifted_above k p ps : 0 ≤ k → Forall (λ q, p ≤ q) ps → Forall (λ q, p ≤ q) (shifted k ps).
Proof.
  intros Hk H. revert k Hk. induction H as [|q ps Hq _ IH]; intros k Hk; cbn; constructor; [lia|].
  apply IH. lia.
Qed.

Lemma succeeded_above i rs : Forall (λ p, i ≤ p < i + len rs) (succeeded i rs).
Proof.
  revert i. induction rs as [|r rs IH]; intros i; cbn; [done|].
  assert (Forall (λ p, i ≤ p < i + Z.of_nat (Datatypes.S (length rs))) (succeeded (i + 1) rs)) as H.
  { eapply Forall_impl; [apply IH|]. cbn. lia. }
  destruct r; [|done]. constructor; [lia|done].
Qed.

Lemma succeeded_sorted i rs : StronglySorted Z.lt (succeeded i rs).
Proof.
  revert i. induction rs as [|[r|] rs IH]; intros i; cbn; [constructor| |done].
  constructor; [done|]. eapply Forall_impl; [apply succeeded_above|]. cbn. lia.
Qed.

Lemma succeeded_iff i rs p fds :
  rs !! p = Some (Some fds) → i + Z.of_nat p ∈ succeeded i rs.
Proof.
  revert i p. induction rs as [|r rs IH]; intros i [|p] Hp; try done; cbn in *.
  - injection Hp as ->. rewrite Z.add_0_r. by left.
  - specialize (IH (i + 1) p Hp). replace (i + Z.of_nat (Datatypes.S p)) with (i + 1 + Z.of_nat p) by lia.
    destruct r; [by right|done].
Qed.

(** The last of the positions, where it is erased. *)
Lemma shifted_last k ps :
  ps ≠ [] → StronglySorted Z.lt ps →
  ∃ p, p ∈ ps ∧ Forall (λ q, q ≤ p) ps ∧ p + k + len ps - 1 ∈ shifted k ps.
Proof.
  intros Hne Hs. revert k Hne. induction Hs as [|p ps Hs IH Hlt]; intros k Hne; [done|].
  destruct (decide (ps = [])) as [->|Hps].
  - exists p. split_and!; [by left|by repeat constructor|]. cbn. replace (p + k + _ - 1) with (p + k) by lia. by left.
  - destruct (IH (k + 1) Hps) as (q & Hq & Hmax & Hin). exists q. split_and!; [by right| |].
    + constructor; [|done]. rewrite Forall_forall in Hlt. specialize (Hlt q Hq). lia.
    + cbn. right. replace (q + k + Z.of_nat (Datatypes.S (length ps)) - 1) with (q + (k + 1) + len ps - 1) by lia.
      done.
Qed.

Definition within (n : Z) (ps : list Z) : bool := forallb (λ p, p <? n) ps.

Lemma within_next n ps : within n (map (Z.add 1) ps) = within (n - 1) ps.
Proof.
  unfold within. induction ps as [|p ps IH]; [done|]. cbn. rewrite IH. f_equal.
  destruct (Z.ltb_spec (1 + p) n), (Z.ltb_spec p (n - 1)); lia || done.
Qed.

Section retrying.
Context {K : Type} `{SocketKernel K}.
Implicit Types (l : lockstate) (c : client) (k : K).

Lemma erase_e_host_run i k l c :
  0 ≤ i →
  erase_e_host i (World k l c) =
  if i <? len (e_hosts c)
  then Ret tt (World k l (upd_e_hosts (λ hs, delete (Z.to_nat i) hs) c)) else Undef.
Proof.
  intros Hi. unfold erase_e_host. rewrite c_bind_get, (proj2 (Z.leb_le 0 i) Hi). cbn.
  by destruct (i <? _).
Qed.

(** Erasing at the positions of a list that is sorted, one after the other: each
    erases what stands further back by the number of elements erased before. *)
Lemma erase_run sci k l c :
  StronglySorted Z.lt sci → Forall (λ p, 0 ≤ p) sci →
  fold_m (λ i _, erase_e_host i) sci tt (World k l c) =
  if within (len (e_hosts c)) (shifted 0 sci)
  then Ret tt (World k l (upd_e_hosts (without 0 (shifted 0 sci)) c))
  else Undef.
Proof.
  revert c. induction sci as [|i sci IH]; intros c Hsort Hpos.
  - assert (without 0 [] (e_hosts c) = e_hosts c) as E.
    { generalize 0. induction (e_hosts c) as [|a hs IHhs]; intros j; cbn; [done|by rewrite IHhs]. }
    cbn. unfold upd_e_hosts. rewrite E. by destruct c.
  - inversion Hsort as [|? ? Hs Hlt]; subst. apply Forall_cons in Hpos as [Hi Hpos].
    cbn [fold_m shifted within forallb]. rewrite Z.add_0_r.
    rewrite bind_unfold, erase_e_host_run by done.
    destruct (Z.ltb_spec i (len (e_hosts c))) as [Hlen|Hlen]; [|done]. cbn [andb].
    rewrite (IH _ Hs Hpos).
    assert (len (e_hosts (upd_e_hosts (λ hs, delete (Z.to_nat i) hs) c)) = len (e_hosts c) - 1) as ->.
    { cbn. rewrite length_delete by (apply lookup_lt_is_Some_2; lia). lia. }
    fold (within (len (e_hosts c)) (shifted (0 + 1) sci)).
    rewrite shifted_next, within_next. destruct (within _ _); [|done].
    do 2 f_equal. unfold upd_e_hosts. cbn. f_equal.
    rewrite without_delete; [by rewrite Z.add_0_l, Z2Nat.id|lia|].
    rewrite Z.add_0_l, Z2Nat.id by done. apply shifted_above; [done|].
    eapply Forall_impl; [exact Hlt|]. cbn. lia.
Qed.

Definition reconnected (c : client) (p : bytes * option (Z * Z)) : client := connected p.1 p.2 c.

Lemma reconnected_e_hosts ps c : e_hosts (foldl reconnected c ps) = e_hosts c.
Proof.
  revert c. induction ps as [|[node [[sfd ep]|]] ps IH]; intros c; [done|..]; cbn; by rewrite IH.
Qed.

Lemma retry_loop done nodes sci k l c rs k' :
  Forall short_name nodes → held l = [Eh_mutex] → e_hosts c = done ++ nodes →
  dial_all nodes k = Ret rs k' →
  ∃ l', fold_m (λ i sci,
          hosts ← get e_hosts;
          node ← index hosts i;
          ok ← make_connection node;
          mret (if ok : bool then sci ++ [i] else sci))
          (seqZ (len done) (len nodes)) sci (World k l c) =
        Ret (sci ++ succeeded (len done) rs)
          (World k' l' (foldl reconnected c (zip nodes rs))) ∧ grown l l'.
Proof.
  intros Hs. revert done sci k l c rs.
  induction Hs as [|node nodes Hn _ IH]; intros done sci k l c rs Hl He; cbn [dial_all].
  { intros [= <- <-]. exists l. split; [|done]. cbn. by rewrite app_nil_r. }
  rewrite bind_unfold. destruct (dial node k) as [r k1| | | | |] eqn:E; try done.
  rewrite bind_unfold. destruct (dial_all nodes k1) as [rs' k2| | | | |] eqn:E'; try done.
  intros [= <- <-]. rewrite seqZ_cons by (cbn; lia). cbn [fold_m].
  rewrite !bind_assoc, c_bind_get, bind_assoc. cbn [app]. rewrite He.
  erewrite (bind_run (index _ _)); [|apply index_lt; [lia|by rewrite Nat2Z.id, list_lookup_middle]].
  rewrite bind_assoc, bind_unfold.
  rewrite (make_connection_run node k l c) by (done || rewrite Hl; set_solver).
  rewrite E. cbn [after_dial]. rewrite bind_ret_l.
  set (l1 := connect_locks r l).
  assert (grown l l1) as Hg1 by (unfold l1; by destruct r).
  assert (held l1 = [Eh_mutex]) as Hl1 by (by rewrite (proj1 Hg1)).
  destruct (IH (done ++ [node]) (if dialled r then sci ++ [len done] else sci) k1 l1
              (connected node r c) rs' Hl1) as (l' & E2 & Hl').
  - rewrite <-app_assoc. destruct r as [[sfd ep]|]; exact He.
  - done.
  - exists l'. split; [|by apply (grown_trans l l1)]. rewrite length_app in E2. cbn [length] in E2.
    replace (Z.succ (len done)) with (Z.of_nat (length done + 1)) by lia.
    replace (Z.pred (Z.of_nat (length (node :: nodes)))) with (len nodes) by (cbn; lia).
    rewrite E2. cbn [zip zip_with foldl]. f_equal.
    replace (Z.of_nat (length done + 1)) with (len done + 1) by lia.
    destruct r as [fds|]; cbn; [by rewrite <-app_assoc|done].
Qed.

(** With at most one host reached the positions are right. *)
Lemma shifted_one rs n :
  let reached := succeeded 0 rs in
  (length reached ≤ 1)%nat → len rs = n → shifted 0 reached = reached ∧ within n (shifted 0 reached) = true.
Proof.
  intros reached H1 Hn. pose proof (succeeded_above 0 rs) as Hab. fold reached in Hab.
  destruct reached as [|p [|q ps]]; cbn in H1; [done| |lia].
  apply Forall_cons in Hab as [Hp _]. cbn. rewrite Z.add_0_r. split; [done|].
  by rewrite (proj2 (Z.ltb_lt _ _)) by lia.
Qed.

(** A round of [retry_conn], when the attempts come to an end. *)
Lemma retry_round_run k l c rs k' :
  Forall short_name (e_hosts c) → len (e_hosts c) < 2 ^ 32 → held l = [] →
  dial_all (e_hosts c) k = Ret rs k' →
  let ps := shifted 0 (succeeded 0 rs) in
  if within (len (e_hosts c)) ps
  then ∃ l', retry_round (World k l c) =
             Ret tt (World k' l' (upd_e_hosts (without 0 ps)
                                    (foldl reconnected c (zip (e_hosts c) rs)))) ∧ grown l l'
  else retry_round (World k l c) = Undef.
Proof.
  intros Hs H32 Hl E ps.
  destruct (retry_loop [] (e_hosts c) [] k (acquire Eh_mutex l) c rs k' Hs) as (l' & E2 & [Hl' He']).
  { cbn. by rewrite Hl. } { done. } { done. }
  rewrite app_nil_l in E2. cbn [length] in E2. change (Z.of_nat 0) with 0 in E2.
  assert (length rs = length (e_hosts c)) as Hrs by by eapply dial_all_length.
  pose proof (succeeded_above 0 rs) as Hab. pose proof (succeeded_sorted 0 rs) as Hso.
  set (c' := foldl reconnected c (zip (e_hosts c) rs)) in *.
  assert (len (succeeded 0 rs) ≤ len rs) as Hle.
  { clear. generalize 0. induction rs as [|[r|] rs IH]; intros i; cbn; [done| |];
      specialize (IH (i + 1)); lia. }
  unfold retry_round.
  assert (∀ m, m ∉ held l) as Hh by (intros m; rewrite Hl; apply not_elem_of_nil).
  crun. erewrite bind_run; [|rewrite for_loop_total by done; exact E2]. cbn beta.
  rewrite bind_unfold.
  rewrite (for_index_total 32 (succeeded 0 rs) (λ i _, erase_e_host i)) by lia.
  rewrite Nat2Z.id, firstn_all, erase_run; [|done|].
  2: { eapply Forall_impl; [exact Hab|]. cbn. lia. }
  unfold c'. rewrite reconnected_e_hosts. fold c' ps.
  destruct (within _ ps); [|done].
  cbn in Hl'. exists (release l'). split; [|split; [cbn; by rewrite Hl'|exact He']].
  by rewrite (unlock_run _ []) by (done || (cbn; by rewrite Hl', Hl) || apply not_elem_of_nil).
Qed.
End retrying.

(** ** Sending *)

(** The writer that [find_writer] leaves, and its effect. *)
Definition writer_of (sfd : Z) (l : lockstate) (c : client) : WriteR :=
  default (MkWriteR BufferedWriter_new (next_mutex l) true) (wrm c !! sfd).

Definition register (sfd : Z) (uuid_str : bytes) (cb : option callback) (c : client) : client :=
  match cb with
  | Some cb =>
      upd_call_backs (insert sfd (<[uuid_str := cb]> (default ∅ (call_backs c !! sfd)))) c
  | None => c
  end.

(** The client after a message was queued, or dropped when the writer is invalid. *)
Definition queued (sfd : Z) (msg : bytes) (y : WriteR) (c : client) : client :=
  let c' := upd_wrm (insert sfd (enqueue msg y)) c in
  if w_is_valid y
  then upd_sfd_events (insert sfd (Z.lor (get0 (sfd_events c) sfd) EPOLLOUT)) c' else c'.

(** A client that knows something of a node. *)
Definition known (node : bytes) (c : client) : client :=
  match h_status c !! node with
  | Some _ => c
  | None => upd_h_status (insert node no_status) c
  end.

Section sending.
Context {K : Type} `{SocketKernel K}.
Implicit Types (l : lockstate) (c : client) (k : K).

Lemma status_of_run node k l c :
  status_of node (World k l c) =
  Ret (default no_status (h_status c !! node)) (World k l (known node c)).
Proof. unfold status_of, known. crun. by destruct (h_status c !! node). Qed.

Lemma pack_client uuid_str data size (w : world K client) :
  36 ≤ len uuid_str → 0 ≤ size ≤ len data → 38 + size < 2 ^ 32 →
  let mfs := wrap 32 (37 + size + 1) in
  mfs = 38 + size ∧
  pack_frame (uuid_str ++ [NUL]) data size (replicate (Z.to_nat mfs) NUL) w =
  Ret (frame_of (take 37 (uuid_str ++ [NUL])) (take (Z.to_nat size) data)) w.
Proof.
  intros Hu Hs Hm mfs. assert (mfs = 38 + size) as E by (unfold mfs; rewrite wrap_small; lia).
  split; [done|]. rewrite E, pack_frame_run by (rewrite ?length_replicate, ?length_app; cbn [length]; lia).
  rewrite drop_ge by (rewrite length_replicate; lia). done.
Qed.

Lemma find_writer_run sfd k l c :
  W_mutex ∉ held l → (∀ y, wrm c !! sfd = Some y → w_mutex y ∈ live l) →
  let y := writer_of sfd l c in
  ∃ l', find_writer sfd (World k l c) = Ret tt (World k l' (upd_wrm (insert sfd y) c)) ∧
        grown l l' ∧ w_mutex y ∈ live l'.
Proof.
  intros Hw Hy y. unfold find_writer, y, writer_of. crun. destruct (wrm c !! sfd) as [y'|] eqn:E.
  - crun. exists (traced W_mutex l). split; [|by split; [|apply Hy]].
    unfold upd_wrm. cbn. rewrite insert_id by done. by destruct c.
  - crun. exists (traced W_mutex (allocated l)). split; [|split; [|cbn; set_solver]].
    + unfold upd_wrm, emplace. by rewrite E.
    + split; [done|apply extends_allocated].
Qed.

(** [send_msg] once the call back is registered. *)
Definition send_rest (data : bytes) (size : Z) (uuid_str : bytes) (ep_sfd sfd : Z) : M (world K client) bool :=
  let mfs := wrap 32 (37 + size + 1) in
  msg_frame ← pack_frame (uuid_str ++ [NUL]) data size (replicate (Z.to_nat mfs) NUL);
  find_writer sfd;;
  wr ← load (in_app (wr_ref sfd));
  lock (WR_mutex (w_mutex wr));;
  wr ← load (in_app (wr_ref sfd));
  result ← (if w_is_valid wr
            then BufferedWriter.write (in_app (bw_ref sfd)) msg_frame mfs;; mret true
            else mret false);
  unlock (WR_mutex (w_mutex wr));;
  (if result : bool then arm EPOLLOUT ep_sfd sfd (in_app events_ref) E_mutex else mret tt);;
  mret result.

Lemma send_msg_registers data size ni cb uuid_str node sfd ep k l c :
  held l = [] → 0 ≤ ni → desired_hosts c !! Z.to_nat ni = Some node →
  h_status c !! node = Some (MkHostStatus true (Some sfd) (Some ep)) →
  ∃ l1, send_msg data size ni cb uuid_str (World k l c) =
        send_rest data size uuid_str ep sfd (World k l1 (register sfd uuid_str cb c)) ∧
        grown l l1 ∧ next_mutex l1 = next_mutex l.
Proof.
  intros Hl Hni Hnode Hst.
  assert (∀ m, m ∉ held l) as Hh by (intros m; rewrite Hl; apply not_elem_of_nil).
  unfold send_msg. crun. run_with (index_lt (desired_hosts c) ni node
    (World k (acquire Hs_mutex l) c) Hni Hnode).
  erewrite status_there by exact Hst. crun. cbn [is_healthy negb].
  erewrite status_there by exact Hst. cbn [hs_sfd hs_ep_sfd assume]. rewrite !bind_ret_l.
  set (c1 := register sfd uuid_str cb c).
  assert (∃ l1, (match cb with
    | Some cb =>
        lock Cb_mutex;;
        cbs ← call_backs_of sfd;
        put (upd_call_backs (insert sfd (<[uuid_str := cb]> cbs)));;
        unlock Cb_mutex
    | None => mret tt
    end) (World k (traced Hs_mutex l) c) = Ret tt (World k l1 c1) ∧ grown l l1 ∧
    next_mutex l1 = next_mutex l) as (l1 & E1 & Hg1 & Hn1).
  { unfold c1, register. destruct cb as [cb|]; [|by exists (traced Hs_mutex l)].
    exists (traced Cb_mutex (traced Hs_mutex l)). split; [|done].
    crun. unfold call_backs_of. crun. destruct (call_backs c !! sfd) as [cbs|] eqn:Ec; crun; [done|].
    unfold upd_call_backs. cbn. by rewrite insert_insert_eq. }
  run_with E1. by exists l1.
Qed.

(** [send_msg] to a healthy host, and with a message whose frame's length does not
    fit 32 bits. *)
Lemma client_send_overrun data size ni cb uuid_str node sfd ep k l c :
  held l = [] → 36 ≤ len uuid_str → 0 ≤ size ≤ len data → 2 ^ 32 ≤ 38 + size →
  0 ≤ ni → desired_hosts c !! Z.to_nat ni = Some node →
  h_status c !! node = Some (MkHostStatus true (Some sfd) (Some ep)) →
  send_msg data size ni cb uuid_str (World k l c) = Undef.
Proof.
  intros Hl Hu Hsz H32 Hni Hnode Hst.
  destruct (send_msg_registers data size ni cb uuid_str node sfd ep k l c Hl Hni Hnode Hst) as (l1 & -> & _).
  unfold send_rest. cbv zeta. rewrite bind_unfold.
  pose proof (wrap_bounds 32 (37 + size + 1) ltac:(lia)) as Hw.
  rewrite pack_frame_overrun; [done|rewrite length_app; cbn; lia|lia| |];
    rewrite length_replicate; lia.
Qed.

(** The frame is put into the writer's buffer, or dropped. *)
Lemma enqueue_run sfd msg y k l c :
  wrm c !! sfd = Some y → len msg < 2 ^ 32 →
  (if w_is_valid y
   then BufferedWriter.write (in_app (bw_ref sfd)) msg (len msg);; mret true
   else mret false) (World k l c) =
  Ret (w_is_valid y) (World k l (upd_wrm (insert sfd (enqueue msg y)) c)).
Proof.
  intros Hy Hm. unfold enqueue, upd_wrm. destruct (w_is_valid y) eqn:Ev.
  - erewrite bind_run; [|apply (write_run (in_app (bw_ref sfd)) msg (wbuffer (w_bw y)));
      [cbn; rewrite Hy; by destruct y as [[]]|lia|lia]].
    unfold mret, M_ret. cbn. rewrite Nat2Z.id, firstn_all. unfold set_app, upd_wrm. cbn.
    do 3 f_equal. by rewrite (alter_as_insert _ _ _ y), Ev.
  - cbn. rewrite insert_id by done. by destruct c.
Qed.

Lemma send_msg_run data size ni cb uuid_str node sfd ep k l c :
  held l = [] → 36 ≤ len uuid_str → 0 ≤ size ≤ len data → 38 + size < 2 ^ 32 →
  0 ≤ ni → desired_hosts c !! Z.to_nat ni = Some node →
  h_status c !! node = Some (MkHostStatus true (Some sfd) (Some ep)) →
  (∀ y, wrm c !! sfd = Some y → w_mutex y ∈ live l) →
  let y := writer_of sfd l c in
  let msg := frame_of (take 37 (uuid_str ++ [NUL])) (take (Z.to_nat size) data) in
  ∃ l', send_msg data size ni cb uuid_str (World k l c) =
        Ret (w_is_valid y)
          (World (if w_is_valid y
                  then (sys_epoll_mod ep sfd (Z.lor (get0 (sfd_events c) sfd) EPOLLOUT) k).2 else k)
             l' (queued sfd msg y (register sfd uuid_str cb c))) ∧ grown l l' ∧ w_mutex y ∈ live l'.
Proof.
  intros Hl Hu Hsz H32 Hni Hnode Hst Hlive y msg.
  assert (∀ m, m ∉ held l) as Hh by (intros m; rewrite Hl; apply not_elem_of_nil).
  destruct (send_msg_registers data size ni cb uuid_str node sfd ep k l c Hl Hni Hnode Hst)
    as (l1 & E1 & Hg1 & Hn1). rewrite E1. clear E1. unfold send_rest. cbv zeta.
  set (c1 := register sfd uuid_str cb c).
  destruct (pack_client uuid_str data size (World k l1 c1) Hu Hsz H32) as [Hmfs E2].
  run_with E2. clear E2. fold msg.
  destruct Hg1 as [Hg1 Hg1'].
  assert (wrm c1 = wrm c) as Hw1 by (unfold c1; by destruct cb).
  destruct (find_writer_run sfd k l1 c1) as (l2 & E3 & [Hg2 Hg2'] & Hy2).
  { by rewrite Hg1. } { intros y' Hy'. rewrite Hw1 in Hy'. apply Hg1', Hlive, Hy'. }
  run_with E3. clear E3.
  assert (writer_of sfd l1 c1 = y) as Ey by (unfold writer_of; by rewrite Hw1, Hn1).
  rewrite Ey in *. clear Ey.
  set (c2 := upd_wrm (insert sfd y) c1).
  assert (wrm c2 !! sfd = Some y) as Hy by apply lookup_insert_eq.
  assert (∀ m, m ∉ held l2) as Hh2 by (intros m; by rewrite Hg2, Hg1).
  assert (len msg = 38 + size) as Hlen.
  { unfold msg, frame_of. rewrite !length_app, !length_take, length_app. cbn [length]. lia. }
  crun. set (c3 := upd_wrm (insert sfd (enqueue msg y)) c1).
  pose proof (enqueue_run sfd msg y k (acquire (WR_mutex (w_mutex y)) l2) c2 Hy ltac:(lia)) as E3.
  assert (upd_wrm (insert sfd (enqueue msg y)) c2 = c3) as Ec
    by (unfold c3, c2, upd_wrm; cbn; by rewrite insert_insert_eq).
  rewrite Ec, Hlen, <-Hmfs in E3.
  run_with E3. clear E3. crun.
  unfold queued. fold c1 c3. destruct (w_is_valid y).
  - erewrite bind_run; [|apply (arm_run events_ref E_mutex EPOLLOUT ep sfd (sfd_events c3)); [done|done|by cbn]].
    eexists. split_and!.
    + unfold mret, M_ret, armed. cbn. unfold c1. by destruct cb.
    + apply (grown_trans l l1); [done|]. by apply (grown_trans l1 l2).
    + done.
  - eexists. split_and!; [done| |done]. apply (grown_trans l l1); [done|]. by apply (grown_trans l1 l2).
Qed.

(** [send_msg] to a host that is not healthy, or not known. *)
Lemma send_msg_unhealthy data size ni cb uuid_str node k l c :
  held l = [] → 0 ≤ ni → desired_hosts c !! Z.to_nat ni = Some node →
  (∀ st, h_status c !! node = Some st → is_healthy st = false) →
  send_msg data size ni cb uuid_str (World k l c) =
  Ret false (World k (traced Hs_mutex l) (known node c)).
Proof.
  intros Hl Hni Hnode Hst.
  assert (∀ m, m ∉ held l) as Hh by (intros m; rewrite Hl; apply not_elem_of_nil).
  unfold send_msg. crun. run_with (index_lt (desired_hosts c) ni node
    (World k (acquire Hs_mutex l) c) Hni Hnode).
  run_with (status_of_run node k (acquire Hs_mutex l) c). crun.
  destruct (h_status c !! node) as [st|] eqn:E; [|done]. cbn. by rewrite (Hst st eq_refl).
Qed.

(** A healthy host always has descriptors; without them they would be read before
    they are set. *)
Lemma send_msg_unset data size ni cb uuid_str node st k l c :
  held l = [] → 0 ≤ ni → desired_hosts c !! Z.to_nat ni = Some node →
  h_status c !! node = Some st → is_healthy st = true → hs_sfd st = None ∨ hs_ep_sfd st = None →
  send_msg data size ni cb uuid_str (World k l c) = Undef.
Proof.
  intros Hl Hni Hnode Hst Hh' Hno.
  assert (∀ m, m ∉ held l) as Hh by (intros m; rewrite Hl; apply not_elem_of_nil).
  unfold send_msg. crun. run_with (index_lt (desired_hosts c) ni node
    (World k (acquire Hs_mutex l) c) Hni Hnode).
  rewrite (status_there node st) by done. crun. rewrite Hh'. cbn [negb].
  rewrite (status_there node st) by done.
  destruct (hs_sfd st) as [sfd|]; [|done]. cbn [assume]. rewrite bind_ret_l.
  destruct Hno as [E|E]; [done|]. by rewrite E.
Qed.

Lemma send_msg_no_host data size ni cb uuid_str k l c :
  held l = [] → ni < 0 ∨ len (desired_hosts c) ≤ ni →
  send_msg data size ni cb uuid_str (World k l c) = Undef.
Proof.
  intros Hl Hni. unfold send_msg.
  assert (∀ m, m ∉ held l) as Hh by (intros m; rewrite Hl; apply not_elem_of_nil).
  crun. rewrite bind_unfold. unfold index.
  destruct (Z.ltb_spec ni 0); [done|]. by rewrite lookup_ge_None_2 by lia.
Qed.
End sending.

(** ** Responses

    The effect on the client of the call back itself, and of a response: the call
    back that is registered for the identifier runs and is removed. *)
Definition answered_by (cb : callback) (msg_v : bytes) (c : client) : client :=
  match cb with
  | UserCb _ => c
  | BlockCb f => upd_frames (insert f (Frame true msg_v true)) c
  end.

Definition registered (sfd : Z) (c : client) : gmap bytes callback :=
  default ∅ (call_backs c !! sfd).

Definition dispatch (sfd : Z) (c : client) (p : bytes * bytes) : client :=
  upd_call_backs (insert sfd (delete p.1 (registered sfd c)))
    (match registered sfd c !! p.1 with
     | Some cb => answered_by cb p.2 c
     | None => c
     end).

(** The calls of call backs that the caller gave, by a response and by several. *)
Definition fired (sfd : Z) (c : client) (p : bytes * bytes) : list (nat * bytes) :=
  match registered sfd c !! p.1 with Some (UserCb tag) => [(tag, p.2)] | _ => [] end.

Fixpoint fired_all (sfd : Z) (c : client) (ps : list (bytes * bytes)) : list (nat * bytes) :=
  match ps with
  | [] => []
  | p :: ps' => fired sfd c p ++ fired_all sfd (dispatch sfd c p) ps'
  end.

(** Every blocking call whose call back is registered is still waiting. *)
Definition waiting (sfd : Z) (c : client) : Prop :=
  ∀ u f, registered sfd c !! u = Some (BlockCb f) → is_Some (frames c !! f).

Lemma registered_dispatch sfd c p :
  registered sfd (dispatch sfd c p) = delete p.1 (registered sfd c).
Proof. unfold dispatch, registered at 1. cbn. by rewrite lookup_insert_eq. Qed.

Lemma waiting_dispatch sfd c p : waiting sfd c → waiting sfd (dispatch sfd c p).
Proof.
  intros Hw u f. rewrite registered_dispatch. intros [_ Hu]%lookup_delete_Some.
  specialize (Hw u f Hu). unfold dispatch.
  destruct (registered sfd c !! p.1) as [[tag|f']|]; cbn; [done| |done].
  destruct (decide (f = f')) as [->|]; [rewrite lookup_insert_eq; by eexists|by rewrite lookup_insert_ne].
Qed.

Lemma dispatch_rrm sfd g c p : dispatch sfd (upd_rrm g c) p = upd_rrm g (dispatch sfd c p).
Proof.
  unfold dispatch, registered. cbn. by destruct (default ∅ (call_backs c !! sfd) !! p.1) as [[]|].
Qed.

(** What neither call backs nor frames are part of stays. *)
Lemma dispatch_all_field {A} (g : client → A) sfd ps c :
  (∀ f c, g (upd_frames f c) = g c) → (∀ f c, g (upd_call_backs f c) = g c) →
  g (foldl (dispatch sfd) c ps) = g c.
Proof.
  intros Hf Hcb. revert c. induction ps as [|p ps IH]; intros c; [done|]. cbn. rewrite IH. unfold dispatch.
  rewrite Hcb. by destruct (registered sfd c !! p.1) as [[]|]; cbn; rewrite ?Hf.
Qed.

(** A blocking call's result is there once its response has come. *)
Lemma dispatch_results sfd ps txt u f c :
  (∀ p, p ∈ ps → p.2 = txt) → u ∈ map fst ps → registered sfd c !! u = Some (BlockCb f) →
  frames (foldl (dispatch sfd) c ps) !! f = Some (Frame true txt true).
Proof.
  intros Ht. set (done_ := λ c, frames c !! f = Some (Frame true txt true)).
  assert (∀ c p, p.2 = txt → done_ c → done_ (dispatch sfd c p)) as Hstep.
  { intros c1 p Hp Hd. unfold done_, dispatch in *. destruct (registered sfd c1 !! p.1) as [[|g]|]; cbn; [done| |done].
    rewrite Hp. destruct (decide (f = g)) as [->|]; [apply lookup_insert_eq|by rewrite lookup_insert_ne]. }
  assert (∀ ps c, (∀ p, p ∈ ps → p.2 = txt) → done_ c → done_ (foldl (dispatch sfd) c ps)) as Hstay.
  { clear -Hstep. intros ps. induction ps as [|p ps IH]; intros c1 Hp Hd; [done|].
    apply IH; [intros q Hq; apply Hp; by right|]. apply Hstep; [apply Hp; by left|done]. }
  revert c. induction ps as [|p ps IH]; intros c Hu Hr; [by apply elem_of_nil in Hu|]. cbn [foldl].
  destruct (decide (p.1 = u)) as [<-|Hne].
  - apply Hstay; [intros q Hq; apply Ht; by right|]. unfold done_, dispatch. rewrite Hr. cbn.
    rewrite lookup_insert_eq. do 2 f_equal. apply Ht. by left.
  - apply IH; [intros q Hq; apply Ht; by right| |by rewrite registered_dispatch, lookup_delete_ne].
    by apply elem_of_cons in Hu as [?|?].
Qed.

Lemma fired_all_snoc sfd ps p c :
  fired_all sfd c (ps ++ [p]) = fired_all sfd c ps ++ fired sfd (foldl (dispatch sfd) c ps) p.
Proof.
  revert c. induction ps as [|q ps IH]; intros c; cbn; [by rewrite app_nil_r|].
  by rewrite IH, app_assoc.
Qed.

Lemma waiting_all sfd ps c : waiting sfd c → waiting sfd (foldl (dispatch sfd) c ps).
Proof. revert c. induction ps as [|p ps IH]; intros c Hw; [done|]. by apply IH, waiting_dispatch. Qed.

(** Responses with different identifiers: each one calls the call back that is
    registered for it. *)
Definition answer (sfd : Z) (c : client) (p : bytes * bytes) : option (nat * bytes) :=
  match registered sfd c !! p.1 with Some (UserCb tag) => Some (tag, p.2) | _ => None end.

Lemma fired_once sfd ps c :
  NoDup (map fst ps) → fired_all sfd c ps = omap (answer sfd c) ps.
Proof.
  assert (∀ qs c u, u ∉ map fst qs → ∀ c', registered sfd c' = delete u (registered sfd c) →
            omap (answer sfd c') qs = omap (answer sfd c) qs) as Hother.
  { clear. intros qs c u Hu c' Hc'. induction qs as [|q qs IH]; [done|].
    apply not_elem_of_cons in Hu as [Hq Hu]. cbn. rewrite (IH Hu). unfold answer.
    by rewrite Hc', lookup_delete_ne. }
  revert c. induction ps as [|p ps IH]; intros c Hnd; [done|]. cbn [map] in Hnd.
  apply NoDup_cons in Hnd as [Hp Hnd]. cbn [fired_all]. rewrite (IH _ Hnd).
  rewrite (Hother ps c p.1 Hp) by apply registered_dispatch. cbn. unfold fired, answer.
  by destruct (registered sfd c !! p.1) as [[]|].
Qed.

Lemma registered_all sfd ps c u :
  registered sfd (foldl (dispatch sfd) c ps) !! u =
  if bool_decide (u ∈ map fst ps) then None else registered sfd c !! u.
Proof.
  revert c. induction ps as [|p ps IH]; intros c; [done|]. cbn [foldl map]. rewrite IH, registered_dispatch.
  destruct (decide (u = p.1)) as [->|Hu].
  - rewrite lookup_delete_eq, (bool_decide_eq_true_2 (p.1 ∈ p.1 :: _)) by set_solver. by case_bool_decide.
  - rewrite lookup_delete_ne by done. by rewrite (bool_decide_ext (u ∈ p.1 :: map fst ps) (u ∈ map fst ps))
      by set_solver.
Qed.

(** System calls that serve the reading side. *)
Definition untouched {K} `{Kernel K} (T : list (nat * bytes) → K → Prop) : Prop :=
  ∀ fs k, T fs k →
    (∀ fd n, T fs (sys_read fd n k).2) ∧ (∀ ep fd ev, T fs (sys_epoll_mod ep fd ev k).2) ∧
    T fs (sys_gettimeofday k).2.

(** The caller's call backs return, and do not use the client: their effect [T] is
    outside of it. *)
Definition returns {K} `{SocketKernel K} (T : list (nat * bytes) → K → Prop)
    (run_cb : nat → bytes → M (world K client) unit) : Prop :=
  ∀ tag msg_v fs w, T fs (kern w) →
    ∃ k', run_cb tag msg_v w = Ret tt (set_kern k' w) ∧ T (fs ++ [(tag, msg_v)]) k' ∧
          ∀ fd, inbox fd k' = inbox fd (kern w) ∧ inbox_end fd k' = inbox_end fd (kern w).

Section responses.
Context {K : Type} `{SocketKernel K}.
Implicit Types (l : lockstate) (c : client) (k : K).
Context (T : list (nat * bytes) → K → Prop) (run_cb : nat → bytes → M (world K client) unit).
Hypothesis T_frame : untouched T.
Hypothesis run_cb_ok : returns T run_cb.

Lemma call_backs_of_run sfd k l c :
  call_backs_of sfd (World k l c) =
  Ret (registered sfd c) (World k l (upd_call_backs (insert sfd (registered sfd c)) c)).
Proof.
  unfold call_backs_of, registered. crun. destruct (call_backs c !! sfd) as [cbs|] eqn:E; cbn; [|done].
  unfold upd_call_backs. rewrite insert_id by done. by destruct c.
Qed.

(** The call back of a blocking call. *)
Lemma call_blocked fr msg_v x k l c :
  frames c !! fr = Some x →
  call run_cb (BlockCb fr) msg_v (World k l c) =
  Ret tt (World k l (answered_by (BlockCb fr) msg_v c)).
Proof. intros Hx. unfold call. rewrite c_bind_get. cbn [app]. by rewrite Hx. Qed.

(** A response is dispatched, when the call back that is registered for it returns. *)
Lemma call_back_of_step ep sfd f k k' l c :
  len f < 2 ^ 32 → Cb_mutex ∉ held l →
  (registered sfd c !! (decode f).1 = None → k' = k) →
  let c1 := upd_call_backs (insert sfd (registered sfd c)) c in
  (∀ cb, registered sfd c !! (decode f).1 = Some cb →
     call run_cb cb (decode f).2 (World k (acquire Cb_mutex l) c1) =
     Ret tt (World k' (acquire Cb_mutex l) (answered_by cb (decode f).2 c1))) →
  call_back_of run_cb (ep, sfd) f (World k l c) =
  Ret tt (World k' (traced Cb_mutex l) (dispatch sfd c (decode f))).
Proof.
  intros Hf Hcb Hk c1 Hcall. unfold call_back_of. cbn zeta.
  run_with (unpack_delivered f (World k l c) Hf). crun.
  run_with (call_backs_of_run sfd k (acquire Cb_mutex l) c).
  unfold dispatch, decode in *. cbn [fst snd] in *.
  fold c1. destruct (registered sfd c !! take 37 f) as [cb|] eqn:E.
  - specialize (Hcall cb eq_refl).
    set (c2 := answered_by cb (drop 37 f) c1) in *.
    assert (registered sfd c2 = registered sfd c) as Hr2.
    { unfold c2, registered at 1. destruct cb; cbn; by rewrite lookup_insert_eq. }
    assert (catch_std (call run_cb cb (drop 37 f)) (λ _, a_zombied sfd)
              (World k (acquire Cb_mutex l) c1) = Ret tt (World k' (acquire Cb_mutex l) c2)) as E1
      by (unfold catch_std; by rewrite Hcall).
    rewrite bind_assoc. run_with E1. rewrite bind_assoc.
    run_with (call_backs_of_run sfd k' (acquire Cb_mutex l) c2). rewrite Hr2. crun.
    unfold c2, c1. destruct cb; unfold upd_call_backs; cbn; by rewrite !insert_insert_eq.
  - rewrite Hk by done. crun. by rewrite delete_id.
Qed.

Lemma dispatch_run ep sfd f fs k l c :
  len f < 2 ^ 32 → Cb_mutex ∉ held l → T fs k → waiting sfd c →
  ∃ k', call_back_of run_cb (ep, sfd) f (World k l c) =
        Ret tt (World k' (traced Cb_mutex l) (dispatch sfd c (decode f))) ∧
        T (fs ++ fired sfd c (decode f)) k' ∧
        ∀ fd, inbox fd k' = inbox fd k ∧ inbox_end fd k' = inbox_end fd k.
Proof.
  intros Hf Hcb HT Hw. unfold fired.
  destruct (registered sfd c !! (decode f).1) as [[tag|fr]|] eqn:E.
  - destruct (run_cb_ok tag (decode f).2 fs (World k (acquire Cb_mutex l)
      (upd_call_backs (insert sfd (registered sfd c)) c)) HT) as (k' & E1 & H1 & H2).
    exists k'. split_and!; [|done|done]. apply call_back_of_step; [done|done|by rewrite E|].
    intros cb Hc. rewrite E in Hc. injection Hc as <-. exact E1.
  - exists k. rewrite app_nil_r. split_and!; [|done|done]. apply call_back_of_step; [done..|].
    intros cb Hc. rewrite E in Hc. injection Hc as <-. destruct (Hw _ _ E) as [x Hx].
    by apply (call_blocked fr (decode f).2 x).
  - exists k. rewrite app_nil_r. split_and!; [|done|done]. apply call_back_of_step; [done..|].
    intros cb Hc. by rewrite E in Hc.
Qed.

(** A dead connection. *)
Lemma a_zombied_client sfd node st k l c :
  Conn_mutex ∉ held l → Hs_mutex ∉ held l → Z_mutex ∉ held l →
  conns c !! sfd = Some node → h_status c !! node = Some st →
  a_zombied sfd (World k l c) =
  Ret tt (World (sys_gettimeofday k).2 (traced Z_mutex (traced Hs_mutex (traced Conn_mutex l)))
            (upd_zm (insert sfd (now_ms k))
               (upd_h_status (insert node (MkHostStatus false (hs_sfd st) (hs_ep_sfd st))) c))).
Proof.
  intros H1 H2 H3 Hc Hs. unfold a_zombied. crun. rewrite (node_there sfd node) by done. crun.
  rewrite (status_there node st) by done. crun. done.
Qed.

(** While responses are delivered, with the entry's mutex [p] held and the mutexes
    of [l0] alive. *)
Definition c_delivering sfd p l0 c (fs : list bytes) (w : world K client) : Prop :=
  held (locks w) = [RR_mutex p] ∧ extends l0 (locks w) ∧
  T (fired_all sfd c (map decode fs)) (kern w) ∧
  ∃ br, app w = upd_rrm (insert sfd (MkReadR br p true)) (foldl (dispatch sfd) c (map decode fs)).

Lemma dispatch_drain ep sfd p l0 c fuel b close w frames rest :
  waiting sfd c → c_delivering sfd p l0 c [] w →
  rd (br_ref sfd) (app w) = Some (MkBufferedReader b (Some EOT) (Some (ep, sfd))) →
  EOT ∉ b → (length (inbox sfd (kern w)) < fuel)%nat →
  len b + len (inbox sfd (kern w)) < 2 ^ 32 →
  feed EOT b (inbox sfd (kern w)) = (frames, rest) →
  ∃ w', c_delivering sfd p l0 c frames w' ∧ inbox sfd (kern w') = [] ∧
        rd (br_ref sfd) (app w') = Some (MkBufferedReader rest (Some EOT) (Some (ep, sfd))) ∧
        read_from_sfd (call_back_of run_cb) fuel ep sfd (in_app (br_ref sfd)) close
          (in_app events_ref) E_mutex w =
        (match inbox_end sfd (kern w) with
         | Open => arm EPOLLIN ep sfd (in_app events_ref) E_mutex
         | _ => close
         end) w'.
Proof.
  intros Hw HP Hrd Hb Hfuel H32 E.
  destruct (read_from_sfd_run (call_back_of run_cb) (br_ref sfd) (ep, sfd) sfd (c_delivering sfd p l0 c)
    (λ f, len f < 2 ^ 32)) with (fuel := fuel) (ep := ep) (d := EOT) (b := b) (l := @nil bytes) (w := w)
    (frames := frames) (rest := rest) (close := close)
    (ev := (in_app events_ref : ref (world K client) _)) (e_mutex := E_mutex)
    as (w' & HP' & Hrd' & Hi & Er); try done.
  - intros fs w1 br b' Hrd1 _ (H1 & H2 & H3 & br' & Happ). split_and!; [done|done|done|].
    exists (set_buffer br b'). cbn. rewrite Happ. unfold upd_rrm. cbn. f_equal.
    rewrite (alter_as_insert _ _ _ (MkReadR br' p true)) by apply lookup_insert_eq.
    by rewrite insert_insert_eq.
  - intros fs f w1 br Hrd1 _ (H1 & H2 & H3 & br' & Happ) Hf. destruct w1 as [k1 l1 c1]. cbn in *.
    set (cs := foldl (dispatch sfd) c (map decode fs)) in *.
    destruct (dispatch_run ep sfd f (fired_all sfd c (map decode fs)) k1 l1 c1 Hf)
      as (k' & E1 & HT' & Hi'); [rewrite H1; set_solver|done| |].
    { rewrite Happ. by apply (waiting_all sfd (map decode fs) c). }
    rewrite Happ in E1, HT'. rewrite dispatch_rrm in E1.
    exists (World k' (traced Cb_mutex l1) (upd_rrm (insert sfd (MkReadR br' p true)) (dispatch sfd cs (decode f)))).
    rewrite Happ. split_and!; [done| |cbn; by rewrite !lookup_insert_eq|by apply Hi'..].
    split_and!; [done|done| |].
    + rewrite map_app. cbn [map kern]. rewrite fired_all_snoc. exact HT'.
    + exists br'. rewrite map_app, foldl_app. done.
  - intros fs w1 n (H1 & H2 & H3 & H4). split_and!; [done|done|by apply T_frame|done].
  - eapply Forall_impl; [by apply (feed_bound _ _ _ _ _ E)|]. cbn. lia.
  - by exists w'.
Qed.

(** The reader that [read] works on. *)
Definition reader_of (ep sfd : Z) (l : lockstate) (c : client) : ReadR (Z * Z) :=
  default (MkReadR (BufferedReader_new EOT (ep, sfd)) (next_mutex l) true) (rrm c !! sfd).

Lemma read_enter fuel ep sfd k l c :
  held l = [] → (∀ x, rrm c !! sfd = Some x → r_mutex x ∈ live l) →
  let x := reader_of ep sfd l c in
  r_is_valid x = true →
  ∃ l', held l' = [RR_mutex (r_mutex x)] ∧ r_mutex x ∈ live l' ∧ extends l l' ∧
    read run_cb fuel ep sfd (World k l c) =
    (read_from_sfd (call_back_of run_cb) fuel ep sfd (in_app (br_ref sfd)) (read_close sfd)
       (in_app events_ref) E_mutex;;
     rr ← load (in_app (rr_ref sfd)); unlock (RR_mutex (r_mutex rr)))
    (World k l' (upd_rrm (insert sfd x) c)).
Proof.
  intros Hl Hlive x Hv. unfold reader_of in x. unfold read.
  assert (∀ m, m ∉ held l) as Hh by (intros m; rewrite Hl; apply not_elem_of_nil).
  assert (∃ l1, grown l l1 ∧ r_mutex x ∈ live l1 ∧ ∀ B (f : unit → M (world K client) B),
    (lock R_mutex;; m ← get rrm;
     match m !! sfd with
     | None =>
         p ← new_mutex;
         put (upd_rrm (emplace sfd (MkReadR (BufferedReader_new EOT (ep, sfd)) p true)))
     | Some _ => mret tt
     end;; unlock R_mutex ≫= f) (World k l c) = f tt (World k l1 (upd_rrm (insert sfd x) c)))
    as (l1 & [Hg1 Hg2] & Hx1 & E).
  { destruct (rrm c !! sfd) as [x'|] eqn:Ex; cbn in x.
    - exists (traced R_mutex l). split_and!; [done|by apply Hlive|]. intros B f.
      crun. rewrite Ex. crun. unfold upd_rrm. rewrite insert_id by done. by destruct c.
    - exists (traced R_mutex (allocated l)). split_and!; [|cbn; set_solver|].
      + split; [done|apply extends_allocated].
      + intros B f. crun. rewrite Ex. crun. unfold upd_rrm, emplace. by rewrite Ex. }
  assert (∀ m, m ∉ held l1) as Hh1 by (intros m; by rewrite Hg1).
  set (c1 := upd_rrm (insert sfd x) c) in *.
  assert (rrm c1 !! sfd = Some x) as Hx by apply lookup_insert_eq.
  rewrite E. exists (acquire (RR_mutex (r_mutex x)) l1). split_and!; [cbn; by rewrite Hg1, Hl|done|done|].
  crun. rewrite Hv. done.
Qed.

(** The client after its responses [ps] were read and the kernel had no more:
    [t] is the time at which a dead connection was noticed. *)
Definition after_read (sfd : Z) (x : ReadR (Z * Z)) (rest : BufferedReader (Z * Z)) (e : ending)
    (node : bytes) (st : HostStatus) (t : Z) (c : client) : client :=
  let c' := upd_rrm (insert sfd (MkReadR rest (r_mutex x) (is_open e))) c in
  if is_open e
  then upd_sfd_events (insert sfd (Z.lor (get0 (sfd_events c) sfd) EPOLLIN)) c'
  else upd_zm (insert sfd t)
         (upd_h_status (insert node (MkHostStatus false (hs_sfd st) (hs_ep_sfd st))) c').

Lemma dispatch_all_other sfd ps c :
  let c' := foldl (dispatch sfd) c ps in conns c' = conns c ∧ h_status c' = h_status c.
Proof. split; by apply dispatch_all_field. Qed.

Lemma finish_read sfd p br k l c :
  held l = [RR_mutex p] → p ∈ live l → rrm c !! sfd = Some br → r_mutex br = p →
  (rr ← load (in_app (rr_ref sfd)); unlock (RR_mutex (r_mutex rr))) (World k l c) =
  Ret tt (World k (release l) c).
Proof.
  intros Hl Hp Hr Hm. crun. rewrite Hm. rewrite (unlock_run _ []); [done| |done|apply not_elem_of_nil].
  by apply bool_decide_eq_true_2.
Qed.

Lemma read_close_client sfd node st x k l c :
  (∀ m, m ∈ held l → ∃ p, m = RR_mutex p) → rrm c !! sfd = Some x →
  conns c !! sfd = Some node → h_status c !! node = Some st →
  read_close sfd (World k l c) =
  Ret tt (World (sys_gettimeofday k).2 (traced Z_mutex (traced Hs_mutex (traced Conn_mutex l)))
            (upd_zm (insert sfd (now_ms k))
               (upd_h_status (insert node (MkHostStatus false (hs_sfd st) (hs_ep_sfd st)))
                  (upd_rrm (insert sfd (MkReadR (r_br x) (r_mutex x) false)) c)))).
Proof.
  intros Hl Hx Hn Hs. unfold read_close. wstep. wstep.
  apply a_zombied_client; try done; intros Hm; by destruct (Hl _ Hm).
Qed.

(** The two ways in which reading ends. *)
Lemma end_of_read ep sfd x p node st br e k l c fs :
  held l = [RR_mutex p] → r_mutex x = p → T fs k → inbox sfd k = [] →
  rrm c !! sfd = Some (MkReadR br p true) → conns c !! sfd = Some node → h_status c !! node = Some st →
  ∃ k' l' t,
    (match e with
     | Open => arm EPOLLIN ep sfd (in_app events_ref) E_mutex
     | _ => read_close sfd
     end) (World k l c) = Ret tt (World k' l' (after_read sfd x br e node st t c)) ∧
    held l' = [RR_mutex p] ∧ extends l l' ∧ inbox sfd k' = [] ∧ T fs k'.
Proof.
  intros Hl Hm HT Hi Hx Hn Hs.
  destruct (T_frame _ _ HT) as (_ & HTm & HTt).
  destruct (mod_frame ep sfd (Z.lor (get0 (sfd_events c) sfd) EPOLLIN) k sfd) as [Hmi _].
  destruct (time_frame k sfd) as [Hti _]. rewrite Hi in Hmi, Hti.
  unfold after_read. destruct (is_open e) eqn:Eo.
  - destruct e; try done.
    rewrite (arm_run events_ref E_mutex EPOLLIN ep sfd (sfd_events c)) by (first [done | cbn; rewrite Hl; set_solver]).
    exists (sys_epoll_mod ep sfd (Z.lor (get0 (sfd_events c) sfd) EPOLLIN) k).2, (traced E_mutex l), 0.
    split_and!; [|done|done|done|apply HTm].
    unfold armed. cbn. rewrite Hm. unfold upd_rrm. cbn. rewrite (insert_id (rrm c)) by done. by destruct c.
  - replace (match e with
             | Open => arm EPOLLIN ep sfd (in_app events_ref) E_mutex
             | _ => read_close sfd
             end) with (read_close (K:=K) sfd) by (by destruct e).
    rewrite (read_close_client sfd node st (MkReadR br p true)); [|intros m; rewrite Hl, list_elem_of_singleton; by eexists|done..].
    exists (sys_gettimeofday k).2, (traced Z_mutex (traced Hs_mutex (traced Conn_mutex l))), (now_ms k).
    rewrite Hm. by split_and!.
Qed.

(** Reading to the end of what has arrived. *)
Lemma read_client_run fuel ep sfd node st b k l c frames rest :
  held l = [] → (∀ x, rrm c !! sfd = Some x → r_mutex x ∈ live l) →
  let x := reader_of ep sfd l c in
  r_is_valid x = true → r_br x = MkBufferedReader b (Some EOT) (Some (ep, sfd)) → EOT ∉ b →
  conns c !! sfd = Some node → h_status c !! node = Some st → waiting sfd c → T [] k →
  (length (inbox sfd k) < fuel)%nat → len b + len (inbox sfd k) < 2 ^ 32 →
  feed EOT b (inbox sfd k) = (frames, rest) →
  ∃ k' l' t, read run_cb fuel ep sfd (World k l c) =
    Ret tt (World k' l'
      (after_read sfd x (MkBufferedReader rest (Some EOT) (Some (ep, sfd))) (inbox_end sfd k) node st t
         (foldl (dispatch sfd) c (map decode frames)))) ∧
    held l' = [] ∧ r_mutex x ∈ live l' ∧ extends l l' ∧ inbox sfd k' = [] ∧
    T (fired_all sfd c (map decode frames)) k'.
Proof.
  intros Hl Hlive x Hv Hbr Hb Hnode Hst Hw HT Hfuel H32 E.
  destruct (read_enter fuel ep sfd k l c Hl Hlive Hv) as (l1 & Hl1 & Hx1 & He1 & ->). fold x in Hl1, Hx1 |- *.
  set (p := r_mutex x) in *. set (w1 := World k l1 _).
  destruct (dispatch_drain ep sfd p l1 c fuel b (read_close sfd) w1 frames rest Hw)
    as (w2 & (Hl2 & Hp2 & HT2 & br & Happ) & Hi2 & Hrd2 & Er); try done.
  { split_and!; [done|done|done|]. exists (r_br x). cbn. destruct x; cbn in *; by subst. }
  { cbn. rewrite lookup_insert_eq. cbn. by rewrite Hbr. }
  rewrite bind_unfold, Er. clear Er. destruct w2 as [k2 l2 c2]. cbn in Hl2, Hp2, HT2, Happ, Hi2, Hrd2.
  subst c2. cbn in Hrd2. rewrite lookup_insert_eq in Hrd2. injection Hrd2 as ->.
  set (c' := foldl (dispatch sfd) c (map decode frames)) in *.
  destruct (dispatch_all_other sfd (map decode frames) c) as [Hc1 Hc2]. fold c' in Hc1, Hc2.
  set (br' := MkBufferedReader rest _ _). unfold after_read. cbn [kern w1].
  set (c1 := upd_rrm (insert sfd (MkReadR br' p true)) c').
  destruct (end_of_read ep sfd x p node st br' (inbox_end sfd k) k2 l2 c1
    (fired_all sfd c (map decode frames))) as (k3 & l3 & t & -> & H3 & Hp3 & Hi3 & HT3); try done.
  { apply lookup_insert_eq. } { unfold c1. cbn. by rewrite Hc1. } { unfold c1. cbn. by rewrite Hc2. }
  rewrite (finish_read sfd p (MkReadR br' p (is_open (inbox_end sfd k)))); [|done|by apply Hp3, Hp2| |done].
  2: { unfold after_read. destruct (is_open _); apply lookup_insert_eq. }
  exists k3, (release l3), t. split_and!; [|cbn; by rewrite H3|by apply Hp3, Hp2| |done|done].
  2: { etransitivity; [exact He1|]. etransitivity; [exact Hp2|exact Hp3]. }
  do 2 f_equal. unfold after_read, c1. destruct (is_open _); unfold upd_rrm; cbn;
    by rewrite insert_insert_eq.
Qed.
End responses.

(** ** Blocking calls *)
Section blocking.
Context {K : Type} `{SocketKernel K}.
Implicit Types (l : lockstate) (c : client) (k : K).
Context (uuid_generate : M (world K client) bytes) (uuid_unparse_lower : bytes → bytes).

Lemma queued_frames sfd msg y c : frames (queued sfd msg y c) = frames c.
Proof. unfold queued. by destruct (w_is_valid y). Qed.

Lemma queued_registered sfd msg y c : registered sfd (queued sfd msg y c) = registered sfd c.
Proof. unfold queued. by destruct (w_is_valid y). Qed.

Lemma register_registered sfd uuid_str cb c :
  registered sfd (register sfd uuid_str (Some cb) c) = <[uuid_str := cb]> (registered sfd c).
Proof. unfold registered at 1. cbn. by rewrite lookup_insert_eq. Qed.

(** The wait goes on through wake-ups that are not for it. *)
Lemma wait_spurious f n waits fr (w : world K client) :
  frames (app w) !! f = Some fr → f_ss fr = false →
  wait_loop f false (replicate n (mret false) ++ waits) w = wait_loop f false waits w.
Proof.
  intros Hf Hs. induction n as [|n IH]; [done|].
  change (wait_loop f false (mret false :: (replicate n (mret false) ++ waits)) w =
          wait_loop f false waits w).
  rewrite <-IH. cbn [wait_loop]. rewrite c_bind_get, Hf. cbn [assume].
  by rewrite bind_ret_l, Hs.
Qed.

(** The last wake-up: the response has arrived, or the time is over. *)
Lemma wait_last f t waits fr fr' (w w' : world K client) (ev : M (world K client) bool) :
  frames (app w) !! f = Some fr → f_ss fr = false → ev w = Ret t w' →
  frames (app w') !! f = Some fr' → f_ss fr' || t = true →
  wait_loop f false (ev :: waits) w = Ret tt w'.
Proof.
  intros Hf Hs Hev Hf' Ht. cbn [wait_loop]. rewrite c_bind_get, Hf. cbn [assume].
  rewrite bind_ret_l, Hs. cbn [orb]. run_with Hev.
  destruct waits; cbn [wait_loop]; rewrite c_bind_get, Hf'; cbn [assume]; by rewrite bind_ret_l, Ht.
Qed.

(** The client of a blocking call: before the message is sent, and when it waits. *)
Definition calling (result : bytes) (c : client) : client :=
  upd_frames (insert (next_frame c) (Frame false result false)) (upd_next_frame Datatypes.S c).

Definition call_waits (success : bool) (f : nat) (result : bytes) (c : client) : client :=
  upd_frames (insert f (Frame success result false)) c.

(** The end of a call. *)
Definition call_ends (sfd : Z) (uuid_str : bytes) (f : nat) (c : client) : client :=
  upd_frames (delete f)
    (upd_call_backs (insert sfd (delete uuid_str (registered sfd c))) c).

(** A blocking call from the moment its message has been sent, or not. *)
Lemma send_msg_wait_run waits data size ni result node st sfd uuid_str b k2 l2 c1 k3 l3 c3 fr k l c :
  0 ≤ ni → desired_hosts c !! Z.to_nat ni = Some node →
  h_status c !! node = Some st → hs_sfd st = Some sfd →
  (∀ w, build_uuid_str uuid_generate uuid_unparse_lower w = Ret uuid_str w) →
  let f := next_frame c in
  send_msg data size ni (Some (BlockCb f)) uuid_str (World k l (calling result c)) =
    Ret b (World k2 l2 c1) →
  frames c1 !! f = Some (Frame false result false) →
  let c2 := call_waits b f result c1 in
  (if b : bool then wait_loop f false waits (World k2 l2 c2) else Ret tt (World k2 l2 c2)) =
    Ret tt (World k3 l3 c3) →
  held l3 = [] → frames c3 !! f = Some fr →
  send_msg_wait uuid_generate uuid_unparse_lower waits data size ni result (World k l c) =
  Ret (f_success fr, f_result fr) (World k3 (traced Cb_mutex l3) (call_ends sfd uuid_str f c3)).
Proof.
  intros Hni Hnode Hst Hsfd Huuid f Hsend Hf1 c2 Hwait Hl3 Hfr. unfold send_msg_wait.
  rewrite c_bind_get. run_with (index_lt (desired_hosts c) ni node (World k l c) Hni Hnode).
  erewrite status_there by exact Hst. rewrite Hsfd. cbn [assume]. rewrite bind_ret_l, c_bind_get, c_bind_put.
  unfold set_app. cbn [kern locks app]. run_with (Huuid (World k l (calling result c))).
  fold f. run_with Hsend. rewrite c_bind_get. cbn [app].
  rewrite Hf1. cbn [assume f_result f_ss]. rewrite bind_ret_l, c_bind_put.
  unfold set_app. cbn [kern locks app]. fold (call_waits b f result c1). fold c2.
  assert ((if b then wait_loop f false waits else mret tt) (World k2 l2 c2) = Ret tt (World k3 l3 c3)) as E
    by (by destruct b).
  run_with E.
  assert (∀ m, m ∉ held l3) as Hh by (intros m; rewrite Hl3; apply not_elem_of_nil).
  crun. run_with (call_backs_of_run sfd k3 (acquire Cb_mutex l3) c3). crun.
  cbn. rewrite Hfr. cbn [assume]. crun. unfold mret, M_ret. do 2 f_equal.
  unfold call_ends, upd_frames, upd_call_backs. cbn. by rewrite insert_insert_eq.
Qed.

(** The time is over. *)
Lemma timeout_wakes f n waits fr k l c :
  frames c !! f = Some fr → f_ss fr = false →
  wait_loop f false (replicate n (mret false) ++ mret true :: waits) (World k l c) =
  Ret tt (World k l c).
Proof.
  intros Hf Hs. erewrite wait_spurious by (exact Hf || done).
  eapply wait_last; [exact Hf|done|done|exact Hf|apply orb_true_r].
Qed.

(** The response comes. *)
Lemma response_wakes run_cb f n ep sfd uuid_str msg_v b waits fr k l c :
  len uuid_str = 37 → 37 + len msg_v < 2 ^ 32 → held l = [] →
  frames c !! f = Some fr → f_ss fr = false → registered sfd c !! uuid_str = Some (BlockCb f) →
  ∃ c', wait_loop f false
          (replicate n (mret false) ++
           (call_back_of run_cb (ep, sfd) (uuid_str ++ msg_v);; mret b) :: waits) (World k l c) =
        Ret tt (World k (traced Cb_mutex l) c') ∧
    frames c' = <[f := Frame true msg_v true]> (frames c) ∧
    registered sfd c' = delete uuid_str (registered sfd c).
Proof.
  intros H37 Hmsg Hl Hf Hs Hreg. exists (dispatch sfd c (uuid_str, msg_v)).
  assert (decode (uuid_str ++ msg_v) = (uuid_str, msg_v)) as Hd.
  { unfold decode. replace 37%nat with (length uuid_str) by lia.
    by rewrite take_app_length, drop_app_length. }
  assert (frames (dispatch sfd c (uuid_str, msg_v)) = <[f := Frame true msg_v true]> (frames c)) as Hf'
    by (unfold dispatch; cbn [fst snd]; by rewrite Hreg).
  split_and!; [|done|apply registered_dispatch].
  erewrite wait_spurious by (exact Hf || done).
  eapply wait_last; [exact Hf|done| |cbn [app]; rewrite Hf'; apply lookup_insert_eq|done].
  erewrite bind_run; [done|]. rewrite <-Hd.
  apply call_back_of_step; [rewrite length_app; lia|rewrite Hl; set_solver|done|].
  intros cb Hcb. rewrite Hd in *. cbn [fst snd] in *. rewrite Hreg in Hcb. injection Hcb as <-.
  by eapply call_blocked.
Qed.

(** What is left of a call when it has ended. *)
Lemma call_leaves_nothing sfd uuid_str f fr c c1 :
  frames c !! f = None → frames c1 = <[f := fr]> (frames c) →
  registered sfd c1 = registered sfd c ∨ registered sfd c1 = <[uuid_str := BlockCb f]> (registered sfd c) ∨
    registered sfd c1 = delete uuid_str (registered sfd c) →
  frames (call_ends sfd uuid_str f c1) = frames c ∧
  registered sfd (call_ends sfd uuid_str f c1) = delete uuid_str (registered sfd c).
Proof.
  intros Hf Hc1 Hr. split.
  - cbn. by rewrite Hc1, delete_insert_id.
  - unfold registered at 1. cbn. rewrite lookup_insert_eq. cbn. destruct Hr as [->|[->| ->]].
    + done.
    + by rewrite delete_insert_eq.
    + by rewrite delete_delete_eq.
Qed.

(** A call whose message was taken, up to the wait. *)
Lemma sent_call data size ni node sfd ep uuid_str result k l c :
  held l = [] → 36 ≤ len uuid_str → 0 ≤ size ≤ len data → 38 + size < 2 ^ 32 →
  0 ≤ ni → desired_hosts c !! Z.to_nat ni = Some node →
  h_status c !! node = Some (MkHostStatus true (Some sfd) (Some ep)) →
  (∀ y, wrm c !! sfd = Some y → w_mutex y ∈ live l) →
  let f := next_frame c in
  ∃ k' l' c', send_msg data size ni (Some (BlockCb f)) uuid_str (World k l (calling result c)) =
              Ret (w_is_valid (writer_of sfd l c)) (World k' l' c') ∧ held l' = [] ∧
    frames c' = <[f := Frame false result false]> (frames c) ∧
    registered sfd c' = <[uuid_str := BlockCb f]> (registered sfd c).
Proof.
  intros Hl Hu Hsz H32 Hni Hnode Hst Hlive f.
  destruct (send_msg_run data size ni (Some (BlockCb f)) uuid_str node sfd ep k l (calling result c)
              Hl Hu Hsz H32 Hni Hnode Hst Hlive) as (l' & E & [Hl' _] & _).
  eexists _, l', _. split_and!; [exact E|by rewrite Hl'|by rewrite queued_frames|].
  by rewrite queued_registered, register_registered.
Qed.
End blocking.

(** ** The reaper *)
Definition cleaned (sfd : Z) (c : client) : client :=
  upd_sfd_events (delete sfd)
    (upd_wrm (delete sfd)
       (upd_rrm (delete sfd) (upd_call_backs (delete sfd) (upd_conns (delete sfd) c)))).

(** The mutex of a descriptor's reader, or writer. *)
Definition owner (c : client) (reader : bool) (sfd : Z) : option nat :=
  if reader then r_mutex <$> rrm c !! sfd else w_mutex <$> wrm c !! sfd.

(** The entries of a descriptor point to two mutexes. *)
Definition owned (sfd : Z) (l : lockstate) (c : client) : Prop :=
  (∀ x, rrm c !! sfd = Some x → r_mutex x ∈ live l) ∧
  (∀ y, wrm c !! sfd = Some y → w_mutex y ∈ live l) ∧
  ∀ x y, rrm c !! sfd = Some x → wrm c !! sfd = Some y → r_mutex x ≠ w_mutex y.

(** From [l] to [l'] mutexes were taken and released, and just those in [gone] freed. *)
Record freeing (gone : nat → Prop) (l l' : lockstate) : Prop := {
  freeing_held : held l' = held l;
  freeing_next : next_mutex l' = next_mutex l;
  freeing_live p : p ∈ live l' ↔ p ∈ live l ∧ ¬ gone p;
  freeing_acquired a : a ∈ acquired l → a ∈ acquired l'
}.

Lemma freeing_traced m l : freeing (λ _, False) l (traced m l).
Proof. split; cbn; [done|done|naive_solver|set_solver]. Qed.

Lemma freeing_trans G1 G2 G l1 l2 l3 :
  (∀ p, G p ↔ G1 p ∨ G2 p) → freeing G1 l1 l2 → freeing G2 l2 l3 → freeing G l1 l3.
Proof.
  intros HG [A1 A2 A3 A4] [B1 B2 B3 B4]. split; [congruence..| |auto].
  intros p. rewrite B3, A3, HG. naive_solver.
Qed.

Lemma freeing_none_trans G l1 l2 l3 : freeing (λ _, False) l1 l2 → freeing G l2 l3 → freeing G l1 l3.
Proof. apply freeing_trans. naive_solver. Qed.

Lemma freeing_trans_none G l1 l2 l3 : freeing G l1 l2 → freeing (λ _, False) l2 l3 → freeing G l1 l3.
Proof. apply freeing_trans. naive_solver. Qed.

Section reaping.
Context {K : Type} `{SocketKernel K}.
Implicit Types (l : lockstate) (c : client) (k : K).

Lemma clean_rr_client sfd hs k l c :
  held l = hs → R_mutex ∉ hs → (∀ p, (RR_mutex p ∉ hs) ∧ (WR_mutex p ∉ hs)) →
  (∀ x, rrm c !! sfd = Some x → r_mutex x ∈ live l) →
  ∃ l', clean_rr sfd (World k l c) = Ret tt (World k l' (upd_rrm (delete sfd) c)) ∧
        freeing (λ p, owner c true sfd = Some p) l l'.
Proof.
  intros Hl Hr Hh Hx. unfold clean_rr, owner. subst hs. crun.
  destruct (rrm c !! sfd) as [x|] eqn:E; cbn [fmap option_fmap option_map].
  - specialize (Hx x eq_refl). destruct (Hh (r_mutex x)) as [Hh1 Hh2].
    erewrite bind_assoc, bind_run; [|apply delete_mutex_run; cbn; [done|set_solver|set_solver]].
    crun. exists (freed (r_mutex x) (traced R_mutex l)). split; [done|].
    split; cbn; [done|done| |set_solver]. intros p.
    rewrite elem_of_difference, elem_of_singleton. naive_solver.
  - crun. exists (traced R_mutex l). split; [unfold upd_rrm; rewrite delete_id by done; by destruct c|].
    split; cbn; [done|done|naive_solver|set_solver].
Qed.

Lemma clean_wr_client sfd hs k l c :
  held l = hs → W_mutex ∉ hs → (∀ p, (RR_mutex p ∉ hs) ∧ (WR_mutex p ∉ hs)) →
  (∀ y, wrm c !! sfd = Some y → w_mutex y ∈ live l) →
  ∃ l', clean_wr sfd (World k l c) = Ret tt (World k l' (upd_wrm (delete sfd) c)) ∧
        freeing (λ p, owner c false sfd = Some p) l l'.
Proof.
  intros Hl Hr Hh Hy. unfold clean_wr, owner. subst hs. crun.
  destruct (wrm c !! sfd) as [y|] eqn:E; cbn [fmap option_fmap option_map].
  - specialize (Hy y eq_refl). destruct (Hh (w_mutex y)) as [Hh1 Hh2].
    erewrite bind_assoc, bind_run; [|apply delete_mutex_run; cbn; [done|set_solver|set_solver]].
    crun. exists (freed (w_mutex y) (traced W_mutex l)). split; [done|].
    split; cbn; [done|done| |set_solver]. intros p.
    rewrite elem_of_difference, elem_of_singleton. naive_solver.
  - crun. exists (traced W_mutex l). split; [unfold upd_wrm; rewrite delete_id by done; by destruct c|].
    split; cbn; [done|done|naive_solver|set_solver].
Qed.

Lemma close_n_clean_client ep sfd node k l c :
  held l = [Z_mutex] → owned sfd l c → conns c !! sfd = Some node →
  ∃ l', close_n_clean ep sfd (World k l c) =
        Ret tt (World (sys_close ep (sys_close sfd k)) l' (cleaned sfd c)) ∧
        freeing (λ p, ∃ b, owner c b sfd = Some p) l l' ∧ (Cb_mutex, [Z_mutex]) ∈ acquired l'.
Proof.
  intros Hl (Hx & Hy & Hxy) Hn. unfold close_n_clean.
  assert (∀ m, m ≠ Z_mutex → m ∉ held l) as Hh by (intros m Hm; rewrite Hl; set_solver).
  assert ((Conn_mutex ∉ held l) ∧ (Cb_mutex ∉ held l) ∧ (E_mutex ∉ held l)) as (H1 & H2 & H3)
    by (split_and!; by apply Hh).
  crun. rewrite (node_there sfd node) by done. crun. unfold close_fd. crun.
  set (l1 := traced Cb_mutex (traced Conn_mutex l)).
  set (c1 := upd_call_backs _ _). set (k1 := sys_close _ _).
  destruct (clean_rr_client sfd [Z_mutex] k1 l1 c1) as (l2 & E2 & F2); [done|set_solver|set_solver|done|].
  run_with E2. clear E2.
  destruct (clean_wr_client sfd [Z_mutex] k1 l2 (upd_rrm (delete sfd) c1)) as (l3 & E3 & F3).
  { by rewrite (freeing_held _ _ _ F2). } { set_solver. } { set_solver. }
  { intros y Hy'. apply (freeing_live _ _ _ F2). split; [by apply Hy|]. cbn.
    intros (x & Hx' & Exy)%fmap_Some. by apply (Hxy x y). }
  run_with E3. clear E3.
  assert (freeing (λ p, ∃ b, owner c b sfd = Some p) l1 l3) as F.
  { eapply freeing_trans; [|exact F2|exact F3]. cbn. intros p. split; [intros [[] Ho]; [by left|by right]|].
    intros [Ho|Ho]; [by exists true|by exists false]. }
  assert (held l3 = [Z_mutex]) as Hl3 by (rewrite (freeing_held _ _ _ F); done).
  assert (E_mutex ∉ held l3) by (rewrite Hl3; set_solver).
  crun. exists (traced E_mutex l3). split_and!; [done| |].
  - eapply freeing_trans_none; [|apply freeing_traced]. eapply freeing_none_trans; [|exact F].
    eapply freeing_none_trans; apply freeing_traced.
  - cbn. apply elem_of_app. left. apply (freeing_acquired _ _ _ F). unfold l1. cbn. rewrite Hl. set_solver.
Qed.

(** A zombie of long ago: it is closed, and its host connected to again. *)
Lemma reap_old_run sfd t node st ep r k k' l c zv :
  held l = [Z_mutex] → 60000 < wrap 64 (now_ms k - t) →
  conns c !! sfd = Some node → short_name node → h_status c !! node = Some st → hs_ep_sfd st = Some ep →
  owned sfd l c →
  dial node (sys_close ep (sys_close sfd (sys_gettimeofday k).2)) = Ret r k' →
  ∃ l', reap_entry (sfd, t) zv (World k l c) =
        Ret (zv ++ [sfd]) (World k' l' (attempted (cleaned sfd c) (node, r))) ∧
        freeing (λ p, ∃ b, owner c b sfd = Some p) l l' ∧ (Cb_mutex, [Z_mutex]) ∈ acquired l'.
Proof.
  intros Hl Hold Hn Hs Hst Hep Ho Hd. unfold reap_entry. crun.
  rewrite (proj2 (Z.ltb_lt _ _) Hold).
  assert (Conn_mutex ∉ held l) by (rewrite Hl; set_solver).
  crun. rewrite (node_there sfd node) by done. crun.
  rewrite (status_there node st) by done. rewrite Hep. cbn [assume]. crun.
  set (l1 := traced Conn_mutex l).
  destruct (close_n_clean_client ep sfd node (sys_gettimeofday k).2 l1 c) as (l2 & E2 & F2 & Ha2); [done..|].
  run_with E2. clear E2. assert (held l2 = [Z_mutex]) as Hl2 by (by rewrite (freeing_held _ _ _ F2)).
  rewrite ?bind_assoc, bind_unfold, (make_connection_run node) by (done || rewrite Hl2; set_solver).
  rewrite Hd. cbn [after_dial]. set (c' := connected node r (cleaned sfd c)).
  set (l3 := connect_locks r l2).
  assert (freeing (λ _, False) l2 l3) as F3.
  { unfold l3. destruct r; [|apply freeing_traced].
    eapply freeing_none_trans; [|apply freeing_traced]. eapply freeing_none_trans; apply freeing_traced. }
  assert (∃ l4, (if negb (dialled r) then push_e_host node else mret tt) (World k' l3 c') =
    Ret tt (World k' l4 (attempted (cleaned sfd c) (node, r))) ∧ freeing (λ _, False) l3 l4) as (l4 & E4 & F4).
  { unfold attempted. cbn [fst snd]. fold c'. destruct r as [fds|]; cbn [dialled negb].
    - exists l3. split; [done|]. split; naive_solver.
    - assert (Eh_mutex ∉ held l3) by (rewrite (freeing_held _ _ _ F3), Hl2; set_solver). unfold push_e_host. crun.
      exists (traced Eh_mutex l3). split; [done|apply freeing_traced]. }
  run_with E4. exists l4. split; [done|]. split.
  - eapply freeing_trans_none; [|exact F4]. eapply freeing_trans_none; [|exact F3].
    eapply freeing_none_trans; [apply freeing_traced|exact F2].
  - by apply (freeing_acquired _ _ _ F4), (freeing_acquired _ _ _ F3).
Qed.

Lemma reap_young_run sfd t k l c zv :
  wrap 64 (now_ms k - t) ≤ 60000 →
  reap_entry (sfd, t) zv (World k l c) = Ret zv (World (sys_gettimeofday k).2 l c).
Proof. intros Hy. unfold reap_entry. crun. by rewrite (proj2 (Z.ltb_ge _ _) Hy). Qed.

(** A round whose zombies were all looked at. *)
Lemma reap_round iterate zv k k' l l1 c c' :
  held l = [] →
  fold_m reap_entry (iterate (zm c)) [] (World k (acquire Z_mutex l) c) = Ret zv (World k' l1 c') →
  held l1 = [Z_mutex] →
  reap iterate (World k l c) =
  Ret tt (World k' (release l1) (upd_zm (λ m, foldl (λ m z, delete z m) m zv) c')).
Proof.
  intros Hl E Hl1. unfold reap.
  assert (∀ m, m ∉ held l) as Hh by (intros m; rewrite Hl; apply not_elem_of_nil).
  crun. run_with E.
  assert (∀ c1, fold_m (λ zsfd (_ : unit), put (upd_zm (delete zsfd))) zv tt (World k' l1 c1) =
          Ret tt (World k' l1 (upd_zm (λ m, foldl (λ m z, delete z m) m zv) c1))) as E2.
  { clear. induction zv as [|z zv IH]; intros c1; cbn [fold_m]; [by destruct c1|]. crun. by rewrite IH. }
  run_with (E2 c'). by rewrite (unlock_run _ []) by (done || apply not_elem_of_nil).
Qed.

(** A round of [reap_resources] for one zombie: it is left, or closed and its host
    connected to again. *)
Lemma reap_client_run iterate sfd t node st ep r k k' l c :
  held l = [] → iterate (zm c) = [(sfd, t)] → 0 ≤ t ≤ now_ms k →
  60000 < now_ms k - t →
  conns c !! sfd = Some node → short_name node → h_status c !! node = Some st → hs_ep_sfd st = Some ep →
  owned sfd l c →
  dial node (sys_close ep (sys_close sfd (sys_gettimeofday k).2)) = Ret r k' →
  ∃ l', reap iterate (World k l c) =
        Ret tt (World k' l' (upd_zm (delete sfd) (attempted (cleaned sfd c) (node, r)))) ∧
        held l' = [] ∧ (Cb_mutex, [Z_mutex]) ∈ acquired l'.
Proof.
  intros Hl Hit Ht Hold Hn Hs Hst Hep Ho Hd. pose proof (now_range k) as Hnow.
  destruct (reap_old_run sfd t node st ep r k k' (acquire Z_mutex l) c []) as (l1 & E & F & Ha); try done;
    [cbn; by rewrite Hl|rewrite wrap_small; lia|].
  assert (held l1 = [Z_mutex]) as Hl1 by (rewrite (freeing_held _ _ _ F); cbn; by rewrite Hl).
  exists (release l1). split_and!; [|cbn; by rewrite Hl1|done].
  apply (reap_round iterate [sfd] k k' l l1 c); [done| |done]. rewrite Hit. cbn [fold_m]. by run_with E.
Qed.

(** A young zombie is left. *)
Lemma reap_young iterate sfd t k l c :
  held l = [] → iterate (zm c) = [(sfd, t)] → 0 ≤ t ≤ now_ms k → now_ms k - t ≤ 60000 →
  reap iterate (World k l c) = Ret tt (World (sys_gettimeofday k).2 (traced Z_mutex l) c).
Proof.
  intros Hl Hit Ht Hold. pose proof (now_range k) as Hnow.
  rewrite (reap_round iterate [] k (sys_gettimeofday k).2 l (acquire Z_mutex l) c c); [by destruct c|done| |cbn; by rewrite Hl].
  rewrite Hit. cbn [fold_m]. by run_with (reap_young_run sfd t k (acquire Z_mutex l) c [] ltac:(rewrite wrap_small; lia)).
Qed.
End reaping.

(** ** Call backs that do not return *)
Section failing.
Context {K : Type} `{SocketKernel K}.
Implicit Types (l : lockstate) (c : client) (k : K).
Context (run_cb : nat → bytes → M (world K client) unit).

(** Up to the call of the call back, with the map of call backs locked. *)
Lemma call_back_of_enter {ep sfd f k l c tag} :
  len f < 2 ^ 32 → Cb_mutex ∉ held l → registered sfd c !! (decode f).1 = Some (UserCb tag) →
  call_back_of run_cb (ep, sfd) f (World k l c) =
  (catch_std (run_cb tag (decode f).2) (λ _, a_zombied sfd);;
   cbs ← call_backs_of sfd;
   put (upd_call_backs (insert sfd (delete (decode f).1 cbs)));;
   unlock Cb_mutex)
  (World k (acquire Cb_mutex l) (upd_call_backs (insert sfd (registered sfd c)) c)).
Proof.
  intros Hf Hcb Hreg. unfold call_back_of. cbn zeta.
  run_with (unpack_delivered f (World k l c) Hf). crun.
  run_with (call_backs_of_run sfd k (acquire Cb_mutex l) c).
  cbn [decode fst snd] in *. rewrite Hreg. rewrite !bind_assoc. apply bind_ext; [done|].
  intros [] s. rewrite !bind_assoc. apply bind_ext; [done|]. done.
Qed.

(** The call back throws: the connection is put on the zombies, while the map of
    call backs is locked. *)
Lemma call_back_of_throws ep sfd f k l c tag e k1 node st :
  len f < 2 ^ 32 → Cb_mutex ∉ held l → Conn_mutex ∉ held l → Hs_mutex ∉ held l → Z_mutex ∉ held l →
  registered sfd c !! (decode f).1 = Some (UserCb tag) →
  conns c !! sfd = Some node → h_status c !! node = Some st → is_std_exception e = true →
  (∀ w, kern w = k → run_cb tag (decode f).2 w = Throw e (set_kern k1 w)) →
  ∃ w', call_back_of run_cb (ep, sfd) f (World k l c) = Ret tt w' ∧
        (Z_mutex, Cb_mutex :: held l) ∈ acquired (locks w').
Proof.
  intros Hf H1 H2 H3 H4 Hreg Hn Hs He Hthrow. rewrite (call_back_of_enter Hf H1 Hreg).
  set (c1 := upd_call_backs _ _). set (l1 := acquire Cb_mutex l).
  assert (catch_std (run_cb tag (decode f).2) (λ _, a_zombied sfd) (World k l1 c1) =
          a_zombied sfd (World k1 l1 c1)) as E.
  { unfold catch_std. rewrite Hthrow by done. by rewrite He. }
  rewrite bind_unfold, E. clear E.
  rewrite (a_zombied_client sfd node st) by (done || (unfold l1; cbn; set_solver)).
  set (c2 := upd_zm _ _). set (l2 := traced Z_mutex _). set (k2 := (sys_gettimeofday _).2).
  run_with (call_backs_of_run sfd k2 l2 c2). crun.
  eexists. split; [done|]. cbn. set_solver.
Qed.

(** [send_msg] while the map of call backs is locked by the same thread. *)
Lemma send_msg_blocked data size ni cb uuid_str node sfd ep k l c :
  Cb_mutex ∈ held l → Hs_mutex ∉ held l → 0 ≤ ni → desired_hosts c !! Z.to_nat ni = Some node →
  h_status c !! node = Some (MkHostStatus true (Some sfd) (Some ep)) →
  send_msg data size ni (Some cb) uuid_str (World k l c) = Blocked.
Proof.
  intros Hcb Hh Hni Hnode Hst. unfold send_msg. crun.
  run_with (index_lt (desired_hosts c) ni node (World k (acquire Hs_mutex l) c) Hni Hnode).
  erewrite status_there by exact Hst. crun. cbn [is_healthy negb].
  erewrite status_there by exact Hst. cbn [hs_sfd hs_ep_sfd assume]. rewrite !bind_ret_l.
  rewrite bind_unfold. rewrite bind_unfold. by rewrite lock_held.
Qed.
End failing.
