(* ===== verification/ClientTheorems.v ===== *)
(** * The client: properties

    The properties of [SocketClient], each with an instance on the simulated
    kernel: responses, sending, blocking calls, connecting, retrying, reaping, and
    two ways to block for ever. *)

From S2P Require Import Prelude Utils BufferedReader BufferedWriter Kernel Simulation SocketUtils.
From S2P Require Import SocketClient ClientProofs.

(** ** A client for examples

    It is connected to one host, on descriptor 7 with epoll descriptor 4, where two
    call backs are registered: one is the caller's, one belongs to a blocking call. *)
Definition host_a : bytes := str "a:1".

Definition other_id : bytes := replicate 37 "b"%char.

Definition sample_call_backs : gmap bytes callback :=
  {[sample_id := UserCb 5; other_id := BlockCb 0]}.

Definition sample_client : client :=
  Client [host_a] {[host_a := MkHostStatus true (Some 7) (Some 4)]} ∅ {[7 := host_a]}
    {[7 := sample_call_backs]} ∅ ∅ {[7 := EPOLLIN]} [] [] [] [4] {[0%nat := Frame false [] false]} 1.

Definition client_world (k : sim) : world sim client := World k no_locks sample_client.

(** A call back that leaves a mark outside of the client, here in the kernel. *)
Definition mark_cb (tag : nat) (msg_v : bytes) : M (world sim client) unit :=
  modify (λ w, set_kern (set_closed (closed (kern w) ++ [Z.of_nat tag; len msg_v]) (kern w)) w).

Definition marked (fs : list (nat * bytes)) (k : sim) : Prop :=
  closed k = concat (map (λ p, [Z.of_nat p.1; len p.2]) fs).

Lemma marked_untouched : untouched marked.
Proof.
  intros fs k Hk. split_and!; [|intros ep fd ev|done]; unfold marked in *.
  - intros fd n. cbn. unfold sim_read. destruct (0 <? n); [by destruct (sim_inbox fd k)|done].
  - cbn. unfold sim_ctl. by destruct (ctl_fails k).
Qed.

Lemma marked_returns : returns marked mark_cb.
Proof.
  intros tag msg_v fs w Hw. eexists. split_and!; [done| |done].
  unfold marked in *. cbn. rewrite Hw, map_app, concat_app. done.
Qed.

Lemma sample_waiting : waiting 7 sample_client.
Proof.
  intros u f. unfold registered, sample_client, sample_call_backs. cbn.
  rewrite lookup_singleton_eq. cbn.
  intros [[_ Hu]|[_ [_ Hu]%lookup_singleton_Some]]%lookup_insert_Some; simplify_eq.
  rewrite lookup_singleton_eq. by eexists.
Qed.

(** ** Properties *)

(** C19.  Responses reach their call backs.  When framed responses have arrived from
    a host, [read] takes them all, and does to the client what [dispatch] says for
    each in turn: the call back that is registered under the identifier runs with
    the message, and is removed; a response without a call back is dropped.  So
    with different identifiers each registered call back of the caller runs exactly
    once, in the order in which the responses came, a blocking call gets its
    result, and no call back that was answered stays.  Afterwards nothing is left in
    the socket or the reader, and the connection is watched again, or is marked
    dead, its host unhealthy, when the peer has closed it. *)
Theorem client_delivers {K : Type} `{SocketKernel K} (T : list (nat * bytes) → K → Prop) run_cb
    fuel ep sfd node st k l c msgs :
  untouched T → returns T run_cb → T [] k → held l = [] →
  (∀ x, rrm c !! sfd = Some x →
     r_mutex x ∈ live l ∧ r_is_valid x = true ∧ r_br x = BufferedReader_new EOT (ep, sfd)) →
  conns c !! sfd = Some node → h_status c !! node = Some st → waiting sfd c →
  inbox sfd k = wire msgs → Forall sendable msgs →
  (length (wire msgs) < fuel)%nat → len (wire msgs) < 2 ^ 32 →
  let c' := foldl (dispatch sfd) c msgs in
  ∃ k' l' t x, read run_cb fuel ep sfd (World k l c) =
      Ret tt (World k' l'
        (after_read sfd x (BufferedReader_new EOT (ep, sfd)) (inbox_end sfd k) node st t c')) ∧
    held l' = [] ∧ inbox sfd k' = [] ∧ T (fired_all sfd c msgs) k' ∧
    (NoDup (map fst msgs) → fired_all sfd c msgs = omap (answer sfd c) msgs) ∧
    ∀ u, registered sfd c' !! u =
         if bool_decide (u ∈ map fst msgs) then None else registered sfd c !! u.
Proof.
  intros HTf Hr HT Hl Hx Hn Hs Hw Hi Hm Hfuel H32 c'.
  assert (r_is_valid (reader_of ep sfd l c) = true ∧
          r_br (reader_of ep sfd l c) = BufferedReader_new EOT (ep, sfd)) as [Hv Hbr].
  { unfold reader_of. destruct (rrm c !! sfd) as [x|]; [by apply Hx|done]. }
  destruct (read_client_run T run_cb HTf Hr fuel ep sfd node st [] k l c (map (λ p, p.1 ++ p.2) msgs) [])
    as (k' & l' & t & E & Hl' & _ & _ & Hi' & HT'); rewrite ?Hi; try done.
  - intros x Hx'. by apply Hx.
  - by apply not_elem_of_nil.
  - by apply feed_wire.
  - rewrite decode_sent in E, HT' by done. exists k', l', t, (reader_of ep sfd l c).
    split_and!; [done|done|done|done|apply fired_once|apply registered_all].
Qed.

Lemma client_delivers_witness :
  let msgs := [(other_id, str "one"); (sample_id, str "three")] in
  ∃ k' l' c',
    read mark_cb 200 4 7 (client_world (set_inq {[7 := wire msgs]} sim_empty)) =
      Ret tt (World k' l' c') ∧
    marked [(5%nat, str "three")] k' ∧ frames c' = {[0%nat := Frame true (str "one") true]}.
Proof.
  intros msgs.
  destruct (client_delivers marked mark_cb 200 4 7 host_a (MkHostStatus true (Some 7) (Some 4))
    (set_inq {[7 := wire msgs]} sim_empty) no_locks sample_client msgs)
    as (k' & l' & t & x & E & _ & _ & HT & _).
  - apply marked_untouched.
  - apply marked_returns.
  - reflexivity.
  - reflexivity.
  - intros x Hx. discriminate Hx.
  - reflexivity.
  - reflexivity.
  - apply sample_waiting.
  - reflexivity.
  - repeat constructor; vm_compute; set_solver.
  - vm_compute. lia.
  - vm_compute. reflexivity.
  - eexists k', l', _. split_and!; [exact E|exact HT|reflexivity].
Defined.

(** C24.  [send_msg] on every branch.  There is no such host: undefined behaviour.
    The host is not healthy, or nothing is known of it: [false], and nothing is
    sent or registered.  It is healthy: the call back is registered under the
    identifier; when the connection's writer is valid, the frame of the message is
    appended to it, epoll watches for output, and the result is [true]; when it is
    invalid, the message is dropped and the result is [false], but the call back
    stays registered. *)
Theorem client_send_msg {K : Type} `{SocketKernel K} data size ni cb uuid_str (k : K) l c :
  held l = [] → 36 ≤ len uuid_str → 0 ≤ size ≤ len data → 38 + size < 2 ^ 32 → 0 ≤ ni →
  (∀ sfd y, wrm c !! sfd = Some y → w_mutex y ∈ live l) →
  let run := send_msg data size ni (Some cb) uuid_str (World k l c) in
  match desired_hosts c !! Z.to_nat ni with
  | None => run = Undef
  | Some node =>
      match h_status c !! node with
      | Some (MkHostStatus true (Some sfd) (Some ep)) =>
          let y := writer_of sfd l c in
          let msg := frame_of (take 37 (uuid_str ++ [NUL])) (take (Z.to_nat size) data) in
          let v := Z.lor (get0 (sfd_events c) sfd) EPOLLOUT in
          ∃ l' c', held l' = [] ∧ registered sfd c' !! uuid_str = Some cb ∧
            if w_is_valid y
            then run = Ret true (World (sys_epoll_mod ep sfd v k).2 l' c') ∧
                 wrm c' !! sfd =
                   Some (MkWriteR (MkBufferedWriter (wbuffer (w_bw y) ++ msg)) (w_mutex y) true) ∧
                 sfd_events c' !! sfd = Some v
            else run = Ret false (World k l' c') ∧ wrm c' !! sfd = Some y ∧ sfd_events c' = sfd_events c
      | Some (MkHostStatus true _ _) => run = Undef
      | _ => ∃ l', run = Ret false (World k l' (known node c)) ∧ held l' = []
      end
  end.
Proof.
  intros Hl Hu Hsz H32 Hni Hlive. cbv zeta. destruct (desired_hosts c !! Z.to_nat ni) as [node|] eqn:Hnode.
  2: { apply lookup_ge_None_1 in Hnode. apply send_msg_no_host; [done|right; lia]. }
  destruct (h_status c !! node) as [[[] [sfd|] [ep|]]|] eqn:Hst;
    try (eapply send_msg_unset; [done|done|exact Hnode|exact Hst|done|by (left + right)]);
    [|eexists; split; [apply (send_msg_unhealthy _ _ _ _ _ node); try done;
        intros st E; rewrite Hst in E; by simplify_eq|done]..].
  set (y := writer_of sfd l c). set (msg := frame_of _ _). set (v := Z.lor _ _).
  destruct (send_msg_run data size ni (Some cb) uuid_str node sfd ep k l c Hl Hu Hsz H32 Hni Hnode Hst
              (Hlive sfd)) as (l' & E & [Hl' _] & _). fold y msg v in E.
  exists l', (queued sfd msg y (register sfd uuid_str (Some cb) c)).
  assert (registered sfd (queued sfd msg y (register sfd uuid_str (Some cb) c)) !! uuid_str = Some cb) as Hr.
  { unfold registered, queued. destruct (w_is_valid y); cbn; rewrite lookup_insert_eq; cbn;
      apply lookup_insert_eq. }
  split_and!; [by rewrite Hl'|done|]. unfold queued, enqueue in *.
  destruct (w_is_valid y); (split_and!; [exact E| |]); cbn; try apply lookup_insert_eq; done.
Qed.

(** A client whose writer was marked invalid. *)
Definition dead_client : client :=
  upd_wrm (insert 7 (MkWriteR BufferedWriter_new 0 false)) sample_client.

Definition dead_locks : lockstate := LockState [] {[0%nat]} 1 [].

Lemma client_send_msg_witness :
  (∃ l' c', send_msg (str "hi") 2 0 (Some (UserCb 9)) other_id (client_world sim_empty) =
              Ret true (World (sys_epoll_mod 4 7 5 sim_empty).2 l' c') ∧
            registered 7 c' !! other_id = Some (UserCb 9)) ∧
  ∃ l' c', send_msg (str "hi") 2 0 (Some (UserCb 9)) other_id (World sim_empty dead_locks dead_client) =
             Ret false (World sim_empty l' c') ∧ registered 7 c' !! other_id = Some (UserCb 9).
Proof.
  assert (36 ≤ len other_id) as H1 by (vm_compute; intros E; discriminate E).
  assert (0 ≤ 2 ≤ len (str "hi")) as H2 by (vm_compute; split; intros E; discriminate E).
  assert (38 + 2 < 2 ^ 32) as H3 by (vm_compute; reflexivity).
  split.
  - destruct (client_send_msg (str "hi") 2 0 (UserCb 9) other_id sim_empty no_locks sample_client
                eq_refl H1 H2 H3) as (l' & c' & Hl' & Hr & E & _).
    + lia.
    + intros sfd y Hy. discriminate Hy.
    + exists l', c'. split; [exact E|exact Hr].
  - destruct (client_send_msg (str "hi") 2 0 (UserCb 9) other_id sim_empty dead_locks dead_client
                eq_refl H1 H2 H3) as (l' & c' & Hl' & Hr & E & _).
    + lia.
    + intros sfd y. unfold dead_client. cbn. intros [_ <-]%lookup_singleton_Some. set_solver.
    + exists l', c'. split; [exact E|exact Hr].
Defined.

(** C22.  A blocking call to a host that is connected.  If the response comes while
    it waits, whatever other wake-ups there are, it returns [true] and the message
    of the response.  If the time runs out first, it returns [true] as well, with
    the vector as the caller gave it: a timeout cannot be told from a response.  If
    the connection's writer is invalid it returns [false] at once.  In each case its
    call back is removed, and nothing refers to its local variables any more. *)
Theorem client_blocking_call {K : Type} `{SocketKernel K} uuid_generate uuid_unparse_lower run_cb
    data size ni result node sfd ep uuid_str (k : K) l c :
  (∀ w, build_uuid_str uuid_generate uuid_unparse_lower w = Ret uuid_str w) → len uuid_str = 37 →
  held l = [] → 0 ≤ size ≤ len data → 38 + size < 2 ^ 32 →
  0 ≤ ni → desired_hosts c !! Z.to_nat ni = Some node →
  h_status c !! node = Some (MkHostStatus true (Some sfd) (Some ep)) →
  (∀ y, wrm c !! sfd = Some y → w_mutex y ∈ live l) → frames c !! next_frame c = None →
  let run waits := send_msg_wait uuid_generate uuid_unparse_lower waits data size ni result (World k l c) in
  let returned r o := ∃ k' l' c', o = Ret r (World k' l' c') ∧ held l' = [] ∧ frames c' = frames c ∧
                        registered sfd c' = delete uuid_str (registered sfd c) in
  if w_is_valid (writer_of sfd l c) then
    (∀ n msg_v b waits, 37 + len msg_v < 2 ^ 32 →
       returned (true, msg_v)
         (run (replicate n (mret false) ++
               (call_back_of run_cb (ep, sfd) (uuid_str ++ msg_v);; mret b) :: waits))) ∧
    (∀ n waits, returned (true, result) (run (replicate n (mret false) ++ mret true :: waits)))
  else ∀ waits, returned (false, result) (run waits).
Proof.
  intros Huuid H37 Hl Hsz H32 Hni Hnode Hst Hlive Hfresh run returned.
  set (f := next_frame c) in *.
  destruct (sent_call data size ni node sfd ep uuid_str result k l c Hl ltac:(lia) Hsz H32 Hni Hnode Hst
              Hlive) as (k1 & l1 & c1 & Esend & Hl1 & Hf1 & Hr1). fold f in Esend, Hf1, Hr1.
  set (c2 b := call_waits b f result c1).
  assert (∀ b, frames (c2 b) = <[f := Frame b result false]> (frames c)) as Hf2.
  { intros b. cbn. by rewrite Hf1, insert_insert_eq. }
  assert (∀ b waits k3 l3 c3 fr,
    w_is_valid (writer_of sfd l c) = b →
    (if b : bool then wait_loop f false waits (World k1 l1 (c2 b)) else Ret tt (World k1 l1 (c2 b))) =
      Ret tt (World k3 l3 c3) → held l3 = [] → frames c3 = <[f := fr]> (frames c) →
    registered sfd c3 = <[uuid_str := BlockCb f]> (registered sfd c) ∨
    registered sfd c3 = delete uuid_str (registered sfd c) →
    returned (f_success fr, f_result fr) (run waits)) as Hrun.
  { intros b waits k3 l3 c3 fr <- Hwait Hl3 Hf3 Hr3. exists k3, (traced Cb_mutex l3), (call_ends sfd uuid_str f c3).
    destruct (call_leaves_nothing sfd uuid_str f fr c c3 Hfresh Hf3) as [H1 H2]; [tauto|].
    split_and!; [|done|done|done].
    eapply (send_msg_wait_run uuid_generate uuid_unparse_lower waits data size ni result node);
      [done|done|exact Hst|done|done|exact Esend| |exact Hwait|done|].
    - rewrite Hf1. apply lookup_insert_eq.
    - fold f. rewrite Hf3. apply lookup_insert_eq. }
  destruct (w_is_valid (writer_of sfd l c)) eqn:Ev.
  - split.
    + intros n msg_v b waits Hmsg.
      destruct (response_wakes run_cb f n ep sfd uuid_str msg_v b waits (Frame true result false) k1 l1 (c2 true))
        as (c3 & E3 & Hf3 & Hr3); [done|done|done|rewrite Hf2; apply lookup_insert_eq|done| |].
      { unfold registered. cbn. fold (registered sfd c1). rewrite Hr1. apply lookup_insert_eq. }
      apply (Hrun true _ k1 (traced Cb_mutex l1) c3 (Frame true msg_v true)); [done|exact E3|done| |].
      * by rewrite Hf3, Hf2, insert_insert_eq.
      * right. rewrite Hr3. unfold registered at 1. cbn. fold (registered sfd c1).
        rewrite Hr1. apply delete_insert_eq.
    + intros n waits. apply (Hrun true _ k1 l1 (c2 true) (Frame true result false)); [done| |done|done|by left].
      eapply timeout_wakes; [rewrite Hf2; apply lookup_insert_eq|done].
  - intros waits. apply (Hrun false waits k1 l1 (c2 false) (Frame false result false)); [done|done|done|done|by left].
Qed.

(** libuuid for examples: always the same identifier. *)
Definition sim_uuid : M (world sim client) bytes := mret [].

Definition sim_unparse (_ : bytes) : bytes := str "123e4567-e89b-12d3-a456-426614174000" ++ [NUL].

Definition call_id : bytes := sim_unparse [].

(** A blocking call that is answered after one wake-up that was not for it, and one
    that runs out of time: both return [true]. *)
Lemma client_blocking_call_witness :
  (∃ w', send_msg_wait sim_uuid sim_unparse
           [mret false; call_back_of mark_cb (4, 7) (call_id ++ str "pong");; mret false]
           (str "ping") 4 0 [] (client_world sim_empty) = Ret (true, str "pong") w') ∧
  ∃ w', send_msg_wait sim_uuid sim_unparse [mret true] (str "ping") 4 0 (str "old")
          (client_world sim_empty) = Ret (true, str "old") w'.
Proof.
  assert (0 ≤ 4 ≤ len (str "ping")) as H1 by (vm_compute; split; intros E; discriminate E).
  assert (38 + 4 < 2 ^ 32) as H2 by reflexivity.
  assert (∀ y, wrm sample_client !! 7 = Some y → w_mutex y ∈ live no_locks) as H3
    by (intros y Hy; discriminate Hy).
  pose proof (λ result, client_blocking_call sim_uuid sim_unparse mark_cb (str "ping") 4 0 result host_a 7 4
    call_id sim_empty no_locks sample_client (λ _, eq_refl) eq_refl eq_refl H1 H2 (Z.le_refl 0) eq_refl eq_refl
    H3 eq_refl) as H.
  split.
  - destruct (proj1 (H []) 1%nat (str "pong") false [] ltac:(reflexivity)) as (k' & l' & c' & E & _).
    eexists. exact E.
  - destruct (proj2 (H (str "old")) 0%nat []) as (k' & l' & c' & E & _). eexists. exact E.
Defined.

(** C25.  [connect_to_hosts] tries every host once, in order.  It returns the number
    of those it has connected to; the others are exactly the ones it notes for
    [retry_conn], so none is forgotten; and each host has the status of its attempt:
    healthy with its two descriptors, or not healthy.  A host without a colon, or
    one whose name is not found, is undefined behaviour. *)
Theorem client_connects {K : Type} `{SocketKernel K} (k : K) l c :
  held l = [] → Forall short_name (desired_hosts c) → len (desired_hosts c) < 2 ^ 32 →
  let hosts := desired_hosts c in
  (∀ rs k', dial_all hosts k = Ret rs k' →
     let c' := foldl attempted c (zip hosts rs) in
     ∃ l', connect_to_hosts (World k l c) = Ret (Z.of_nat (successes rs)) (World k' l' c') ∧ held l' = [] ∧
       (successes rs + length (failures hosts rs) = length hosts)%nat ∧
       e_hosts c' = e_hosts c ++ failures hosts rs ∧
       (NoDup hosts → ∀ i node r, hosts !! i = Some node → rs !! i = Some r →
          h_status c' !! node = Some (status_after r))) ∧
  (dial_all hosts k = Undef → connect_to_hosts (World k l c) = Undef) ∧
  (∀ node, parsed node = None → dial node k = Undef).
Proof.
  intros Hl Hs Hlen hosts. split_and!.
  - intros rs k' E c'.
    assert (length rs = length hosts) as Hrs by by eapply dial_all_length.
    destruct (connect_fold hosts k l c 0 rs k' Hs Hl E) as (l' & E' & Hl' & _); [done|done|].
    exists l'. split_and!; [exact E'|by rewrite Hl'|by apply successes_failures|by apply attempted_e_hosts|].
    intros Hnd i node r Hi Hr. unfold c'. rewrite attempted_status. by eapply status_last.
  - intros E. by apply connect_fold_undef.
  - intros node E. unfold dial. by rewrite E.
Qed.

(** Two hosts, the second with a port that is not a number; and one without a port. *)
Definition two_hosts : client := client_new [str "a:1"; str "b:x"].

Lemma client_connects_witness :
  (∃ w', connect_to_hosts (World sim_empty no_locks two_hosts) = Ret 1 w' ∧
         e_hosts (app w') = [str "b:x"] ∧
         h_status (app w') !! str "a:1" = Some (MkHostStatus true (Some 5) (Some 6))) ∧
  connect_to_hosts (World sim_empty no_locks (client_new [str "a"])) = Undef.
Proof.
  split.
  - assert (dial_all (desired_hosts two_hosts) sim_empty =
            Ret [Some (5, 6); None] (set_watched {[5 := 1]} (set_next_fd 7 sim_empty))) as Hd by reflexivity.
    destruct (client_connects sim_empty no_locks two_hosts) as [Hc _];
      [reflexivity|repeat constructor; vm_compute; reflexivity|vm_compute; reflexivity|].
    destruct (Hc _ _ Hd) as (l' & E & _ & _ & He & Hst).
    eexists. split_and!; [exact E|exact He|].
    assert (NoDup (desired_hosts two_hosts)) as Hnd by (eapply bool_decide_unpack; vm_compute; exact I).
    exact (Hst Hnd 0%nat (str "a:1") (Some (5, 6)) eq_refl eq_refl).
  - apply (client_connects sim_empty no_locks (client_new [str "a"])); [reflexivity| | |];
      [repeat constructor; vm_compute; reflexivity|vm_compute; reflexivity|vm_compute; reflexivity].
Defined.

(** C26.  A round of [retry_conn] tries the hosts that are noted and means to take
    those it has reached off the list.  But it erases at the positions they had, one
    after the other, so each erasure hits a host as many places too far back as there
    were erasures before it: the list loses the hosts at positions [p_k + k], when
    [p_0 < p_1 < ...] are the positions of those reached, and if one of them is not
    in the list the behaviour is undefined.  With at most one host reached it does
    what it means to do; with two or more it is undefined when the last host of the
    list was reached, and else it takes off a host that was not. *)
Theorem client_retry {K : Type} `{SocketKernel K} (k : K) l c rs k' :
  held l = [] → Forall short_name (e_hosts c) → len (e_hosts c) < 2 ^ 32 →
  dial_all (e_hosts c) k = Ret rs k' →
  let reached := succeeded 0 rs in
  let c' := foldl reconnected c (zip (e_hosts c) rs) in
  let done hs := ∃ l', retry_round (World k l c) = Ret tt (World k' l' (upd_e_hosts (λ _, hs) c')) ∧
                       held l' = [] in
  (if within (len (e_hosts c)) (shifted 0 reached)
   then done (without 0 (shifted 0 reached) (e_hosts c))
   else retry_round (World k l c) = Undef) ∧
  (length reached ≤ 1 → done (without 0 reached (e_hosts c)))%nat ∧
  ((2 ≤ length reached)%nat →
     retry_round (World k l c) = Undef ∨
     ∃ p host, e_hosts c !! p = Some host ∧ rs !! p = Some None ∧ Z.of_nat p ∈ shifted 0 reached) ∧
  ((2 ≤ length reached)%nat → ∀ fds, last rs = Some (Some fds) → retry_round (World k l c) = Undef).
Proof.
  intros Hl Hs H32 E reached c' done'.
  pose proof (retry_round_run k l c rs k' Hs H32 Hl E) as Hr. cbv zeta in Hr. fold reached c' in Hr.
  assert (e_hosts c' = e_hosts c) as He by apply reconnected_e_hosts.
  assert (length rs = length (e_hosts c)) as Hrs by by eapply dial_all_length.
  pose proof (succeeded_above 0 rs) as Hab. fold reached in Hab. rewrite Forall_forall in Hab.
  assert (if within (len (e_hosts c)) (shifted 0 reached)
          then done' (without 0 (shifted 0 reached) (e_hosts c))
          else retry_round (World k l c) = Undef) as Hmain.
  { destruct (within _ _); [|done]. destruct Hr as (l' & Hr & Hl' & _). exists l'. split; [|by rewrite Hl'].
    rewrite Hr. do 2 f_equal. unfold upd_e_hosts. by rewrite He. }
  assert ((2 ≤ length reached)%nat → ∃ p, p ∈ reached ∧ Forall (λ q, q ≤ p) reached ∧
    p + len reached - 1 ∈ shifted 0 reached) as Hlast.
  { intros H2. destruct (shifted_last 0 reached) as (p & Hp & Hmax & Hin);
      [intros Hnil; rewrite Hnil in H2; cbn in H2; lia|apply succeeded_sorted|]. exists p. by rewrite Z.add_0_r in Hin. }
  assert (∀ q, within (len (e_hosts c)) (shifted 0 reached) = true → q ∈ shifted 0 reached →
               q < len (e_hosts c)) as Hin.
  { intros q Hw Hq. unfold within in Hw. rewrite forallb_forall in Hw.
    apply Z.ltb_lt, Hw. by apply list_elem_of_In. }
  split_and!; [done| | |].
  - intros H1. destruct (shifted_one rs (len (e_hosts c)) H1) as [E1 E2]; [lia|].
    fold reached in E1, E2. rewrite E2, E1 in Hmain. done.
  - intros H2. destruct (within _ _); [right|by left].
    destruct (Hlast H2) as (p & Hp & Hmax & Hq). specialize (Hin _ eq_refl Hq).
    set (q := p + len reached - 1) in *. specialize (Hab p Hp).
    destruct (lookup_lt_is_Some_2 (e_hosts c) (Z.to_nat q)) as [host Hhost]; [lia|].
    destruct (lookup_lt_is_Some_2 rs (Z.to_nat q)) as [r Hr']; [lia|].
    exists (Z.to_nat q), host. rewrite Z2Nat.id by lia. split_and!; [done| |done].
    destruct r as [fds|]; [|done]. apply (succeeded_iff 0) in Hr'.
    rewrite Forall_forall in Hmax. specialize (Hmax _ Hr'). lia.
  - intros H2 fds Hfds. destruct (within _ _); [|done].
    destruct (Hlast H2) as (p & Hp & Hmax & Hq). specialize (Hin _ eq_refl Hq).
    rewrite last_lookup in Hfds. apply (succeeded_iff 0) in Hfds.
    rewrite Forall_forall in Hmax. specialize (Hmax _ Hfds). lia.
Qed.

(** Of three hosts the first two are reached: the third, whose port is wrong, is
    taken off the list, and the second stays on it. *)
Definition retrying (hosts : list bytes) : client := upd_e_hosts (λ _, hosts) (client_new []).

Lemma client_retry_witness :
  (∃ w', retry_round (World sim_empty no_locks (retrying [str "a:1"; str "b:2"; str "c:x"])) = Ret tt w' ∧
         e_hosts (app w') = [str "b:2"]) ∧
  retry_round (World sim_empty no_locks (retrying [str "a:1"; str "b:2"])) = Undef.
Proof.
  split.
  - assert (dial_all [str "a:1"; str "b:2"; str "c:x"] sim_empty =
            Ret [Some (5, 6); Some (7, 8); None]
              (set_watched {[5 := 1; 7 := 1]} (set_next_fd 9 sim_empty))) as Hd by reflexivity.
    destruct (client_retry sim_empty no_locks (retrying [str "a:1"; str "b:2"; str "c:x"]) _ _ eq_refl
      ltac:(repeat constructor; vm_compute; reflexivity) eq_refl Hd) as ((l' & E & _) & _).
    eexists. split; [exact E|reflexivity].
  - assert (dial_all [str "a:1"; str "b:2"] sim_empty =
            Ret [Some (5, 6); Some (7, 8)]
              (set_watched {[5 := 1; 7 := 1]} (set_next_fd 9 sim_empty))) as Hd by reflexivity.
    apply (client_retry sim_empty no_locks (retrying [str "a:1"; str "b:2"]) _ _ eq_refl
      ltac:(repeat constructor; vm_compute; reflexivity) eq_refl Hd).
Defined.

(** The reaper and a dead connection.  A zombie of at most 60 seconds is left
    as it is.  An older one is closed, with its epoll descriptor, and loses its
    entries in every map and its place among the zombies; then its host is
    connected to again, under whatever descriptor the kernel gives, or noted for
    [retry_conn] when that fails. *)
Theorem client_reap {K : Type} `{SocketKernel K} iterate sfd t node st ep (k : K) l c :
  held l = [] → iterate (zm c) = [(sfd, t)] → 0 ≤ t ≤ now_ms k →
  conns c !! sfd = Some node → short_name node → h_status c !! node = Some st → hs_ep_sfd st = Some ep →
  owned sfd l c →
  let k1 := (sys_gettimeofday k).2 in
  if 60000 <? now_ms k - t then
    ∀ r k', dial node (sys_close ep (sys_close sfd k1)) = Ret r k' →
    ∃ l' c', reap iterate (World k l c) = Ret tt (World k' l' c') ∧ held l' = [] ∧
      zm c' = delete sfd (zm c) ∧ rrm c' = delete sfd (rrm c) ∧ wrm c' = delete sfd (wrm c) ∧
      call_backs c' = delete sfd (call_backs c) ∧
      match r with
      | Some (sfd', ep') =>
          h_status c' = <[node := MkHostStatus true (Some sfd') (Some ep')]> (h_status c) ∧
          conns c' = <[sfd' := node]> (delete sfd (conns c)) ∧
          sfd_events c' = <[sfd' := EPOLLIN]> (delete sfd (sfd_events c)) ∧ e_hosts c' = e_hosts c
      | None =>
          h_status c' = <[node := MkHostStatus false None None]> (h_status c) ∧
          conns c' = delete sfd (conns c) ∧ sfd_events c' = delete sfd (sfd_events c) ∧
          e_hosts c' = e_hosts c ++ [node]
      end
  else ∃ l', reap iterate (World k l c) = Ret tt (World k1 l' c) ∧ held l' = [].
Proof.
  intros Hl Hit Ht Hn Hs Hst Hep Ho k1. destruct (Z.ltb_spec 60000 (now_ms k - t)) as [Hold|Hold].
  - intros r k' Hd.
    destruct (reap_client_run iterate sfd t node st ep r k k' l c) as (l' & E & Hl' & _); try done.
    exists l', (upd_zm (delete sfd) (attempted (cleaned sfd c) (node, r))). split; [exact E|].
    destruct r as [[sfd' ep']|]; by split_and!.
  - exists (traced Z_mutex l). split; [by eapply reap_young|done].
Qed.

(** The example client with a zombie of long ago. *)
Definition zombie_client : client := upd_zm (insert 7 5) sample_client.

Lemma zombie_owned : owned 7 no_locks zombie_client.
Proof. split_and!; [intros x Hx; discriminate Hx..|intros x y Hx; discriminate Hx]. Qed.

Lemma zombie_time : 0 ≤ 5 ≤ now_ms sim_empty.
Proof. vm_compute. split; intros E; discriminate E. Qed.

Lemma client_reap_witness :
  ∃ w', reap map_to_list (World sim_empty no_locks zombie_client) = Ret tt w' ∧ zm (app w') = ∅ ∧
        conns (app w') = {[5 := host_a]} ∧ closed (kern w') = [7; 4].
Proof.
  assert (dial host_a (sys_close 4 (sys_close 7 (sys_gettimeofday sim_empty).2)) =
          Ret (Some (5, 6)) (set_watched {[5 := 1]} (set_next_fd 7 (set_closed [7; 4] sim_empty)))) as Hd
    by reflexivity.
  destruct (client_reap map_to_list 7 5 host_a (MkHostStatus true (Some 7) (Some 4)) 4 sim_empty no_locks
    zombie_client eq_refl eq_refl zombie_time eq_refl ltac:(reflexivity) eq_refl eq_refl zombie_owned _ _ Hd)
    as (l' & c' & E & _ & Hz & _ & _ & _ & _ & Hc & _).
  eexists. split_and!; [exact E|cbn [app]; rewrite Hz; reflexivity|cbn [app]; rewrite Hc; reflexivity|reflexivity].
Defined.

(** C28.  Two ways to block for ever, both from calling back with the map of call
    backs locked.  A call back that itself sends a message with a call back to a
    healthy host waits for the mutex that its own thread holds.  And the mutexes of
    the client have no order: when a call back throws, the reading thread takes the
    mutex of the zombies while it holds that of the call backs, and a reaper that
    cleans an old zombie takes them the other way round, so that each can wait for
    the other. *)
Theorem client_deadlocks {K : Type} `{SocketKernel K} run_cb ep sfd f tag (k : K) l c :
  held l = [] → len f < 2 ^ 32 → registered sfd c !! (decode f).1 = Some (UserCb tag) →
  (∀ data size ni cb uuid_str node sfd' ep',
     0 ≤ ni → desired_hosts c !! Z.to_nat ni = Some node →
     h_status c !! node = Some (MkHostStatus true (Some sfd') (Some ep')) →
     run_cb tag (decode f).2 = (send_msg data size ni (Some cb) uuid_str;; mret tt) →
     call_back_of run_cb (ep, sfd) f (World k l c) = Blocked) ∧
  (∀ e k1 node st w2 iterate t k2 c2 node2 st2 ep2 r k3,
     conns c !! sfd = Some node → h_status c !! node = Some st → is_std_exception e = true →
     (∀ w, kern w = k → run_cb tag (decode f).2 w = Throw e (set_kern k1 w)) →
     iterate (zm c2) = [(sfd, t)] → 0 ≤ t ≤ now_ms k2 → 60000 < now_ms k2 - t →
     conns c2 !! sfd = Some node2 → short_name node2 → h_status c2 !! node2 = Some st2 →
     hs_ep_sfd st2 = Some ep2 → owned sfd l c2 →
     dial node2 (sys_close ep2 (sys_close sfd (sys_gettimeofday k2).2)) = Ret r k3 →
     reap iterate (World k2 l c2) = Ret tt w2 →
     ∃ w1, call_back_of run_cb (ep, sfd) f (World k l c) = Ret tt w1 ∧
       ∀ rank, ¬ (ordered rank (locks w1) ∧ ordered rank (locks w2))).
Proof.
  intros Hl Hf Hreg. assert (∀ m, m ∉ held l) as Hh by (intros m; rewrite Hl; apply not_elem_of_nil).
  split.
  - intros data size ni cb uuid_str node sfd' ep' Hni Hnode Hst Hcb.
    rewrite (call_back_of_enter run_cb Hf (Hh Cb_mutex) Hreg), bind_unfold. unfold catch_std.
    rewrite Hcb, bind_unfold, (send_msg_blocked data size ni cb uuid_str node sfd' ep'); try done.
    + cbn. by left.
    + cbn. rewrite not_elem_of_cons. split; [done|apply Hh].
  - intros e k1 node st w2 iterate t k2 c2 node2 st2 ep2 r k3 Hn Hs He Hthrow Hit Ht Hold Hn2 Hs2 Hst2
      Hep2 Ho Hd E2.
    destruct (call_back_of_throws run_cb ep sfd f k l c tag e k1 node st) as (w1 & E1 & Ha1); try done.
    destruct (reap_client_run iterate sfd t node2 st2 ep2 r k2 k3 l c2) as (l2 & E2' & _ & Ha2); try done.
    rewrite E2' in E2. injection E2 as <-. exists w1. split; [done|]. intros rank [H1 H2].
    unfold ordered in H1, H2. rewrite Forall_forall in H1, H2. specialize (H1 _ Ha1). specialize (H2 _ Ha2).
    cbn in H1, H2. apply Forall_cons in H1 as [H1 _]. apply Forall_cons in H2 as [H2 _]. lia.
Qed.

(** A client with two call backs of its own: one sends a message, one throws. *)
Definition send_cb : M (world sim client) unit :=
  send_msg (str "more") 4 0 (Some (UserCb 5)) other_id;; mret tt.

Definition bad_cb (tag : nat) (_ : bytes) : M (world sim client) unit :=
  if decide (tag = 5%nat) then send_cb else throw StdException.

Definition deadlock_client : client :=
  upd_call_backs (λ _, {[7 := {[sample_id := UserCb 5; other_id := UserCb 6]}]}) sample_client.

Lemma client_deadlocks_witness :
  call_back_of bad_cb (4, 7) sample_id (World sim_empty no_locks deadlock_client) = Blocked ∧
  ∃ w1 w2, call_back_of bad_cb (4, 7) other_id (World sim_empty no_locks deadlock_client) = Ret tt w1 ∧
    reap map_to_list (World sim_empty no_locks zombie_client) = Ret tt w2 ∧
    ∀ rank, ¬ (ordered rank (locks w1) ∧ ordered rank (locks w2)).
Proof.
  split.
  - apply (client_deadlocks bad_cb 4 7 sample_id 5 sim_empty no_locks deadlock_client eq_refl eq_refl
      ltac:(vm_compute; reflexivity)) with (data := str "more") (size := 4) (ni := 0) (cb := UserCb 5)
      (uuid_str := other_id) (node := host_a) (sfd' := 7) (ep' := 4); [lia|reflexivity|reflexivity|reflexivity].
  - assert (dial host_a (sys_close 4 (sys_close 7 (sys_gettimeofday sim_empty).2)) =
            Ret (Some (5, 6)) (set_watched {[5 := 1]} (set_next_fd 7 (set_closed [7; 4] sim_empty)))) as Hd
      by reflexivity.
    destruct (client_deadlocks bad_cb 4 7 other_id 6 sim_empty no_locks deadlock_client eq_refl eq_refl
      ltac:(vm_compute; reflexivity)) as [_ H].
    destruct (reap map_to_list (World sim_empty no_locks zombie_client)) as [[] w2| | | | |] eqn:E2;
      try (vm_compute in E2; discriminate E2).
    destruct (H StdException sim_empty host_a (MkHostStatus true (Some 7) (Some 4)) w2 map_to_list 5 sim_empty
      zombie_client host_a (MkHostStatus true (Some 7) (Some 4)) 4 _ _ eq_refl eq_refl eq_refl
      (λ w Hw, ltac:(destruct w; cbn in Hw; subst; reflexivity)) eq_refl zombie_time ltac:(reflexivity) eq_refl
      ltac:(reflexivity) eq_refl eq_refl zombie_owned Hd E2) as (w1 & E1 & Ho).
    exists w1, w2. split_and!; [exact E1|reflexivity|exact Ho].
Defined.

(** The limits of a message's size.  To a healthy host [send_msg] returns as long
    as the frame's length fits 32 bits, and the lists of mutexes held stays empty.
    From there on the array on the stack is shorter than the frame, and packing
    writes past its end: the size that the caller gives, a [size_t], is not
    checked. *)
Theorem client_send_bounds {K : Type} `{SocketKernel K} data size ni cb uuid_str node sfd ep (k : K) l c :
  held l = [] → 36 ≤ len uuid_str → 0 ≤ size ≤ len data → 0 ≤ ni →
  desired_hosts c !! Z.to_nat ni = Some node →
  h_status c !! node = Some (MkHostStatus true (Some sfd) (Some ep)) →
  (∀ y, wrm c !! sfd = Some y → w_mutex y ∈ live l) →
  let run := send_msg data size ni cb uuid_str (World k l c) in
  if 38 + size <? 2 ^ 32
  then ∃ b k' l' c', run = Ret b (World k' l' c') ∧ held l' = [] ∧ (∀ fd, sent fd k' = sent fd k)
  else run = Undef.
Proof.
  intros Hl Hu Hsz Hni Hnode Hst Hlive. cbv zeta. destruct (Z.ltb_spec (38 + size) (2 ^ 32)) as [Hf|Hf].
  - destruct (send_msg_run data size ni cb uuid_str node sfd ep k l c) as (l' & E & [Hl' _] & _); try done.
    eexists _, _, l', _. split_and!; [exact E|by rewrite Hl'|]. intros fd.
    destruct (w_is_valid _); [apply mod_frame|done].
  - by eapply client_send_overrun.
Qed.

Lemma client_send_bounds_witness :
  send_msg (replicate (Z.to_nat (2 ^ 32)) "x"%char) (2 ^ 32 - 38) 0 None other_id (client_world sim_empty) = Undef.
Proof.
  apply (client_send_bounds (replicate (Z.to_nat (2 ^ 32)) "x"%char) (2 ^ 32 - 38) 0 None other_id host_a 7 4).
  - reflexivity.
  - vm_compute. intros E. discriminate E.
  - rewrite length_replicate, Z2Nat.id by (apply (bool_decide_unpack _); vm_compute; reflexivity).
    split; apply (bool_decide_unpack _); vm_compute; reflexivity.
  - lia.
  - reflexivity.
  - reflexivity.
  - intros y Hy. discriminate Hy.
Defined.
