(* ===== verification/ClientInvariant.v ===== *)
(** * The client's invariant

    What the threads of a client do: connecting, sending, reading and writing, the
    events of epoll, the reaper and the retrying of hosts.  Whatever the order, the
    client stays well formed and each operation returns. *)

From S2P Require Import Prelude Utils BufferedReader BufferedWriter Kernel Simulation SocketUtils.
From S2P Require Import SocketClient ClientProofs ClientTheorems.

(** A well-formed client: no entry points to a mutex that is gone or to that of another
    entry, every reader splits at the delimiter and calls back for its own descriptor,
    every connection belongs to a host of which something is known, a healthy host has
    its descriptors, and every blocking call that waits for a response still has its
    variables. *)
Record cwf (l : lockstate) (c : client) : Prop := {
  cwf_rr sfd x : rrm c !! sfd = Some x → r_mutex x ∈ live l ∧
    ∃ b ep, r_br x = MkBufferedReader b (Some EOT) (Some (ep, sfd)) ∧ EOT ∉ b;
  cwf_wr sfd y : wrm c !! sfd = Some y → w_mutex y ∈ live l;
  cwf_fresh : fresh_locks l;
  cwf_own b b' sfd sfd' p : owner c b sfd = Some p → owner c b' sfd' = Some p → b = b' ∧ sfd = sfd';
  cwf_conn sfd node : conns c !! sfd = Some node → is_Some (h_status c !! node) ∧ short_name node;
  cwf_status node st : h_status c !! node = Some st → is_healthy st = true →
    ∃ sfd ep, st = MkHostStatus true (Some sfd) (Some ep);
  cwf_waiting sfd : waiting sfd c
}.

Record cok {K} (w : world K client) : Prop := {
  cok_held : held (locks w) = [];
  cok_wf : cwf (locks w) (app w)
}.

(** ** What is left alone of blocking calls

    Their variables stay as they are, and no call back of one is added. *)
Record kept (c c' : client) : Prop := {
  kept_frames : frames c' = frames c;
  kept_next : next_frame c' = next_frame c;
  kept_registered sfd u f :
    registered sfd c' !! u = Some (BlockCb f) → registered sfd c !! u = Some (BlockCb f)
}.

#[export] Instance kept_preorder : PreOrder kept.
Proof.
  split; [done|]. intros c1 c2 c3 [H1 H2 H3] [H4 H5 H6].
  split; [congruence|congruence|]. intros sfd u f Hr. by apply H3, H6.
Qed.

Lemma kept_same c c' :
  frames c' = frames c → next_frame c' = next_frame c → call_backs c' = call_backs c → kept c c'.
Proof. intros E1 E2 E3. split; [done|done|]. intros sfd u f. unfold registered. by rewrite E3. Qed.

Lemma kept_fold {A} (f : client → A → client) c ps : (∀ c p, kept c (f c p)) → kept c (foldl f c ps).
Proof. intros Hf. revert c. induction ps as [|p ps IH]; intros c; [done|]. cbn. by transitivity (f c p). Qed.

Lemma kept_connected c node r : kept c (connected node r c).
Proof. unfold connected. destruct r as [[sfd ep]|]; by apply kept_same. Qed.

Lemma kept_attempted c p : kept c (attempted c p).
Proof.
  unfold attempted. destruct (p.2) as [q|]; [apply kept_connected|].
  transitivity (connected p.1 None c); [apply kept_connected|by apply kept_same].
Qed.

Lemma kept_cleaned c sfd : kept c (cleaned sfd c).
Proof.
  split; [done|done|]. intros sfd' u f. unfold registered. cbn.
  destruct (decide (sfd = sfd')) as [->|]; [by rewrite lookup_delete_eq|by rewrite lookup_delete_ne].
Qed.

Lemma kept_queued c sfd msg y : kept c (queued sfd msg y c).
Proof. unfold queued. destruct (w_is_valid y); by apply kept_same. Qed.

Lemma kept_known c node : kept c (known node c).
Proof. unfold known. destruct (h_status c !! node); by apply kept_same. Qed.

Lemma kept_register c sfd uuid_str cb : (∀ f, cb ≠ Some (BlockCb f)) → kept c (register sfd uuid_str cb c).
Proof.
  intros Hcb. destruct cb as [cb|]; [|done]. split; [done|done|]. intros sfd' u f. unfold registered. cbn.
  destruct (decide (sfd = sfd')) as [<-|]; [|by rewrite lookup_insert_ne]. rewrite lookup_insert_eq. cbn.
  intros [[_ ->]|[_ Hu]]%lookup_insert_Some; [by destruct (Hcb f)|done].
Qed.

(** ** What keeps a client well formed *)
Lemma cwf_grown l l' c : extends l l' → cwf l c → cwf l' c.
Proof.
  intros [Hl Hf] [H1 H2 H3 H4 H5 H6 H7]. split; try done; [|..|auto].
  - intros sfd x Hx. destruct (H1 sfd x Hx) as [? ?]. split; [set_solver|done].
  - intros sfd y Hy. specialize (H2 sfd y Hy). set_solver.
Qed.

(** Members that the invariant is not about. *)
Lemma cwf_same l c c' :
  rrm c' = rrm c → wrm c' = wrm c → conns c' = conns c → h_status c' = h_status c →
  call_backs c' = call_backs c → frames c' = frames c → cwf l c → cwf l c'.
Proof.
  intros E1 E2 E3 E4 E5 E6 [H1 H2 H3 H4 H5 H6 H7].
  split; rewrite ?E1, ?E2, ?E3, ?E4; try done.
  - intros b b' sfd sfd' p. unfold owner. rewrite E1, E2. apply H4.
  - intros sfd u f. unfold registered. rewrite E5, E6. apply H7.
Qed.

(** The mutex [p] is free, or belongs to this entry already. *)
Definition mine (c : client) (reader : bool) (sfd : Z) (p : nat) : Prop :=
  ∀ b sfd', owner c b sfd' = Some p → b = reader ∧ sfd' = sfd.

Lemma owner_live l c b sfd p : cwf l c → owner c b sfd = Some p → p ∈ live l.
Proof.
  intros Hc. destruct b; cbn; intros (z & Hz & ->)%fmap_Some; [by apply (cwf_rr _ _ Hc sfd z)|by apply (cwf_wr _ _ Hc sfd z)].
Qed.

Lemma mine_new l c b sfd : cwf l c → mine c b sfd (next_mutex l).
Proof. intros Hc b' sfd' Ho%(owner_live l)%(cwf_fresh _ _ Hc); [lia|done]. Qed.

Lemma mine_owned l c b sfd p : cwf l c → owner c b sfd = Some p → mine c b sfd p.
Proof. intros Hc Ho b' sfd' Ho'. by apply (cwf_own _ _ Hc b' b sfd' sfd p). Qed.

Lemma mine_writer l c sfd : cwf l c → mine c false sfd (w_mutex (writer_of sfd l c)).
Proof.
  intros Hc. unfold writer_of. destruct (wrm c !! sfd) as [y|] eqn:Hy; [|by apply mine_new].
  apply (mine_owned l); [done|]. cbn. by rewrite Hy.
Qed.

Lemma mine_reader ep l c sfd : cwf l c → mine c true sfd (r_mutex (reader_of ep sfd l c)).
Proof.
  intros Hc. unfold reader_of. destruct (rrm c !! sfd) as [x|] eqn:Hx; [|by apply mine_new].
  apply (mine_owned l); [done|]. cbn. by rewrite Hx.
Qed.

(** An entry is made, or replaced by one with the same mutex. *)
Lemma own_insert c c' b sfd p :
  (∀ b1 sfd1 p1, owner c' b1 sfd1 = Some p1 → (b1 = b ∧ sfd1 = sfd ∧ p1 = p) ∨ owner c b1 sfd1 = Some p1) →
  mine c b sfd p →
  (∀ b1 b2 sfd1 sfd2 q, owner c b1 sfd1 = Some q → owner c b2 sfd2 = Some q → b1 = b2 ∧ sfd1 = sfd2) →
  ∀ b1 b2 sfd1 sfd2 q, owner c' b1 sfd1 = Some q → owner c' b2 sfd2 = Some q → b1 = b2 ∧ sfd1 = sfd2.
Proof.
  intros Hc Hm Ho b1 b2 sfd1 sfd2 q [(-> & -> & ->)|H1]%Hc [(-> & -> & Eq)|H2]%Hc; [done|..].
  - by destruct (Hm _ _ H2) as [-> ->].
  - subst q. by destruct (Hm _ _ H1) as [-> ->].
  - by eapply Ho.
Qed.

Lemma cwf_rr_insert l c sfd x :
  cwf l c → r_mutex x ∈ live l → mine c true sfd (r_mutex x) →
  (∃ b ep, r_br x = MkBufferedReader b (Some EOT) (Some (ep, sfd)) ∧ EOT ∉ b) →
  cwf l (upd_rrm (insert sfd x) c).
Proof.
  intros [H1 H2 H3 H4 H5 H6 H7] Hx Hm Hb. split; cbn; try done.
  - intros sfd' x' [[<- <-]|[_ Hx']]%lookup_insert_Some; [done|by apply H1].
  - apply (own_insert c _ true sfd (r_mutex x)); [|done|done]. intros [] sfd1 p1; cbn; [|by right].
    intros (z & [[<- <-]|[_ Hz]]%lookup_insert_Some & ->)%fmap_Some; [by left|right]. by rewrite Hz.
Qed.

Lemma cwf_wr_insert l c sfd y :
  cwf l c → w_mutex y ∈ live l → mine c false sfd (w_mutex y) → cwf l (upd_wrm (insert sfd y) c).
Proof.
  intros [H1 H2 H3 H4 H5 H6 H7] Hy Hm. split; cbn; try done.
  - intros sfd' y' [[<- <-]|[_ Hy']]%lookup_insert_Some; [done|by eapply H2].
  - apply (own_insert c _ false sfd (w_mutex y)); [|done|done]. intros [] sfd1 p1; cbn; [by right|].
    intros (z & [[<- <-]|[_ Hz]]%lookup_insert_Some & ->)%fmap_Some; [by left|right]. by rewrite Hz.
Qed.

(** What is known of a host. *)
Lemma cwf_status_set l c node st :
  cwf l c → (is_healthy st = true → ∃ sfd ep, st = MkHostStatus true (Some sfd) (Some ep)) →
  cwf l (upd_h_status (insert node st) c).
Proof.
  intros [H1 H2 H3 H4 H5 H6 H7] Hst. split; cbn; try done.
  - intros sfd node' Hn. destruct (H5 sfd node' Hn) as [Hs Hsh]. split; [|done].
    destruct (decide (node = node')) as [->|]; [rewrite lookup_insert_eq; by eexists|].
    by rewrite lookup_insert_ne.
  - intros node' st' [[_ <-]|[_ Hs]]%lookup_insert_Some; [done|by eapply H6].
Qed.

Lemma cwf_status_insert l c node st :
  cwf l c → is_healthy st = false → cwf l (upd_h_status (insert node st) c).
Proof. intros Hc Hst. apply cwf_status_set; [done|by rewrite Hst]. Qed.

(** An attempt to connect. *)
Lemma cwf_connected l c node r : cwf l c → short_name node → cwf l (connected node r c).
Proof.
  intros Hc Hn. unfold connected. destruct r as [[sfd ep]|]; [|by apply cwf_status_insert].
  assert (cwf l (upd_h_status (insert node (status_after (Some (sfd, ep)))) c)) as H1
    by (apply cwf_status_set; [done|by eexists _, _]).
  destruct H1 as [H1 H2 H3 H4 H5 H6 H7]. split; cbn; try done.
  intros sfd' node' [[<- <-]|[_ Hn']]%lookup_insert_Some; [|by apply (H5 sfd')].
  split; [rewrite lookup_insert_eq; by eexists|done].
Qed.

Lemma cwf_attempted l c p : cwf l c → short_name p.1 → cwf l (attempted c p).
Proof.
  intros Hc Hn. unfold attempted. pose proof (cwf_connected l c p.1 p.2 Hc Hn) as Hc'.
  destruct (p.2); [done|]. by apply (cwf_same l (connected p.1 None c)).
Qed.

Lemma cwf_fold {A} (f : client → A → client) (P : A → Prop) l c ps :
  (∀ c p, cwf l c → P p → cwf l (f c p)) → cwf l c → Forall P ps → cwf l (foldl f c ps).
Proof. intros Hf Hc Hp. revert c Hc. induction Hp; cbn; auto. Qed.

Lemma short_zip {B} nodes (rs : list B) :
  Forall short_name nodes → Forall (λ p : bytes * B, short_name p.1) (zip nodes rs).
Proof. intros Hn. revert rs. induction Hn; intros [|r rs]; constructor; auto. Qed.

(** The entries of a descriptor are cleaned away. *)
Lemma cwf_cleaned l l' c sfd :
  cwf l c → freeing (λ p, ∃ b, owner c b sfd = Some p) l l' → cwf l' (cleaned sfd c).
Proof.
  intros [H1 H2 H3 H4 H5 H6 H7] [F1 F2 F3 F4].
  assert (∀ b sfd' p, sfd ≠ sfd' → owner c b sfd' = Some p → ¬ ∃ b, owner c b sfd = Some p) as Hne.
  { intros b sfd' p Hn Ho [b' Ho']. by destruct (H4 _ _ _ _ _ Ho Ho') as [_ ->]. }
  split; cbn.
  - intros sfd' x [Hn Hx]%lookup_delete_Some. destruct (H1 sfd' x Hx). split; [|done].
    apply F3. split; [done|]. apply (Hne true sfd'); [done|]. cbn. by rewrite Hx.
  - intros sfd' y [Hn Hy]%lookup_delete_Some. apply F3. split; [by apply (H2 sfd')|].
    apply (Hne false sfd'); [done|]. cbn. by rewrite Hy.
  - intros p [Hp _]%F3. rewrite F2. by apply H3.
  - intros b b' sfd1 sfd2 p. assert (∀ b1 s1, owner (cleaned sfd c) b1 s1 = Some p → owner c b1 s1 = Some p) as Ho.
    { intros [] s1; cbn; intros (z & [_ Hz]%lookup_delete_Some & ->)%fmap_Some; by rewrite Hz. }
    intros Ho1%Ho Ho2%Ho. by apply (H4 _ _ _ _ p).
  - intros sfd' node [_ Hn]%lookup_delete_Some. by apply (H5 sfd').
  - done.
  - intros sfd' u f. unfold registered. cbn. destruct (decide (sfd = sfd')) as [->|]; [by rewrite lookup_delete_eq|].
    rewrite lookup_delete_ne by done. apply (H7 sfd').
Qed.

Lemma cwf_known l c node : cwf l c → cwf l (known node c).
Proof. intros Hc. unfold known. destruct (h_status c !! node); [done|]. by apply cwf_status_insert. Qed.

Lemma cwf_register l c sfd uuid_str cb :
  cwf l c → (∀ f, cb = Some (BlockCb f) → is_Some (frames c !! f)) →
  cwf l (register sfd uuid_str cb c).
Proof.
  intros [H1 H2 H3 H4 H5 H6 H7] Hcb. destruct cb as [cb|]; [|done]. split; try done.
  intros sfd' u f. unfold registered. cbn. destruct (decide (sfd = sfd')) as [<-|].
  - rewrite lookup_insert_eq. cbn. intros [[_ ->]|[_ Hu]]%lookup_insert_Some; [by apply Hcb|].
    by apply (H7 sfd u).
  - rewrite lookup_insert_ne by done. apply H7.
Qed.

Lemma cwf_queued l c sfd msg y :
  cwf l c → w_mutex y ∈ live l → mine c false sfd (w_mutex y) → cwf l (queued sfd msg y c).
Proof.
  intros Hc Hy Hm. unfold queued. assert (cwf l (upd_wrm (insert sfd (enqueue msg y)) c)) as H.
  { apply cwf_wr_insert; [done|..]; unfold enqueue; by destruct (w_is_valid y). }
  destruct (w_is_valid y); [|done]. by apply (cwf_same l (upd_wrm (insert sfd (enqueue msg y)) c)).
Qed.

(** A response. *)
Lemma cwf_dispatch l c sfd p : cwf l c → cwf l (dispatch sfd c p).
Proof.
  intros [H1 H2 H3 H4 H5 H6 H7]. unfold dispatch. set (c1 := match registered sfd c !! p.1 with Some cb => answered_by cb p.2 c | None => c end).
  assert (rrm c1 = rrm c ∧ wrm c1 = wrm c ∧ conns c1 = conns c ∧ h_status c1 = h_status c ∧
          call_backs c1 = call_backs c ∧ ∀ f, is_Some (frames c !! f) → is_Some (frames c1 !! f))
    as (E1 & E2 & E3 & E4 & E5 & E6).
  { unfold c1. destruct (registered sfd c !! p.1) as [[|g]|]; cbn; split_and!; try done.
    intros f Hf. destruct (decide (f = g)) as [->|]; [rewrite lookup_insert_eq; by eexists|by rewrite lookup_insert_ne]. }
  split; cbn; rewrite ?E1, ?E2, ?E3, ?E4; try done.
  { intros b b' sfd1 sfd2 q. unfold owner. cbn. rewrite E1, E2. apply H4. }
  intros sfd' u f Hu. apply E6.
  revert Hu. unfold registered at 1. cbn. rewrite E5. destruct (decide (sfd = sfd')) as [<-|].
  - rewrite lookup_insert_eq. cbn. intros [_ Hu]%lookup_delete_Some. by apply (H7 sfd u).
  - rewrite lookup_insert_ne by done. apply (H7 sfd' u).
Qed.

Lemma cwf_dispatch_all l c sfd ps : cwf l c → cwf l (foldl (dispatch sfd) c ps).
Proof. revert c. induction ps as [|p ps IH]; intros c Hc; [done|]. by apply IH, cwf_dispatch. Qed.

(** ** The operations *)
Section operations.
Context {K : Type} `{SocketKernel K}.
Implicit Types (l : lockstate) (c : client) (k : K).

Lemma cok_free (w : world K client) m : cok w → m ∉ held (locks w).
Proof. intros [Hl _]. rewrite Hl. apply not_elem_of_nil. Qed.

Lemma send_cok data size ni cb uuid_str (w : world K client) :
  cok w → 36 ≤ len uuid_str → 0 ≤ size ≤ len data → 38 + size < 2 ^ 32 →
  0 ≤ ni < len (desired_hosts (app w)) →
  (∀ f, cb = Some (BlockCb f) → is_Some (frames (app w) !! f)) →
  ∃ b w', send_msg data size ni cb uuid_str w = Ret b w' ∧ cok w' ∧
    ((b = false ∧ kept (app w) (app w')) ∨
     ∃ node sfd ep, desired_hosts (app w) !! Z.to_nat ni = Some node ∧
       h_status (app w) !! node = Some (MkHostStatus true (Some sfd) (Some ep)) ∧
       kept (register sfd uuid_str cb (app w)) (app w')).
Proof.
  destruct w as [k l c]. intros [Hl Hwf] Hu Hsz H32 Hni Hcb. cbn in Hl, Hwf, Hni, Hcb.
  destruct (lookup_lt_is_Some_2 (desired_hosts c) (Z.to_nat ni)) as [node Hnode]; [lia|].
  destruct (default false (is_healthy <$> h_status c !! node)) eqn:Eh.
  - destruct (h_status c !! node) as [st|] eqn:Hst; [|done]. cbn in Eh.
    destruct (cwf_status _ _ Hwf node st Hst Eh) as (sfd & ep & ->).
    destruct (send_msg_run data size ni cb uuid_str node sfd ep k l c) as (l' & E & [Hl' Hlive] & Hy);
      try done; [lia|by apply (cwf_wr _ _ Hwf)|].
    eexists _, _. split; [exact E|]. split; [split; cbn; [congruence|]|].
    + apply cwf_queued; [by apply cwf_register; [apply (cwf_grown l)|]|done|].
      pose proof (mine_writer l c sfd Hwf) as Hm. by destruct cb.
    + right. exists node, sfd, ep. split_and!; [done|done|apply kept_queued].
  - exists false, (World k (traced Hs_mutex l) (known node c)). split.
    + apply send_msg_unhealthy; try done; [lia|]. intros st Hst. by rewrite Hst in Eh.
    + split; [|left; split; [done|apply kept_known]]. split; [done|]. by apply cwf_known, (cwf_grown l).
Qed.

(** A dead connection. *)
Lemma zombied_cwf fd hs k l c :
  held l = hs → (∀ m, m ∈ hs → ∃ p, m = RR_mutex p ∨ m = WR_mutex p) → is_Some (conns c !! fd) → cwf l c →
  ∃ k' l' c', a_zombied fd (World k l c) = Ret tt (World k' l' c') ∧ held l' = hs ∧ live l' = live l ∧
    cwf l' c' ∧ rrm c' = rrm c ∧ wrm c' = wrm c ∧ kept c c'.
Proof.
  intros Hl Hhs [node Hn] Hwf. destruct (cwf_conn _ _ Hwf fd node Hn) as [[st Hst] _].
  eexists _, _, _. split.
  { apply (a_zombied_client fd node st); try done;
      rewrite Hl; intros Hm; destruct (Hhs _ Hm) as [? [?|?]]; done. }
  split_and!; try done.
  apply (cwf_same _ (upd_h_status (insert node (MkHostStatus false (hs_sfd st) (hs_ep_sfd st))) c)); try done.
  apply cwf_status_insert; [by apply (cwf_grown l)|done].
Qed.

Lemma disarm_cok bit ep sfd queue (w : world K client) :
  (∀ c, rrm (queue c) = rrm c ∧ wrm (queue c) = wrm c ∧ conns (queue c) = conns c ∧
        h_status (queue c) = h_status c ∧ call_backs (queue c) = call_backs c ∧ frames (queue c) = frames c ∧
        next_frame (queue c) = next_frame c) →
  cok w → ∃ w', (disarm bit ep sfd;; put queue) w = Ret tt w' ∧ cok w' ∧ conns (app w') = conns (app w) ∧
    kept (app w) (app w').
Proof.
  destruct w as [k l c]. intros Hq [Hl Hwf]. cbn in Hl, Hwf.
  assert (∀ m, m ∉ held l) as Hh by (intros m; rewrite Hl; apply not_elem_of_nil).
  unfold disarm. crun.
  set (c1 := upd_sfd_events _ c). set (v := get0 _ _).
  run_with (set_epoll_run ep sfd v (World k (acquire E_mutex l) c1)). crun.
  destruct (Hq c1) as (E1 & E2 & E3 & E4 & E5 & E6 & E7).
  eexists. split; [reflexivity|]. split_and!; [|by cbn; rewrite E3|by apply kept_same]. split; [done|]. cbn.
  apply (cwf_same _ c1); try done. apply (cwf_same _ c); try done. by apply (cwf_grown l).
Qed.

Lemma event_cok ep fd events (w : world K client) :
  cok w → is_Some (conns (app w) !! fd) →
  ∃ w', handle_event ep (fd, events) w = Ret tt w' ∧ cok w' ∧ kept (app w) (app w').
Proof.
  intros Hok Hc. unfold handle_event. destruct (_ || _).
  - destruct w as [k l c]. pose proof Hok as [Hl Hwf]. cbn in Hl, Hwf, Hc.
    destruct (zombied_cwf fd [] k l c) as (k' & l' & c' & E & Hl' & _ & Hwf' & _ & _ & Hk); try done.
    { intros m Hm. by apply elem_of_nil in Hm. }
    run_with E. eexists. split; [reflexivity|]. by split.
  - assert (∃ w1, (if has events EPOLLIN then read_callback ep fd else mret tt) w = Ret tt w1 ∧ cok w1 ∧ kept (app w) (app w1))
      as (w1 & E1 & Hok1 & Hk1).
    { destruct (has events EPOLLIN); [|by exists w].
      destruct (disarm_cok EPOLLIN ep fd (upd_r_tp (λ q, q ++ [ReadTask ep fd])) w) as (w1 & E1 & Hok1 & _ & ?); [done|done|].
      by exists w1. }
    run_with E1. destruct (has events EPOLLOUT); [|by exists w1].
    destruct (disarm_cok EPOLLOUT ep fd (upd_w_tp (λ q, q ++ [WriteTask ep fd])) w1) as (w2 & E2 & Hok2 & _ & Hk2); [done|done|].
    exists w2. split_and!; [done|done|by transitivity (app w1)].
Qed.

(** *** Writing *)
Lemma fill_cok ep fd y (w : world K client) :
  held (locks w) = [WR_mutex (w_mutex y)] → cwf (locks w) (app w) → is_Some (conns (app w) !! fd) →
  wrm (app w) !! fd = Some y →
  ∃ w', (if w_is_valid y then
           write_to_sfd (Datatypes.S (length (wbuffer (w_bw y)))) ep fd (in_app (bw_ref fd))
             (write_close fd) (in_app events_ref) E_mutex
         else mret tt) w = Ret tt w' ∧
        held (locks w') = [WR_mutex (w_mutex y)] ∧ cwf (locks w') (app w') ∧
        (∃ y', wrm (app w') !! fd = Some y' ∧ w_mutex y' = w_mutex y) ∧ kept (app w) (app w').
Proof.
  intros Hl Hwf Hc Hy. destruct (w_is_valid y); [|exists w; split_and!; [done..|by exists y|done]].
  destruct (write_to_sfd_run (bw_ref fd) (Datatypes.S (length (wbuffer (w_bw y)))) ep fd
              (wbuffer (w_bw y)) w (write_close fd) (in_app events_ref) E_mutex)
    as (parts & b' & w2 & stop & _ & _ & _ & Happ & Hlocks & _ & ->).
  { cbn. rewrite Hy. cbn. by destruct y as [[]]. } { lia. }
  pose proof (cwf_wr _ _ Hwf fd y Hy) as Hlive.
  set (y2 := MkWriteR (MkBufferedWriter b') (w_mutex y) (w_is_valid y)).
  assert (app w2 = upd_wrm (insert fd y2) (app w)) as Hw2.
  { rewrite Happ. cbn. unfold upd_wrm. by rewrite (alter_as_insert _ _ _ _ Hy). }
  destruct w2 as [k2 l2 c2]. cbn in Hlocks, Hw2. subst l2 c2. set (c2 := upd_wrm (insert fd y2) (app w)).
  assert (cwf (locks w) c2) as Hwf2
    by (apply cwf_wr_insert; [done|done|apply (mine_owned (locks w)); [done|cbn; by rewrite Hy]]).
  assert (wrm c2 !! fd = Some y2) as Hy2 by apply lookup_insert_eq.
  destruct stop as [e|]; [|eexists; split_and!; [reflexivity|done|exact Hwf2|by exists y2|by apply kept_same]]. destruct (e =? EAGAIN).
  - eexists. split; [apply (arm_run events_ref E_mutex EPOLLOUT _ fd (sfd_events c2)); [done|done|cbn; rewrite Hl; set_solver]|].
    split_and!; [done| |by exists y2|by apply kept_same]. apply (cwf_grown (locks w)); [done|]. by apply (cwf_same _ c2).
  - unfold write_close. wstep. wstep. set (y3 := MkWriteR (w_bw y2) (w_mutex y2) false). set (c3 := upd_wrm (insert fd y3) c2).
    destruct (zombied_cwf fd [WR_mutex (w_mutex y)] k2 (locks w) c3) as (k' & l' & c' & E & Hl' & _ & Hwf' & _ & Hw' & Hk'); try done.
    { intros m ->%list_elem_of_singleton. by eexists; right. }
    { apply cwf_wr_insert; [done|done|]. apply (mine_owned (locks w)); [done|cbn; by rewrite lookup_insert_eq]. }
    eexists. split; [exact E|]. split_and!; [done|done| |by transitivity c3; [apply kept_same|]].
    exists y3. cbn. rewrite Hw'. split; [apply lookup_insert_eq|done].
Qed.

Lemma write_cok ep fd (w : world K client) :
  cok w → is_Some (conns (app w) !! fd) →
  let n := match wrm (app w) !! fd with Some y => length (wbuffer (w_bw y)) | None => 0%nat end in
  ∃ w', SocketClient.write (Datatypes.S n) ep fd w = Ret tt w' ∧ cok w' ∧ kept (app w) (app w').
Proof.
  destruct w as [k l c]. intros [Hl Hwf] Hc n. cbn in Hl, Hwf, Hc, n.
  destruct (find_writer_run fd k l c) as (l1 & E1 & [Hg1 Hg2] & Hy1);
    [rewrite Hl; apply not_elem_of_nil|by apply (cwf_wr _ _ Hwf)|].
  set (y := writer_of fd l c) in *. set (c1 := upd_wrm (insert fd y) c) in *.
  assert (n = length (wbuffer (w_bw y))) as -> by (unfold n, y, writer_of; by destruct (wrm c !! fd)).
  assert (wrm c1 !! fd = Some y) as Hy by apply lookup_insert_eq.
  assert (∀ m, m ∉ held l1) as Hh1 by (intros m; rewrite Hg1, Hl; apply not_elem_of_nil).
  unfold SocketClient.write. run_with E1. crun.
  destruct (fill_cok ep fd y (World k (acquire (WR_mutex (w_mutex y)) l1) c1)) as (w2 & E2 & Hl2 & Hwf2 & (y2 & Hy2 & Hm2) & Hk2); try done.
  { cbn. by rewrite Hg1, Hl. } { cbn. apply cwf_wr_insert; [by apply (cwf_grown l)|done|by apply mine_writer]. }
  run_with E2. destruct w2 as [k2 l2 c2]. cbn in Hl2, Hwf2, Hy2, Hk2. crun. rewrite Hm2.
  pose proof (cwf_wr _ _ Hwf2 fd y2 Hy2) as Hlive2. rewrite Hm2 in Hlive2.
  rewrite (unlock_run _ []) by (first [done | by apply bool_decide_eq_true_2 | apply not_elem_of_nil]).
  eexists. split; [reflexivity|]. split; [split; [cbn; by rewrite Hl2|by apply (cwf_grown l2)]|].
  by transitivity c1; [apply kept_same|].
Qed.

(** *** Reading *)
Lemma dispatch_all_maps sfd ps c :
  let c' := foldl (dispatch sfd) c ps in rrm c' = rrm c ∧ wrm c' = wrm c.
Proof. split; by apply dispatch_all_field. Qed.

Context (run_cb : nat → bytes → M (world K client) unit).
Hypothesis run_cb_returns : returns (λ _ _, True) run_cb.

Lemma after_read_cwf sfd x b ep e node st t l c :
  cwf l c → r_mutex x ∈ live l → mine c true sfd (r_mutex x) → EOT ∉ b →
  cwf l (after_read sfd x (MkBufferedReader b (Some EOT) (Some (ep, sfd))) e node st t c).
Proof.
  intros Hc Hx Hm Hb. unfold after_read. set (c1 := upd_rrm _ c).
  assert (cwf l c1) as H1 by (apply cwf_rr_insert; [done|done|done|by eexists _, _]).
  destruct (is_open e); [by apply (cwf_same l c1)|].
  apply (cwf_same l (upd_h_status (insert node (MkHostStatus false (hs_sfd st) (hs_ep_sfd st))) c1)); try done.
  by apply cwf_status_insert.
Qed.

Lemma kept_after_read sfd x br e node st t c : kept c (after_read sfd x br e node st t c).
Proof. unfold after_read. destruct (is_open e); by apply kept_same. Qed.

(** A read that finds an invalid entry does nothing. *)
Lemma read_idle_client fuel ep sfd x k l c :
  held l = [] → rrm c !! sfd = Some x → r_mutex x ∈ live l → r_is_valid x = false →
  ∃ l', SocketClient.read run_cb fuel ep sfd (World k l c) = Ret tt (World k l' c) ∧ grown l l'.
Proof.
  intros Hl Hx Hlive Hv. assert (∀ m, m ∉ held l) as Hh by (intros m; rewrite Hl; apply not_elem_of_nil).
  unfold SocketClient.read. crun. rewrite Hx. crun. rewrite Hv. crun.
  eexists. split; [reflexivity|]. by split.
Qed.

(** The responses that a read of [sfd] takes. *)
Definition heard sfd (w : world K client) : list (bytes * bytes) :=
  let taken b := map decode (feed EOT b (inbox sfd (kern w))).1 in
  match rrm (app w) !! sfd with
  | Some x => if r_is_valid x then taken (buffer (r_br x)) else []
  | None => taken []
  end.

Lemma read_cok ep sfd (w : world K client) :
  cok w → is_Some (conns (app w) !! sfd) →
  (∀ x, rrm (app w) !! sfd = Some x → call_back (r_br x) = Some (ep, sfd) ∧
     len (buffer (r_br x)) + len (inbox sfd (kern w)) < 2 ^ 32) →
  len (inbox sfd (kern w)) < 2 ^ 32 →
  ∃ w', SocketClient.read run_cb (Datatypes.S (length (inbox sfd (kern w)))) ep sfd w = Ret tt w' ∧ cok w' ∧
    kept (foldl (dispatch sfd) (app w) (heard sfd w)) (app w').
Proof.
  destruct w as [k l c]. intros [Hl Hwf] [node Hn] Hx H32. cbn in Hl, Hwf, Hn, Hx, H32 |- *.
  destruct (cwf_conn _ _ Hwf sfd node Hn) as [[st Hst] _].
  set (x := reader_of ep sfd l c).
  assert (∃ b, r_br x = MkBufferedReader b (Some EOT) (Some (ep, sfd)) ∧ (EOT ∉ b) ∧
               len b + len (inbox sfd k) < 2 ^ 32) as (b & Hbr & Hb & Hlen).
  { unfold x, reader_of. destruct (rrm c !! sfd) as [z|] eqn:Ez.
    - destruct (cwf_rr _ _ Hwf sfd z Ez) as (_ & b & ep' & Hz & Hb). destruct (Hx z eq_refl) as [Hcb Hz32].
      rewrite Hz in Hcb, Hz32. cbn in Hcb, Hz32. injection Hcb as ->. by exists b.
    - exists []. split_and!; [done|apply not_elem_of_nil|done]. }
  destruct (r_is_valid x) eqn:Hv.
  - destruct (feed EOT b (inbox sfd k)) as [frames rest] eqn:E.
    destruct (read_client_run (λ _ _, True) run_cb ltac:(done) run_cb_returns
        (Datatypes.S (length (inbox sfd k))) ep sfd node st b k l c frames rest)
      as (k' & l' & t & E' & Hl' & Hlive & Hext & _); try done; [|by apply (cwf_waiting _ _ Hwf)|lia|].
    { intros z Hz. by apply (cwf_rr _ _ Hwf sfd z Hz). }
    assert (heard sfd (World k l c) = map decode frames) as ->.
    { unfold heard. cbn. revert Hv Hbr. unfold x, reader_of. destruct (rrm c !! sfd) as [z|]; cbn.
      - intros -> ->. cbn. by rewrite E.
      - intros _ [= <-]. by rewrite E. }
    eexists. split; [exact E'|]. split; [|apply kept_after_read]. split; [done|]. cbn. fold x.
    apply after_read_cwf; [|done| |].
    + by apply cwf_dispatch_all, (cwf_grown l).
    + destruct (dispatch_all_maps sfd (map decode frames) c) as [Er Ew].
      intros b' sfd'. unfold owner. rewrite Er, Ew. apply (mine_reader ep l c sfd Hwf b' sfd').
    + by apply (feed_no_delim _ _ _ _ _ E).
  - unfold x, reader_of in Hv. destruct (rrm c !! sfd) as [z|] eqn:Ez; [|done].
    destruct (read_idle_client (Datatypes.S (length (inbox sfd k))) ep sfd z k l c) as (l' & E & Hg1 & Hg2);
      [done|done|by apply (cwf_rr _ _ Hwf sfd z Ez)|done|].
    eexists. split; [exact E|]. unfold heard. cbn in Hv |- *. rewrite Ez, Hv.
    split; [split; [cbn; congruence|by apply (cwf_grown l)]|done].
Qed.

(** *** Connecting, and retrying *)
Lemma connect_cok rs k' (w : world K client) :
  cok w → Forall short_name (desired_hosts (app w)) → len (desired_hosts (app w)) < 2 ^ 32 →
  dial_all (desired_hosts (app w)) (kern w) = Ret rs k' →
  ∃ n w', connect_to_hosts w = Ret n w' ∧ cok w' ∧ kept (app w) (app w').
Proof.
  destruct w as [k l c]. intros [Hl Hwf] Hs H32 E. cbn in *.
  destruct (connect_fold (desired_hosts c) k l c 0 rs k' Hs Hl E) as (l' & E' & Hl' & Hext); [done|done|].
  eexists _, _. split; [unfold connect_to_hosts; crun; exact E'|]. split; [|apply kept_fold, kept_attempted].
  split; [cbn; by rewrite Hl'|]. cbn.
  apply (cwf_fold attempted (λ p, short_name p.1)); [intros ? ?; apply cwf_attempted| |by apply short_zip].
  by apply (cwf_grown l).
Qed.

Lemma retry_cok rs k' (w : world K client) :
  cok w → Forall short_name (e_hosts (app w)) → len (e_hosts (app w)) < 2 ^ 32 →
  dial_all (e_hosts (app w)) (kern w) = Ret rs k' → (length (succeeded 0 rs) ≤ 1)%nat →
  ∃ w', retry_round w = Ret tt w' ∧ cok w' ∧ kept (app w) (app w').
Proof.
  destruct w as [k l c]. intros [Hl Hwf] Hs H32 E H1. cbn in *.
  pose proof (retry_round_run k l c rs k' Hs H32 Hl E) as Hr. cbv zeta in Hr.
  pose proof (dial_all_length _ _ _ _ E) as Hrs.
  destruct (shifted_one rs (len (e_hosts c)) H1) as [_ Hw]; [lia|].
  rewrite Hw in Hr. destruct Hr as (l' & E' & Hl' & Hext). eexists. split; [exact E'|].
  split; [|transitivity (foldl reconnected c (zip (e_hosts c) rs));
    [apply kept_fold; intros; apply kept_connected|by apply kept_same]].
  split; [cbn; by rewrite Hl'|]. cbn. apply (cwf_same l' (foldl reconnected c (zip (e_hosts c) rs))); try done.
  apply (cwf_fold reconnected (λ p, short_name p.1)); [intros ? ?; apply cwf_connected| |by apply short_zip].
  by apply (cwf_grown l).
Qed.

(** *** The reaper *)

(** A round over the zombies [es] comes to an end, with [zv] reaped: the hosts of the
    old ones have descriptors to close, and the attempts to connect to them end. *)
Inductive sweep : list (Z * Z) → K → client → list Z → K → client → Prop :=
  | sweep_nil k c : sweep [] k c [] k c
  | sweep_young sfd t es k c zv k' c' :
      wrap 64 (now_ms k - t) ≤ 60000 → sweep es (sys_gettimeofday k).2 c zv k' c' →
      sweep ((sfd, t) :: es) k c zv k' c'
  | sweep_old sfd t es k c zv k1 k' c' node st ep r :
      60000 < wrap 64 (now_ms k - t) → conns c !! sfd = Some node →
      h_status c !! node = Some st → hs_ep_sfd st = Some ep →
      dial node (sys_close ep (sys_close sfd (sys_gettimeofday k).2)) = Ret r k1 →
      sweep es k1 (attempted (cleaned sfd c) (node, r)) zv k' c' →
      sweep ((sfd, t) :: es) k c (sfd :: zv) k' c'.

Lemma cwf_owned l c sfd : cwf l c → owned sfd l c.
Proof.
  intros Hc. split_and!.
  - intros x Hx. by apply (cwf_rr _ _ Hc sfd x).
  - intros y Hy. by apply (cwf_wr _ _ Hc sfd y).
  - intros x y Hx Hy E. assert (owner c true sfd = Some (r_mutex x)) as H1 by (cbn; by rewrite Hx).
    assert (owner c false sfd = Some (r_mutex x)) as H2 by (cbn; by rewrite Hy, E).
    by destruct (cwf_own _ _ Hc _ _ _ _ _ H1 H2).
Qed.

Lemma sweep_run es k c zv k' c' l zv0 :
  sweep es k c zv k' c' → held l = [Z_mutex] → cwf l c →
  ∃ l', fold_m reap_entry es zv0 (World k l c) = Ret (zv0 ++ zv) (World k' l' c') ∧
        held l' = [Z_mutex] ∧ cwf l' c' ∧ kept c c'.
Proof.
  intros Hs. revert l zv0. induction Hs as [k c|sfd t es k c zv k' c' Hy _ IH|sfd t es k c zv k1 k' c' node st ep r Ho Hn Hst Hep Hd _ IH];
    intros l zv0 Hl Hwf; cbn [fold_m].
  - exists l. by rewrite app_nil_r.
  - run_with (reap_young_run sfd t k l c zv0 Hy). by apply IH.
  - destruct (cwf_conn _ _ Hwf sfd node Hn) as [_ Hsh].
    destruct (reap_old_run sfd t node st ep r k k1 l c zv0) as (l1 & E1 & F1 & _); try done; [by apply cwf_owned|].
    run_with E1. destruct (IH l1 (zv0 ++ [sfd])) as (l' & E' & Hl' & Hwf' & Hk).
    + by rewrite (freeing_held _ _ _ F1).
    + apply cwf_attempted; [|done]. by apply (cwf_cleaned l).
    + exists l'. rewrite E', <-app_assoc. split_and!; [done..|]. transitivity (cleaned sfd c); [apply kept_cleaned|].
      by transitivity (attempted (cleaned sfd c) (node, r)); [apply kept_attempted|].
Qed.

Lemma reap_cok iterate zv k' c' (w : world K client) :
  cok w → sweep (iterate (zm (app w))) (kern w) (app w) zv k' c' →
  ∃ w', reap iterate w = Ret tt w' ∧ cok w' ∧ kept (app w) (app w').
Proof.
  destruct w as [k l c]. intros [Hl Hwf] Hs. cbn in *.
  destruct (sweep_run _ k c zv k' c' (acquire Z_mutex l) [] Hs) as (l1 & E & Hl1 & Hwf1 & Hk);
    [cbn; by rewrite Hl|by apply (cwf_grown l)|].
  eexists. split; [by apply (reap_round iterate zv k k' l l1 c c')|].
  split; [|by transitivity c'; [|apply kept_same]]. split; [cbn; by rewrite Hl1|].
  apply (cwf_same (release l1) c'); try done. by apply (cwf_grown l1).
Qed.
End operations.

(** ** The threads of a client *)
Section threads.
Context {K : Type} `{SocketKernel K} (run_cb : nat → bytes → M (world K client) unit).
Context (iterate : gmap Z Z → list (Z * Z)).

Inductive client_action :=
  | CConnect
  | CRetry
  | CReap
  | CSend (data : bytes) (size ni : Z) (cb : option callback) (uuid_str : bytes)
  | CRead (ep sfd : Z)
  | CWrite (ep sfd : Z)
  | CEvent (ep fd events : Z).

Definition client_perform (a : client_action) : M (world K client) unit := λ w,
  match a with
  | CConnect => (_ ← connect_to_hosts; mret tt) w
  | CRetry => retry_round w
  | CReap => reap iterate w
  | CSend data size ni cb uuid_str => (_ ← send_msg data size ni cb uuid_str; mret tt) w
  | CRead ep sfd => SocketClient.read run_cb (Datatypes.S (length (inbox sfd (kern w)))) ep sfd w
  | CWrite ep sfd =>
      let n := match wrm (app w) !! sfd with Some y => length (wbuffer (w_bw y)) | None => 0%nat end in
      SocketClient.write (Datatypes.S n) ep sfd w
  | CEvent ep fd events => handle_event ep (fd, events) w
  end.

(** Attempts to connect come to an end ([dial] can exit, or be undefined for a name
    without a colon); a round of [retry_conn] reaches at most one host (see
    [client_retry]); the host of an old zombie has descriptors.  Messages are sent to a
    host of the list, with their size, below 4 GB, and a call
    back whose variables are there; the descriptors that are read, written or have
    events belong to connections, and are read by their own epoll thread. *)
Definition client_allowed (a : client_action) (w : world K client) : Prop :=
  match a with
  | CConnect =>
      Forall short_name (desired_hosts (app w)) ∧ len (desired_hosts (app w)) < 2 ^ 32 ∧
      ∃ rs k', dial_all (desired_hosts (app w)) (kern w) = Ret rs k'
  | CRetry =>
      Forall short_name (e_hosts (app w)) ∧ len (e_hosts (app w)) < 2 ^ 32 ∧
      ∃ rs k', dial_all (e_hosts (app w)) (kern w) = Ret rs k' ∧ (length (succeeded 0 rs) ≤ 1)%nat
  | CReap => ∃ zv k' c', sweep (iterate (zm (app w))) (kern w) (app w) zv k' c'
  | CSend data size ni cb uuid_str =>
      36 ≤ len uuid_str ∧ 0 ≤ size ≤ len data ∧ 38 + size < 2 ^ 32 ∧
      0 ≤ ni < len (desired_hosts (app w)) ∧
      ∀ f, cb = Some (BlockCb f) → is_Some (frames (app w) !! f)
  | CRead ep sfd =>
      is_Some (conns (app w) !! sfd) ∧ len (inbox sfd (kern w)) < 2 ^ 32 ∧
      ∀ x, rrm (app w) !! sfd = Some x → call_back (r_br x) = Some (ep, sfd) ∧
        len (buffer (r_br x)) + len (inbox sfd (kern w)) < 2 ^ 32
  | CWrite ep sfd => is_Some (conns (app w) !! sfd)
  | CEvent ep fd events => is_Some (conns (app w) !! fd)
  end.

Inductive client_step : world K client → world K client → Prop :=
  | client_step_action a w w' : client_allowed a w → client_perform a w = Ret tt w' → client_step w w'
  | client_step_network w k : client_step w (World k (locks w) (app w)).

(** What an action does to the blocking calls: reading brings them their responses; all
    others leave them alone, unless they are sent as one. *)
Definition client_calls (a : client_action) (w : world K client) : client :=
  match a with CRead _ sfd => foldl (dispatch sfd) (app w) (heard sfd w) | _ => app w end.

Definition by_user (a : client_action) : Prop :=
  match a with CSend _ _ _ cb _ => ∀ f, cb ≠ Some (BlockCb f) | _ => True end.

Lemma client_allowed_ok a w :
  returns (λ _ _, True) run_cb → cok w → client_allowed a w →
  ∃ w', client_perform a w = Ret tt w' ∧ cok w' ∧ (by_user a → kept (client_calls a w) (app w')).
Proof.
  intros Hcb Hok Ha. destruct a as [| | |data size ni cb u|ep sfd|ep sfd|ep fd events]; cbn [client_perform].
  - destruct Ha as (H1 & H2 & rs & k' & H3).
    destruct (connect_cok rs k' w Hok H1 H2 H3) as (n & w' & E & Hok' & Hk). exists w'. by run_with E.
  - destruct Ha as (H1 & H2 & rs & k' & H3 & H4). destruct (retry_cok rs k' w) as (w' & ? & ? & ?); eauto.
  - destruct Ha as (zv & k' & c' & Hs). destruct (reap_cok iterate zv k' c' w) as (w' & ? & ? & ?); eauto.
  - destruct Ha as (H1 & H2 & H3 & H4 & H5).
    destruct (send_cok data size ni cb u w Hok H1 H2 H3 H4 H5) as (b & w' & E & Hok' & Hk).
    exists w'. rewrite bind_unfold, E. split_and!; [done..|]. intros Hcb'.
    destruct Hk as [[_ Hk]|(node & sfd & ep' & _ & _ & Hk)]; [done|].
    etransitivity; [by apply kept_register|exact Hk].
  - destruct Ha as (H1 & H2 & H3). destruct (read_cok run_cb Hcb ep sfd w) as (w' & ? & ? & ?); eauto.
  - destruct (write_cok ep sfd w Hok Ha) as (w' & ? & ? & ?); eauto.
  - destruct (event_cok ep fd events w Hok Ha) as (w' & ? & ? & ?); eauto.
Qed.

Lemma client_reachable w w' :
  returns (λ _ _, True) run_cb → cok w → rtc client_step w w' → cok w'.
Proof.
  intros Hcb Hok Hr. induction Hr as [|w w1 w2 Hs _ IH]; [done|]. apply IH. clear IH.
  destruct Hs as [a w w1 Ha E|w k].
  - destruct (client_allowed_ok a w Hcb Hok Ha) as (w'' & E' & Hok' & _). rewrite E in E'. by injection E' as <-.
  - by destruct Hok.
Qed.
End threads.

(** A new client. *)
Lemma new_cok {K} hosts (k : K) : cok (World k no_locks (client_new hosts)).
Proof. split; [done|]. split; try done. intros [] b' sfd sfd' p Ho; discriminate Ho. Qed.

Lemma mark_returns_any : returns (λ _ _, True) mark_cb.
Proof. intros tag msg_v fs w _. eexists. by split_and!. Qed.

(** ** Properties *)

(** C20.  A client is safe.  From its construction on, whatever its threads and its
    user do - connecting, sending, reading and writing, the events of epoll, rounds of
    the reaper and of the retrying thread - and whatever happens in the kernel, in any
    order, the client stays well formed: each entry points to a live mutex of its own,
    readers hold no delimiter and call back for their own descriptor, the
    hosts of connections are known, healthy hosts have descriptors, and the call
    backs of blocking calls have their variables.  And each further operation that is
    allowed returns: nothing is undefined, waits for ever or throws.  Not allowed are
    what the code does not stand: a round in which two hosts are reached again (see
    [client_retry]), a dead connection whose host has no descriptors any more, a host
    without a port, and call backs that use the client (see [client_deadlocks]). *)
Theorem client_invariant {K : Type} `{SocketKernel K} run_cb iterate (w w' : world K client) :
  returns (λ _ _, True) run_cb → cok w → rtc (client_step run_cb iterate) w w' →
  cok w' ∧ ∀ a, client_allowed iterate a w' → ∃ w'', client_perform run_cb iterate a w' = Ret tt w'' ∧ cok w''.
Proof.
  intros Hcb Hok Hr. pose proof (client_reachable run_cb iterate w w' Hcb Hok Hr) as Hok'.
  split; [done|]. intros a Ha.
  destruct (client_allowed_ok run_cb iterate a w' Hcb Hok' Ha) as (w'' & ? & ? & _). by exists w''.
Qed.

(** A new client connects and sends a message; an error is reported for the
    connection.  Ten minutes later the reaper comes, and connects again. *)
Lemma client_invariant_witness :
  let perform a (w : world sim client) :=
    match client_perform mark_cb map_to_list a w with Ret _ w => w | _ => w end in
  let w1 := perform CConnect (World sim_empty no_locks (client_new [host_a])) in
  let w2 := perform (CSend (str "hi") 2 0 (Some (UserCb 1)) sample_id) w1 in
  let w3 := perform (CEvent 6 5 EPOLLERR) w2 in
  let w4 := World (set_clock (1600, 0) (kern w3)) (locks w3) (app w3) in
  wbuffer <$> (w_bw <$> wrm (app w2) !! 5) = Some (frame_of sample_id (str "hi")) ∧
  conns (app (perform CReap w4)) = {[7 := host_a]} ∧
  ∃ w5, client_perform mark_cb map_to_list CReap w4 = Ret tt w5 ∧ cok w5.
Proof.
  intros perform w1 w2 w3 w4. split; [vm_compute; reflexivity|]. split; [vm_compute; reflexivity|].
  apply (client_invariant mark_cb map_to_list (World sim_empty no_locks (client_new [host_a])) w4).
  - apply mark_returns_any.
  - apply new_cok.
  - apply (rtc_l _ _ w1); [|apply (rtc_l _ _ w2); [|apply (rtc_l _ _ w3); [|apply rtc_once]]].
    + apply (client_step_action _ _ CConnect); [|vm_compute; reflexivity].
      split_and!; [repeat constructor; vm_compute; reflexivity|vm_compute; reflexivity|].
      exists [Some (5, 6)], (set_watched {[5 := 1]} (set_next_fd 7 sim_empty)). reflexivity.
    + apply (client_step_action _ _ (CSend (str "hi") 2 0 (Some (UserCb 1)) sample_id)); [|vm_compute; reflexivity].
      split_and!; try (vm_compute; first [discriminate|reflexivity]).
    + apply (client_step_action _ _ (CEvent 6 5 EPOLLERR)); [|vm_compute; reflexivity]. vm_compute. by eexists.
    + exact (client_step_network _ _ w3 _).
  - set (kR := kern (perform CReap w4)). set (cR := attempted (cleaned 5 (app w4)) (host_a, Some (7, 8))).
    assert (map_to_list (zm (app w4)) = [(5, 1000000)]) as Hz by (vm_compute; reflexivity).
    assert (sweep [(5, 1000000)] (kern w4) (app w4) [5] kR cR) as Hs.
    { apply (sweep_old 5 1000000 [] (kern w4) (app w4) [] kR kR cR host_a
               (MkHostStatus false (Some 5) (Some 6)) 6 (Some (7, 8))); [vm_compute; reflexivity..|apply sweep_nil]. }
    exists [5], kR, cR. rewrite Hz. exact Hs.
Defined.
