(* ===== verification/ClientReaper.v ===== *)
(** * The client's reaper

    A round of [reap_resources] over any number of zombies: what is closed and erased,
    what becomes of the hosts, and what goes wrong when the kernel gives a new
    connection the number of a zombie that is still to be reaped. *)

From S2P Require Import Prelude Utils BufferedReader BufferedWriter Kernel Simulation SocketUtils.
From S2P Require Import SocketClient ClientProofs ClientTheorems ClientInvariant.

(** A zombie that was reaped: its number, the host whose connection had this number at
    that moment, and what the attempt to connect to the host again gave. *)
Record reaped := Reaped { r_sfd : Z; r_node : bytes; r_result : option (Z * Z) }.

Section reaper.
Context {K : Type} `{SocketKernel K}.
Implicit Types (l : lockstate) (c : client) (k : K).

(** The round as a function of the kernel and the client: nothing when a zombie belongs
    to no host that has descriptors, or when an attempt to connect does not end. *)
Fixpoint sweeps (es : list (Z * Z)) k c : option (list reaped * K * client) :=
  match es with
  | [] => Some ([], k, c)
  | (sfd, t) :: es =>
      if 60000 <? wrap 64 (now_ms k - t) then
        node ← conns c !! sfd;
        st ← h_status c !! node;
        ep ← hs_ep_sfd st;
        match dial node (sys_close ep (sys_close sfd (sys_gettimeofday k).2)) with
        | Ret r k1 =>
            '(log, k', c') ← sweeps es k1 (attempted (cleaned sfd c) (node, r));
            Some (Reaped sfd node r :: log, k', c')
        | _ => None
        end
      else sweeps es (sys_gettimeofday k).2 c
  end.

Lemma sweeps_sweep es k c log k' c' :
  sweeps es k c = Some (log, k', c') → sweep es k c (map r_sfd log) k' c'.
Proof.
  revert k c log. induction es as [|[sfd t] es IH]; intros k c log; cbn [sweeps].
  - intros [= <- <- <-]. constructor.
  - destruct (Z.ltb_spec 60000 (wrap 64 (now_ms k - t))) as [Hold|Hy]; [|intros E; apply sweep_young; [lia|by apply IH]].
    destruct (conns c !! sfd) as [node|] eqn:Hn; [|done]. cbn.
    destruct (h_status c !! node) as [st|] eqn:Hst; [|done]. cbn.
    destruct (hs_ep_sfd st) as [ep|] eqn:Hep; [|done]. cbn.
    destruct (dial _ _) as [r k1| | | | |] eqn:Hd; try done.
    destruct (sweeps es k1 _) as [[[log' k2] c2]|] eqn:E; [|done]. cbn. intros [= <- <- <-]. cbn.
    by eapply sweep_old; [exact Hold|exact Hn|exact Hst|exact Hep|exact Hd|apply IH].
Qed.

(** A host that is connected, or will be tried again. *)
Definition settled c (node : bytes) : Prop :=
  (∃ sfd ep, h_status c !! node = Some (MkHostStatus true (Some sfd) (Some ep))) ∨ node ∈ e_hosts c.

Definition failed_hosts (log : list reaped) : list bytes :=
  omap (λ r, match r_result r with Some _ => None | None => Some (r_node r) end) log.

(** What a reconnection leaves as it is. *)
Lemma attempted_maps c p :
  let c' := attempted c p in
  rrm c' = rrm c ∧ wrm c' = wrm c ∧ call_backs c' = call_backs c ∧ zm c' = zm c.
Proof. unfold attempted, connected. by destruct p as [node [[sfd ep]|]]. Qed.

Lemma attempted_settles c node r : settled (attempted c (node, r)) node.
Proof.
  unfold attempted, connected. destruct r as [[sfd ep]|]; cbn; [left|right; set_solver].
  exists sfd, ep. cbn. by rewrite lookup_insert_eq.
Qed.

Lemma attempted_stays c node r node' : settled c node' → settled (attempted c (node, r)) node'.
Proof.
  destruct (decide (node' = node)) as [->|Hne]; [intros _; apply attempted_settles|].
  intros [(sfd & ep & Hs)|He]; [left|right].
  - exists sfd, ep. unfold attempted, connected. destruct r as [[]|]; cbn; by rewrite lookup_insert_ne.
  - unfold attempted, connected. destruct r as [[]|]; cbn; set_solver.
Qed.

(** What a round does. *)
Record swept c (log : list reaped) c' : Prop := {
  swept_rrm fd : rrm c' !! fd = if decide (fd ∈ map r_sfd log) then None else rrm c !! fd;
  swept_wrm fd : wrm c' !! fd = if decide (fd ∈ map r_sfd log) then None else wrm c !! fd;
  swept_call_backs fd :
    call_backs c' !! fd = if decide (fd ∈ map r_sfd log) then None else call_backs c !! fd;
  swept_zm : zm c' = zm c;
  swept_e_hosts : e_hosts c' = e_hosts c ++ failed_hosts log;
  swept_settled node : settled c node ∨ node ∈ map r_node log → settled c' node
}.

Lemma swept_cons c sfd node r log c' :
  swept (attempted (cleaned sfd c) (node, r)) log c' → swept c (Reaped sfd node r :: log) c'.
Proof.
  destruct (attempted_maps (cleaned sfd c) (node, r)) as (E1 & E2 & E3 & E4).
  intros [H1 H2 H3 H4 H5 H6].
  assert (∀ {A} (m m1 m2 : gmap Z A), m1 = delete sfd m →
    (∀ fd, m2 !! fd = if decide (fd ∈ map r_sfd log) then None else m1 !! fd) →
    ∀ fd, m2 !! fd = if decide (fd ∈ map r_sfd (Reaped sfd node r :: log)) then None else m !! fd) as Hm.
  { intros A m m1 m2 -> Hm fd. rewrite Hm. cbn. destruct (decide (fd = sfd)) as [->|Hne].
    - rewrite lookup_delete_eq, (decide_True (P := sfd ∈ sfd :: _)) by set_solver. by case_decide.
    - rewrite lookup_delete_ne by done. repeat case_decide; set_solver. }
  split.
  - by apply (Hm _ _ (rrm (attempted (cleaned sfd c) (node, r)))).
  - by apply (Hm _ _ (wrm (attempted (cleaned sfd c) (node, r)))).
  - by apply (Hm _ _ (call_backs (attempted (cleaned sfd c) (node, r)))).
  - by rewrite H4, E4.
  - rewrite H5. unfold attempted, connected, failed_hosts. destruct r as [[]|]; cbn; [done|]. by rewrite <-app_assoc.
  - intros node' [Hs|[->|Hin]%elem_of_cons]; apply H6; [left; by apply attempted_stays|left|by right].
    apply attempted_settles.
Qed.

Lemma sweeps_swept es k c log k' c' : sweeps es k c = Some (log, k', c') → swept c log c'.
Proof.
  revert k c log. induction es as [|[sfd t] es IH]; intros k c log; cbn [sweeps].
  - intros [= <- <- <-]. split; try done; [by rewrite app_nil_r|]. intros node [?|Hin]; [done|by apply elem_of_nil in Hin].
  - destruct (60000 <? _); [|apply IH].
    destruct (conns c !! sfd) as [node|]; [|done]. cbn. destruct (h_status c !! node) as [st|]; [|done]. cbn.
    destruct (hs_ep_sfd st) as [ep|]; [|done]. cbn. destruct (dial _ _) as [r k1| | | | |]; try done.
    destruct (sweeps es k1 _) as [[[log' k2] c2]|] eqn:E; [|done]. cbn. intros [= <- <- <-].
    apply swept_cons. by eapply IH.
Qed.

Lemma sweeps_among es k c log k' c' r : sweeps es k c = Some (log, k', c') → r ∈ log → r_sfd r ∈ es.*1.
Proof.
  revert k c log. induction es as [|[sfd t] es IH]; intros k c log; cbn [sweeps].
  - intros [= <- <- <-] Hr. by apply elem_of_nil in Hr.
  - destruct (60000 <? _); [|intros E Hr; right; by eapply IH].
    destruct (conns c !! sfd) as [node|]; [|done]. cbn. destruct (h_status c !! node) as [st|]; [|done]. cbn.
    destruct (hs_ep_sfd st) as [ep|]; [|done]. cbn. destruct (dial _ _) as [r0 k1| | | | |]; try done.
    destruct (sweeps es k1 _) as [[[log' k2] c2]|] eqn:E; [|done]. cbn. intros [= <- <- <-].
    intros [->|Hr]%elem_of_cons; [by left|right; by eapply IH].
Qed.

(** While no new connection has the number of a zombie, each zombie is reaped for the
    host it belonged to. *)
Lemma sweeps_hosts es k c log k' c' :
  sweeps es k c = Some (log, k', c') → NoDup es.*1 →
  (∀ r fd ep, r ∈ log → r_result r = Some (fd, ep) → fd ∉ es.*1) →
  ∀ r, r ∈ log → conns c !! r_sfd r = Some (r_node r).
Proof.
  revert k c log. induction es as [|[sfd t] es IH]; intros k c log; cbn [sweeps].
  - intros [= <- <- <-] _ _ r Hr. by apply elem_of_nil in Hr.
  - intros E Hnd Hnew. cbn in Hnd. apply NoDup_cons in Hnd as [Hs Hnd]. revert E.
    destruct (60000 <? _).
    2: { intros E. eapply IH; [done..|]. intros r fd ep Hr Hres Hin. eapply Hnew; [done..|by right]. }
    destruct (conns c !! sfd) as [node|] eqn:Hn; [|done]. cbn. destruct (h_status c !! node) as [st|]; [|done]. cbn.
    destruct (hs_ep_sfd st) as [ep|]; [|done]. cbn. destruct (dial _ _) as [r0 k1| | | | |]; try done.
    destruct (sweeps es k1 _) as [[[log' k2] c2]|] eqn:E; [|done]. cbn. intros [= <- <- <-].
    intros r [->|Hr]%elem_of_cons; [done|]. assert (r_sfd r ≠ sfd) as Hne.
    { intros Heq. apply Hs. rewrite <-Heq. by eapply sweeps_among. }
    assert (conns (attempted (cleaned sfd c) (node, r0)) !! r_sfd r = Some (r_node r)) as Hc.
    { eapply IH; [exact E|done| |done]. intros r' fd ep' Hr' Hres Hin. eapply Hnew; [by right|exact Hres|by right]. }
    revert Hc. unfold attempted, connected. destruct r0 as [[fd ep']|]; cbn; [|by rewrite lookup_delete_ne].
    rewrite lookup_insert_ne; [by rewrite lookup_delete_ne|]. intros ->.
    apply (Hnew (Reaped sfd node (Some (r_sfd r, ep'))) (r_sfd r) ep'); [by left|done|right; by eapply sweeps_among].
Qed.

Lemma reap_sweeps iterate log k' c' (w : world K client) :
  cok w → sweeps (iterate (zm (app w))) (kern w) (app w) = Some (log, k', c') →
  ∃ l', reap iterate w = Ret tt (World k' l' (upd_zm (λ m, foldl (λ m z, delete z m) m (map r_sfd log)) c')) ∧
    cok (World k' l' (upd_zm (λ m, foldl (λ m z, delete z m) m (map r_sfd log)) c')).
Proof.
  destruct w as [k l c]. intros [Hl Hwf] Hs%sweeps_sweep. cbn in *.
  destruct (sweep_run _ k c _ k' c' (acquire Z_mutex l) [] Hs) as (l1 & E & Hl1 & Hwf1 & _);
    [cbn; by rewrite Hl|by apply (cwf_grown l)|].
  exists (release l1). split; [by apply (reap_round iterate _ k k' l l1 c c')|].
  split; [cbn; by rewrite Hl1|]. apply (cwf_same (release l1) c'); try done. by apply (cwf_grown l1).
Qed.
End reaper.

(** ** Properties *)

(** C27.  A round of the reaper over any number of zombies.  From a well-formed client it
    ends, well formed, having reaped each zombie that was older than 60 seconds when it
    was looked at: such a zombie loses its entries in the maps and its place among the
    zombies, and nothing else does; each attempt to connect again that fails is noted,
    in order; every host that was taken for that of a zombie is connected or will be
    tried again.  That is the zombie's own host as long as no new connection gets the
    number of a zombie. *)
Theorem client_reaps {K : Type} `{SocketKernel K} iterate log k' c' (w : world K client) :
  cok w → (∀ m, iterate m ≡ₚ map_to_list m) →
  sweeps (iterate (zm (app w))) (kern w) (app w) = Some (log, k', c') →
  let gone fd := fd ∈ map r_sfd log in
  ∃ w', reap iterate w = Ret tt w' ∧ cok w' ∧ kern w' = k' ∧
    (∀ fd, zm (app w') !! fd = if decide (gone fd) then None else zm (app w) !! fd) ∧
    (∀ fd, rrm (app w') !! fd = if decide (gone fd) then None else rrm (app w) !! fd) ∧
    (∀ fd, wrm (app w') !! fd = if decide (gone fd) then None else wrm (app w) !! fd) ∧
    (∀ fd, call_backs (app w') !! fd = if decide (gone fd) then None else call_backs (app w) !! fd) ∧
    e_hosts (app w') = e_hosts (app w) ++ failed_hosts log ∧
    (∀ r, r ∈ log → settled (app w') (r_node r)) ∧
    ((∀ r fd ep, r ∈ log → r_result r = Some (fd, ep) → zm (app w) !! fd = None) →
     ∀ r, r ∈ log → conns (app w) !! r_sfd r = Some (r_node r)).
Proof.
  intros Hok Hit Hs gone. destruct (reap_sweeps iterate log k' c' w Hok Hs) as (l' & E & Hok').
  destruct (sweeps_swept _ _ _ _ _ _ Hs) as [H1 H2 H3 H4 H5 H6].
  eexists. split; [exact E|]. split_and!; cbn; try done.
  - intros fd. by rewrite lookup_foldl_delete, H4.
  - intros r Hr. apply H6. right. by apply list_elem_of_fmap_2.
  - intros Hnew. apply (sweeps_hosts _ _ _ _ _ _ Hs); [rewrite Hit; apply NoDup_fst_map_to_list|].
    intros r fd ep Hr Hres ([fd' t] & -> & Hin)%list_elem_of_fmap. cbn in Hres.
    rewrite Hit in Hin. apply elem_of_map_to_list in Hin. rewrite (Hnew r fd' ep Hr Hres) in Hin. done.
Qed.

(** Two hosts, whose connections 5 and 7 have failed. *)
Definition host_b : bytes := str "b:2".
Definition failing_client : client :=
  Client [host_a; host_b] {[host_a := MkHostStatus false (Some 5) (Some 6); host_b := MkHostStatus false (Some 7) (Some 8)]}
    {[5 := 5; 7 := 7]} {[5 := host_a; 7 := host_b]} ∅ ∅ ∅ ∅ [] [] [] [6; 8] ∅ 0.

Definition failing_world (fd : Z) : world sim client := World (set_next_fd fd sim_empty) no_locks failing_client.

Lemma failing_cok fd : cok (failing_world fd).
Proof.
  split; [done|]. split; cbn; try done.
  - intros b b' sfd sfd' p Ho. destruct b; discriminate Ho.
  - intros sfd node [[<- <-]|[_ [<- <-]%lookup_singleton_Some]]%lookup_insert_Some; (split; [|reflexivity]).
    + vm_compute. by eexists.
    + vm_compute. by eexists.
  - intros node st [[_ <-]|[_ [_ <-]%lookup_singleton_Some]]%lookup_insert_Some Hh; discriminate Hh.
Qed.

Definition by_number (m : gmap Z Z) : list (Z * Z) := map_to_list m.

Lemma client_reaps_witness :
  ∃ w', reap by_number (failing_world 9) = Ret tt w' ∧ zm (app w') !! 7 = None ∧
    settled (app w') host_a ∧ settled (app w') host_b.
Proof.
  set (log := [Reaped 7 host_b (Some (9, 10)); Reaped 5 host_a (Some (11, 12))]).
  destruct (sweeps (by_number (zm failing_client)) (set_next_fd 9 sim_empty) failing_client)
    as [[[log' k'] c']|] eqn:Eo; [|vm_compute in Eo; discriminate Eo].
  assert (log' = log) as ->.
  { pose proof (f_equal (option_map (λ o, o.1.1)) Eo) as E. vm_compute in E. injection E as <-. reflexivity. }
  destruct (client_reaps by_number log k' c' (failing_world 9)) as (w' & E & _ & _ & Hz & _ & _ & _ & _ & Hset & _).
  - apply failing_cok.
  - intros m. reflexivity.
  - exact Eo.
  - exists w'. split; [exact E|]. split; [exact (Hz 7)|]. split.
    + apply (Hset (Reaped 5 host_a (Some (11, 12)))). right. by left.
    + apply (Hset (Reaped 7 host_b (Some (9, 10)))). by left.
Defined.

(** C36.  A host that is forgotten.  A connection that fails is closed at once and again by
    the reaper, and in between its number is free.  When two connections have failed and
    the first to be reaped is connected again under the number of the second, the reaper
    takes the new connection for the second zombie: it closes the new connection and
    connects to the first host once more.  The second host is neither connected nor
    noted to be tried again. *)
Theorem client_reap_forgets {K : Type} `{SocketKernel K} iterate a ta na sta epa b tb nb stb epb' r k1 k2
    (w : world K client) :
  cok w → iterate (zm (app w)) = [(a, ta); (b, tb)] → a ≠ b → na ≠ nb →
  60000 < wrap 64 (now_ms (kern w) - ta) → 60000 < wrap 64 (now_ms k1 - tb) →
  conns (app w) !! a = Some na → h_status (app w) !! na = Some sta → hs_ep_sfd sta = Some epa →
  conns (app w) !! b = Some nb → h_status (app w) !! nb = Some stb → is_healthy stb = false →
  dial na (sys_close epa (sys_close a (sys_gettimeofday (kern w)).2)) = Ret (Some (b, epb')) k1 →
  dial na (sys_close epb' (sys_close b (sys_gettimeofday k1).2)) = Ret r k2 →
  ∃ w', reap iterate w = Ret tt w' ∧ cok w' ∧ kern w' = k2 ∧
    h_status (app w') !! nb = Some stb ∧
    (∀ fd, conns (app w') !! fd = Some nb → fd ≠ a ∧ fd ≠ b ∧ conns (app w) !! fd = Some nb) ∧
    (nb ∈ e_hosts (app w') → nb ∈ e_hosts (app w)).
Proof.
  intros Hok Hit Hab Hn Hta Htb Hca Hsa Hea Hcb Hsb Hb Hd1 Hd2.
  set (c1 := attempted (cleaned a (app w)) (na, Some (b, epb'))).
  assert (sweeps [(a, ta); (b, tb)] (kern w) (app w) =
    Some ([Reaped a na (Some (b, epb')); Reaped b na r], k2, attempted (cleaned b c1) (na, r))) as Hs.
  { cbn [sweeps]. rewrite (proj2 (Z.ltb_lt _ _) Hta), Hca. cbn. rewrite Hsa. cbn. rewrite Hea. cbn. rewrite Hd1.
    fold c1. assert (conns c1 !! b = Some na) as -> by apply lookup_insert_eq.
    assert (h_status c1 !! na = Some (MkHostStatus true (Some b) (Some epb'))) as Hst by apply lookup_insert_eq.
    rewrite (proj2 (Z.ltb_lt _ _) Htb). cbn [mbind option_bind]. rewrite Hst. cbn [mbind option_bind hs_ep_sfd].
    by rewrite Hd2. }
  rewrite <-Hit in Hs. destruct (reap_sweeps iterate _ _ _ w Hok Hs) as (l' & E & Hok').
  eexists. split; [exact E|]. split_and!; [done|done|..]; cbn; destruct r as [[fd' ep']|]; cbn.
  - by rewrite !lookup_insert_ne.
  - by rewrite !lookup_insert_ne.
  - intros fd [[_ ?]|[_ [H1 [[? _]|[_ [H2 H3]%lookup_delete_Some]]%lookup_insert_Some]%lookup_delete_Some]]%lookup_insert_Some;
      [congruence|congruence|]. by split_and!; [congruence|congruence|].
  - intros fd [H1 [[? _]|[_ [H2 H3]%lookup_delete_Some]]%lookup_insert_Some]%lookup_delete_Some; [congruence|].
    by split_and!; [congruence|congruence|].
  - done.
  - rewrite elem_of_app, list_elem_of_singleton. by intros [?|?].
Qed.

Lemma client_reap_forgets_witness :
  ∃ w', reap by_number (failing_world 5) = Ret tt w' ∧
    h_status (app w') !! host_a = Some (MkHostStatus false (Some 5) (Some 6)) ∧ (host_a ∈ e_hosts (app w') → False).
Proof.
  assert (map_to_list (zm failing_client) = [(7, 7); (5, 5)]) as Hz by (vm_compute; reflexivity).
  set (k1 := set_watched {[5 := 1]} (set_next_fd 7 (set_closed [7; 8] sim_empty))).
  set (k2 := set_watched {[7 := 1; 5 := 1]} (set_next_fd 9 (set_closed [7; 8; 5; 6] sim_empty))).
  destruct (client_reap_forgets by_number 7 7 host_b (MkHostStatus false (Some 7) (Some 8)) 8 5 5 host_a
    (MkHostStatus false (Some 5) (Some 6)) 6 (Some (7, 8)) k1 k2 (failing_world 5)) as (w' & E & _ & _ & Hs & _ & He).
  - apply failing_cok.
  - exact Hz.
  - discriminate.
  - discriminate.
  - vm_compute. reflexivity.
  - vm_compute. reflexivity.
  - reflexivity.
  - reflexivity.
  - reflexivity.
  - reflexivity.
  - reflexivity.
  - reflexivity.
  - vm_compute. reflexivity.
  - vm_compute. reflexivity.
  - exists w'. split; [exact E|]. split; [exact Hs|]. intros Hin. specialize (He Hin). by apply elem_of_nil in He.
Defined.
