(* ===== verification/ClientCalls.v ===== *)
(** * Blocking calls among the client's threads

    Any number of blocking [send_msg] calls, each in a thread of its own, next to the
    threads of the client.  A call reads its connection's descriptor, sends its message
    with a call back that captures its local variables, waits, and takes the call back
    away again before it returns.  This file shows that no response ever touches the
    variables of a call that has returned, and that what a call returns is the response
    to its own message - as long as its connection is not replaced between the two
    first of these steps. *)

From S2P Require Import Prelude Utils BufferedReader BufferedWriter Kernel Simulation SocketUtils.
From S2P Require Import SocketClient ClientProofs ClientTheorems ClientInvariant.

(** ** The parts of a call *)

(** What a call knows: the descriptor that it has read, its identifier, its variables, and
    the contents of the vector it was given. *)
Record pcall := PCall { p_sfd : Z; p_uuid : bytes; p_frame : nat; p_given : bytes }.

#[export] Instance pcall_eq_dec : EqDecision pcall.
Proof. solve_decision. Defined.

Section parts.
Context {K : Type} `{SocketKernel K}.
Context (uuid_generate : M (world K client) bytes) (uuid_unparse_lower : bytes → bytes).
Implicit Types (w : world K client).

Definition call_prepare (ni : Z) (result : bytes) : M (world K client) pcall :=
  hosts ← get desired_hosts;
  node ← index hosts ni;
  st ← status_of node;
  sfd ← assume (hs_sfd st);
  f ← get next_frame;
  put (λ c, upd_frames (insert f (Frame false result false)) (upd_next_frame Datatypes.S c));;
  uuid_str ← build_uuid_str uuid_generate uuid_unparse_lower;
  mret (PCall sfd uuid_str f result).

Definition call_send (data : bytes) (size ni : Z) (p : pcall) : M (world K client) bool :=
  success ← send_msg data size ni (Some (BlockCb (p_frame p))) (p_uuid p);
  m ← get frames;
  fr ← assume (m !! p_frame p);
  put (upd_frames (insert (p_frame p) (Frame success (f_result fr) (f_ss fr))));;
  mret success.

Definition call_end (p : pcall) : M (world K client) (bool * bytes) :=
  lock Cb_mutex;;
  cbs ← call_backs_of (p_sfd p);
  put (upd_call_backs (insert (p_sfd p) (delete (p_uuid p) cbs)));;
  unlock Cb_mutex;;
  m ← get frames;
  fr ← assume (m !! p_frame p);
  put (upd_frames (delete (p_frame p)));;
  mret (f_success fr, f_result fr).

(** Two programs with the same first statement. *)
Ltac same_step := rewrite ?bind_assoc; apply bind_ext; [done|]; cbn beta.

(** The parts make up the call: between them it waits. *)
Lemma send_msg_wait_split waits data size ni result w :
  send_msg_wait uuid_generate uuid_unparse_lower waits data size ni result w =
  (p ← call_prepare ni result;
   success ← call_send data size ni p;
   (if success : bool then wait_loop (p_frame p) false waits else mret tt);;
   call_end p) w.
Proof.
  unfold send_msg_wait, call_prepare, call_send, call_end.
  do 6 (same_step; intros). same_step. intros uuid_str w1. rewrite !bind_ret_l. cbn [p_frame p_sfd p_uuid].
  do 4 (same_step; intros). rewrite !bind_ret_l. done.
Qed.
End parts.

(** ** The invariant

    [heard] is all the responses that were taken from each connection.  The variables of
    a call are as it made them, or hold a response to it that was heard; and a call back
    that is registered belongs to a call that has not returned, under the descriptor and
    the identifier that the call will remove. *)
Record calls_inv (c : client) (calls : list pcall) (heard : list (Z * (bytes * bytes))) : Prop := {
  ci_frames f : is_Some (frames c !! f) → (f < next_frame c)%nat;
  ci_distinct : NoDup (map p_frame calls);
  ci_pending p : p ∈ calls → ∃ fr, frames c !! p_frame p = Some fr ∧
    if f_ss fr then f_success fr = true ∧ (p_sfd p, (p_uuid p, f_result fr)) ∈ heard
    else f_result fr = p_given p;
  ci_registered sfd u f : registered sfd c !! u = Some (BlockCb f) →
    ∃ given, PCall sfd u f given ∈ calls
}.

Lemma calls_same_frame calls p q :
  NoDup (map p_frame calls) → p ∈ calls → q ∈ calls → p_frame p = p_frame q → p = q.
Proof.
  intros Hnd Hp Hq E. apply list_elem_of_lookup in Hp as [i Hi]. apply list_elem_of_lookup in Hq as [j Hj].
  assert (i = j) as ->; [|congruence].
  apply (NoDup_lookup (map p_frame calls) i j (p_frame p)); [done|..].
  - by rewrite list_lookup_fmap, Hi.
  - by rewrite list_lookup_fmap, Hj, E.
Qed.

(** A pending call has its variables. *)
Lemma calls_waiting c calls heard sfd : calls_inv c calls heard → waiting sfd c.
Proof.
  intros [_ _ Hp Hr] u f Hu. destruct (Hr sfd u f Hu) as [given Hin].
  destruct (Hp _ Hin) as (fr & Hf & _). by exists fr.
Qed.

Lemma calls_kept c c' calls heard : kept c c' → calls_inv c calls heard → calls_inv c' calls heard.
Proof.
  intros [E1 E2 E3] [H1 H2 H3 H4]. split; rewrite ?E1, ?E2; try done. intros sfd u f Hu. by apply H4, E3.
Qed.

(** A response that is heard on a connection. *)
Lemma calls_dispatch c calls heard sfd r :
  calls_inv c calls heard → calls_inv (dispatch sfd c r) calls (heard ++ [(sfd, r)]).
Proof.
  intros [H1 H2 H3 H4]. set (heard' := heard ++ [(sfd, r)]).
  assert (∀ f p, registered sfd c !! r.1 = Some (BlockCb f) → p ∈ calls → p_frame p = f →
    p_sfd p = sfd ∧ p_uuid p = r.1) as Hcall.
  { intros f p Hr Hp Hf. destruct (H4 sfd r.1 f Hr) as [given Hq].
    by rewrite (calls_same_frame calls p (PCall sfd r.1 f given)). }
  assert (frames (dispatch sfd c r) =
    match registered sfd c !! r.1 with Some (BlockCb f) => <[f := Frame true r.2 true]> (frames c) | _ => frames c end)
    as Hf by (unfold dispatch; by destruct (registered sfd c !! r.1) as [[]|]).
  assert (next_frame (dispatch sfd c r) = next_frame c) as Hn
    by (unfold dispatch; by destruct (registered sfd c !! r.1) as [[]|]).
  split; rewrite ?Hn; [|done|..].
  - intros f. rewrite Hf. destruct (registered sfd c !! r.1) as [[|g]|] eqn:Hr; [apply H1| |apply H1].
    intros Hs. destruct (decide (f = g)) as [->|Hne]; [|apply H1; by rewrite lookup_insert_ne in Hs].
    destruct (H4 sfd r.1 g Hr) as [given Hq]. destruct (H3 _ Hq) as (fr & Hfr & _). apply H1. by exists fr.
  - intros p Hp. destruct (H3 p Hp) as (fr & Hfr & Hv).
    assert (if f_ss fr then f_success fr = true ∧ (p_sfd p, (p_uuid p, f_result fr)) ∈ heard'
            else f_result fr = p_given p) as Hv'.
    { destruct (f_ss fr); [|done]. split; [by apply Hv|]. apply elem_of_app. left. by apply Hv. }
    rewrite Hf. destruct (registered sfd c !! r.1) as [[|g]|] eqn:Hr; [by exists fr| |by exists fr].
    destruct (decide (p_frame p = g)) as [Eg|Hne]; [|exists fr; by rewrite lookup_insert_ne].
    exists (Frame true r.2 true). rewrite Eg, lookup_insert_eq. split; [done|]. cbn. split; [done|].
    destruct (Hcall g p eq_refl Hp Eg) as [-> ->]. apply elem_of_app. right. destruct r. by left.
  - intros sfd' u f. destruct (decide (sfd' = sfd)) as [->|Hne].
    + rewrite registered_dispatch. intros [_ Hu]%lookup_delete_Some. by apply H4.
    + assert (registered sfd' (dispatch sfd c r) = registered sfd' c) as ->; [|apply H4].
      unfold dispatch, registered. cbn. rewrite lookup_insert_ne by done.
      by destruct (default ∅ (call_backs c !! sfd) !! r.1) as [[]|].
Qed.

Lemma calls_dispatch_all c calls heard sfd rs :
  calls_inv c calls heard →
  calls_inv (foldl (dispatch sfd) c rs) calls (heard ++ map (λ r, (sfd, r)) rs).
Proof.
  revert c heard. induction rs as [|r rs IH]; intros c heard Hi; cbn; [by rewrite app_nil_r|].
  rewrite cons_middle, app_assoc. by apply IH, calls_dispatch.
Qed.

(** The calls that have read their descriptor and not sent yet, each with the index of its
    host: their variables are as they made them. *)
Record ready_inv (c : client) (ready : list (pcall * Z)) (calls : list pcall) : Prop := {
  ri_distinct : NoDup (map p_frame (map fst ready ++ calls));
  ri_fresh q : q ∈ map fst ready → frames c !! p_frame q = Some (Frame false (p_given q) false)
}.

Lemma ready_apart c ready calls q p :
  ready_inv c ready calls → q ∈ map fst ready → p ∈ calls → p_frame p ≠ p_frame q.
Proof.
  intros [Hd _] Hq Hp E. rewrite map_app in Hd. apply NoDup_app in Hd as (_ & Hd & _).
  apply (Hd (p_frame q)); [by apply list_elem_of_fmap_2|]. rewrite <-E. by apply list_elem_of_fmap_2.
Qed.

(** Changes of other variables. *)
Lemma ready_mono c c' ready calls :
  (∀ q, q ∈ map fst ready → frames c' !! p_frame q = frames c !! p_frame q) →
  ready_inv c ready calls → ready_inv c' ready calls.
Proof. intros Hq [Hd Hf]. split; [done|]. intros q Hin. rewrite Hq by done. by apply Hf. Qed.

Lemma ready_dispatch_all c ready calls heard sfd rs :
  calls_inv c calls heard → ready_inv c ready calls → ready_inv (foldl (dispatch sfd) c rs) ready calls.
Proof.
  revert c heard. induction rs as [|r rs IH]; intros c heard Hi Hr; [done|]. cbn.
  apply (IH _ (heard ++ [(sfd, r)])); [by apply calls_dispatch|]. apply (ready_mono c); [|done]. intros q Hq.
  unfold dispatch. destruct (registered sfd c !! r.1) as [[|f]|] eqn:Hu; try done. cbn.
  destruct (ci_registered _ _ _ Hi sfd r.1 f Hu) as [given Hp].
  rewrite lookup_insert_ne; [done|]. exact (ready_apart c ready calls q _ Hr Hq Hp).
Qed.

(** ** Beginning and ending a call *)
Lemma cwf_frames l c g :
  (∀ f, is_Some (frames c !! f) → is_Some (g (frames c) !! f)) → cwf l c → cwf l (upd_frames g c).
Proof. intros Hg [H1 H2 H3 H4 H5 H6 H7]. split; try done. intros sfd u f Hu. by apply Hg, (H7 sfd u). Qed.

Lemma cwf_calling l c result : cwf l c → cwf l (calling result c).
Proof.
  intros Hc. apply cwf_frames.
  - intros f Hf. cbn in *. destruct (decide (next_frame c = f)) as [->|Hne];
      [rewrite lookup_insert_eq; by eexists|by rewrite lookup_insert_ne].
  - by apply (cwf_same l c).
Qed.

Lemma calls_calling c calls heard result : calls_inv c calls heard → calls_inv (calling result c) calls heard.
Proof.
  intros [H1 H2 H3 H4]. split; [|done| |done]; cbn.
  - intros f Hf. destruct (decide (f = next_frame c)) as [->|Hn]; [lia|].
    rewrite lookup_insert_ne in Hf by done. specialize (H1 f Hf). lia.
  - intros q Hq. destruct (H3 q Hq) as (fr & Hfr & Hv). exists fr. rewrite lookup_insert_ne; [done|].
    intros E. specialize (H1 (p_frame q) (ex_intro _ fr Hfr)). lia.
Qed.

(** A prepared call is one of the calls that wait. *)
Lemma calls_enter c calls heard p :
  frames c !! p_frame p = Some (Frame false (p_given p) false) → p_frame p ∉ map p_frame calls →
  calls_inv c calls heard → calls_inv c (p :: calls) heard.
Proof.
  intros Hf Hp [H1 H2 H3 H4]. split; [done|by apply NoDup_cons| |].
  - intros q [->|Hq]%elem_of_cons; [by eexists|by apply H3].
  - intros sfd u f Hu. destruct (H4 sfd u f Hu) as [given Hin]. exists given. by right.
Qed.

(** The call back of a call is registered under its descriptor and identifier. *)
Lemma calls_register c calls heard p :
  p ∈ calls → calls_inv c calls heard →
  calls_inv (register (p_sfd p) (p_uuid p) (Some (BlockCb (p_frame p))) c) calls heard.
Proof.
  intros Hp [H1 H2 H3 H4]. split; try done. intros sfd u f. unfold registered. cbn.
  destruct (decide (sfd = p_sfd p)) as [->|Hne]; [|rewrite lookup_insert_ne by done; apply H4].
  rewrite lookup_insert_eq. cbn. intros [[<- [= <-]]|[_ Hu]]%lookup_insert_Some; [|by apply H4].
  exists (p_given p). by destruct p.
Qed.

(** The call's variables after sending. *)
Lemma calls_sent c calls heard p b :
  p ∈ calls → frames c !! p_frame p = Some (Frame false (p_given p) false) → calls_inv c calls heard →
  calls_inv (call_waits b (p_frame p) (p_given p) c) calls heard.
Proof.
  intros Hp Hf [H1 H2 H3 H4]. split; try done; cbn.
  - intros f Hs. apply H1. destruct (decide (f = p_frame p)) as [->|Hne]; [by eexists|].
    by rewrite lookup_insert_ne in Hs.
  - intros q Hq. destruct (decide (p_frame q = p_frame p)) as [E|Hne].
    + rewrite (calls_same_frame calls q p) by done. rewrite lookup_insert_eq. by eexists.
    + rewrite lookup_insert_ne by done. by apply H3.
Qed.

(** The call returns: its call back and its variables are gone. *)
Lemma calls_end c calls1 p calls2 heard :
  calls_inv c (calls1 ++ p :: calls2) heard →
  calls_inv (call_ends (p_sfd p) (p_uuid p) (p_frame p) c) (calls1 ++ calls2) heard.
Proof.
  intros [H1 H2 H3 H4].
  rewrite map_app in H2. cbn in H2. apply NoDup_app in H2 as (N1 & N2 & [N3 N4]%NoDup_cons).
  assert (∀ q, q ∈ calls1 ++ calls2 → p_frame q ≠ p_frame p) as Hne.
  { intros q [Hq|Hq]%elem_of_app E; [apply (N2 (p_frame q)); [by apply list_elem_of_fmap_2|rewrite E; by left]|].
    apply N3. rewrite <-E. by apply list_elem_of_fmap_2. }
  split; cbn.
  - intros f Hs. apply H1. destruct Hs as [fr [_ Hs]%lookup_delete_Some]. by exists fr.
  - rewrite map_app. apply NoDup_app. split_and!; [done| |done]. intros f Hf1 Hf2. apply (N2 f Hf1). by right.
  - intros q Hq. rewrite lookup_delete_ne by (apply not_eq_sym, (Hne q Hq)). apply H3. set_solver.
  - intros sfd u f Hu. assert (registered sfd c !! u = Some (BlockCb f) ∧ (sfd = p_sfd p → u ≠ p_uuid p)) as [Hu' Hn].
    { revert Hu. unfold call_ends. unfold registered at 1. cbn.
      destruct (decide (sfd = p_sfd p)) as [->|Hn]; [|by rewrite lookup_insert_ne].
      rewrite lookup_insert_eq. cbn. intros [Hn ?]%lookup_delete_Some. split; [done|congruence]. }
    destruct (H4 sfd u f Hu') as [given Hin]. exists given.
    assert (PCall sfd u f given ≠ p) as Hp by (intros <-; by destruct Hn).
    apply elem_of_app in Hin as [?|[?|?]%elem_of_cons]; [apply elem_of_app; by left|done|apply elem_of_app; by right].
Qed.

Section calls.
Context {K : Type} `{SocketKernel K}.
Implicit Types (l : lockstate) (c : client) (k : K) (w : world K client).

(** A host of the list, whose descriptor has a value if anything is known of it: an
    attempt that has failed leaves none (see [client_connects]). *)
Definition callable (ni : Z) (c : client) : Prop :=
  0 ≤ ni < len (desired_hosts c) ∧
  ∀ node st, desired_hosts c !! Z.to_nat ni = Some node → h_status c !! node = Some st → is_Some (hs_sfd st).

Lemma build_uuid_given u w : len u = 37 → build_uuid_str (mret []) (λ _, u) w = Ret u w.
Proof. intros Hu. unfold build_uuid_str. rewrite bind_ret_l. cbn zeta. by rewrite Hu. Qed.

Lemma call_prepare_run u ni result node sfd k l c :
  len u = 37 → 0 ≤ ni → desired_hosts c !! Z.to_nat ni = Some node →
  hs_sfd (default no_status (h_status c !! node)) = Some sfd →
  call_prepare (mret []) (λ _, u) ni result (World k l c) =
  Ret (PCall sfd u (next_frame c) result) (World k l (calling result (known node c))).
Proof.
  intros Hu Hni Hnode Hsfd. unfold call_prepare. rewrite c_bind_get.
  run_with (index_lt (desired_hosts c) ni node (World k l c) Hni Hnode).
  run_with (status_of_run node k l c). rewrite Hsfd. cbn [assume]. rewrite bind_ret_l, c_bind_get, c_bind_put.
  unfold set_app. cbn [kern locks app].
  assert (next_frame (known node c) = next_frame c) as En by apply kept_known. rewrite En.
  set (c1 := upd_frames _ _). run_with (build_uuid_given u (World k l c1) Hu).
  unfold c1, calling. by rewrite En.
Qed.

Lemma known_hosts node c : desired_hosts (known node c) = desired_hosts c.
Proof. unfold known. by destruct (h_status c !! node). Qed.

(** A call reads its descriptor, and makes its variables. *)
Lemma call_prepare_ok ni result u ready calls heard w :
  cok w → calls_inv (app w) calls heard → ready_inv (app w) ready calls → len u = 37 → callable ni (app w) →
  ∃ p w', call_prepare (mret []) (λ _, u) ni result w = Ret p w' ∧ cok w' ∧ p_uuid p = u ∧ p_given p = result ∧
    calls_inv (app w') calls heard ∧ ready_inv (app w') ((p, ni) :: ready) calls.
Proof.
  destruct w as [k l c]. intros [Hl Hwf] Hi Hr Hu [Hni Hst]. cbn in Hl, Hwf, Hi, Hr, Hni, Hst.
  destruct (lookup_lt_is_Some_2 (desired_hosts c) (Z.to_nat ni)) as [node Hnode]; [lia|].
  assert (∃ sfd, hs_sfd (default no_status (h_status c !! node)) = Some sfd) as [sfd Hsfd].
  { destruct (h_status c !! node) as [st|] eqn:E; [|by eexists]. exact (Hst node st Hnode E). }
  assert (∀ q, is_Some (frames c !! p_frame q) → p_frame q ≠ next_frame c) as Hnew.
  { intros q Hq E. pose proof (ci_frames _ _ _ Hi _ Hq). lia. }
  destruct (kept_known c node) as [E1 E2 E3]. eexists _, _.
  split; [exact (call_prepare_run u ni result node sfd k l c Hu (proj1 Hni) Hnode Hsfd)|]. split; [split; [done|]; by apply cwf_calling, cwf_known|].
  do 2 (split; [done|]). split.
  - apply calls_calling. by apply (calls_kept c).
  - destruct Hr as [Hd Hf]. split; cbn.
    + apply NoDup_cons. split; [|done]. intros (q & E & Hq)%list_elem_of_fmap. apply (Hnew q); [|done].
      apply elem_of_app in Hq as [Hq|Hq]; [rewrite (Hf q Hq); by eexists|].
      destruct (ci_pending _ _ _ Hi q Hq) as (fr & Hfr & _). by exists fr.
    + intros q [->|Hq]%elem_of_cons; [cbn; by rewrite E2, lookup_insert_eq|].
      rewrite E1, E2, lookup_insert_ne; [by apply Hf|]. apply not_eq_sym, Hnew. rewrite (Hf q Hq). by eexists.
Qed.

(** The host's connection, if it has one that works, is still the one that was read. *)
Definition not_replaced (p : pcall) (ni : Z) (c : client) : Prop :=
  0 ≤ ni < len (desired_hosts c) ∧
  ∀ node sfd ep, desired_hosts c !! Z.to_nat ni = Some node →
    h_status c !! node = Some (MkHostStatus true (Some sfd) (Some ep)) → sfd = p_sfd p.

(** A call sends. *)
Lemma call_send_ok data size ni p ready1 ready2 calls heard w :
  cok w → calls_inv (app w) calls heard → ready_inv (app w) (ready1 ++ (p, ni) :: ready2) calls →
  len (p_uuid p) = 37 → 0 ≤ size ≤ len data → 38 + size < 2 ^ 32 → not_replaced p ni (app w) →
  ∃ b w', call_send data size ni p w = Ret b w' ∧ cok w' ∧
    calls_inv (app w') (p :: calls) heard ∧ ready_inv (app w') (ready1 ++ ready2) (p :: calls).
Proof.
  intros Hok Hi [Hd Hf] Hu Hsz H32 [Hni Hsame].
  assert (frames (app w) !! p_frame p = Some (Frame false (p_given p) false)) as Hp.
  { apply Hf. rewrite map_app. set_solver. }
  assert (NoDup (map p_frame (map fst (ready1 ++ ready2) ++ p :: calls))) as Hd'.
  { eapply NoDup_Permutation_proper; [|exact Hd]. rewrite !map_app, <-!app_assoc. symmetry. apply Permutation_app_head, Permutation_middle. }
  assert (calls_inv (app w) (p :: calls) heard) as Hi1.
  { apply calls_enter; [done| |done]. rewrite map_app in Hd'. apply NoDup_app in Hd' as (_ & _ & Hc). cbn in Hc. by apply NoDup_cons in Hc as [Hc _]. }
  destruct (send_cok data size ni (Some (BlockCb (p_frame p))) (p_uuid p) w) as (b & w2 & E2 & Hok2 & Heff); [done|lia|done..| |].
  { intros f [= <-]. by eexists. }
  assert (frames (app w2) = frames (app w) ∧ calls_inv (app w2) (p :: calls) heard) as [Hf2 Hi2].
  { destruct Heff as [[_ Hk]|(node & sfd & ep & Hn & Hs & Hk)]; [split; [apply Hk|by apply (calls_kept (app w))]|].
    rewrite (Hsame node sfd ep Hn Hs) in Hk. split; [by rewrite (kept_frames _ _ Hk)|].
    eapply calls_kept; [exact Hk|]. apply (calls_register (app w) (p :: calls) heard p); [by left|done]. }
  exists b, (set_app (call_waits b (p_frame p) (p_given p) (app w2)) w2). split_and!; [|split| |].
  - unfold call_send. run_with E2. rewrite c_bind_get, Hf2, Hp. cbn [assume]. by rewrite bind_ret_l, c_bind_put.
  - apply Hok2.
  - apply cwf_frames; [|apply Hok2]. intros f Hs. destruct (decide (p_frame p = f)) as [->|Hne];
      [rewrite lookup_insert_eq; by eexists|by rewrite lookup_insert_ne].
  - apply (calls_sent _ _ _ p); [by left|by rewrite Hf2|done].
  - apply (ready_mono (app w)); [|split; [done|]]; intros q Hq.
    + cbn. rewrite lookup_insert_ne, Hf2; [done|].
      apply (ready_apart (app w) (ready1 ++ ready2) (p :: calls)); [|done|by left]. split; [done|].
      intros q' Hq'. apply Hf. rewrite map_app in *. set_solver.
    + apply Hf. rewrite map_app in *. set_solver.
Qed.

Lemma call_end_run p fr k l c :
  held l = [] → frames c !! p_frame p = Some fr →
  call_end p (World k l c) =
  Ret (f_success fr, f_result fr)
    (World k (traced Cb_mutex l) (call_ends (p_sfd p) (p_uuid p) (p_frame p) c)).
Proof.
  intros Hl Hfr. assert (∀ m, m ∉ held l) as Hh by (intros m; rewrite Hl; apply not_elem_of_nil).
  unfold call_end. crun. run_with (call_backs_of_run (p_sfd p) k (acquire Cb_mutex l) c). crun.
  cbn. rewrite Hfr. cbn [assume]. crun. unfold mret, M_ret. do 2 f_equal.
  unfold call_ends, upd_frames, upd_call_backs. cbn. by rewrite insert_insert_eq.
Qed.

(** A call ends, at any time: it returns what its variables hold. *)
Lemma call_end_ok calls1 p calls2 heard w :
  cok w → calls_inv (app w) (calls1 ++ p :: calls2) heard →
  ∃ fr w', frames (app w) !! p_frame p = Some fr ∧
    call_end p w = Ret (f_success fr, f_result fr) w' ∧ cok w' ∧ calls_inv (app w') (calls1 ++ calls2) heard ∧
    frames (app w') = delete (p_frame p) (frames (app w)).
Proof.
  destruct w as [k l c]. intros [Hl Hwf] Hi. cbn in Hl, Hwf, Hi.
  destruct (ci_pending _ _ _ Hi p) as (fr & Hfr & _); [set_solver|].
  pose proof (calls_end c calls1 p calls2 heard Hi) as Hi'.
  exists fr. exists (World k (traced Cb_mutex l) (call_ends (p_sfd p) (p_uuid p) (p_frame p) c)).
  split; [done|]. split; [by apply call_end_run|]. split; [split; [done|]|by split].
  destruct (cwf_grown l (traced Cb_mutex l) c (conj (λ _ H, H) (λ H, H)) Hwf) as [H1' H2 H3 H4 H5 H6 _].
  split; try done. intros sfd. by apply (calls_waiting _ (calls1 ++ calls2) heard).
Qed.
End calls.

(** ** Calls and threads together *)
Section system.
Context {K : Type} `{SocketKernel K} (run_cb : nat → bytes → M (world K client) unit).
Context (iterate : gmap Z Z → list (Z * Z)).

(** A client; the calls that have read their descriptor and not sent yet, with the index of
    their host; those that have sent and not returned; and the responses that were taken. *)
Record csys := CSys {
  cs_world : world K client;
  cs_ready : list (pcall * Z);
  cs_calls : list pcall;
  cs_heard : list (Z * (bytes * bytes))
}.

Definition hears (a : client_action) (w : world K client) : list (Z * (bytes * bytes)) :=
  match a with CRead _ sfd => map (λ r, (sfd, r)) (heard sfd w) | _ => [] end.

(** The threads act as in ClientInvariant, with call backs of the user's only; a call
    reads its descriptor, with an identifier that libuuid gives; later it sends, if its
    connection has not been replaced by another in between (else see [client_call_race]);
    then it may end at any time, since it may run out of its time; and the kernel
    changes. *)
Inductive csys_step : csys → csys → Prop :=
  | csys_thread a w w' ready calls h :
      by_user a → client_allowed iterate a w → client_perform run_cb iterate a w = Ret tt w' →
      csys_step (CSys w ready calls h) (CSys w' ready calls (h ++ hears a w))
  | csys_prepare ni result u p w w' ready calls h :
      len u = 37 → callable ni (app w) → call_prepare (mret []) (λ _, u) ni result w = Ret p w' →
      csys_step (CSys w ready calls h) (CSys w' ((p, ni) :: ready) calls h)
  | csys_send data size ni p ready1 ready2 b w w' calls h :
      0 ≤ size ≤ len data → 38 + size < 2 ^ 32 → not_replaced p ni (app w) →
      call_send data size ni p w = Ret b w' →
      csys_step (CSys w (ready1 ++ (p, ni) :: ready2) calls h) (CSys w' (ready1 ++ ready2) (p :: calls) h)
  | csys_end ready calls1 p calls2 r w w' h :
      call_end p w = Ret r w' →
      csys_step (CSys w ready (calls1 ++ p :: calls2) h) (CSys w' ready (calls1 ++ calls2) h)
  | csys_network k w ready calls h :
      csys_step (CSys w ready calls h) (CSys (World k (locks w) (app w)) ready calls h).

Record csys_ok (s : csys) : Prop := {
  csys_cok : cok (cs_world s);
  csys_calls : calls_inv (app (cs_world s)) (cs_calls s) (cs_heard s);
  csys_ready : ready_inv (app (cs_world s)) (cs_ready s) (cs_calls s);
  csys_uuids p ni : (p, ni) ∈ cs_ready s → len (p_uuid p) = 37
}.

Hypothesis run_cb_returns : returns (λ _ _, True) run_cb.

Lemma csys_thread_ok a w w' ready calls h :
  csys_ok (CSys w ready calls h) → by_user a → client_allowed iterate a w →
  client_perform run_cb iterate a w = Ret tt w' → csys_ok (CSys w' ready calls (h ++ hears a w)).
Proof.
  intros [Hok Hi Hr Hu] Hb Ha E. cbn in *.
  destruct (client_allowed_ok run_cb iterate a w run_cb_returns Hok Ha) as (w2 & E2 & Hok2 & Hk).
  rewrite E in E2. injection E2 as <-. specialize (Hk Hb). split; [done| | |done]; cbn.
  - apply (calls_kept _ _ _ _ Hk). destruct a; cbn; rewrite ?app_nil_r; try done. by apply calls_dispatch_all.
  - pose proof (kept_frames _ _ Hk) as Hf. eapply ready_mono; [intros q _; by rewrite Hf|].
    destruct a; cbn; try done. by apply (ready_dispatch_all _ _ _ h).
Qed.

Lemma csys_end_ok ready calls1 p calls2 r w w' h :
  csys_ok (CSys w ready (calls1 ++ p :: calls2) h) → call_end p w = Ret r w' →
  csys_ok (CSys w' ready (calls1 ++ calls2) h).
Proof.
  intros [Hok Hi Hr Hu] E. cbn in *.
  destruct (call_end_ok calls1 p calls2 h w Hok Hi) as (fr & w2 & _ & E2 & Hok2 & Hi2 & Hf2).
  rewrite E in E2. injection E2 as _ <-. split; [done|done| |done]. cbn. destruct Hr as [Hd Hf].
  assert ((p_frame p ∉ map p_frame (map fst ready ++ calls1 ++ calls2)) ∧
          NoDup (map p_frame (map fst ready ++ calls1 ++ calls2))) as [Hp Hd'].
  { rewrite app_assoc. apply NoDup_cons. eapply NoDup_Permutation_proper; [|exact Hd].
    rewrite app_assoc, !(map_app p_frame). cbn. apply Permutation_middle. }
  split; [done|]. intros q Hq. rewrite Hf2, lookup_delete_ne; [by apply Hf|]. intros E3. apply Hp. rewrite E3.
  apply list_elem_of_fmap_2, elem_of_app. by left.
Qed.

Lemma csys_step_ok s s' : csys_ok s → csys_step s s' → csys_ok s'.
Proof.
  intros Hs Hstep. destruct Hstep as [a w w' ready calls h Hb Ha E|ni result u p w w' ready calls h Hl Hc E|
    data size ni p ready1 ready2 b w w' calls h Hsz H32 Hn E|ready calls1 p calls2 r w w' h E|k w ready calls h].
  - by apply csys_thread_ok.
  - destruct Hs as [Hok Hi Hr Hu]. cbn in *.
    destruct (call_prepare_ok ni result u ready calls h w Hok Hi Hr Hl Hc) as (p2 & w2 & E2 & Hok2 & Hp & _ & Hi2 & Hr2).
    rewrite E in E2. injection E2 as <- <-. split; [done..|]. intros q ni' [[= -> ->]|Hq]%elem_of_cons; [by rewrite Hp|].
    by apply (Hu q ni').
  - destruct Hs as [Hok Hi Hr Hu]. cbn in *.
    destruct (call_send_ok data size ni p ready1 ready2 calls h w Hok Hi Hr) as (b2 & w2 & E2 & Hok2 & Hi2 & Hr2);
      [apply (Hu p ni); set_solver|done..|].
    rewrite E in E2. injection E2 as <- <-. split; [done..|]. intros q ni' Hq. apply (Hu q ni'). set_solver.
  - by eapply csys_end_ok.
  - destruct Hs as [[Hl Hwf] Hi Hr Hu]. split; [by split|done..].
Qed.

Lemma csys_reachable s s' : csys_ok s → rtc csys_step s s' → csys_ok s'.
Proof. intros Hok Hr. induction Hr as [|s s1 s2 Hs _ IH]; [done|]. apply IH. by eapply csys_step_ok. Qed.
End system.
Arguments CSys {K} _ _ _ _.
Arguments cs_world {K} _.
Arguments cs_ready {K} _.
Arguments cs_calls {K} _.
Arguments cs_heard {K} _.

(** ** Properties *)

(** C21.  Blocking calls next to everything else, if no connection is replaced under a call:
    between a call's reading of its descriptor and its sending, which are two steps, its
    host gets no other connection (what happens if it does is [client_call_race]).  However
    the allowed actions of the client's threads and the steps of any number of blocking
    calls are interleaved, each a whole operation, a call ending whenever it does: a call
    back of a blocking call that is registered belongs to a call that has not returned, so
    no response writes to variables that are gone; every further allowed action of a thread
    returns, and so do the steps of a call; and a call that ends returns [true] with the
    message of a response that was heard on its connection under its identifier, or else
    leaves the vector as it was given. *)
Theorem client_calls_safe {K : Type} `{SocketKernel K} run_cb iterate (s s' : csys) :
  returns (λ _ _, True) run_cb → csys_ok s → rtc (csys_step run_cb iterate) s s' →
  let c := app (cs_world s') in
  (∀ sfd u f, registered sfd c !! u = Some (BlockCb f) →
     is_Some (frames c !! f) ∧ ∃ given, PCall sfd u f given ∈ cs_calls s') ∧
  (∀ a, client_allowed iterate a (cs_world s') →
     ∃ w', client_perform run_cb iterate a (cs_world s') = Ret tt w') ∧
  (∀ ni result u, len u = 37 → callable ni c →
     ∃ p w', call_prepare (mret []) (λ _, u) ni result (cs_world s') = Ret p w' ∧
       p_uuid p = u ∧ p_given p = result) ∧
  (∀ data size p ni, (p, ni) ∈ cs_ready s' → 0 ≤ size ≤ len data → 38 + size < 2 ^ 32 → not_replaced p ni c →
     ∃ b w', call_send data size ni p (cs_world s') = Ret b w') ∧
  (∀ p, p ∈ cs_calls s' → ∃ success result w',
     call_end p (cs_world s') = Ret (success, result) w' ∧
     ((success = true ∧ (p_sfd p, (p_uuid p, result)) ∈ cs_heard s') ∨ result = p_given p)).
Proof.
  intros Hcb Hok Hr c. destruct (csys_reachable run_cb iterate Hcb s s' Hok Hr) as [Hok' Hi Hre Huu]. fold c in Hi, Hre.
  split_and!.
  - intros sfd u f Hu. split; [by apply (calls_waiting _ _ _ sfd Hi u)|by apply (ci_registered _ _ _ Hi)].
  - intros a Ha. destruct (client_allowed_ok run_cb iterate a _ Hcb Hok' Ha) as (w' & E & _). by exists w'.
  - intros ni result u Hu Hc.
    destruct (call_prepare_ok ni result u _ _ _ _ Hok' Hi Hre Hu Hc) as (p & w' & E & _ & ? & ? & _). by exists p, w'.
  - intros data size p ni Hp Hs H32 Hn. pose proof (Huu p ni Hp) as Hu.
    apply list_elem_of_split in Hp as (ready1 & ready2 & Ec). rewrite Ec in Hre.
    destruct (call_send_ok data size ni p ready1 ready2 _ _ _ Hok' Hi Hre Hu Hs H32 Hn) as (b & w' & E & _). by exists b, w'.
  - intros p Hp. apply list_elem_of_split in Hp as (calls1 & calls2 & Ec). rewrite Ec in Hi.
    destruct (call_end_ok calls1 p calls2 _ _ Hok' Hi) as (fr & w' & Hfr & E & _).
    destruct (ci_pending _ _ _ Hi p) as (fr' & Hfr' & Hv); [set_solver|]. fold c in Hfr.
    rewrite Hfr in Hfr'. injection Hfr' as <-. exists (f_success fr), (f_result fr), w'. split; [done|].
    destruct (f_ss fr); [by left|by right].
Qed.

(** A client with one connection, and the descriptors 5 and 6. *)
Definition connected_client : world sim client :=
  match connect_to_hosts (World sim_empty no_locks (client_new [host_a])) with
  | Ret _ w => w | _ => World sim_empty no_locks (client_new []) end.

Definition begun (u : bytes) (w : world sim client) : pcall * world sim client :=
  match call_prepare (mret []) (λ _, u) 0 [] w with
  | Ret p w' => (p, w') | _ => (PCall 0 [] 0 [], w) end.

Definition pinged (pw : pcall * world sim client) : world sim client :=
  match call_send (str "ping") 4 0 pw.1 pw.2 with Ret _ w' => w' | _ => pw.2 end.

Lemma connected_csys : csys_ok (CSys connected_client [] [] []).
Proof.
  assert (cok connected_client) as Hok.
  { destruct (connect_cok [Some (5, 6)] (set_watched {[5 := 1]} (set_next_fd 7 sim_empty))
      (World sim_empty no_locks (client_new [host_a]))) as (n & w' & E & Hok & _);
      [apply new_cok|repeat constructor; vm_compute; reflexivity|reflexivity|reflexivity|].
    unfold connected_client. by rewrite E. }
  split; [done| |split; [constructor|]; intros q Hq; by apply elem_of_nil in Hq|intros p ni Hp; by apply elem_of_nil in Hp].
  split; cbn.
  - intros f [fr Hf]. vm_compute in Hf. discriminate Hf.
  - constructor.
  - intros p Hp. by apply elem_of_nil in Hp.
  - intros sfd u f Hu. vm_compute in Hu. discriminate Hu.
Qed.

(** Two calls read the descriptor; the second sends first, and its response arrives while
    the first waits. *)
Definition first_ready := begun sample_id connected_client.
Definition second_ready := begun other_id first_ready.2.
Definition second_sent : world sim client := pinged second_ready.
Definition both_sent : world sim client := pinged (first_ready.1, second_sent).
Definition pong_arrived : world sim client :=
  World (set_inq {[5 := wire [(other_id, str "pong")]]} (kern both_sent)) (locks both_sent) (app both_sent).
Definition pong_read : world sim client :=
  match client_perform mark_cb map_to_list (CRead 6 5) pong_arrived with Ret _ w => w | _ => pong_arrived end.

Lemma pong_steps :
  rtc (csys_step mark_cb map_to_list) (CSys connected_client [] [] [])
    (CSys pong_read [] [first_ready.1; second_ready.1] ([] ++ hears (CRead 6 5) pong_arrived)).
Proof.
  set (p1 := first_ready.1). set (p2 := second_ready.1).
  assert (∀ (w : world sim client) node st, desired_hosts (app w) !! Z.to_nat 0 = Some node →
    h_status (app w) !! host_a = Some (MkHostStatus true (Some 5) (Some 6)) → desired_hosts (app w) = [host_a] →
    h_status (app w) !! node = Some st → st = MkHostStatus true (Some 5) (Some 6)) as Hhost.
  { intros w node st Hn Hs Hd. rewrite Hd in Hn. injection Hn as <-. rewrite Hs. by intros [= <-]. }
  apply (rtc_l _ _ (CSys first_ready.2 [(p1, 0)] [] [])).
  { apply (csys_prepare _ _ 0 [] sample_id p1); [reflexivity| |vm_compute; reflexivity].
    split; [vm_compute; split; [discriminate|reflexivity]|]. intros node st Hn Hs.
    rewrite (Hhost _ node st Hn eq_refl eq_refl Hs). by eexists. }
  apply (rtc_l _ _ (CSys second_ready.2 [(p2, 0); (p1, 0)] [] [])).
  { apply (csys_prepare _ _ 0 [] other_id p2); [reflexivity| |vm_compute; reflexivity].
    split; [vm_compute; split; [discriminate|reflexivity]|]. intros node st Hn Hs.
    rewrite (Hhost _ node st Hn eq_refl eq_refl Hs). by eexists. }
  apply (rtc_l _ _ (CSys second_sent [(p1, 0)] [p2] [])).
  { apply (csys_send _ _ (str "ping") 4 0 p2 [] [(p1, 0)] true); [vm_compute; by split|reflexivity| |vm_compute; reflexivity].
    split; [vm_compute; split; [discriminate|reflexivity]|]. intros node sfd ep Hn Hs.
    by injection (Hhost _ node _ Hn eq_refl eq_refl Hs) as -> _. }
  apply (rtc_l _ _ (CSys both_sent [] [p1; p2] [])).
  { apply (csys_send _ _ (str "ping") 4 0 p1 [] [] true); [vm_compute; by split|reflexivity| |vm_compute; reflexivity].
    split; [vm_compute; split; [discriminate|reflexivity]|]. intros node sfd ep Hn Hs.
    by injection (Hhost _ node _ Hn eq_refl eq_refl Hs) as -> _. }
  apply (rtc_l _ _ (CSys pong_arrived [] [p1; p2] [])); [apply csys_network|apply rtc_once].
  apply (csys_thread _ _ (CRead 6 5) pong_arrived pong_read _ _ []); [exact I| |vm_compute; reflexivity].
  split_and!; [vm_compute; by eexists|vm_compute; reflexivity|]. intros x Hx. vm_compute in Hx. discriminate Hx.
Qed.

Lemma client_calls_safe_witness :
  (∃ w', call_end second_ready.1 pong_read = Ret (true, str "pong") w') ∧
  ∃ success result w', call_end first_ready.1 pong_read = Ret (success, result) w' ∧
    ((success = true ∧ (5, (sample_id, result)) ∈ [(5, (other_id, str "pong"))]) ∨ result = []).
Proof.
  split; [eexists; vm_compute; reflexivity|].
  assert (hears (CRead 6 5) pong_arrived = [(5, (other_id, str "pong"))]) as Hh by (vm_compute; reflexivity).
  destruct (client_calls_safe mark_cb map_to_list (CSys connected_client [] [] []) _ mark_returns_any connected_csys pong_steps)
    as (_ & _ & _ & _ & Hend).
  destruct (Hend first_ready.1) as (success & result & w' & E & Hr); [by left|].
  exists success, result, w'. split; [exact E|].
  assert (p_sfd first_ready.1 = 5) as E1 by (vm_compute; reflexivity).
  assert (p_uuid first_ready.1 = sample_id) as E2 by (vm_compute; reflexivity).
  assert (p_given first_ready.1 = []) as E3 by (vm_compute; reflexivity).
  cbn [cs_heard app] in Hr. change ([] ++ hears (CRead 6 5) pong_arrived) with (hears (CRead 6 5) pong_arrived) in Hr.
  rewrite E1, E2, E3, Hh in Hr. exact Hr.
Defined.

(** A response whose call back refers to variables that are gone. *)
Lemma dangling_response {K : Type} `{SocketKernel K} run_cb ep sfd u f msg_v (k : K) l c :
  held l = [] → len u = 37 → 37 + len msg_v < 2 ^ 32 →
  registered sfd c !! u = Some (BlockCb f) → frames c !! f = None →
  call_back_of run_cb (ep, sfd) (u ++ msg_v) (World k l c) = Undef.
Proof.
  intros Hl Hu Hm Hr Hf. assert (∀ m, m ∉ held l) as Hh by (intros m; rewrite Hl; apply not_elem_of_nil).
  unfold call_back_of. cbn zeta.
  run_with (unpack_delivered (u ++ msg_v) (World k l c) ltac:(rewrite length_app; lia)).
  rewrite (take_app_length' u msg_v 37), (drop_app_length' u msg_v 37) by lia.
  crun. run_with (call_backs_of_run sfd k (acquire Cb_mutex l) c). rewrite Hr.
  rewrite bind_assoc, bind_unfold. unfold catch_std, call. rewrite c_bind_get. cbn. by rewrite Hf.
Qed.

(** C37.  When the connection is replaced between the two first steps of a blocking call,
    the reading of its descriptor and the sending, its call back is registered for the
    new descriptor and removed from the old one.  After the call has returned, with or
    without a result, the call back is still there, with references to variables that
    are gone: a response to the call is undefined behaviour. *)
Theorem client_call_race {K : Type} `{SocketKernel K} run_cb data size ni p fr node sfd ep (w : world K client) :
  cok w → frames (app w) !! p_frame p = Some fr → len (p_uuid p) = 37 →
  0 ≤ size ≤ len data → 38 + size < 2 ^ 32 →
  0 ≤ ni → desired_hosts (app w) !! Z.to_nat ni = Some node →
  h_status (app w) !! node = Some (MkHostStatus true (Some sfd) (Some ep)) → sfd ≠ p_sfd p →
  ∃ b w1 r w2, call_send data size ni p w = Ret b w1 ∧ call_end p w1 = Ret r w2 ∧
    registered sfd (app w2) !! p_uuid p = Some (BlockCb (p_frame p)) ∧ frames (app w2) !! p_frame p = None ∧
    ∀ msg_v, 37 + len msg_v < 2 ^ 32 → call_back_of run_cb (ep, sfd) (p_uuid p ++ msg_v) w2 = Undef.
Proof.
  destruct w as [k l c]. intros [Hl Hwf] Hf Hu Hsz H32 Hni Hnode Hst Hne. cbn in Hl, Hwf, Hf, Hnode, Hst.
  destruct (send_msg_run data size ni (Some (BlockCb (p_frame p))) (p_uuid p) node sfd ep k l c)
    as (l1 & E1 & [Hl1 _] & _); try done; [lia|by apply (cwf_wr _ _ Hwf)|].
  set (b := w_is_valid (writer_of sfd l c)) in *. set (c1 := queued _ _ _ _) in E1.
  set (k1 := if b then _ else k) in E1.
  assert (frames c1 = frames c) as Hf1 by (unfold c1; by rewrite queued_frames).
  assert (registered sfd c1 !! p_uuid p = Some (BlockCb (p_frame p))) as Hr1.
  { unfold c1. rewrite queued_registered, register_registered. apply lookup_insert_eq. }
  set (fr1 := Frame b (f_result fr) (f_ss fr)). set (c2 := upd_frames (insert (p_frame p) fr1) c1).
  set (c3 := call_ends (p_sfd p) (p_uuid p) (p_frame p) c2).
  assert (registered sfd c3 !! p_uuid p = Some (BlockCb (p_frame p))) as Hr3.
  { unfold c3, call_ends. unfold registered at 1. cbn. rewrite lookup_insert_ne by done. exact Hr1. }
  assert (frames c3 !! p_frame p = None) as Hf3 by (cbn; apply lookup_delete_eq).
  exists b, (World k1 l1 c2), (f_success fr1, f_result fr1), (World k1 (traced Cb_mutex l1) c3).
  split_and!; [|apply call_end_run; [congruence|apply lookup_insert_eq]|done|done|].
  - unfold call_send. run_with E1. rewrite c_bind_get. cbn [app]. rewrite Hf1, Hf. done.
  - intros msg_v Hm. apply (dangling_response run_cb ep sfd (p_uuid p) (p_frame p)); [cbn; by rewrite Hl1|done|done|done|done].
Qed.

(** A call has read the descriptor 5 when the connection fails, is reaped and made again
    as 7; then it sends. *)
Definition race_prepared : world sim client :=
  match call_prepare (mret []) (λ _, sample_id) 0 [] connected_client with Ret _ w => w | _ => connected_client end.
Definition race_failed : world sim client :=
  match client_perform mark_cb map_to_list (CEvent 6 5 EPOLLERR) race_prepared with Ret _ w => w | _ => race_prepared end.
Definition race_later : world sim client := World (set_clock (1600, 0) (kern race_failed)) (locks race_failed) (app race_failed).
Definition race_replaced : world sim client :=
  match client_perform mark_cb map_to_list CReap race_later with Ret _ w => w | _ => race_later end.

Lemma race_replaced_cok : cok race_replaced.
Proof.
  assert (cok race_prepared) as Hok.
  { assert (race_prepared = set_app (calling [] (app connected_client)) connected_client) as -> by (vm_compute; reflexivity).
    destruct (csys_cok _ connected_csys) as [Hl Hwf]. split; [exact Hl|]. by apply cwf_calling. }
  apply (client_reachable mark_cb map_to_list race_prepared); [apply mark_returns_any|exact Hok|].
  apply (rtc_l _ _ race_failed); [|apply (rtc_l _ _ race_later); [|apply rtc_once]].
  - apply (client_step_action _ _ (CEvent 6 5 EPOLLERR)); [|vm_compute; reflexivity]. vm_compute. by eexists.
  - exact (client_step_network _ _ race_failed _).
  - apply (client_step_action _ _ CReap); [|vm_compute; reflexivity].
    assert (map_to_list (zm (app race_later)) = [(5, 1000000)]) as Hz by (vm_compute; reflexivity).
    exists [5], (kern race_replaced), (attempted (cleaned 5 (app race_later)) (host_a, Some (7, 8))). rewrite Hz.
    apply (sweep_old 5 1000000 [] (kern race_later) (app race_later) [] (kern race_replaced) (kern race_replaced) _ host_a
             (MkHostStatus false (Some 5) (Some 6)) 6 (Some (7, 8))); [vm_compute; reflexivity..|apply sweep_nil].
Qed.

Lemma client_call_race_witness :
  ∃ b w1 r w2, call_send (str "ping") 4 0 (PCall 5 sample_id 0 []) race_replaced = Ret b w1 ∧
    call_end (PCall 5 sample_id 0 []) w1 = Ret r w2 ∧
    call_back_of mark_cb (8, 7) (sample_id ++ str "pong") w2 = Undef.
Proof.
  destruct (client_call_race mark_cb (str "ping") 4 0 (PCall 5 sample_id 0 []) (Frame false [] false) host_a 7 8 race_replaced)
    as (b & w1 & r & w2 & E1 & E2 & _ & _ & E3); [exact race_replaced_cok|vm_compute; reflexivity|reflexivity| |reflexivity|discriminate|
    vm_compute; reflexivity|vm_compute; reflexivity|discriminate|].
  - vm_compute. split; discriminate.
  - exists b, w1, r, w2. split; [exact E1|]. split; [exact E2|]. apply E3. reflexivity.
Defined.
