(* ===== verification/ClientSession.v ===== *)
(** * A client's connection in use

    Several messages are sent on one connection, and the writer's thread writes
    them: what the connection's buffer holds in between ([wbuf]), and that the rest
    of the client stays as it is ([link]). *)

From S2P Require Import Prelude Utils BufferedReader BufferedWriter Kernel SocketUtils.
From S2P Require Import SocketClient ClientProofs.

(** What waits to be written on a descriptor. *)
Definition wbuf (sfd : Z) (c : client) : bytes :=
  match wrm c !! sfd with Some y => wbuffer (w_bw y) | None => [] end.

(** A client that was [c0], and has since sent and written messages to [sfd]. *)
Record link (sfd : Z) (l : lockstate) (c0 c : client) : Prop := {
  link_held : held l = [];
  link_reader x : rrm c0 !! sfd = Some x → r_mutex x ∈ live l;
  link_writer y : wrm c !! sfd = Some y → w_is_valid y = true ∧ w_mutex y ∈ live l;
  link_hosts : desired_hosts c = desired_hosts c0;
  link_status : h_status c = h_status c0;
  link_conns : conns c = conns c0;
  link_rrm : rrm c = rrm c0;
  link_frames : frames c = frames c0
}.

(** Messages to send: identifier, data and call back. *)
Definition request : Type := bytes * bytes * callback.

Definition req_id (m : request) : bytes := m.1.1.
Definition req_data (m : request) : bytes := m.1.2.
Definition req_cb (m : request) : callback := m.2.

Section session.
Context {K : Type} `{SocketKernel K}.
Implicit Types (l : lockstate) (c : client) (k : K).

(** They are sent one after the other, to one host. *)
Definition send_each (ni : Z) (reqs : list request) : M (world K client) (list bool) :=
  fold_m (λ m rs,
    r ← send_msg (req_data m) (len (req_data m)) ni (Some (req_cb m)) (req_id m);
    mret (rs ++ [r])) reqs [].

Definition fits (m : request) : Prop := len (req_id m) = 37 ∧ 38 + len (req_data m) < 2 ^ 32.

Lemma link_writer_of sfd l c0 c :
  link sfd l c0 c → w_is_valid (writer_of sfd l c) = true ∧ wbuffer (w_bw (writer_of sfd l c)) = wbuf sfd c.
Proof.
  intros Hl. unfold writer_of, wbuf. destruct (wrm c !! sfd) as [y|] eqn:E; [|done].
  by destruct (link_writer _ _ _ _ Hl y E).
Qed.

Lemma send_one ni m node sfd ep k l c0 c :
  link sfd l c0 c → fits m → 0 ≤ ni → desired_hosts c0 !! Z.to_nat ni = Some node →
  h_status c0 !! node = Some (MkHostStatus true (Some sfd) (Some ep)) →
  ∃ k' l' c', send_msg (req_data m) (len (req_data m)) ni (Some (req_cb m)) (req_id m) (World k l c) =
      Ret true (World k' l' c') ∧ link sfd l' c0 c' ∧
    k' = (sys_epoll_mod ep sfd (Z.lor (get0 (sfd_events c) sfd) EPOLLOUT) k).2 ∧
    wbuf sfd c' = wbuf sfd c ++ frame_of (req_id m) (req_data m) ∧
    registered sfd c' = <[req_id m := req_cb m]> (registered sfd c).
Proof.
  intros Hl [Hid Hdata] Hni Hnode Hst. destruct (link_writer_of _ _ _ _ Hl) as [Hv Hb].
  pose proof Hl as [H1 HR H2 H3 H4 H5 H6 H7].
  destruct (send_msg_run (req_data m) (len (req_data m)) ni (Some (req_cb m)) (req_id m) node sfd ep k l c)
    as (l' & E & (Hl' & Hlive & _) & Hyl); try (done || lia || congruence).
  { intros y Hy. by apply H2. }
  rewrite Hv in E. set (y := writer_of sfd l c) in *.
  assert (frame_of (take 37 (req_id m ++ [NUL])) (take (Z.to_nat (len (req_data m))) (req_data m)) =
          frame_of (req_id m) (req_data m)) as Ef.
  { rewrite Nat2Z.id, firstn_all. replace 37%nat with (length (req_id m)) by lia. by rewrite take_app_length. }
  rewrite Ef in E. eexists _, l', _. split_and!; [exact E| |done| |].
  - unfold queued. rewrite Hv. split; cbn; try done; [congruence|by intros x Hx; apply Hlive, HR|].
    intros y'. rewrite lookup_insert_eq. intros [= <-]. unfold enqueue. rewrite Hv. done.
  - unfold wbuf at 1, queued. rewrite Hv. cbn. rewrite lookup_insert_eq. unfold enqueue. rewrite Hv. cbn.
    by rewrite Hb.
  - by rewrite queued_registered, register_registered.
Qed.

(** The frames of requests, and the call backs they register. *)
Definition frames_of (reqs : list request) : bytes := wire (map (λ m, (req_id m, req_data m)) reqs).

Definition register_all (reqs : list request) (cbs : gmap bytes callback) : gmap bytes callback :=
  foldl (λ cbs m, <[req_id m := req_cb m]> cbs) cbs reqs.

Lemma send_each_run ni reqs node sfd ep k l c0 c :
  link sfd l c0 c → Forall fits reqs → 0 ≤ ni → desired_hosts c0 !! Z.to_nat ni = Some node →
  h_status c0 !! node = Some (MkHostStatus true (Some sfd) (Some ep)) →
  ∃ k' l' c', send_each ni reqs (World k l c) = Ret (replicate (length reqs) true) (World k' l' c') ∧
    link sfd l' c0 c' ∧ (∀ fd, sent fd k' = sent fd k) ∧
    wbuf sfd c' = wbuf sfd c ++ frames_of reqs ∧
    registered sfd c' = register_all reqs (registered sfd c).
Proof.
  intros Hl Hf Hni Hnode Hst.
  assert (∀ rs k l c, link sfd l c0 c → ∃ k' l' c',
    fold_m (λ m rs, r ← send_msg (req_data m) (len (req_data m)) ni (Some (req_cb m)) (req_id m); mret (rs ++ [r]))
      reqs rs (World k l c) = Ret (rs ++ replicate (length reqs) true) (World k' l' c') ∧
    link sfd l' c0 c' ∧ (∀ fd, sent fd k' = sent fd k) ∧ wbuf sfd c' = wbuf sfd c ++ frames_of reqs ∧
    registered sfd c' = register_all reqs (registered sfd c)) as Hind.
  { clear Hl k l c. induction Hf as [|m reqs Hm _ IH]; intros rs k l c Hl.
    - exists k, l, c. cbn. by rewrite !app_nil_r.
    - destruct (send_one ni m node sfd ep k l c0 c Hl Hm Hni Hnode Hst)
        as (? & l1 & c1 & E & Hl1 & -> & Hb1 & Hr1).
      set (k1 := (sys_epoll_mod _ _ _ _).2) in *.
      destruct (IH (rs ++ [true]) k1 l1 c1 Hl1) as (k2 & l2 & c2 & E2 & Hl2 & Hs2 & Hb2 & Hr2).
      exists k2, l2, c2. cbn [fold_m length replicate]. rewrite !bind_assoc. run_with E. rewrite bind_ret_l, E2.
      rewrite <-app_assoc. split_and!; [done|done| | |].
      + intros fd. rewrite Hs2. by apply mod_frame.
      + rewrite Hb2, Hb1, <-app_assoc. done.
      + by rewrite Hr2, Hr1. }
  destruct (Hind [] k l c Hl) as (k' & l' & c' & E & Hrest). by exists k', l', c'.
Qed.

(** The writing thread. *)
Lemma write_link ep sfd n k l c0 c :
  link sfd l c0 c → roomy sfd n k → len (wbuf sfd c) ≤ 1024 * Z.of_nat n →
  ∃ k' l' c', SocketClient.write (Datatypes.S (length (wbuf sfd c))) ep sfd (World k l c) =
      Ret tt (World k' l' c') ∧ link sfd l' c0 c' ∧ sent sfd k' = sent sfd k ++ wbuf sfd c ∧
    wbuf sfd c' = [] ∧ registered sfd c' = registered sfd c.
Proof.
  intros Hl Hroom Hn. destruct (link_writer_of _ _ _ _ Hl) as [Hv Hb].
  pose proof Hl as [H1 HR H2 H3 H4 H5 H6 H7].
  assert (∀ m, m ∉ held l) as Hh by (intros m; rewrite H1; apply not_elem_of_nil).
  destruct (find_writer_run sfd k l c (Hh W_mutex)) as (l1 & E1 & [Hg1 Hg2] & Hy1).
  { intros y Hy. by apply H2. }
  set (y := writer_of sfd l c) in *. set (c1 := upd_wrm (insert sfd y) c) in *.
  assert (wrm c1 !! sfd = Some y) as Hy by apply lookup_insert_eq.
  assert (∀ m, m ∉ held l1) as Hh1 by (intros m; by rewrite Hg1).
  unfold SocketClient.write. run_with E1. crun. rewrite Hv.
  set (w2 := World k (acquire (WR_mutex (w_mutex y)) l1) c1).
  destruct (write_to_sfd_all (bw_ref sfd) (Datatypes.S (length (wbuf sfd c))) ep sfd (wbuf sfd c) n w2
    (write_close sfd) (in_app events_ref) E_mutex) as ([k3 l3 c3] & E3 & Hs3 & Happ & Hl3); [|lia|done|done|].
  { cbn. rewrite lookup_insert_eq. cbn. rewrite <-Hb. by destruct (w_bw y). }
  cbn in Hs3, Happ, Hl3. subst l3.
  set (y3 := MkWriteR BufferedWriter_new (w_mutex y) true).
  assert (c3 = upd_wrm (insert sfd y3) c) as ->.
  { rewrite Happ. unfold c1, upd_wrm, y3. cbn. rewrite (alter_as_insert _ _ _ y) by apply lookup_insert_eq.
    by rewrite insert_insert_eq, Hv. }
  run_with E3. erewrite (bind_load _ y3) by (cbn; apply lookup_insert_eq). cbn [w_mutex y3].
  rewrite (unlock_run _ (held l1)) by (done || by apply bool_decide_eq_true_2).
  eexists k3, _, _. split_and!; [done| |done| |done].
  - split; cbn; try done; [by rewrite Hg1|by intros x Hx; apply Hg2, HR|]. intros y'. rewrite lookup_insert_eq. by intros [= <-].
  - unfold wbuf. cbn. by rewrite lookup_insert_eq.
Qed.
End session.

(** A connection at rest: healthy, its buffers empty, and every blocking call whose
    call back is registered still waiting. *)
Record at_rest (ep sfd : Z) (node : bytes) (l : lockstate) (c : client) : Prop := {
  rest_held : held l = [];
  rest_reader x : rrm c !! sfd = Some x →
    r_mutex x ∈ live l ∧ r_is_valid x = true ∧ r_br x = BufferedReader_new EOT (ep, sfd);
  rest_writer y : wrm c !! sfd = Some y → w_is_valid y = true ∧ w_mutex y ∈ live l;
  rest_sent : wbuf sfd c = [];
  rest_conn : conns c !! sfd = Some node;
  rest_status : h_status c !! node = Some (MkHostStatus true (Some sfd) (Some ep));
  rest_waiting : waiting sfd c
}.

Lemma at_rest_link ep sfd node l c : at_rest ep sfd node l c → link sfd l c c.
Proof. intros [H1 H2 H3 H4 H5 H6 H7]. split; try done. intros x Hx. by apply H2. Qed.

(** Registering call backs, with the frames of the blocking calls there. *)
Lemma waiting_registered sfd reqs c c' :
  waiting sfd c → (∀ m f, m ∈ reqs → req_cb m = BlockCb f → is_Some (frames c !! f)) →
  registered sfd c' = register_all reqs (registered sfd c) → frames c' = frames c → waiting sfd c'.
Proof.
  intros Hw Hreq Hr Hf u f. rewrite Hr, Hf. unfold register_all. clear Hr.
  assert (∀ cbs : gmap bytes callback, (∀ u f, cbs !! u = Some (BlockCb f) → is_Some (frames c !! f)) →
    foldl (λ cbs m, <[req_id m := req_cb m]> cbs) cbs reqs !! u = Some (BlockCb f) → is_Some (frames c !! f)) as Hall.
  { induction reqs as [|m reqs IH]; intros cbs Hcbs; [by apply Hcbs|]. cbn [foldl].
    apply IH; [intros m' f' Hm'; apply Hreq; by right|]. intros u' f'.
    intros [[_ Hm]|[_ Hu]]%lookup_insert_Some; [by apply (Hreq m); [left|]|by apply (Hcbs u')]. }
  by apply Hall.
Qed.

Section reading.
Context {K : Type} `{SocketKernel K}.
Context (T : list (nat * bytes) → K → Prop) (run_cb : nat → bytes → M (world K client) unit).
Hypothesis T_frame : untouched T.
Hypothesis run_cb_ok : returns T run_cb.

(** The responses are read, and the connection is at rest again. *)
Lemma read_link fuel ep sfd node k l c0 c l0 msgs :
  at_rest ep sfd node l0 c0 → link sfd l c0 c → wbuf sfd c = [] → waiting sfd c → T [] k →
  inbox sfd k = wire msgs → inbox_end sfd k = Open → Forall sendable msgs →
  (length (wire msgs) < fuel)%nat → len (wire msgs) < 2 ^ 32 →
  ∃ k' l' c', SocketClient.read run_cb fuel ep sfd (World k l c) = Ret tt (World k' l' c') ∧
    at_rest ep sfd node l' c' ∧ T (fired_all sfd c msgs) k' ∧ inbox sfd k' = [] ∧
    frames c' = frames (foldl (dispatch sfd) c msgs) ∧
    registered sfd c' = registered sfd (foldl (dispatch sfd) c msgs).
Proof.
  intros [R1 R2 R3 R4 R5 R6 R7] [H1 HR H2 H3 H4 H5 H6 H7] Hb Hw HT Hi He Hs Hfuel H32.
  set (x := reader_of ep sfd l c).
  assert (r_is_valid x = true ∧ r_br x = BufferedReader_new EOT (ep, sfd)) as [Hv Hbr].
  { unfold x, reader_of. rewrite H6. destruct (rrm c0 !! sfd) as [z|] eqn:E; [|done]. by apply R2. }
  destruct (read_client_run T run_cb T_frame run_cb_ok fuel ep sfd node
      (MkHostStatus true (Some sfd) (Some ep)) [] k l c (map (λ p, p.1 ++ p.2) msgs) [])
    as (k' & l' & t & E & Hl' & Hlive & [Hsub _] & Hi' & HT'); rewrite ?Hi; try done.
  - intros z. rewrite H6. apply HR.
  - apply not_elem_of_nil.
  - by rewrite H5.
  - by rewrite H4.
  - by apply feed_wire.
  - rewrite decode_sent in E, HT' by done. fold x in E, Hlive. rewrite He in E. cbn [is_open after_read] in E.
    set (c' := foldl (dispatch sfd) c msgs) in *.
    eexists k', l', _. split_and!; [exact E| |done|done|done|done].
    destruct (dispatch_all_other sfd msgs c) as [Hc1 Hc2]. fold c' in Hc1, Hc2.
    assert (wrm c' = wrm c) as Hc3 by (by apply dispatch_all_field).
    split; cbn; [done| | | | | |].
    + intros z. rewrite lookup_insert_eq. intros [= <-]. split_and!; [set_solver|done|done].
    + intros y. rewrite Hc3. intros Hy. destruct (H2 y Hy). split; [done|set_solver].
    + unfold wbuf in *. cbn. by rewrite Hc3.
    + by rewrite Hc1, H5.
    + by rewrite Hc2, H4.
    + exact (waiting_all sfd msgs c Hw).
Qed.
End reading.
