(* ===== verification/EndToEnd.v ===== *)
(** * Client and server together

    A [SocketClient] and the server of the program [sserver], each with a kernel of
    its own, and a network in between: what has been sent on one side arrives on
    the other.  The threads' operations follow each other as in the program:
    sending, writing, reading and answering, writing, reading; the kernels may do
    what they like in between. *)

From S2P Require Import Prelude Utils BufferedReader BufferedWriter Kernel Simulation SocketUtils.
From S2P Require Import SocketServer ServerProofs ServerTheorems SocketClient ClientProofs ClientTheorems ClientSession.

(** What the server answers, and the calls of the caller's call backs that follow. *)
Definition answer_text : bytes := str "no way bro".

Definition answers (reqs : list request) : list (bytes * bytes) :=
  map (λ m, (req_id m, answer_text)) reqs.

Definition calls_back (reqs : list request) : list (nat * bytes) :=
  omap (λ m, match req_cb m with UserCb tag => Some (tag, answer_text) | BlockCb _ => None end) reqs.

(** A request that can be sent: its identifier has 37 characters, and neither it nor
    the data has the delimiter. *)
Definition proper (m : request) : Prop :=
  len (req_id m) = 37 ∧ (EOT ∉ req_id m ++ req_data m) ∧ 38 + len (req_data m) < 2 ^ 32.

Lemma proper_fits reqs : Forall proper reqs → Forall fits reqs.
Proof. intros H. eapply Forall_impl; [exact H|]. by intros m (? & _ & ?). Qed.

Lemma proper_sendable reqs :
  Forall proper reqs → Forall sendable (map (λ m, (req_id m, req_data m)) reqs).
Proof. intros H. apply Forall_fmap. eapply Forall_impl; [exact H|]. by intros m (? & ? & _). Qed.

Lemma answers_sendable reqs : Forall proper reqs → Forall sendable (answers reqs).
Proof.
  intros H. apply Forall_fmap. eapply Forall_impl; [exact H|]. intros m (Hid & Hd & _).
  split; [done|]. cbn. rewrite elem_of_app in Hd |- *. intros [?|Ha]; [tauto|].
  revert Ha. by eapply bool_decide_unpack.
Qed.

Lemma answers_wire reqs :
  wire (answers reqs) = replies (map (λ m, (req_id m, req_data m)) reqs).
Proof. unfold wire, replies, answers. rewrite !map_map. done. Qed.

Lemma register_all_in reqs cbs m :
  NoDup (map req_id reqs) → m ∈ reqs → register_all reqs cbs !! req_id m = Some (req_cb m).
Proof.
  unfold register_all. revert cbs. induction reqs as [|m' reqs IH]; intros cbs Hnd Hm; [by apply elem_of_nil in Hm|].
  cbn [map] in Hnd. apply NoDup_cons in Hnd as [Hm' Hnd]. cbn [foldl].
  apply elem_of_cons in Hm as [->|Hm]; [|by apply IH].
  assert (∀ cbs, foldl (λ cbs m, <[req_id m := req_cb m]> cbs) cbs reqs !! req_id m' = cbs !! req_id m') as ->.
  { clear IH cbs. induction reqs as [|m reqs IH]; intros cbs; [done|]. cbn [map] in Hm'.
    apply not_elem_of_cons in Hm' as [H1 H2]. apply NoDup_cons in Hnd as [_ Hnd]. cbn [foldl].
    rewrite IH by done. by rewrite lookup_insert_ne. }
  apply lookup_insert_eq.
Qed.

Lemma calls_back_eq sfd c cbs reqs :
  NoDup (map req_id reqs) → registered sfd c = register_all reqs cbs →
  fired_all sfd c (answers reqs) = calls_back reqs.
Proof.
  intros Hnd Hr. rewrite fired_once; [|unfold answers; rewrite map_map; exact Hnd].
  assert (∀ ms, (∀ m, m ∈ ms → m ∈ reqs) → omap (answer sfd c) (answers ms) = calls_back ms) as H; [|by apply H].
  unfold answers, calls_back. generalize answer_text as txt. intros txt.
  induction ms as [|m ms IH]; intros Hms; [done|]. cbn.
  rewrite IH by (intros m' Hm'; apply Hms; by right).
  unfold answer at 1. cbn [fst snd]. rewrite Hr, register_all_in by (done || apply Hms; by left).
  by destruct (req_cb m).
Qed.

(** ** The server's side *)
Section server_side.
Context {K : Type} `{SocketKernel K}.

(** A connection of the server at rest. *)
Record served (fd : Z) (w : world K server) : Prop := {
  served_ok : ok [] w;
  served_reader : ∃ x, SocketServer.rrm (app w) !! fd = Some x ∧ r_is_valid x = true ∧
                       buffer (r_br x) = [];
  served_writer : ∃ q, SocketServer.wrm (app w) !! fd = Some (MkWriteR BufferedWriter_new q true)
}.

(** The messages that have come are answered, and the answers are written. *)
Lemma server_answers fuel fd n k l s msgs :
  served fd (World k l s) → inbox fd k = wire msgs → inbox_end fd k = Open →
  Forall sendable msgs → (length (wire msgs) < fuel)%nat → len (wire msgs) < 2 ^ 32 →
  len (replies msgs) ≤ 1024 * Z.of_nat n →
  ∃ k' l' s', SocketServer.read sserver_handler fuel fd (World k l s) = Ret tt (World k' l' s') ∧
    inbox fd k' = [] ∧
    ∀ k2, roomy fd n k2 →
    ∃ w2, SocketServer.write (Datatypes.S (length (replies msgs))) fd (World k2 l' s') = Ret tt w2 ∧
          sent fd (kern w2) = sent fd k2 ++ replies msgs ∧ served fd w2.
Proof.
  intros [Hok (x & Hx & Hv & Hbuf) [q Hq]] Hi He Hs Hfuel H32 Hn. cbn in Hx, Hq.
  destruct (wf_rr _ _ _ (ok_wf _ _ Hok) _ _ Hx) as (_ & b & Hbr & Hb).
  rewrite Hbr in Hbuf. cbn in Hbuf. subst b.
  destruct (read_entry_run (λ p, len p.1 = 37) (answered fd []) sserver_handler fd
      (answered_frame fd []) (sserver_answers_all fd []) fuel k l s x [] (map (λ p, p.1 ++ p.2) msgs) [])
    as ([k' l' s'] & E & Hok' & [q' HT'] & Hi' & Hx' & _); rewrite ?Hi; try done.
  - by exists q.
  - by apply feed_wire.
  - apply (proj1 (Forall_map decode (λ p, len p.1 = 37) _)). rewrite decode_sent by done.
    eapply Forall_impl; [exact Hs|]. by intros p [? _].
  - rewrite decode_sent in HT' by done. cbn in HT', Hi', Hx'. rewrite He in Hx'.
    exists k', l', s'. split_and!; [done|done|]. intros k2 Hroom.
    destruct (write_all_run fd n (replies msgs) q' k2 l' s') as (w2 & E2 & Hok2 & Hs2 & Happ);
      [by apply (ok_kern _ k')|done..|].
    exists w2. split_and!; [done|done|]. split; [done| |]; rewrite Happ; cbn.
    + eexists. by split; [exact Hx'|].
    + exists q'. apply lookup_insert_eq.
Qed.
End server_side.

(** A kernel with room for any number of writes that are planned for. *)
Lemma sim_roomy fd n k : rooms k = replicate n 1024 → roomy fd n k.
Proof.
  revert k. induction n as [|n IH]; intros k Hk; [done|]. intros data Hd. cbn. unfold sim_write.
  rewrite Hk. cbn. rewrite Z.min_r, Z.max_r by lia. eexists. split; [done|]. by apply IH.
Qed.

(** The samples of client and server meet, each with its descriptor 7. *)
Definition two_requests : list request :=
  [(sample_id, str "hi", UserCb 5); (other_id, str "ho", BlockCb 0)].

Lemma two_proper : Forall proper two_requests.
Proof. repeat constructor; vm_compute; (reflexivity || set_solver). Qed.

Lemma sample_at_rest : at_rest 4 7 host_a no_locks sample_client.
Proof. split; try done. apply sample_waiting. Qed.

Lemma sample_served k : served 7 (server_world k).
Proof.
  split; [apply sample_ok| |]; cbn; rewrite lookup_singleton_eq; [eexists; by split_and!|by eexists].
Qed.

(** ** One exchange *)

(** C1.  A request and its response, through both programs.  A client whose
    connection is at rest queues any number of messages; its writing thread puts
    them on the network; once they have arrived, the thread that reads in the server
    [sserver] answers each of them, and its writing thread puts the answers on the
    network; once these have arrived at the client, its reading thread calls every
    call back of the caller exactly once, in the order of the requests, with the
    answer to its own request, and every blocking call has its result.  Nothing is
    left behind: no call back of the messages stays registered, and both
    connections are at rest again, ready for the next exchange.  In between the
    kernels do what they like; writing is supposed to find room, and the messages
    to have different identifiers. *)
Theorem request_response {KC KS : Type} `{SocketKernel KC} `{SocketKernel KS}
    (T : list (nat * bytes) → KC → Prop) run_cb n fuel ni ep sfd node fd
    (kc : KC) lc c (ks : KS) ls s reqs :
  untouched T → returns T run_cb →
  at_rest ep sfd node lc c → 0 ≤ ni → desired_hosts c !! Z.to_nat ni = Some node →
  served fd (World ks ls s) →
  Forall proper reqs → NoDup (map req_id reqs) →
  (∀ m f, m ∈ reqs → req_cb m = BlockCb f → is_Some (frames c !! f)) →
  len (frames_of reqs) ≤ 1024 * Z.of_nat n → len (wire (answers reqs)) ≤ 1024 * Z.of_nat n →
  1024 * Z.of_nat n < Z.min (2 ^ 32) (Z.of_nat fuel) →
  ∃ kc1 lc1 c1, send_each ni reqs (World kc lc c) =
    Ret (replicate (length reqs) true) (World kc1 lc1 c1) ∧
  ∀ kc2, roomy sfd n kc2 →
  ∃ kc3 lc3 c3, SocketClient.write (Datatypes.S (length (frames_of reqs))) ep sfd (World kc2 lc1 c1) =
    Ret tt (World kc3 lc3 c3) ∧ sent sfd kc3 = sent sfd kc2 ++ frames_of reqs ∧
  ∀ ks2, inbox fd ks2 = frames_of reqs → inbox_end fd ks2 = Open →
  ∃ ks3 ls3 s3, SocketServer.read sserver_handler fuel fd (World ks2 ls s) = Ret tt (World ks3 ls3 s3) ∧
  ∀ ks4, roomy fd n ks4 →
  ∃ w5, SocketServer.write (Datatypes.S (length (wire (answers reqs)))) fd (World ks4 ls3 s3) = Ret tt w5 ∧
    sent fd (kern w5) = sent fd ks4 ++ wire (answers reqs) ∧ served fd w5 ∧
  ∀ kc4, inbox sfd kc4 = wire (answers reqs) → inbox_end sfd kc4 = Open → T [] kc4 →
  ∃ kc6 lc6 c6, SocketClient.read run_cb fuel ep sfd (World kc4 lc3 c3) = Ret tt (World kc6 lc6 c6) ∧
    T (calls_back reqs) kc6 ∧ at_rest ep sfd node lc6 c6 ∧
    (∀ m, m ∈ reqs → registered sfd c6 !! req_id m = None) ∧
    ∀ m f, m ∈ reqs → req_cb m = BlockCb f → frames c6 !! f = Some (Frame true answer_text true).
Proof.
  intros HTf Hr Hrest Hni Hnode Hserved Hp Hnd Hframes Hn1 Hn2 Hn3.
  pose proof (at_rest_link _ _ _ _ _ Hrest) as Hlink. rewrite answers_wire in Hn2 |- *.
  destruct (send_each_run ni reqs node sfd ep kc lc c c Hlink (proper_fits _ Hp) Hni Hnode (rest_status _ _ _ _ _ Hrest))
    as (kc1 & lc1 & c1 & E1 & Hl1 & _ & Hb1 & Hr1).
  exists kc1, lc1, c1. split; [done|]. intros kc2 Hroom.
  rewrite (rest_sent _ _ _ _ _ Hrest), app_nil_l in Hb1.
  destruct (write_link ep sfd n kc2 lc1 c c1) as (kc3 & lc3 & c3 & E3 & Hl3 & Hs3 & Hb3 & Hr3); [done..|by rewrite Hb1|].
  rewrite Hb1 in E3, Hs3. exists kc3, lc3, c3. split_and!; [done|done|]. intros ks2 Hi2 He2.
  destruct (server_answers fuel fd n ks2 ls s (map (λ m, (req_id m, req_data m)) reqs))
    as (ks3 & ls3 & s3 & E5 & _ & Hw5); try done.
  { destruct Hserved as [Hok ? ?]. split; [by apply (ok_kern _ ks)|done..]. }
  { by apply proper_sendable. } { fold (frames_of reqs). lia. } { fold (frames_of reqs). lia. }
  exists ks3, ls3, s3. split; [done|]. intros ks4 Hroom4. destruct (Hw5 ks4 Hroom4) as (w5 & E6 & Hs6 & Hok6).
  exists w5. split_and!; [done..|]. rewrite <-answers_wire in Hn2 |- *. intros kc4 Hi4 He4 HT4.
  assert (registered sfd c3 = register_all reqs (registered sfd c)) as Hreg by (by rewrite Hr3, Hr1).
  destruct (read_link T run_cb HTf Hr fuel ep sfd node kc4 lc3 c c3 lc (answers reqs))
    as (kc6 & lc6 & c6 & E7 & Hrest6 & HT6 & _ & Hf6 & Hreg6); try done; try lia.
  { apply (waiting_registered sfd reqs c); [by apply Hrest|done|done|by apply Hl3]. }
  { by apply answers_sendable. }
  exists kc6, lc6, c6. split_and!; [done| |done| |].
  - by rewrite <-(calls_back_eq sfd c3 (registered sfd c)).
  - intros m Hm. rewrite Hreg6, registered_all. rewrite bool_decide_eq_true_2; [done|].
    unfold answers. rewrite map_map. by apply (list_elem_of_fmap_2 req_id).
  - intros m f Hm Hcb. rewrite Hf6. apply (dispatch_results sfd (answers reqs) answer_text (req_id m)).
    + intros p (m' & -> & _)%list_elem_of_fmap. done.
    + unfold answers. rewrite map_map. by apply (list_elem_of_fmap_2 req_id).
    + rewrite Hreg, register_all_in by done. by rewrite Hcb.
Qed.

Lemma request_response_witness :
  let requests := frames_of two_requests in
  let responses := wire (answers two_requests) in
  let room := set_out ∅ [1024] sim_empty in
  let receives b := set_inq {[7 := b]} sim_empty in
  ∃ lc1 c1 kc1 kc3 lc3 c3 ks3 ls3 s3 w5 kc6 lc6 c6,
    send_each 0 two_requests (client_world sim_empty) = Ret [true; true] (World kc1 lc1 c1) ∧
    SocketClient.write 81 4 7 (World room lc1 c1) = Ret tt (World kc3 lc3 c3) ∧
    sent 7 kc3 = requests ∧
    SocketServer.read sserver_handler 2000 7 (server_world (receives requests)) = Ret tt (World ks3 ls3 s3) ∧
    SocketServer.write 97 7 (World room ls3 s3) = Ret tt w5 ∧ sent 7 (kern w5) = responses ∧
    SocketClient.read mark_cb 2000 4 7 (World (receives responses) lc3 c3) = Ret tt (World kc6 lc6 c6) ∧
    marked [(5%nat, str "no way bro")] kc6 ∧
    SocketClient.frames c6 !! 0%nat = Some (Frame true (str "no way bro") true).
Proof.
  intros requests responses room receives.
  assert (roomy 7 1 room) as Hroom by (by apply sim_roomy).
  destruct (request_response marked mark_cb 1 2000 0 4 7 host_a 7 sim_empty no_locks sample_client
    (receives requests) sample_locks sample_server two_requests)
    as (kc1 & lc1 & c1 & E1 & H2).
  - apply marked_untouched.
  - apply marked_returns.
  - apply sample_at_rest.
  - lia.
  - reflexivity.
  - apply sample_served.
  - apply two_proper.
  - apply (bool_decide_unpack _). vm_compute. reflexivity.
  - intros m f. unfold two_requests. rewrite !elem_of_cons, elem_of_nil.
    intros [->|[->|[]]]; [done|]. intros [= <-]. by eexists.
  - vm_compute. discriminate.
  - vm_compute. discriminate.
  - reflexivity.
  - destruct (H2 room Hroom) as (kc3 & lc3 & c3 & E3 & S3 & H4).
    destruct (H4 (receives requests) eq_refl eq_refl) as (ks3 & ls3 & s3 & E5 & H6).
    destruct (H6 room Hroom) as (w5 & E7 & S7 & _ & H8).
    destruct (H8 (receives responses) eq_refl eq_refl eq_refl) as (kc6 & lc6 & c6 & E9 & HT & _ & _ & Hf).
    exists lc1, c1, kc1, kc3, lc3, c3, ks3, ls3, s3, w5, kc6, lc6, c6.
    split_and!; [exact E1|exact E3|exact S3|exact E5|exact E7|exact S7|exact E9|exact HT|].
    apply (Hf (other_id, str "ho", BlockCb 0)); [by right; left|reflexivity].
Defined.
