(* ===== verification/Http.v ===== *)
(** * The HTTP server

    Models [http_request.cpp], [http_response.cpp], [http_wrapper.cpp],
    [http_server.cpp] and [default_handler.cpp] of [src/src/main/cpp/common/].
    libmicrohttpd is a parameter: its calls that only work on its own state are
    the operations of [MHD], and the three that may call back into the server are
    arguments of the hook: the iteration over a request's values, the parsing of posted
    data, and the destruction of a post processor, which hands out what the parser still
    holds.  The request and response objects live in the heap of
    wrappers, reached through the pointer that libmicrohttpd keeps for each
    request. *)

From S2P Require Import Prelude.

Definition MHD_YES : Z := 1.
Definition MHD_NO : Z := 0.
Definition UINT64_MAX : Z := 2 ^ 64 - 1.

(** ** [HttpRequest] *)
Module HttpRequest.

(** [post_processor] has no value until it is set; then it is a pointer, or
    NULL.  The pointers kept in [props] are numbers, 0 for NULL. *)
Record http_request := Make {
  get_args : gmap bytes bytes;
  props : gmap bytes Z;
  has_post_data : bool;
  post_processor : option (option nat)
}.

Definition request_new : http_request := Make ∅ ∅ false None.

Definition add_arg (key value : bytes) (r : http_request) : http_request :=
  Make (<[key := value]> (get_args r)) (props r) (has_post_data r) (post_processor r).

Definition map_lookup (key : bytes) (m : gmap bytes bytes) : bytes :=
  match m !! key with Some v => v | None => [] end.

Definition get_arg (key : bytes) (r : http_request) : bytes := map_lookup key (get_args r).

Definition get_get_args (r : http_request) : gmap bytes bytes := get_args r.

Definition set_has_post_data (b : bool) (r : http_request) : http_request :=
  Make (get_args r) (props r) b (post_processor r).

Definition get_has_post_data (r : http_request) : bool := has_post_data r.

Definition set_post_processor (p : option nat) (r : http_request) : http_request :=
  Make (get_args r) (props r) (has_post_data r) (Some p).

Definition get_post_processor {S} (r : http_request) : M S (option nat) := assume (post_processor r).

Definition set_prop (key : bytes) (value : Z) (r : http_request) : http_request :=
  Make (get_args r) (<[key := value]> (props r)) (has_post_data r) (post_processor r).

Definition get_prop (key : bytes) (r : http_request) : Z :=
  match props r !! key with Some v => v | None => 0 end.

End HttpRequest.

(** ** [HttpResponse], its data *)
Module HttpResponse.

Record http_response := Make {
  headers : gmap bytes bytes;
  data_buffer : bytes;
  connection : Z;
  mhd_result : Z
}.

Definition response_new (connection : Z) : http_response := Make ∅ [] connection MHD_NO.

Definition add_header (key value : bytes) (r : http_response) : http_response :=
  Make (<[key := value]> (headers r)) (data_buffer r) (connection r) (mhd_result r).

Definition add_to_buffer (data : bytes) (r : http_response) : http_response :=
  Make (headers r) (data_buffer r ++ data) (connection r) (mhd_result r).

Definition get_data_buffer (r : http_response) : bytes := data_buffer r.

Definition set_mhd_result (z : Z) (r : http_response) : http_response :=
  Make (headers r) (data_buffer r) (connection r) z.

Definition get_mhd_result (r : http_response) : Z := mhd_result r.

End HttpResponse.

(** ** libmicrohttpd *)
Class MHD (K : Type) := {
  MHD_create_post_processor (connection buffer_size : Z) : K → option nat * K;
  MHD_create_response_from_buffer (data : bytes) : K → nat * K;
  MHD_queue_response (connection status_code : Z) (response : nat) : K → Z * K;
  MHD_destroy_response (response : nat) : K → K
}.

(** The arguments of the iterator over posted data; a C string may be NULL, and
    [data] points to [size] characters. *)
Record piece := Piece {
  p_filename : option bytes;
  p_content_type : option bytes;
  p_transfer_encoding : option bytes;
  p_data : option bytes;
  p_off : Z;
  p_size : Z
}.

(** ** [Wrapper] and [HttpServer], their data

    The server keeps pointers to its handlers: [H] is the type of these. *)
Record wrapper := Wrapper { request : HttpRequest.http_request; response : HttpResponse.http_response }.

Record http_server (H : Type) := HttpServer {
  hs_port : Z;
  tpool_size : Z;
  data_steam_buffer : Z;
  endpoint_handlers : gmap bytes H
}.
Arguments HttpServer {H} _ _ _ _.
Arguments hs_port {H} _.
Arguments tpool_size {H} _.
Arguments data_steam_buffer {H} _.
Arguments endpoint_handlers {H} _.

Record http (K H : Type) := Http {
  mhd : K;
  wrappers : gmap nat wrapper;
  next_wrapper : nat;
  the_server : http_server H
}.
Arguments Http {K H} _ _ _ _.
Arguments mhd {K H} _.
Arguments wrappers {K H} _.
Arguments next_wrapper {K H} _.
Arguments the_server {K H} _.

Section http.
Context {K H : Type} `{MHD K}.
Abbreviation st := (http K H).

(** An [HttpRequestHandler]: its two virtual functions get the request and the
    response by reference, here by the wrapper that owns both. *)
Record HttpRequestHandler := {
  handle : nat → M st Z;
  handle_streaming_data :
    nat → bytes → bytes → bytes → option bytes → Z → Z → M st Z
}.

Definition mhd_call {A} (f : K → A * K) : M st A := λ s,
  let '(a, k) := f (mhd s) in Ret a (Http k (wrappers s) (next_wrapper s) (the_server s)).

Definition set_wrappers (m : gmap nat wrapper) (s : st) : st :=
  Http (mhd s) m (next_wrapper s) (the_server s).

Definition request_ref (p : nat) : ref st HttpRequest.http_request :=
  Ref (λ s, request <$> wrappers s !! p)
    (λ r s, set_wrappers (alter (λ w, Wrapper r (response w)) p (wrappers s)) s).

Definition response_ref (p : nat) : ref st HttpResponse.http_response :=
  Ref (λ s, response <$> wrappers s !! p)
    (λ r s, set_wrappers (alter (λ w, Wrapper (request w) r) p (wrappers s)) s).

(** A method that changes the object it is called on. *)
Definition on {T} (r : ref st T) (f : T → T) : M st unit := x ← load r; store r (f x).

(** [new Wrapper(server, request, response)]. *)
Definition new_wrapper (req : HttpRequest.http_request) (resp : HttpResponse.http_response) : M st nat := λ s,
  let p := next_wrapper s in
  Ret p (Http (mhd s) (<[p := Wrapper req resp]> (wrappers s)) (Datatypes.S p) (the_server s)).

(** [delete wrapper], which deletes the request and the response. *)
Definition delete_wrapper (p : nat) : M st unit := λ s,
  match wrappers s !! p with
  | Some _ => Ret tt (set_wrappers (delete p (wrappers s)) s)
  | None => Undef
  end.

(** [HttpResponse::write_data]. *)
Definition write_data (p : nat) (data : bytes) (status_code : Z) (is_error : bool) : M st unit :=
  mhd_response ← mhd_call (MHD_create_response_from_buffer data);
  r ← load (response_ref p);
  q ← mhd_call (MHD_queue_response (HttpResponse.connection r) status_code mhd_response);
  on (response_ref p) (HttpResponse.set_mhd_result q);;
  mhd_call (λ k, (tt, MHD_destroy_response mhd_response k));;
  on (response_ref p) (HttpResponse.set_mhd_result (if is_error then MHD_NO else MHD_YES)).

(** ** [HttpServer] *)
Section server.
Context (handler_of : H → HttpRequestHandler).

Definition register_handler (path : bytes) (h : H) : M st unit :=
  modify (λ s, let v := the_server s in
    Http (mhd s) (wrappers s) (next_wrapper s)
      (HttpServer (hs_port v) (tpool_size v) (data_steam_buffer v)
         (<[path := h]> (endpoint_handlers v)))).

Definition get_ds_buffer_size : M st Z := gets (λ s, data_steam_buffer (the_server s)).

Definition find_handler (p : nat) : M st (option H) :=
  r ← load (request_ref p);
  m ← gets (λ s, endpoint_handlers (the_server s));
  mret (m !! HttpRequest.get_arg (str "req_url") r).

(** [front_controller] for requests without posted data. *)
Definition front_controller (p : nat) : M st Z :=
  got ← find_handler p;
  match got with
  | Some h => handle (handler_of h) p
  | None => mret MHD_NO
  end.

(** [std::string(s)] for a C string that must not be NULL. *)
Definition std_string (s : option bytes) : M st bytes := assume s.

(** [front_controller] for posted data; the third string is made from
    [filename] when [transfer_encoding] is given. *)
Definition front_controller_post (p : nat) (filename content_type transfer_encoding : option bytes)
    (data : option bytes) (off size : Z) : M st Z :=
  got ← find_handler p;
  match got with
  | Some h =>
      f ← std_string (match filename with None => Some [] | _ => filename end);
      c ← std_string (match content_type with None => Some [] | _ => content_type end);
      e ← std_string (match transfer_encoding with None => Some [] | _ => filename end);
      handle_streaming_data (handler_of h) p f c e data off size
  | None => mret MHD_NO
  end.

(** The iterators that libmicrohttpd calls back. *)
Definition request_arg_builder (req : HttpRequest.http_request) (key : bytes) (value : option bytes)
    : M st HttpRequest.http_request :=
  v ← std_string value; mret (HttpRequest.add_arg key v req).

Definition post_processor (p : nat) (x : piece) : M st Z :=
  front_controller_post p (p_filename x) (p_content_type x) (p_transfer_encoding x)
    (p_data x) (p_off x) (p_size x).

(** [MHD_get_connection_values] with the iterator's closure threaded through,
    [MHD_post_process] and [MHD_destroy_post_processor].  The post processor was made with
    the iterator [post_processor] of the wrapper; the iterator is an argument of the two
    calls that run it. *)
Context (MHD_get_connection_values :
  Z → (bytes → option bytes → HttpRequest.http_request → M st HttpRequest.http_request) → HttpRequest.http_request → M st HttpRequest.http_request).
Context (MHD_post_process : (piece → M st Z) → option nat → bytes → M st Z).
Context (MHD_destroy_post_processor : (piece → M st Z) → option nat → M st Z).

(** The hook: [ptr] and [upload_data_size] are its two pointer arguments, and are
    returned as it leaves them, after its result. *)
Definition front_controller_c_hook (connection : Z) (url method : bytes) (upload_data : bytes)
    (upload_data_size : Z) (ptr : option nat) : M st (Z * Z * option nat) :=
  match ptr with
  | None =>
      req ← MHD_get_connection_values connection (λ k v r, request_arg_builder r k v) HttpRequest.request_new;
      let req := HttpRequest.add_arg (str "req_url") url req in
      let req := HttpRequest.add_arg (str "method") method req in
      p ← new_wrapper req (HttpResponse.response_new connection);
      size ← get_ds_buffer_size;
      pp ← mhd_call (MHD_create_post_processor connection size);
      on (request_ref p) (HttpRequest.set_post_processor pp);;
      mret (MHD_YES, upload_data_size, Some p)
  | Some p =>
      if negb (upload_data_size =? 0) then
        r ← load (request_ref p);
        (if negb (HttpRequest.get_has_post_data r)
         then on (request_ref p) (HttpRequest.set_has_post_data true) else mret tt);;
        r ← load (request_ref p);
        pp ← HttpRequest.get_post_processor r;
        process_result ← MHD_post_process (post_processor p) pp
                           (take (Z.to_nat upload_data_size) upload_data);
        if negb (process_result =? MHD_NO) then mret (MHD_YES, 0, Some p)
        else
          resp ← load (response_ref p);
          delete_wrapper p;;
          mret (HttpResponse.get_mhd_result resp, upload_data_size, None)
      else
        r ← load (request_ref p);
        (if negb (HttpRequest.get_has_post_data r) then
           front_controller p;; mret tt
         else
           pp ← HttpRequest.get_post_processor r;
           MHD_destroy_post_processor (post_processor p) pp;;
           front_controller_post p None None None None UINT64_MAX 0;; mret tt);;
        resp ← load (response_ref p);
        delete_wrapper p;;
        mret (HttpResponse.get_mhd_result resp, upload_data_size, None)
  end.
End server.

(** ** [DefaultHandler]

    [iterate] is the order in which a hash map is walked. *)
Context (iterate : gmap bytes bytes → list (bytes * bytes)).

Definition greeting : bytes :=
  str "libcpphttpd is alive yo! here is what you sent me bro..." ++ [NL; NL].

Definition arg_line (a : bytes * bytes) : bytes := str " " ++ a.1 ++ str ":" ++ a.2 ++ [NL].

Definition build_response (p : nat) : M st unit :=
  on (response_ref p) (HttpResponse.add_header (str "Content-Type") (str "text/html"));;
  r ← load (request_ref p);
  let args := HttpRequest.get_get_args r in
  let data := greeting ++ [NL] ++ str "HEADERS and GET args:" ++ [NL] in
  let data := foldl (λ data a, data ++ arg_line a) data (iterate args) in
  on (response_ref p) (HttpResponse.add_to_buffer data).

Definition write_buffer (p : nat) : M st unit :=
  r ← load (response_ref p);
  write_data p (HttpResponse.get_data_buffer r) 200 false.

Definition default_handle (p : nat) : M st Z :=
  build_response p;; write_buffer p;; mret MHD_YES.

(** [std::string(data)]: the characters up to the first NUL, which has to be
    there. *)
Fixpoint c_string {S} (data : bytes) : M S bytes :=
  match data with
  | [] => undef
  | c :: data' => if Ascii.eqb c NUL then mret [] else l ← c_string data'; mret (c :: l)
  end.

Definition default_handle_streaming_data (p : nat) (filename content_type transfer_encoding : bytes)
    (data : option bytes) (off size : Z) : M st Z :=
  (if off =? 0 then
     build_response p;;
     on (response_ref p) (HttpResponse.add_to_buffer ([NL; NL] ++ str " POST data:" ++ [NL]))
   else mret tt);;
  match data with
  | Some d => l ← c_string d; on (response_ref p) (HttpResponse.add_to_buffer l)
  | None => mret tt
  end;;
  (if size =? 0 then write_buffer p else mret tt);;
  mret MHD_YES.

Definition DefaultHandler : HttpRequestHandler :=
  {| handle := default_handle; handle_streaming_data := default_handle_streaming_data |}.
End http.

(** ** Lemmas *)
Section lemmas.
Context {K H : Type} `{MHD K}.
Abbreviation st := (http K H).
Implicit Types (s : st) (w : wrapper).

Definition set_wrapper (p : nat) w s : st := set_wrappers (<[p := w]> (wrappers s)) s.

Lemma on_request_run p f s w :
  wrappers s !! p = Some w →
  on (request_ref p) f s = Ret tt (set_wrapper p (Wrapper (f (request w)) (response w)) s).
Proof.
  intros Hw. unfold on. erewrite bind_run by (apply load_run; cbn; by rewrite Hw).
  erewrite store_run by (cbn; by rewrite Hw). cbn. by rewrite (alter_as_insert _ _ _ _ Hw).
Qed.

Lemma on_response_run p f s w :
  wrappers s !! p = Some w →
  on (response_ref p) f s = Ret tt (set_wrapper p (Wrapper (request w) (f (response w))) s).
Proof.
  intros Hw. unfold on. erewrite bind_run by (apply load_run; cbn; by rewrite Hw).
  erewrite store_run by (cbn; by rewrite Hw). cbn. by rewrite (alter_as_insert _ _ _ _ Hw).
Qed.

Lemma load_request_run p s w :
  wrappers s !! p = Some w → load (request_ref p) s = Ret (request w) s.
Proof. intros Hw. apply load_run. cbn. by rewrite Hw. Qed.

Lemma load_response_run p s w :
  wrappers s !! p = Some w → load (response_ref p) s = Ret (response w) s.
Proof. intros Hw. apply load_run. cbn. by rewrite Hw. Qed.

Lemma lookup_set_wrapper p w s : wrappers (set_wrapper p w s) !! p = Some w.
Proof. cbn. by rewrite lookup_insert_eq. Qed.

Lemma set_set_wrapper p w w' s : set_wrapper p w (set_wrapper p w' s) = set_wrapper p w s.
Proof. unfold set_wrapper, set_wrappers. cbn. by rewrite insert_insert_eq. Qed.

Lemma bind_mhd_call {A B} (f : K → A * K) (k : A → M st B) s :
  (mhd_call f ≫= k) s =
  k (f (mhd s)).1 (Http (f (mhd s)).2 (wrappers s) (next_wrapper s) (the_server s)).
Proof. rewrite bind_unfold. unfold mhd_call. by destruct (f (mhd s)). Qed.

(** What libmicrohttpd is asked to do for one response. *)
Definition respond (connection status : Z) (data : bytes) (k : K) : K :=
  let '(r, k1) := MHD_create_response_from_buffer data k in
  let '(_, k2) := MHD_queue_response connection status r k1 in
  MHD_destroy_response r k2.

Lemma write_data_run p data status is_error s w :
  wrappers s !! p = Some w →
  write_data p data status is_error s =
  Ret tt (set_wrapper p (Wrapper (request w)
            (HttpResponse.set_mhd_result (if is_error then MHD_NO else MHD_YES) (response w)))
            (Http (respond (HttpResponse.connection (response w)) status data (mhd s)) (wrappers s)
               (next_wrapper s) (the_server s))).
Proof.
  intros Hw. unfold write_data, respond. rewrite bind_mhd_call.
  destruct (MHD_create_response_from_buffer data (mhd s)) as [r k1]. cbn [fst snd].
  erewrite bind_run by (apply load_response_run; exact Hw). rewrite bind_mhd_call. cbn [mhd].
  destruct (MHD_queue_response _ status r k1) as [q k2]. cbn [fst snd].
  erewrite bind_run by (apply on_response_run; exact Hw). rewrite bind_mhd_call. cbn [fst snd mhd].
  erewrite on_response_run by (cbn; by rewrite lookup_insert_eq). cbn.
  unfold set_wrapper, set_wrappers. cbn. by rewrite insert_insert_eq.
Qed.

(** The page of the default handler. *)
Definition page (args : list (bytes * bytes)) : bytes :=
  greeting ++ [NL] ++ str "HEADERS and GET args:" ++ [NL] ++ concat (map arg_line args).

Lemma fold_lines data args :
  foldl (λ data a, data ++ arg_line a) data args = data ++ concat (map arg_line args).
Proof.
  revert data. induction args as [|a args IH]; intros data; cbn; [by rewrite app_nil_r|].
  by rewrite IH, <-app_assoc.
Qed.

Context (iterate : gmap bytes bytes → list (bytes * bytes)).

Definition with_page (w : wrapper) : wrapper :=
  Wrapper (request w)
    (HttpResponse.add_to_buffer (page (iterate (HttpRequest.get_args (request w))))
       (HttpResponse.add_header (str "Content-Type") (str "text/html") (response w))).

Lemma build_response_run p s w :
  wrappers s !! p = Some w →
  build_response iterate p s = Ret tt (set_wrapper p (with_page w) s).
Proof.
  intros Hw. unfold build_response.
  erewrite bind_run by (apply on_response_run; exact Hw).
  erewrite bind_run by (apply load_request_run, lookup_set_wrapper).
  erewrite on_response_run by apply lookup_set_wrapper.
  rewrite set_set_wrapper. unfold with_page, HttpRequest.get_get_args. cbn [request response].
  rewrite fold_lines. unfold page. by rewrite <-!app_assoc.
Qed.

(** The wrapper and libmicrohttpd after the buffer has been sent. *)
Definition answered (w : wrapper) : wrapper :=
  Wrapper (request w) (HttpResponse.set_mhd_result MHD_YES (response w)).

Definition answer (w : wrapper) (k : K) : K :=
  respond (HttpResponse.connection (response w)) 200 (HttpResponse.data_buffer (response w)) k.

Lemma write_buffer_run p s w :
  wrappers s !! p = Some w →
  write_buffer p s =
  Ret tt (set_wrapper p (answered w)
            (Http (answer w (mhd s)) (wrappers s) (next_wrapper s) (the_server s))).
Proof.
  intros Hw. unfold write_buffer.
  erewrite bind_run by (apply load_response_run; exact Hw). by apply write_data_run.
Qed.

Lemma default_handle_run p s w :
  wrappers s !! p = Some w →
  default_handle iterate p s =
  Ret MHD_YES (set_wrapper p (answered (with_page w))
                 (Http (answer (with_page w) (mhd s)) (wrappers s) (next_wrapper s) (the_server s))).
Proof.
  intros Hw. unfold default_handle.
  erewrite bind_run by (apply build_response_run; exact Hw).
  erewrite bind_run by apply write_buffer_run, lookup_set_wrapper.
  unfold set_wrapper, set_wrappers. cbn. by rewrite insert_insert_eq.
Qed.

(** ** One piece of posted data *)
Definition post_header : bytes := [NL; NL] ++ str " POST data:" ++ [NL].

Definition add_text (l : bytes) (w : wrapper) : wrapper :=
  Wrapper (request w) (HttpResponse.add_to_buffer l (response w)).

(** The text of a piece: up to the first NUL. *)
Fixpoint text_of (data : bytes) : bytes :=
  match data with
  | [] => []
  | c :: data' => if Ascii.eqb c NUL then [] else c :: text_of data'
  end.

Lemma c_string_run {S} data (s : S) : NUL ∈ data → c_string data s = Ret (text_of data) s.
Proof.
  induction data as [|c data IH]; [by intros ?%elem_of_nil|]. cbn. intros Hin.
  destruct (Ascii.eqb_spec c NUL) as [->|Hc]; [done|].
  apply elem_of_cons in Hin as [Hc'|Hin]; [done|]. by run_with (IH Hin).
Qed.

Lemma c_string_undef {S} data (s : S) : NUL ∉ data → c_string data s = Undef.
Proof.
  induction data as [|c data IH]; [done|]. intros [Hc Hn]%not_elem_of_cons. cbn.
  destruct (Ascii.eqb_spec c NUL); [done|]. by rewrite bind_unfold, IH.
Qed.

(** What a call with a piece of data does: the wrapper, when there is more to come, and
    libmicrohttpd, when the size is 0, which the handler takes for the end. *)
Definition after_piece (off : Z) (text : bytes) (w : wrapper) : wrapper :=
  add_text text (if off =? 0 then add_text post_header (with_page w) else w).

Definition take_piece (off size : Z) (text : bytes) (wk : wrapper * K) : wrapper * K :=
  let w := after_piece off text wk.1 in
  if size =? 0 then (answered w, answer w wk.2) else (w, wk.2).

(** The text of the data, none if there is none. *)
Definition data_text (d : option bytes) : bytes := match d with Some l => text_of l | None => [] end.

Definition with_mhd (k : K) s : st := Http k (wrappers s) (next_wrapper s) (the_server s).

Definition set_both (p : nat) (wk : wrapper * K) s : st := with_mhd wk.2 (set_wrapper p wk.1 s).

Lemma lookup_set_both p wk s : wrappers (set_both p wk s) !! p = Some wk.1.
Proof. apply lookup_insert_eq. Qed.

Lemma set_set_both p wk wk' s : set_both p wk (set_both p wk' s) = set_both p wk s.
Proof. unfold set_both, with_mhd, set_wrapper, set_wrappers. cbn. by rewrite insert_insert_eq. Qed.

Lemma set_both_same p s w : wrappers s !! p = Some w → set_both p (w, mhd s) s = s.
Proof.
  intros Hw. unfold set_both, with_mhd, set_wrapper, set_wrappers. cbn. rewrite insert_id by done. by destruct s.
Qed.

Lemma add_no_text w : add_text [] w = w.
Proof.
  destruct w as [r [h d c m]]. unfold add_text, HttpResponse.add_to_buffer. cbn. by rewrite app_nil_r.
Qed.

(** The three parts of the default handler's function for posted data. *)
Lemma default_page_run p off s w :
  wrappers s !! p = Some w →
  (if off =? 0 then
     build_response iterate p;;
     on (response_ref p) (HttpResponse.add_to_buffer post_header)
   else mret tt) s =
  Ret tt (set_wrapper p (if off =? 0 then add_text post_header (with_page w) else w) s).
Proof.
  intros Hw. destruct (off =? 0).
  - erewrite bind_run by (apply build_response_run; exact Hw).
    rewrite (on_response_run p _ _ _ (lookup_set_wrapper _ _ _)), set_set_wrapper. done.
  - unfold set_wrapper, set_wrappers. rewrite insert_id by done. by destruct s.
Qed.

Lemma default_text_run p d s w :
  wrappers s !! p = Some w → (∀ l, d = Some l → NUL ∈ l) →
  match d with
  | Some d => l ← c_string d; on (response_ref p) (HttpResponse.add_to_buffer l)
  | None => mret tt
  end s = Ret tt (set_wrapper p (add_text (data_text d) w) s).
Proof.
  intros Hw Hd. destruct d as [d|]; cbn [data_text].
  - run_with (c_string_run d s (Hd d eq_refl)). by apply on_response_run.
  - rewrite add_no_text. unfold set_wrapper, set_wrappers. rewrite insert_id by done. by destruct s.
Qed.

Lemma default_piece_run p f c e d off size s w :
  wrappers s !! p = Some w → (∀ l, d = Some l → NUL ∈ l) →
  default_handle_streaming_data iterate p f c e d off size s =
  Ret MHD_YES (set_both p (take_piece off size (data_text d) (w, mhd s)) s).
Proof.
  intros Hw Hd. unfold default_handle_streaming_data, take_piece, after_piece. cbn [fst snd].
  set (w1 := if off =? 0 then add_text post_header (with_page w) else w).
  run_with (default_page_run p off s w Hw). fold w1.
  run_with (default_text_run p d _ w1 (lookup_set_wrapper _ _ s) Hd). rewrite set_set_wrapper.
  destruct (size =? 0).
  - run_with (write_buffer_run p _ _ (lookup_set_wrapper p (add_text (data_text d) w1) s)).
    unfold set_both, with_mhd, set_wrapper, set_wrappers. cbn. by rewrite insert_insert_eq.
  - done.
Qed.
End lemmas.
