(* ===== verification/HttpProofs.v ===== *)
(** * Correctness of the HTTP server

    The life of a request: the first call of the hook, the calls with posted data,
    the last call.  What libmicrohttpd does is a hypothesis where it calls back:
    it gives the iterator of the request's values each of them, and the iterator
    of posted data the pieces of the data until one is refused, in the calls that hand
    it data and in the one that destroys the post processor.  How it cuts data into
    pieces may depend on what came before. *)

From S2P Require Import Prelude Http.

(** libmicrohttpd's loop over the pieces of a chunk of posted data. *)
Fixpoint post_pieces {S} (hook : piece → M S Z) (l : list piece) : M S Z :=
  match l with
  | [] => mret MHD_YES
  | x :: l' => r ← hook x; if r =? MHD_NO then mret MHD_NO else post_pieces hook l'
  end.

(** Data that is a C string, or absent. *)
Definition terminated (d : option bytes) : Prop := ∀ data, d = Some data → NUL ∈ data.

(** The headers and arguments that libmicrohttpd has read on a connection. *)
Definition iterates_values {K H}
    (get_values : Z → (bytes → option bytes → HttpRequest.http_request → M (http K H) HttpRequest.http_request) →
                  HttpRequest.http_request → M (http K H) HttpRequest.http_request)
    (values : K → Z → list (bytes * option bytes)) : Prop :=
  ∀ conn it r s, get_values conn it r s = fold_m (λ kv r, it kv.1 kv.2 r) (values (mhd s) conn) r s.

(** What libmicrohttpd makes of a chunk of posted data, with the state its parser is in:
    the pieces, its own result, which is [MHD_NO] for data it cannot parse, and its
    state afterwards. *)
Definition iterates_pieces {K H}
    (post_process : (piece → M (http K H) Z) → option nat → bytes → M (http K H) Z)
    (parse : option nat → bytes → K → list piece * Z * K) : Prop :=
  ∀ hook pp data s, post_process hook pp data s =
    let '(l, result, k) := parse pp data (mhd s) in
    (r ← post_pieces hook l; mret (if r =? MHD_NO then MHD_NO else result)) (with_mhd k s).

(** What it still hands out when it is destroyed, the value that no separator has ended, and
    its state afterwards; its result may be anything. *)
Definition iterates_flush {K H}
    (destroy : (piece → M (http K H) Z) → option nat → M (http K H) Z)
    (flush : option nat → K → list piece * K) : Prop :=
  ∀ hook pp s, let '(l, k) := flush pp (mhd s) in
    ∃ result, destroy hook pp s = (post_pieces hook l;; mret result) (with_mhd k s).

(** The request that the first call builds. *)
Definition request_of (args : list (bytes * bytes)) (url method : bytes) (pp : option nat)
    : HttpRequest.http_request :=
  HttpRequest.set_post_processor pp
    (HttpRequest.add_arg (str "method") method
       (HttpRequest.add_arg (str "req_url") url
          (foldl (λ r a, HttpRequest.add_arg a.1 a.2 r) HttpRequest.request_new args))).

Section hook.
Context {K H : Type} `{MHD K}.
Abbreviation st := (http K H).
Implicit Types (s : st) (w : wrapper).
Context (handler_of : H → HttpRequestHandler (K := K) (H := H)).
Context (get_values : Z → (bytes → option bytes → HttpRequest.http_request → M st HttpRequest.http_request) →
                      HttpRequest.http_request → M st HttpRequest.http_request).
Context (post_process : (piece → M st Z) → option nat → bytes → M st Z).
Context (destroy : (piece → M st Z) → option nat → M st Z).
Context (values : K → Z → list (bytes * option bytes)) (parse : option nat → bytes → K → list piece * Z * K).
Context (flush : option nat → K → list piece * K).
Hypothesis values_ok : iterates_values get_values values.
Hypothesis pieces_ok : iterates_pieces post_process parse.
Hypothesis flush_ok : iterates_flush destroy flush.

Abbreviation hook := (front_controller_c_hook handler_of get_values post_process destroy).

(** The calls libmicrohttpd makes for a request whose posted data comes in
    [chunks]: it goes on until a call refuses. *)
Fixpoint calls (conn : Z) (url method : bytes) (chunks : list bytes) (ptr : option nat)
    : M st (Z * option nat) :=
  match chunks with
  | [] =>
      r ← hook conn url method [] 0 ptr;
      let '(result, _, ptr') := r in mret (result, ptr')
  | c :: chunks' =>
      r ← hook conn url method c (len c) ptr;
      let '(result, _, ptr') := r in
      if result =? MHD_NO then mret (result, ptr') else calls conn url method chunks' ptr'
  end.

Definition whole_request (conn : Z) (url method : bytes) (chunks : list bytes)
    : M st (Z * option nat) :=
  r ← hook conn url method [] 0 None;
  let '(result, _, ptr) := r in
  if result =? MHD_NO then mret (result, ptr) else calls conn url method chunks ptr.

(** ** The first call *)
Lemma args_run (args : list (bytes * bytes)) r s :
  fold_m (λ (kv : bytes * option bytes) r, request_arg_builder r kv.1 kv.2)
    (map (λ a, (a.1, Some a.2)) args) r s =
  Ret (foldl (λ r a, HttpRequest.add_arg a.1 a.2 r) r args) s.
Proof. revert r. induction args as [|a args IH]; intros r; [done|]. apply IH. Qed.

Definition created (conn : Z) (s : st) : option nat * K :=
  MHD_create_post_processor conn (data_steam_buffer (the_server s)) (mhd s).

Definition opened (conn : Z) (args : list (bytes * bytes)) (url method : bytes) (s : st) : st :=
  Http (created conn s).2
    (<[next_wrapper s := Wrapper (request_of args url method (created conn s).1)
                           (HttpResponse.response_new conn)]> (wrappers s))
    (Datatypes.S (next_wrapper s)) (the_server s).

Lemma hook_first conn url method data n args s :
  values (mhd s) conn = map (λ a, (a.1, Some a.2)) args →
  hook conn url method data n None s =
  Ret (MHD_YES, n, Some (next_wrapper s)) (opened conn args url method s).
Proof.
  intros Hv. unfold front_controller_c_hook.
  erewrite bind_run by (rewrite values_ok, Hv; apply args_run). cbn zeta.
  rewrite bind_unfold. cbn [new_wrapper]. rewrite bind_unfold. cbn [get_ds_buffer_size gets].
  rewrite bind_mhd_call. cbn [mhd the_server wrappers next_wrapper].
  erewrite bind_run; [|eapply on_request_run; cbn; apply lookup_insert_eq].
  unfold opened, set_wrapper, set_wrappers, created. cbn. by rewrite insert_insert_eq.
Qed.

(** ** Routing *)
Lemma find_handler_run p s w :
  wrappers s !! p = Some w →
  find_handler p s =
  Ret (endpoint_handlers (the_server s) !! HttpRequest.get_arg (str "req_url") (request w)) s.
Proof.
  intros Hw. unfold find_handler. by erewrite bind_run by (apply load_request_run; exact Hw).
Qed.

Lemma request_url args url method pp :
  HttpRequest.get_arg (str "req_url") (request_of args url method pp) = url.
Proof.
  unfold HttpRequest.get_arg, HttpRequest.map_lookup. cbn.
  rewrite lookup_insert_ne by done. by rewrite lookup_insert_eq.
Qed.

Lemma request_no_post args url method pp :
  HttpRequest.has_post_data (request_of args url method pp) = false.
Proof.
  cbn. generalize (eq_refl : HttpRequest.has_post_data HttpRequest.request_new = false).
  generalize HttpRequest.request_new. induction args as [|a args IH]; intros r Hr; [done|]. by apply IH.
Qed.

Lemma delete_wrapper_run p s w :
  wrappers s !! p = Some w →
  delete_wrapper p s = Ret tt (set_wrappers (delete p (wrappers s)) s).
Proof. intros Hw. unfold delete_wrapper. by rewrite Hw. Qed.

(** The last call, for a request without posted data. *)
Lemma hook_last conn url method data p s w r s' w' :
  wrappers s !! p = Some w → HttpRequest.has_post_data (request w) = false →
  front_controller handler_of p s = Ret r s' → wrappers s' !! p = Some w' →
  hook conn url method data 0 (Some p) s =
  Ret (HttpResponse.mhd_result (response w'), 0, None) (set_wrappers (delete p (wrappers s')) s').
Proof.
  intros Hw Hp E Hw'. unfold front_controller_c_hook. cbn [Z.eqb negb].
  erewrite bind_run by (apply load_request_run; exact Hw).
  unfold HttpRequest.get_has_post_data. rewrite Hp. cbn [negb].
  rewrite bind_assoc. run_with E. rewrite bind_ret_l.
  erewrite bind_run by (apply load_response_run; exact Hw').
  by run_with (delete_wrapper_run p s' w' Hw').
Qed.

(** The last call, after posted data: the post processor hands out what it holds. *)
Lemma hook_last_post conn url method data p s w pp r1 s1 r s' w' :
  wrappers s !! p = Some w → HttpRequest.has_post_data (request w) = true →
  HttpRequest.post_processor (request w) = Some pp →
  post_pieces (post_processor handler_of p) (flush pp (mhd s)).1 (with_mhd (flush pp (mhd s)).2 s) = Ret r1 s1 →
  front_controller_post handler_of p None None None None UINT64_MAX 0 s1 = Ret r s' →
  wrappers s' !! p = Some w' →
  hook conn url method data 0 (Some p) s =
  Ret (HttpResponse.mhd_result (response w'), 0, None) (set_wrappers (delete p (wrappers s')) s').
Proof.
  intros Hw Hp Hpp E1 E Hw'. unfold front_controller_c_hook. cbn [Z.eqb negb].
  erewrite bind_run by (apply load_request_run; exact Hw).
  unfold HttpRequest.get_has_post_data, HttpRequest.get_post_processor. rewrite Hp, Hpp.
  cbn [negb assume]. rewrite !bind_assoc, bind_ret_l, !bind_assoc.
  pose proof (flush_ok (post_processor handler_of p) pp s) as Hf. destruct (flush pp (mhd s)) as [l k].
  destruct Hf as [result Hf]. revert Hf. cbn [fst snd] in E1. run_with E1. intros Hf. run_with Hf.
  rewrite !bind_assoc. run_with E. rewrite bind_ret_l.
  erewrite bind_run by (apply load_response_run; exact Hw').
  by run_with (delete_wrapper_run p s' w' Hw').
Qed.

(** A call with posted data. *)
Definition marked (w : wrapper) : wrapper :=
  Wrapper (HttpRequest.set_has_post_data true (request w)) (response w).

Lemma hook_data conn url method c p s w pp :
  wrappers s !! p = Some w → HttpRequest.post_processor (request w) = Some pp → c ≠ [] →
  hook conn url method c (len c) (Some p) s =
  (let '(l, result, k) := parse pp c (mhd s) in
   (r ← post_pieces (post_processor handler_of p) l;
    if negb ((if r =? MHD_NO then MHD_NO else result) =? MHD_NO) then mret (MHD_YES, 0, Some p)
    else resp ← load (response_ref p); delete_wrapper p;;
         mret (HttpResponse.get_mhd_result resp, len c, None)) (with_mhd k (set_wrapper p (marked w) s))).
Proof.
  intros Hw Hpp Hc. unfold front_controller_c_hook.
  assert (len c ≠ 0) as Hn by (destruct c; [done|cbn; lia]).
  rewrite (proj2 (Z.eqb_neq _ 0) Hn). cbn [negb].
  erewrite bind_run by (apply load_request_run; exact Hw).
  assert ((if negb (HttpRequest.get_has_post_data (request w))
           then on (request_ref p) (HttpRequest.set_has_post_data true) else mret tt) s =
          Ret tt (set_wrapper p (marked w) s)) as E.
  { destruct (HttpRequest.get_has_post_data (request w)) eqn:Eh; cbn [negb].
    - unfold set_wrapper, set_wrappers. rewrite insert_id; [by destruct s|].
      rewrite Hw. unfold marked. unfold HttpRequest.get_has_post_data in Eh.
      destruct w as [[] ?]. cbn in *. by subst.
    - by apply on_request_run. }
  run_with E.
  erewrite bind_run by apply load_request_run, lookup_set_wrapper.
  unfold HttpRequest.get_post_processor. cbn [marked request HttpRequest.set_has_post_data
    HttpRequest.post_processor]. rewrite Hpp. cbn [assume]. rewrite bind_ret_l.
  rewrite bind_unfold, pieces_ok, Nat2Z.id, firstn_all. cbn [mhd set_wrapper set_wrappers].
  destruct (parse pp c (mhd s)) as [[l result] k]. rewrite !bind_unfold.
  by destruct (post_pieces _ l _).
Qed.
(** ** Requests to the default handler *)
Section default.
Context (iterate : gmap bytes bytes → list (bytes * bytes)) (url : bytes) (h : H).
Hypothesis h_default : handler_of h = DefaultHandler iterate.

Definition routed s w : Prop :=
  endpoint_handlers (the_server s) !! url = Some h ∧
  HttpRequest.get_arg (str "req_url") (request w) = url.

Lemma front_default p s w :
  wrappers s !! p = Some w → routed s w →
  front_controller handler_of p s = default_handle iterate p s.
Proof.
  intros Hw [Hh Hu]. unfold front_controller. run_with (find_handler_run p s w Hw).
  by rewrite Hu, Hh, h_default.
Qed.

Lemma front_post_default p f c e d off size s w :
  wrappers s !! p = Some w → routed s w → (e = None ∨ is_Some f) →
  front_controller_post handler_of p f c e d off size s =
  default_handle_streaming_data iterate p (default [] f) (default [] c)
    (match e with None => [] | _ => default [] f end) d off size s.
Proof.
  intros Hw [Hh Hu] He. unfold front_controller_post. run_with (find_handler_run p s w Hw).
  rewrite Hu, Hh, h_default. unfold std_string.
  destruct f, c, e; cbn; try done; by destruct He as [?|[? ?]].
Qed.

(** A piece that the default handler can read: its data is a C string, if there is any,
    and the file name, which it gets for the transfer encoding, is not missing. *)
Definition readable (x : piece) : Prop :=
  terminated (p_data x) ∧ (p_transfer_encoding x = None ∨ is_Some (p_filename x)).

Definition take_data (wk : wrapper * K) (x : piece) : wrapper * K :=
  take_piece iterate (p_off x) (p_size x) (data_text (p_data x)) wk.

Lemma take_data_request wk x : request (take_data wk x).1 = request wk.1.
Proof. unfold take_data, take_piece, after_piece. by destruct (p_size x =? 0), (p_off x =? 0). Qed.

Lemma take_all_request wk l : request (foldl take_data wk l).1 = request wk.1.
Proof.
  revert wk. induction l as [|x l IH]; intros wk; [done|]. cbn. by rewrite IH, take_data_request.
Qed.

Lemma piece_run p x s w :
  wrappers s !! p = Some w → routed s w → readable x →
  post_processor handler_of p x s = Ret MHD_YES (set_both p (take_data (w, mhd s) x) s).
Proof.
  intros Hw Hr [Hd He]. unfold post_processor. rewrite (front_post_default p _ _ _ _ _ _ s w Hw Hr He).
  by apply default_piece_run.
Qed.

Lemma pieces_run p l s w :
  wrappers s !! p = Some w → routed s w → Forall readable l →
  post_pieces (post_processor handler_of p) l s =
  Ret MHD_YES (set_both p (foldl take_data (w, mhd s) l) s).
Proof.
  intros Hw Hr Hl. revert s w Hw Hr. induction Hl as [|x l Hx _ IH]; intros s w Hw Hr; cbn [post_pieces foldl].
  - by rewrite set_both_same.
  - run_with (piece_run p x s w Hw Hr Hx). cbn [Z.eqb MHD_YES MHD_NO].
    rewrite (IH _ (take_data (w, mhd s) x).1).
    + rewrite set_set_both. by rewrite <-surjective_pairing.
    + apply lookup_set_both.
    + destruct Hr. split; [done|]. by rewrite take_data_request.
Qed.

(** What the hook does itself at the end of posted data. *)
Definition last_piece : piece := Piece None None None None UINT64_MAX 0.

Lemma last_readable : readable last_piece.
Proof. split; [done|by left]. Qed.

(** The text that a piece adds to the answer. *)
Definition piece_body (args : gmap bytes bytes) (x : piece) : bytes :=
  (if p_off x =? 0 then page (iterate args) ++ post_header else []) ++ data_text (p_data x).

Lemma take_data_body wk x :
  let body := HttpResponse.data_buffer (response wk.1) ++ piece_body (HttpRequest.get_args (request wk.1)) x in
  HttpResponse.data_buffer (response (take_data wk x).1) = body ∧
  HttpResponse.connection (response (take_data wk x).1) = HttpResponse.connection (response wk.1) ∧
  (take_data wk x).2 =
    (if p_size x =? 0 then respond (HttpResponse.connection (response wk.1)) 200 body wk.2 else wk.2).
Proof.
  unfold take_data, take_piece, after_piece, answer, piece_body.
  destruct (p_size x =? 0), (p_off x =? 0); cbn; by rewrite <-?app_assoc.
Qed.

(** The whole of a request without posted data. *)
Lemma default_get_run conn method args s :
  values (mhd s) conn = map (λ a, (a.1, Some a.2)) args →
  endpoint_handlers (the_server s) !! url = Some h →
  wrappers s !! next_wrapper s = None →
  whole_request conn url method [] s =
  Ret (MHD_YES, None)
    (Http (respond conn 200
             (page (iterate (HttpRequest.get_args (request_of args url method None))))
             (created conn s).2)
       (wrappers s) (Datatypes.S (next_wrapper s)) (the_server s)).
Proof.
  intros Hv Hh Hfresh. unfold whole_request.
  run_with (hook_first conn url method [] 0 args s Hv). cbn [Z.eqb MHD_YES MHD_NO calls].
  set (w := Wrapper (request_of args url method (created conn s).1) (HttpResponse.response_new conn)).
  assert (wrappers (opened conn args url method s) !! next_wrapper s = Some w) as Hw
    by apply lookup_insert_eq.
  assert (routed (opened conn args url method s) w) as Hr by (split; [done|apply request_url]).
  erewrite bind_run.
  2: { eapply (hook_last conn url method [] (next_wrapper s) _ w); [exact Hw|apply request_no_post| |].
       - rewrite (front_default _ _ w Hw Hr). by apply default_handle_run.
       - apply lookup_set_wrapper. }
  unfold set_wrapper, set_wrappers, opened. cbn.
  rewrite insert_insert_eq, delete_insert_id by done. done.
Qed.

End default.
End hook.

(** ** A libmicrohttpd to try the theorems on

    It keeps a record of what it was asked to do. *)
Inductive mhd_event :=
  | Created (pp : option nat)
  | Parsed (size : Z)
  | Destroyed (pp : option nat)
  | Queued (connection status : Z) (data : bytes).

#[export] Instance log_mhd : MHD (list mhd_event) := {
  MHD_create_post_processor c n k := (Some 0%nat, k ++ [Created (Some 0%nat)]);
  MHD_create_response_from_buffer d k := (0%nat, k ++ [Queued 0 0 d]);
  MHD_queue_response c status r k :=
    match last k with
    | Some (Queued _ _ d) => (MHD_YES, removelast k ++ [Queued c status d])
    | _ => (MHD_NO, k)
    end;
  MHD_destroy_response r k := k
}.

Definition sample_order (m : gmap bytes bytes) : list (bytes * bytes) := map_to_list m.

Definition sample_http : http (list mhd_event) unit :=
  Http [] ∅ 0 (HttpServer 8080 4 1024 {[str "/" := tt]}).

Definition sample_values (args : list (bytes * bytes)) {S} (conn : Z)
    (it : bytes → option bytes → HttpRequest.http_request → M S HttpRequest.http_request) (r : HttpRequest.http_request) :=
  fold_m (λ (kv : bytes * option bytes) r, it kv.1 kv.2 r) (map (λ a, (a.1, Some a.2)) args) r.

(** A form with the one field [x], for which alone there is room.  Each chunk is a piece of
    its value, unless it has nothing of the value.  The parser counts what it has handed
    out, here in the record, so that a piece has its offset.  No separator ends the value:
    when the post processor is destroyed, the iterator is called once more, with no
    characters, as libmicrohttpd does. *)
Definition seen (k : list mhd_event) : option Z :=
  foldl (λ n e, match e with Parsed m => Some (default 0 n + m) | _ => n end) None k.

Definition sample_piece (off : Z) (value : bytes) : piece :=
  Piece None None None (Some (value ++ [NUL])) off (len value).

Definition sample_parse (pp : option nat) (data : bytes) (k : list mhd_event)
    : list piece * Z * list mhd_event :=
  match seen k with
  | None =>
      if decide (take 2 data = str "x=") then
        let value := drop 2 data in
        (if decide (value = []) then [] else [sample_piece 0 value], MHD_YES, k ++ [Parsed (len value)])
      else ([], MHD_NO, k)
  | Some n => ([sample_piece n data], MHD_YES, k ++ [Parsed (len data)])
  end.

Definition sample_flush (pp : option nat) (k : list mhd_event) : list piece * list mhd_event :=
  (match seen k with Some n => [sample_piece n []] | None => [] end, k ++ [Destroyed pp]).

Definition sample_post {H} (it : piece → M (http (list mhd_event) H) Z) (pp : option nat) (data : bytes)
    : M (http (list mhd_event) H) Z := λ s,
  let '(l, result, k) := sample_parse pp data (mhd s) in
  (r ← post_pieces it l; mret (if r =? MHD_NO then MHD_NO else result)) (with_mhd k s).

Definition sample_destroy {H} (it : piece → M (http (list mhd_event) H) Z) (pp : option nat)
    : M (http (list mhd_event) H) Z := λ s,
  let '(l, k) := sample_flush pp (mhd s) in (post_pieces it l;; mret MHD_YES) (with_mhd k s).

Lemma sample_destroy_flushes {H} : iterates_flush (H := H) sample_destroy sample_flush.
Proof. intros hook pp s. by exists MHD_YES. Qed.

(** ** Properties *)

(** A request without posted data to a path of the default handler: it gets
    one response, with status 200 and a page that lists its headers and arguments,
    the path and the method; the hook reports success, and the request, the
    response and their wrapper are freed. *)
Theorem http_default_get {K H : Type} `{MHD K} handler_of get_values post_process destroy values
    iterate url (h : H) conn method args (s : http K H) :
  iterates_values get_values values → handler_of h = DefaultHandler iterate →
  values (mhd s) conn = map (λ a, (a.1, Some a.2)) args →
  endpoint_handlers (the_server s) !! url = Some h →
  wrappers s !! next_wrapper s = None →
  whole_request handler_of get_values post_process destroy conn url method [] s =
  Ret (MHD_YES, None)
    (Http (respond conn 200
             (page (iterate (HttpRequest.get_args (request_of args url method None))))
             (created conn s).2)
       (wrappers s) (Datatypes.S (next_wrapper s)) (the_server s)).
Proof. intros Hv Hd. by apply (default_get_run handler_of get_values post_process destroy values). Qed.

Lemma http_default_get_witness :
  whole_request (λ _ : unit, DefaultHandler sample_order) (sample_values [(str "a", str "1")])
    sample_post sample_destroy 5 (str "/") (str "GET") [] sample_http =
  Ret (MHD_YES, None)
    (Http [Created (Some 0%nat);
           Queued 5 200 (page (sample_order (HttpRequest.get_args
             (request_of [(str "a", str "1")] (str "/") (str "GET") None))))] ∅ 1
       (the_server sample_http)).
Proof.
  etransitivity; [apply (http_default_get (λ _ : unit, DefaultHandler sample_order)
    (sample_values [(str "a", str "1")]) sample_post sample_destroy
    (λ _ _, map (λ a, (a.1, Some a.2)) [(str "a", str "1")]) sample_order (str "/") tt 5 (str "GET")
    [(str "a", str "1")] sample_http); first [reflexivity|intros conn it r s; reflexivity]|vm_compute; reflexivity].
Defined.

(** A request for a path that nobody registered, without posted data, is
    refused, and libmicrohttpd is given no response; its wrapper is freed.  The
    post processor that was made for it is never destroyed. *)
Theorem http_unregistered {K H : Type} `{MHD K} handler_of get_values post_process destroy values
    url conn method args (s : http K H) :
  iterates_values get_values values →
  values (mhd s) conn = map (λ a, (a.1, Some a.2)) args →
  endpoint_handlers (the_server s) !! url = None →
  wrappers s !! next_wrapper s = None →
  whole_request handler_of get_values post_process destroy conn url method [] s =
  Ret (MHD_NO, None)
    (Http (MHD_create_post_processor conn (data_steam_buffer (the_server s)) (mhd s)).2
       (wrappers s) (Datatypes.S (next_wrapper s)) (the_server s)).
Proof.
  intros Hvo Hv Hh Hfresh. unfold whole_request.
  run_with (hook_first handler_of get_values post_process destroy values Hvo conn url method [] 0 args s Hv).
  cbn [Z.eqb MHD_YES MHD_NO calls].
  set (w := Wrapper (request_of args url method (created conn s).1) (HttpResponse.response_new conn)).
  assert (wrappers (opened conn args url method s) !! next_wrapper s = Some w) as Hw
    by apply lookup_insert_eq.
  erewrite bind_run.
  2: { eapply (hook_last handler_of get_values post_process destroy conn url method [] (next_wrapper s) _ w);
         [exact Hw|apply request_no_post| |exact Hw].
       unfold front_controller. run_with (find_handler_run (next_wrapper s) _ w Hw).
       change (request w) with (request_of args url method (created conn s).1).
       rewrite request_url. cbn [the_server opened]. by rewrite Hh. }
  unfold set_wrappers, opened. cbn. by rewrite delete_insert_id.
Qed.

Lemma http_unregistered_witness :
  whole_request (λ _ : unit, DefaultHandler sample_order) (sample_values []) sample_post sample_destroy 5
    (str "/nothing") (str "POST") [] sample_http =
  Ret (MHD_NO, None) (Http [Created (Some 0%nat)] ∅ 1 (the_server sample_http)).
Proof.
  etransitivity; [apply (http_unregistered (λ _ : unit, DefaultHandler sample_order) (sample_values []) sample_post sample_destroy
    (λ _ _, []) (str "/nothing") 5 (str "POST") [] sample_http);
    first [reflexivity|intros conn it r s; reflexivity]|reflexivity].
Defined.

(** C40.  Three kinds of request are undefined behaviour, whatever the handler of
    the path in the first two: posted data with a transfer encoding and no file
    name, an argument without a value, and, for the default handler, data without
    a NUL character in it. *)
Theorem http_undefined {K H : Type} `{MHD K} handler_of iterate (h : H) p c e d off size w
    (s : http K H) :
  wrappers s !! p = Some w →
  endpoint_handlers (the_server s) !! HttpRequest.get_arg (str "req_url") (request w) = Some h →
  front_controller_post handler_of p None c (Some e) d off size s = Undef ∧
  (∀ req key, request_arg_builder req key None s = Undef) ∧
  (∀ data, handler_of h = DefaultHandler iterate → NUL ∉ data →
     front_controller_post handler_of p None c None (Some data) off size s = Undef).
Proof.
  intros Hw Hh. split_and!; [|done|].
  - unfold front_controller_post. run_with (find_handler_run p s w Hw). rewrite Hh.
    by destruct c.
  - intros data Hd Hn. rewrite (front_post_default handler_of iterate
      (HttpRequest.get_arg (str "req_url") (request w)) h Hd p _ _ _ _ _ _ s w Hw); [|done|by left].
    unfold default_handle_streaming_data. rewrite bind_unfold. destruct (off =? 0).
    + erewrite bind_run by (apply build_response_run; exact Hw).
      erewrite on_response_run by apply lookup_set_wrapper.
      by rewrite (bind_unfold _ _ (set_wrapper _ _ _)), bind_unfold, c_string_undef.
    + cbn. by rewrite bind_unfold, bind_unfold, c_string_undef.
Qed.

Lemma http_undefined_witness :
  let s := match front_controller_c_hook (λ _ : unit, DefaultHandler sample_order) (sample_values [])
             sample_post sample_destroy 5 (str "/") (str "POST") [] 0 None sample_http with
           | Ret _ s => s | _ => sample_http end in
  front_controller_post (λ _ : unit, DefaultHandler sample_order) 0 None None
    (Some (str "binary")) (Some (str "abc" ++ [NUL])) 0 3 s = Undef ∧
  front_controller_post (λ _ : unit, DefaultHandler sample_order) 0 None None None
    (Some (str "abc")) 0 3 s = Undef.
Proof.
  cbn zeta. split.
  - eapply (http_undefined (λ _ : unit, DefaultHandler sample_order) sample_order tt); reflexivity.
  - eapply (http_undefined (λ _ : unit, DefaultHandler sample_order) sample_order tt 0 None []
              None 0 3); [reflexivity|reflexivity|reflexivity|vm_compute; set_solver].
Defined.

(** [write_data] makes a response of the data, queues it and gives up its own
    reference, once each; it reports success unless the caller says it is an
    error, whatever libmicrohttpd answers, and the headers collected in the
    response are not passed on. *)
Theorem write_data_effect {K H : Type} `{MHD K} p data status (is_error : bool) (s : http K H) w headers' :
  wrappers s !! p = Some w →
  let k' := respond (HttpResponse.connection (response w)) status data (mhd s) in
  let result := if is_error then MHD_NO else MHD_YES in
  (∃ s', write_data p data status is_error s = Ret tt s' ∧ mhd s' = k' ∧
     (HttpResponse.get_mhd_result ∘ response) <$> wrappers s' !! p = Some result) ∧
  (∃ s', write_data p data status is_error
           (set_wrapper p (Wrapper (request w)
              (HttpResponse.Make headers' (HttpResponse.data_buffer (response w))
                 (HttpResponse.connection (response w)) (HttpResponse.mhd_result (response w)))) s)
         = Ret tt s' ∧ mhd s' = k').
Proof.
  intros Hw k' result. split.
  - eexists. split; [by apply write_data_run|]. split; [done|]. cbn. by rewrite lookup_insert_eq.
  - eexists. split; [apply write_data_run, lookup_set_wrapper|]. done.
Qed.

Lemma write_data_effect_witness :
  let s := match front_controller_c_hook (λ _ : unit, DefaultHandler sample_order) (sample_values [])
             sample_post sample_destroy 5 (str "/") (str "GET") [] 0 None sample_http with
           | Ret _ s => s | _ => sample_http end in
  ∃ s', write_data 0 (str "ok") 200 false s = Ret tt s' ∧
        mhd s' = [Created (Some 0%nat); Queued 5 200 (str "ok")].
Proof.
  cbn zeta.
  destruct (write_data_effect (H := unit) 0 (str "ok") 200 false
    (match front_controller_c_hook (λ _ : unit, DefaultHandler sample_order) (sample_values [])
             sample_post sample_destroy 5 (str "/") (str "GET") [] 0 None sample_http with
     | Ret _ s => s | _ => sample_http end)
    (Wrapper (request_of [] (str "/") (str "GET") (Some 0%nat)) (HttpResponse.response_new 5)) ∅)
    as [(s' & E & Hm & _) _]; [reflexivity|].
  exists s'. split; [exact E|rewrite Hm; reflexivity].
Defined.

(** The default handler takes any piece of size 0 for the end of the data: it answers,
    and answers again at the end, with the same text. *)
Theorem default_empty_piece {K H : Type} `{MHD K} iterate p f c e d off (s : http K H) w :
  wrappers s !! p = Some w → NUL ∈ d → off ≠ 0 →
  let sent := HttpResponse.data_buffer (response w) ++ text_of d in
  let conn := HttpResponse.connection (response w) in
  ∃ s1 s2, default_handle_streaming_data iterate p f c e (Some d) off 0 s = Ret MHD_YES s1 ∧
    default_handle_streaming_data iterate p [] [] [] None UINT64_MAX 0 s1 = Ret MHD_YES s2 ∧
    mhd s2 = respond conn 200 sent (respond conn 200 sent (mhd s)).
Proof.
  intros Hw Hd Ho sent conn. do 2 eexists.
  split; [by apply (default_piece_run iterate p f c e (Some d) off 0 s w Hw); intros ? [= <-]|].
  split; [apply (default_piece_run iterate p [] [] [] None UINT64_MAX 0 _ _ (lookup_set_both _ _ _)); done|].
  unfold take_piece, after_piece. rewrite (proj2 (Z.eqb_neq off 0) Ho). cbn -[respond].
  unfold answer. cbn -[respond]. by rewrite app_nil_r.
Qed.
