(* ===== verification/HttpLife.v ===== *)
(** * The life of an HTTP request

    Any handlers, as long as they keep a contract: what the hook, the routing and
    libmicrohttpd's calls make of a request that comes in any number of chunks, to a
    registered path or not, taken or refused. *)

From S2P Require Import Prelude Http HttpProofs.

(** What a handler may not change of a request: its path, whether it has posted data,
    its post processor and the connection it came on. *)
Definition same_route (w w' : wrapper) : Prop :=
  HttpRequest.get_arg (str "req_url") (request w') = HttpRequest.get_arg (str "req_url") (request w) ∧
  HttpRequest.has_post_data (request w') = HttpRequest.has_post_data (request w) ∧
  HttpRequest.post_processor (request w') = HttpRequest.post_processor (request w) ∧
  HttpResponse.connection (response w') = HttpResponse.connection (response w).

#[export] Instance same_route_preorder : PreOrder same_route.
Proof.
  split; [done|]. intros w1 w2 w3 (H1 & H2 & H3 & H4) (H5 & H6 & H7 & H8).
  split_and!; by etransitivity.
Qed.

Section life.
Context {K H : Type} `{MHD K}.
Abbreviation st := (http K H).
Implicit Types (s : st) (w : wrapper).

(** From [s] to [s'] only the wrapper at [p] has changed, from [w] to [w']. *)
Record kept (p : nat) (w w' : wrapper) (s s' : st) : Prop := {
  kept_wrappers : wrappers s' = <[p := w']> (wrappers s);
  kept_server : the_server s' = the_server s;
  kept_next : next_wrapper s' = next_wrapper s;
  kept_route : same_route w w'
}.

Lemma kept_set p w s : wrappers s !! p = Some w → kept p w w s s.
Proof. intros Hw. split; [by rewrite insert_id|done..]. Qed.

Lemma kept_trans p w w1 w2 s s1 s2 : kept p w w1 s s1 → kept p w1 w2 s1 s2 → kept p w w2 s s2.
Proof.
  intros [A1 A2 A3 A4] [B1 B2 B3 B4]. split; [by rewrite B1, A1, insert_insert_eq|congruence..|by etransitivity].
Qed.

Lemma kept_lookup p w w' s s' : kept p w w' s s' → wrappers s' !! p = Some w'.
Proof. intros [E _ _ _]. by rewrite E, lookup_insert_eq. Qed.

(** The contract of a handler, for data in [good]: its functions return and change
    nothing but the request and response they are given. *)
Class Respects (good : option bytes → Prop) (h : HttpRequestHandler (K := K) (H := H)) : Prop := {
  handle_returns p s w : wrappers s !! p = Some w →
    ∃ r s' w', handle h p s = Ret r s' ∧ kept p w w' s s';
  streaming_returns p f c e d off size s w : wrappers s !! p = Some w → good d →
    ∃ r s' w', handle_streaming_data h p f c e d off size s = Ret r s' ∧ kept p w w' s s'
}.

Context (good : option bytes → Prop) (handler_of : H → HttpRequestHandler (K := K) (H := H)).
Context (get_values : Z → (bytes → option bytes → HttpRequest.http_request → M st HttpRequest.http_request) →
                      HttpRequest.http_request → M st HttpRequest.http_request).
Context (post_process : (piece → M st Z) → option nat → bytes → M st Z).
Context (destroy : (piece → M st Z) → option nat → M st Z).
Context (values : K → Z → list (bytes * option bytes)) (parse : option nat → bytes → K → list piece * Z * K).
Context (flush : option nat → K → list piece * K).
Hypothesis values_ok : iterates_values get_values values.
Hypothesis pieces_ok : iterates_pieces post_process parse.
Hypothesis flush_ok : iterates_flush destroy flush.
Hypothesis good_none : good None.
Context `{!∀ h, Respects good (handler_of h)}.

Abbreviation hook := (front_controller_c_hook handler_of get_values post_process destroy).

(** A piece that can be handed to a handler: the handler can read its data, and a file
    name comes with a transfer encoding. *)
Definition acceptable (x : piece) : Prop :=
  good (p_data x) ∧ (p_transfer_encoding x = None ∨ is_Some (p_filename x)).

(** A chunk all whose pieces are such, when the parser is in the state [k], and what the
    parser still holds. *)
Definition acceptable_chunk (pp : option nat) (c : bytes) (k : K) : Prop :=
  c ≠ [] ∧ Forall acceptable (parse pp c k).1.1.

Definition acceptable_rest (pp : option nat) (k : K) : Prop := Forall acceptable (flush pp k).1.

(** A request for [url] at [p]. *)
Record serving (url : bytes) (pp : option nat) (p : nat) (w : wrapper) (s : st) : Prop := {
  serving_wrapper : wrappers s !! p = Some w;
  serving_url : HttpRequest.get_arg (str "req_url") (request w) = url;
  serving_pp : HttpRequest.post_processor (request w) = Some pp
}.

Lemma serving_kept url pp p w w' s s' :
  serving url pp p w s → kept p w w' s s' → serving url pp p w' s'.
Proof.
  intros [S1 S2 S3] Hk. pose proof (kept_lookup _ _ _ _ _ Hk) as Hw'.
  destruct Hk as [K1 K2 K3 (R1 & R2 & R3 & R4)]. split; [done|congruence..].
Qed.

(** The request after the first call. *)
Definition fresh_wrapper (conn : Z) (args : list (bytes * bytes)) (url method : bytes) s : wrapper :=
  Wrapper (request_of args url method (created conn s).1) (HttpResponse.response_new conn).

Lemma opened_serving conn args url method s :
  serving url (created conn s).1 (next_wrapper s) (fresh_wrapper conn args url method s)
    (opened conn args url method s).
Proof. split; [apply lookup_insert_eq|apply request_url|done]. Qed.

(** Routing, for a request without posted data and for posted data. *)
Lemma front_returns url pp p s w :
  serving url pp p w s →
  ∃ r s' w', front_controller handler_of p s = Ret r s' ∧ kept p w w' s s'.
Proof.
  intros [Hw Hu _]. unfold front_controller. run_with (find_handler_run p s w Hw).
  rewrite Hu. destruct (endpoint_handlers (the_server s) !! url) as [h|] eqn:Eh.
  - by apply (handle_returns (h := handler_of h)).
  - exists MHD_NO, s, w. split; [done|by apply kept_set].
Qed.

Lemma front_post_returns url pp p f c e d off size s w :
  serving url pp p w s → good d → (e = None ∨ is_Some f) →
  ∃ r s' w', front_controller_post handler_of p f c e d off size s = Ret r s' ∧ kept p w w' s s'.
Proof.
  intros [Hw Hu _] Hd He.
  unfold front_controller_post. run_with (find_handler_run p s w Hw).
  rewrite Hu. destruct (endpoint_handlers (the_server s) !! url) as [h|] eqn:Eh.
  - unfold std_string.
    destruct (streaming_returns (h := handler_of h) p (default [] f) (default [] c)
      (match e with None => [] | _ => default [] f end) d off size s w Hw Hd) as (r & s' & w' & E & Hk).
    exists r, s', w'. split; [|done]. destruct f, c, e; cbn; try done; by destruct He as [?|[? ?]].
  - exists MHD_NO, s, w. split; [done|by apply kept_set].
Qed.

(** The pieces of a chunk, until one is refused. *)
Lemma pieces_return url pp p l s w :
  serving url pp p w s → Forall acceptable l →
  ∃ r s' w', post_pieces (post_processor handler_of p) l s = Ret r s' ∧ kept p w w' s s' ∧ serving url pp p w' s'.
Proof.
  intros Hs Hl. revert s w Hs. induction Hl as [|x l [Hgd He] _ IH]; intros s w Hs; cbn [post_pieces].
  - exists MHD_YES, s, w. split_and!; [done|by apply kept_set; destruct Hs|done].
  - unfold post_processor at 1.
    destruct (front_post_returns url pp p (p_filename x) (p_content_type x) _ _ (p_off x) (p_size x) s w Hs Hgd He)
      as (r & s1 & w1 & E1 & Hk1).
    pose proof (serving_kept _ _ _ _ _ _ _ Hs Hk1) as Hs1. run_with E1. destruct (Z.eqb_spec r MHD_NO) as [Hr|Hr].
    + exists MHD_NO, s1, w1. by split_and!.
    + destruct (IH s1 w1 Hs1) as (r' & s' & w' & E & Hk & H'). exists r', s', w'. split; [done|].
      split; [by apply (kept_trans _ _ w1 _ _ s1)|done].
Qed.

Lemma serving_mhd url pp p k w s : serving url pp p w s → serving url pp p w (with_mhd k s).
Proof. by intros [S1 S2 S3]. Qed.

Lemma serving_marked url pp p w s :
  serving url pp p w s → serving url pp p (marked w) (set_wrapper p (marked w) s).
Proof. intros [S1 S2 S3]. split; [apply lookup_set_wrapper|done..]. Qed.

(** The request is over: its wrapper is gone, all else is as before. *)
Record finished (p : nat) (s s' : st) : Prop := {
  finished_wrappers : wrappers s' = delete p (wrappers s);
  finished_server : the_server s' = the_server s;
  finished_next : next_wrapper s' = next_wrapper s
}.

Lemma finished_kept p w w' s s' : kept p w w' s s' → finished p s (set_wrappers (delete p (wrappers s')) s').
Proof. intros [K1 K2 K3 _]. split; cbn; [by rewrite K1, delete_insert_eq|done..]. Qed.

Lemma finished_marked p k w s s' : finished p (with_mhd k (set_wrapper p w s)) s' → finished p s s'.
Proof. intros [F1 F2 F3]. split; [by rewrite F1; cbn; rewrite delete_insert_eq|done..]. Qed.

Lemma finished_mhd p k s s' : finished p (with_mhd k s) s' → finished p s s'.
Proof. by intros [F1 F2 F3]. Qed.

(** The last call. *)
Lemma last_call conn url' url method pp p s w :
  serving url pp p w s → (HttpRequest.has_post_data (request w) = true → acceptable_rest pp (mhd s)) →
  ∃ result s', hook conn url' method [] 0 (Some p) s = Ret (result, 0, None) s' ∧ finished p s s'.
Proof.
  intros Hs Hrest. pose proof Hs as [Hw Hu Hpp].
  destruct (HttpRequest.has_post_data (request w)) eqn:Hp.
  - set (k := (flush pp (mhd s)).2).
    destruct (pieces_return url pp p _ _ w (serving_mhd _ _ _ k _ _ Hs) (Hrest eq_refl)) as (r1 & s1 & w1 & E1 & Hk1 & Hs1).
    destruct (front_post_returns url pp p None None None None UINT64_MAX 0 s1 w1 Hs1 good_none ltac:(by left))
      as (r & s' & w' & E & Hk).
    rewrite (hook_last_post handler_of get_values post_process destroy flush flush_ok conn url' method [] p s w pp
      r1 s1 r s' w' Hw Hp Hpp E1 E (kept_lookup _ _ _ _ _ Hk)).
    do 2 eexists. split; [reflexivity|]. apply (finished_mhd p k).
    eapply finished_kept, kept_trans; [exact Hk1|exact Hk].
  - destruct (front_returns url pp p s w Hs) as (r & s' & w' & E & Hk).
    rewrite (hook_last handler_of get_values post_process destroy conn url' method [] p s w r s' w' Hw Hp E
      (kept_lookup _ _ _ _ _ Hk)).
    do 2 eexists. split; [reflexivity|]. by eapply finished_kept.
Qed.

(** A call with posted data: the request goes on, or it is refused. *)
Record advanced (url : bytes) (pp : option nat) (p : nat) (w w' : wrapper) (s s' : st) : Prop := {
  advanced_wrappers : wrappers s' = <[p := w']> (wrappers s);
  advanced_server : the_server s' = the_server s;
  advanced_next : next_wrapper s' = next_wrapper s;
  advanced_connection : HttpResponse.connection (response w') = HttpResponse.connection (response w);
  advanced_serving : serving url pp p w' s'
}.

Lemma data_call conn url' url method pp c p s w :
  serving url pp p w s → acceptable_chunk pp c (mhd s) →
  (∃ s' w', hook conn url' method c (len c) (Some p) s = Ret (MHD_YES, 0, Some p) s' ∧
     advanced url pp p w w' s s') ∨
  (∃ result s', hook conn url' method c (len c) (Some p) s = Ret (result, len c, None) s' ∧ finished p s s').
Proof.
  intros Hs [Hne Hc]. pose proof Hs as [Hw _ Hpp].
  rewrite (hook_data handler_of get_values post_process destroy parse pieces_ok conn url' method c p s w pp Hw Hpp Hne).
  destruct (parse pp c (mhd s)) as [[l result] k]. cbn [fst] in Hc.
  destruct (pieces_return url pp p l _ _ (serving_mhd _ _ _ k _ _ (serving_marked _ _ _ _ _ Hs)) Hc) as (r & s1 & w1 & E1 & Hk1 & Hs1).
  run_with E1. destruct (negb _).
  - left. exists s1, w1. split; [done|]. destruct Hk1 as [K1 K2 K3 (_ & _ & _ & K4)]. cbn in K1, K2, K3, K4.
    split; [by rewrite K1, insert_insert_eq|done..].
  - right. erewrite bind_run by apply (load_response_run p s1 w1 (serving_wrapper _ _ _ _ _ Hs1)).
    run_with (delete_wrapper_run p s1 w1 (serving_wrapper _ _ _ _ _ Hs1)). cbn [mret M_ret].
    do 2 eexists. split; [reflexivity|]. eapply finished_marked. by eapply finished_kept.
Qed.
End life.

(** ** Handlers with the contract *)
Section handlers.
Context {K H : Type} `{MHD K}.
Abbreviation st := (http K H).
Implicit Types (s : st) (w : wrapper).

Lemma kept_response w' p w k s :
  request w' = request w → HttpResponse.connection (response w') = HttpResponse.connection (response w) →
  kept p w w' s (set_both p (w', k) s).
Proof. intros Hr Hc. split; [done..|]. unfold same_route. by rewrite Hr. Qed.

(** [DefaultHandler] keeps the contract. *)
#[export] Instance default_respects iterate : Respects terminated (DefaultHandler (H := H) iterate).
Proof.
  split; cbn [handle handle_streaming_data DefaultHandler].
  - intros p s w Hw. do 3 eexists. split; [by apply default_handle_run|].
    by apply (kept_response (answered (with_page iterate w)) p w (answer (with_page iterate w) (mhd s)) s).
  - intros p f c e d off size s w Hw Hd. do 3 eexists. split; [by apply default_piece_run|].
    destruct (take_data_body iterate (w, mhd s) (Piece None None None d off size)) as (_ & Hc & _).
    set (wk := take_data _ _ _) in Hc.
    pose proof (take_data_request iterate (w, mhd s) (Piece None None None d off size)) as Hr. fold wk in Hr.
    change (take_piece iterate off size (data_text d) (w, mhd s)) with wk.
    rewrite (surjective_pairing wk). by apply kept_response.
Qed.

(** A handler that refuses posted data, after it has answered with an error. *)
Definition refuse (p : nat) : M st Z := write_data p (str "no") 400 true;; mret MHD_NO.

Definition RefusingHandler : HttpRequestHandler (K := K) (H := H) :=
  {| handle := refuse; handle_streaming_data p _ _ _ _ _ _ := refuse p |}.

#[export] Instance refusing_respects good : Respects good RefusingHandler.
Proof.
  assert (∀ p s w, wrappers s !! p = Some w → ∃ r s' w', refuse p s = Ret r s' ∧ kept p w w' s s') as Hr.
  { intros p s w Hw. do 3 eexists. unfold refuse.
    split; [by run_with (write_data_run p (str "no") 400 true s w Hw)|by split]. }
  split; intros; by apply Hr.
Qed.
End handlers.

(** ** Examples *)
Lemma sample_acceptable pp c k : c ≠ [] → acceptable_chunk terminated sample_parse pp c k.
Proof.
  assert (∀ off value, acceptable terminated (sample_piece off value)) as Hp.
  { intros off value. split; [|by left]. intros data [= <-]. set_solver. }
  intros Hc. split; [done|]. unfold sample_parse. destruct (seen k); cbn; [by repeat first [apply Hp|constructor]|].
  repeat case_decide; cbn; by repeat first [apply Hp|constructor].
Qed.

Lemma sample_acceptable_rest pp k : acceptable_rest terminated sample_flush pp k.
Proof.
  unfold acceptable_rest, sample_flush. destruct (seen k); cbn; [|constructor].
  constructor; [|constructor]. split; [|by left]. intros data [= <-]. set_solver.
Qed.

(** A path for each of the two handlers; posted data is sent to the one that refuses. *)
Definition two_handlers (refusing : bool) : HttpRequestHandler (K := list mhd_event) (H := bool) :=
  if refusing then RefusingHandler else DefaultHandler sample_order.

Definition two_paths : http (list mhd_event) bool :=
  Http [] ∅ 0 (HttpServer 8080 4 1024 {[str "/" := false; str "/upload" := true]}).

(** Why a handler must not report success and refuse: the hook hands on the success, so
    libmicrohttpd goes on, but with no pointer any more, and the next call is taken for
    the first of another request, whose wrapper nobody frees. *)
Definition RashHandler : HttpRequestHandler (K := list mhd_event) (H := unit) :=
  {| handle _ := mret MHD_YES;
     handle_streaming_data p _ _ _ _ _ _ := write_data p (str "no") 400 false;; mret MHD_NO |}.

Example refused_with_success :
  ∃ w k, whole_request (λ _ : unit, RashHandler) (sample_values []) sample_post sample_destroy 5 (str "/") (str "POST")
           [str "x=1"] sample_http =
         Ret (MHD_YES, Some 1%nat) (Http k {[1%nat := w]} 2 (the_server sample_http)).
Proof. do 2 eexists. vm_compute. reflexivity. Qed.
