(* ===== verification/HttpService.v ===== *)
(** * The HTTP server as a service

    Requests on any number of connections at once: libmicrohttpd's threads call the hook
    for one connection and another in any order, and clients may go away at any time.
    First what holds with any handlers that keep their contract; then, for the server of
    the program [httpserver], an abstract machine for a single connection that each
    connection of the server refines, whatever happens on the others. *)

From stdpp Require Import relations.
From S2P Require Import Prelude Http HttpProofs HttpLife.

(** ** The requests in progress

    libmicrohttpd keeps the pointer that the hook has left for each request.  [lost] are
    the wrappers that no pointer leads to any more. *)
Record requests (K H : Type) := Requests {
  http_of : http K H;
  ptrs : gmap Z nat;
  lost : gset nat
}.
Arguments Requests {K H} _ _ _.
Arguments http_of {K H} _.
Arguments ptrs {K H} _.
Arguments lost {K H} _.

(** What libmicrohttpd does next: it calls the hook for a connection without a pointer,
    usually for a request's headers alone, but with posted data when the hook has dropped
    the pointer of a request and reported success; for some posted data; for a request's
    end; a client goes away; or it works on its own. *)
Inductive mhd_action (K : Type) :=
  | Begin (conn : Z) (url method data : bytes)
  | Data (conn : Z) (url method chunk : bytes)
  | Finish (conn : Z) (url method : bytes)
  | HangUp (conn : Z)
  | Work (k : K).
Arguments Begin {K} _ _ _ _.
Arguments Data {K} _ _ _ _.
Arguments Finish {K} _ _ _.
Arguments HangUp {K} _.
Arguments Work {K} _.

(** The connection that an action is about. *)
Definition on_conn {K} (a : mhd_action K) : option Z :=
  match a with
  | Begin conn _ _ _ | Data conn _ _ _ | Finish conn _ _ | HangUp conn => Some conn
  | Work _ => None
  end.

Section requests.
Context {K H : Type} `{MHD K}.
Abbreviation st := (http K H).
Abbreviation requests := (requests K H).
Implicit Types (s : st) (w : wrapper) (q : requests).

Context (good : option bytes → Prop) (handler_of : H → HttpRequestHandler (K := K) (H := H)).
Context (get_values : Z → (bytes → option bytes → HttpRequest.http_request → M st HttpRequest.http_request) →
                      HttpRequest.http_request → M st HttpRequest.http_request).
Context (post_process : (piece → M st Z) → option nat → bytes → M st Z).
Context (destroy : (piece → M st Z) → option nat → M st Z).
Context (values : K → Z → list (bytes * option bytes)) (parse : option nat → bytes → K → list piece * Z * K).
Context (flush : option nat → K → list piece * K).

Abbreviation hook := (front_controller_c_hook handler_of get_values post_process destroy).

(** After a call of the hook: the connection of a request that it refuses is closed. *)
Definition after_call (conn result : Z) (ptr : option nat) (m : gmap Z nat) : gmap Z nat :=
  if result =? MHD_NO then delete conn m else partial_alter (λ _, ptr) conn m.

Definition call_hook (conn : Z) (url method data : bytes) (size : Z) : M requests unit := λ q,
  match hook conn url method data size (ptrs q !! conn) (http_of q) with
  | Ret (result, _, ptr) s => Ret tt (Requests s (after_call conn result ptr (ptrs q)) (lost q))
  | Throw e s => Throw e (Requests s (ptrs q) (lost q))
  | Exit c s => Exit c (Requests s (ptrs q) (lost q))
  | Undef => Undef
  | Blocked => Blocked
  | NoFuel => NoFuel
  end.

(** [start] does not ask to be told when a request has ended otherwise, so nothing is
    called when a client goes away. *)
Definition mhd_perform (a : mhd_action K) : M requests unit :=
  match a with
  | Begin conn url method data => call_hook conn url method data (len data)
  | Data conn url method chunk => call_hook conn url method chunk (len chunk)
  | Finish conn url method => call_hook conn url method [] 0
  | HangUp conn => modify (λ q,
      Requests (http_of q) (delete conn (ptrs q))
        (match ptrs q !! conn with Some p => {[p]} ∪ lost q | None => lost q end))
  | Work k => modify (λ q, Requests (with_mhd k (http_of q)) (ptrs q) (lost q))
  end.

(** The request in progress on a connection. *)
Definition current (conn : Z) q : option wrapper :=
  p ← ptrs q !! conn; wrappers (http_of q) !! p.

(** Requests begin on a connection without one, and no header or argument lacks a value;
    posted data, and what the parser still holds of it at the end, is such that a handler
    can be given it. *)
Definition mhd_allowed (a : mhd_action K) q : Prop :=
  match a with
  | Begin conn _ _ _ => ptrs q !! conn = None ∧
      ∃ args, values (mhd (http_of q)) conn = map (λ a, (a.1, Some a.2)) args
  | Data conn _ _ chunk => ∃ w pp, current conn q = Some w ∧
      HttpRequest.post_processor (request w) = Some pp ∧ acceptable_chunk good parse pp chunk (mhd (http_of q))
  | Finish conn _ _ => ∃ w pp, current conn q = Some w ∧
      HttpRequest.post_processor (request w) = Some pp ∧
      (HttpRequest.has_post_data (request w) = true → acceptable_rest good flush pp (mhd (http_of q)))
  | HangUp _ | Work _ => True
  end.

Definition mhd_acts q q' : Prop := ∃ a, mhd_allowed a q ∧ mhd_perform a q = Ret tt q'.

(** ** The invariant *)
Record requests_ok q : Prop := {
  ro_open conn p : ptrs q !! conn = Some p →
    ∃ url pp w, serving url pp p w (http_of q) ∧ HttpResponse.connection (response w) = conn;
  ro_live p : is_Some (wrappers (http_of q) !! p) →
    (p < next_wrapper (http_of q))%nat ∧ (p ∈ lost q ∨ ∃ conn, ptrs q !! conn = Some p);
  ro_lost p : p ∈ lost q → is_Some (wrappers (http_of q) !! p) ∧ ∀ conn, ptrs q !! conn ≠ Some p
}.

(** A server that has just been made. *)
Lemma requests_ok_new s : wrappers s = ∅ → requests_ok (Requests s ∅ ∅).
Proof.
  intros Hs. split; cbn.
  - intros conn p. by rewrite lookup_empty.
  - intros p. rewrite Hs, lookup_empty. by intros [].
  - intros p. set_solver.
Qed.

Lemma ro_current q conn p :
  requests_ok q → ptrs q !! conn = Some p →
  ∃ url pp w, current conn q = Some w ∧ serving url pp p w (http_of q) ∧
    HttpResponse.connection (response w) = conn.
Proof.
  intros Ho Hp. destruct (ro_open q Ho conn p Hp) as (url & pp & w & Hs & Hr).
  exists url, pp, w. split; [|by split]. unfold current. rewrite Hp. cbn. apply Hs.
Qed.

(** Each request in progress has a wrapper of its own. *)
Lemma ro_inj q conn conn' p : requests_ok q → ptrs q !! conn = Some p → ptrs q !! conn' = Some p → conn = conn'.
Proof.
  intros Ho H1 H2. destruct (ro_open q Ho _ _ H1) as (? & ? & w & [Hw _ _] & <-).
  destruct (ro_open q Ho _ _ H2) as (? & ? & w' & [Hw' _ _] & <-). congruence.
Qed.

Lemma ro_fresh q : requests_ok q → wrappers (http_of q) !! next_wrapper (http_of q) = None.
Proof.
  intros Ho. apply eq_None_not_Some. intros Hw. destruct (ro_live q Ho _ Hw) as [Hlt _]. lia.
Qed.

Lemma serving_other url pp p w s s' :
  wrappers s' !! p = wrappers s !! p → serving url pp p w s → serving url pp p w s'.
Proof. intros H1 [S1 S2 S3]. split; [by rewrite H1|done..]. Qed.
(** ** The actions keep it *)

(** A call on a connection leaves the others' requests as they are. *)
Definition elsewhere (conn : Z) q q' : Prop :=
  ∀ conn', conn' ≠ conn → ptrs q' !! conn' = ptrs q !! conn' ∧ current conn' q' = current conn' q.

Lemma ok_put q conn p url pp w s' :
  requests_ok q → wrappers s' = <[p := w]> (wrappers (http_of q)) → the_server s' = the_server (http_of q) →
  (next_wrapper (http_of q) ≤ next_wrapper s')%nat → (p < next_wrapper s')%nat →
  serving url pp p w s' → HttpResponse.connection (response w) = conn →
  (∀ conn', ptrs q !! conn' = Some p → conn' = conn) → (∀ p', ptrs q !! conn = Some p' → p' = p) → p ∉ lost q →
  let q' := Requests s' (<[conn := p]> (ptrs q)) (lost q) in requests_ok q' ∧ elsewhere conn q q'.
Proof.
  intros Ho Hw Hv Hn Hp Hs Hc Hp1 Hp2 Hl q'. split; [split; cbn|].
  - intros conn' p' [[<- <-]|[Hne Hp']]%lookup_insert_Some; [by exists url, pp, w|].
    destruct (ro_open q Ho _ _ Hp') as (url' & pp' & w' & Hs' & H'). exists url', pp', w'. split; [|done].
    apply (serving_other _ _ _ _ (http_of q)); [|done]. rewrite Hw, lookup_insert_ne; [done|].
    intros <-. by apply Hne, eq_sym, Hp1.
  - intros p' Hp'. rewrite Hw in Hp'. destruct (decide (p' = p)) as [->|Hne].
    + split; [done|]. right. exists conn. apply lookup_insert_eq.
    + rewrite lookup_insert_ne in Hp' by done. destruct (ro_live q Ho p' Hp') as [Hlt Hcase]. split; [lia|].
      destruct Hcase as [|[conn' Hc']]; [by left|right]. exists conn'. rewrite lookup_insert_ne; [done|].
      intros ->. by apply Hne, Hp2.
  - intros p' Hp'. destruct (ro_lost q Ho p' Hp') as [Hw' Hno]. split.
    + rewrite Hw, lookup_insert_ne; [done|]. by intros <-.
    + intros conn'. rewrite lookup_insert_Some. intros [[_ <-]|[_ ?]]; [done|by eapply Hno].
  - intros conn' Hne. unfold current. cbn. rewrite lookup_insert_ne by done. split; [done|].
    destruct (ptrs q !! conn') as [p'|] eqn:Ep; [|done]. cbn. rewrite Hw, lookup_insert_ne; [done|].
    intros <-. by apply Hne, Hp1.
Qed.

Lemma ok_drop q conn p s' :
  requests_ok q → ptrs q !! conn = Some p → wrappers s' = delete p (wrappers (http_of q)) →
  the_server s' = the_server (http_of q) → next_wrapper s' = next_wrapper (http_of q) →
  let q' := Requests s' (delete conn (ptrs q)) (lost q) in requests_ok q' ∧ elsewhere conn q q'.
Proof.
  intros Ho Hp Hw Hv Hn q'.
  assert (∀ conn' p', ptrs q !! conn' = Some p' → conn' ≠ conn → wrappers s' !! p' = wrappers (http_of q) !! p') as Hk.
  { intros conn' p' Hp' Hne. rewrite Hw, lookup_delete_ne; [done|]. intros <-. by apply Hne, (ro_inj q conn' conn p). }
  split; [split; cbn|].
  - intros conn' p' [Hne Hp']%lookup_delete_Some.
    destruct (ro_open q Ho _ _ Hp') as (url' & pp' & w' & Hs' & H'). exists url', pp', w'. split; [|done].
    apply (serving_other _ _ _ _ (http_of q)); [|done]. apply (Hk conn'); [done|by apply not_eq_sym].
  - intros p' Hp'. rewrite Hw in Hp'. destruct Hp' as [w' [Hne Hp']%lookup_delete_Some].
    destruct (ro_live q Ho p' ltac:(by eexists)) as [Hlt Hcase]. split; [by rewrite Hn|].
    destruct Hcase as [|[conn' Hc']]; [by left|right]. exists conn'. rewrite lookup_delete_ne; [done|].
    intros <-. apply Hne. congruence.
  - intros p' Hp'. destruct (ro_lost q Ho p' Hp') as [Hw' Hno]. split.
    + rewrite Hw, lookup_delete_ne; [done|]. intros <-. by eapply Hno.
    + intros conn' [_ ?]%lookup_delete_Some. by eapply Hno.
  - intros conn' Hne. unfold current. cbn. rewrite lookup_delete_ne by done. split; [done|].
    destruct (ptrs q !! conn') as [p'|] eqn:Ep; [|done]. cbn. by apply (Hk conn').
Qed.

Lemma hang_up_ok q conn :
  requests_ok q → ∃ q', mhd_perform (HangUp conn) q = Ret tt q' ∧ requests_ok q' ∧ elsewhere conn q q'.
Proof.
  intros Ho. eexists. split; [reflexivity|].
  assert (∀ p, ptrs q !! conn = Some p → is_Some (wrappers (http_of q) !! p)) as Hin.
  { intros p Hp. destruct (ro_open q Ho conn p Hp) as (? & ? & ? & [Hw _ _] & _). by rewrite Hw. }
  split; [split; cbn|].
  - intros conn' p [_ Hp]%lookup_delete_Some. by apply (ro_open q Ho).
  - intros p Hp. destruct (ro_live q Ho p Hp) as [Hlt Hcase]. split; [done|].
    destruct Hcase as [Hl|[conn' Hc]]; [left; destruct (ptrs q !! conn); set_solver|].
    destruct (decide (conn' = conn)) as [->|Hne]; [left; rewrite Hc; set_solver|].
    right. exists conn'. by rewrite lookup_delete_ne.
  - intros p Hp. destruct (decide (ptrs q !! conn = Some p)) as [Hc|Hc].
    + split; [by apply Hin|]. intros conn' [Hne Hc']%lookup_delete_Some. by apply Hne, (ro_inj q conn conn' p).
    + assert (p ∈ lost q) as Hl by (destruct (ptrs q !! conn) as [p'|]; set_solver).
      destruct (ro_lost q Ho p Hl) as [Hw Hno]. split; [done|]. intros conn' [_ Hc']%lookup_delete_Some. by eapply Hno.
  - intros conn' Hne. unfold current. cbn. by rewrite lookup_delete_ne.
Qed.
Hypothesis values_ok : iterates_values get_values values.
Hypothesis pieces_ok : iterates_pieces post_process parse.
Hypothesis flush_ok : iterates_flush destroy flush.
Hypothesis good_none : good None.
Context `{!∀ h, Respects good (handler_of h)}.

(** Each action does its part, returns, and leaves the other connections alone. *)
Definition done_well (a : mhd_action K) q : Prop :=
  ∃ q', mhd_perform a q = Ret tt q' ∧ requests_ok q' ∧ the_server (http_of q') = the_server (http_of q) ∧
    ∀ conn, on_conn a ≠ Some conn → ptrs q' !! conn = ptrs q !! conn ∧ current conn q' = current conn q.

Lemma done_elsewhere a conn q q' :
  on_conn a = Some conn → mhd_perform a q = Ret tt q' → the_server (http_of q') = the_server (http_of q) →
  requests_ok q' ∧ elsewhere conn q q' → done_well a q.
Proof.
  intros Ha E Hv [Ho He]. exists q'. do 3 (split; [done|]). intros conn' Hne. apply He.
  intros ->. by apply Hne.
Qed.

Lemma begin_run conn url method data args q :
  ptrs q !! conn = None → values (mhd (http_of q)) conn = map (λ a, (a.1, Some a.2)) args →
  mhd_perform (Begin conn url method data) q =
  Ret tt (Requests (opened conn args url method (http_of q))
            (<[conn := next_wrapper (http_of q)]> (ptrs q)) (lost q)).
Proof.
  intros Hp Hv. cbn [mhd_perform]. unfold call_hook. rewrite Hp.
  by rewrite (hook_first handler_of get_values post_process destroy values values_ok conn url method data _ args _ Hv).
Qed.

Lemma begin_ok q conn url method data :
  requests_ok q → mhd_allowed (Begin conn url method data) q → done_well (Begin conn url method data) q.
Proof.
  intros Ho [Hp [args Hv]]. pose proof (ro_fresh q Ho) as Hf. set (s := http_of q) in *.
  eapply (done_elsewhere _ conn _ (Requests (opened conn args url method s) (<[conn := next_wrapper s]> (ptrs q)) (lost q)));
    [done| |reflexivity|].
  - by apply begin_run.
  - eapply (ok_put q conn (next_wrapper s) url (created conn s).1); try done.
    + change (next_wrapper (http_of q) ≤ Datatypes.S (next_wrapper (http_of q)))%nat. lia.
    + change (next_wrapper s < Datatypes.S (next_wrapper s))%nat. lia.
    + apply opened_serving.
    + intros conn' Hc. destruct (ro_open q Ho _ _ Hc) as (? & ? & ? & [Hw _ _] & _). change (http_of q) with s in Hw. by rewrite Hf in Hw.
    + by rewrite Hp.
    + intros Hl. destruct (ro_lost q Ho _ Hl) as [[? Hw] _]. change (http_of q) with s in Hw. by rewrite Hf in Hw.
Qed.

Lemma data_ok q conn url method chunk :
  requests_ok q → mhd_allowed (Data conn url method chunk) q → done_well (Data conn url method chunk) q.
Proof.
  intros Ho (w0 & pp0 & Hc & Hpp0 & Hk). destruct (ptrs q !! conn) as [p|] eqn:Hp.
  2: { unfold current in Hc. by rewrite Hp in Hc. }
  destruct (ro_current q conn p Ho Hp) as (url' & pp & w & Hc' & Hs & Hconn).
  rewrite Hc in Hc'. injection Hc' as ->.
  assert (pp0 = pp) as -> by (destruct Hs; congruence).
  destruct (data_call good handler_of get_values post_process destroy parse pieces_ok conn url url' method pp chunk p _ w Hs Hk)
    as [(s' & w' & E & [A1 A2 A3 A4 A5])|(result & s' & E & [F1 F2 F3])].
  - eapply (done_elsewhere _ conn); [done|cbn [mhd_perform]; unfold call_hook; rewrite Hp, E; reflexivity|exact A2|].
    eapply (ok_put q conn p url' pp w' s'); try done.
    + by rewrite A3.
    + rewrite A3. by apply (ro_live q Ho p); rewrite (serving_wrapper _ _ _ _ _ Hs).
    + by rewrite A4.
    + intros conn' Hc'. by apply (ro_inj q conn' conn p).
    + congruence.
    + intros Hl. by apply (ro_lost q Ho p Hl) in Hp.
  - eapply (done_elsewhere _ conn); [done|cbn [mhd_perform]; unfold call_hook; rewrite Hp, E; reflexivity|exact F2|].
    replace (after_call conn result None (ptrs q)) with (delete conn (ptrs q)) by (unfold after_call; by destruct (result =? MHD_NO)).
    by apply (ok_drop q conn p).
Qed.

Lemma finish_ok q conn url method :
  requests_ok q → mhd_allowed (Finish conn url method) q → done_well (Finish conn url method) q.
Proof.
  intros Ho (w0 & pp0 & Hc & Hpp0 & Hk). destruct (ptrs q !! conn) as [p|] eqn:Hp.
  2: { unfold current in Hc. by rewrite Hp in Hc. }
  destruct (ro_current q conn p Ho Hp) as (url' & pp & w & Hc' & Hs & _).
  rewrite Hc in Hc'. injection Hc' as ->.
  assert (pp0 = pp) as -> by (destruct Hs; congruence).
  destruct (last_call good handler_of get_values post_process destroy flush flush_ok good_none conn url url' method pp p _ w Hs Hk)
    as (result & s' & E & [F1 F2 F3]).
  eapply (done_elsewhere _ conn); [done|cbn [mhd_perform]; unfold call_hook; rewrite Hp, E; reflexivity|exact F2|].
  replace (after_call conn result None (ptrs q)) with (delete conn (ptrs q)) by (unfold after_call; by destruct (result =? MHD_NO)).
  by apply (ok_drop q conn p).
Qed.

Lemma mhd_perform_ok a q : requests_ok q → mhd_allowed a q → done_well a q.
Proof.
  intros Ho Ha. destruct a as [conn url method data|conn url method chunk|conn url method|conn|k].
  - by apply begin_ok.
  - by apply data_ok.
  - by apply finish_ok.
  - destruct (hang_up_ok q conn Ho) as (q' & E & H'). apply (done_elsewhere _ conn _ q'); [done..| |done].
    by injection E as <-.
  - eexists. split; [reflexivity|]. split; [|done]. destruct Ho as [O1 O2 O3]. split; cbn; [|done..].
    intros conn p Hp. destruct (O1 conn p Hp) as (url & pp & w & Hs & H'). exists url, pp, w.
    split; [|done]. by apply (serving_other _ _ _ _ (http_of q)).
Qed.

Lemma mhd_reachable q q' : requests_ok q → rtc mhd_acts q q' → requests_ok q'.
Proof.
  intros Ho Hr. induction Hr as [|q q1 q2 (a & Ha & E) _ IH]; [done|]. apply IH.
  destruct (mhd_perform_ok a q Ho Ha) as (q1' & E' & Ho' & _). rewrite E in E'. by injection E' as <-.
Qed.
End requests.

(** ** The specification of a connection

    A request that has been asked: its path, its headers and arguments, and the answer to
    what has been posted so far, if anything. *)
Record ask := Ask { a_url : bytes; a_args : gmap bytes bytes; a_posted : option bytes }.

(** What happens on a connection: a request with its headers and arguments; posted data,
    as the pieces it is cut into and whether it could be parsed; the request's end, with
    the pieces that the parser still hands out; and the client's going away. *)
Inductive web_event :=
  | Asked (url : bytes) (args : gmap bytes bytes)
  | Posted (l : list piece) (parsed : bool)
  | Ended (l : list piece)
  | Gone.

(** A request to a path that is handled is answered when it ends, with a page or with
    what was posted; and, before, at every piece that has size 0, with what was posted so
    far.  Any other request is refused, at its end or with the first piece of posted
    data. *)
Section spec.
Context (iterate : gmap bytes bytes → list (bytes * bytes)) (handled : bytes → bool).

(** The text to answer with and the answers that the pieces make of [body]. *)
Fixpoint web_pieces (args : gmap bytes bytes) (body : bytes) (l : list piece) : bytes * list (Z * bytes) :=
  match l with
  | [] => (body, [])
  | x :: l' =>
      let body' := body ++ piece_body iterate args x in
      let '(body2, replies) := web_pieces args body' l' in
      (body2, (if p_size x =? 0 then [(200, body')] else []) ++ replies)
  end.

Definition web_step (st : option ask) (e : web_event) : option ask * list (Z * bytes) :=
  match st, e with
  | None, Asked url args => (Some (Ask url args None), [])
  | Some a, Posted l parsed =>
      if handled (a_url a) then
        let '(body, replies) := web_pieces (a_args a) (default [] (a_posted a)) l in
        (if parsed then Some (Ask (a_url a) (a_args a) (Some body)) else None, replies)
      else
        (if parsed && bool_decide (l = []) then Some (Ask (a_url a) (a_args a) (Some (default [] (a_posted a)))) else None,
         [])
  | Some a, Ended l =>
      (None,
       if handled (a_url a) then
         match a_posted a with
         | None => [(200, page (iterate (a_args a)))]
         | Some body => (web_pieces (a_args a) body (l ++ [last_piece])).2
         end
       else [])
  | _, Gone => (None, [])
  | _, _ => (st, [])
  end.

Fixpoint web_steps (st : option ask) (es : list web_event) : option ask * list (Z * bytes) :=
  match es with
  | [] => (st, [])
  | e :: es' =>
      let '(st1, r1) := web_step st e in
      let '(st2, r2) := web_steps st1 es' in (st2, r1 ++ r2)
  end.
End spec.

(** What libmicrohttpd has been asked to send, over all connections. *)
Class MHDRecord (K : Type) `{MHD K} := {
  queued : K → list (Z * Z * bytes);
  queued_create conn n k : queued (MHD_create_post_processor conn n k).2 = queued k;
  queued_respond conn status data k : queued (respond conn status data k) = queued k ++ [(conn, status, data)]
}.

Definition events_on (conn : Z) (l : list (Z * web_event)) : list web_event := (filter (λ x, x.1 = conn) l).*2.

Definition replies_on (conn : Z) (l : list (Z * Z * bytes)) : list (Z * bytes) :=
  map (λ x, (x.1.2, x.2)) (filter (λ x, x.1.1 = conn) l).

(** ** The server implements it *)
Section web.
Context {K H : Type} `{MHDRecord K}.
Abbreviation st := (http K H).
Abbreviation requests := (requests K H).
Implicit Types (s : st) (w : wrapper) (q : requests).

Context (handler_of : H → HttpRequestHandler (K := K) (H := H)).
Context (get_values : Z → (bytes → option bytes → HttpRequest.http_request → M st HttpRequest.http_request) →
                      HttpRequest.http_request → M st HttpRequest.http_request).
Context (post_process : (piece → M st Z) → option nat → bytes → M st Z).
Context (destroy : (piece → M st Z) → option nat → M st Z).
Context (values : K → Z → list (bytes * option bytes)) (parse : option nat → bytes → K → list piece * Z * K).
Context (flush : option nat → K → list piece * K).
Context (iterate : gmap bytes bytes → list (bytes * bytes)).

Abbreviation perform := (mhd_perform handler_of get_values post_process destroy).

(** The headers and arguments of a request. *)
Definition args_of (conn : Z) (url method : bytes) (k : K) : gmap bytes bytes :=
  HttpRequest.get_args (request_of (omap (λ a, v ← a.2; Some (a.1, v)) (values k conn)) url method None).

Definition event_of (a : mhd_action K) q : option (Z * web_event) :=
  match a with
  | Begin conn url method _ => Some (conn, Asked url (args_of conn url method (mhd (http_of q))))
  | Data conn _ _ chunk =>
      let pp := w ← current conn q; HttpRequest.post_processor (request w) in
      let '(l, result, _) := parse (default None pp) chunk (mhd (http_of q)) in
      Some (conn, Posted l (negb (result =? MHD_NO)))
  | Finish conn _ _ =>
      Some (conn, Ended (match current conn q with
        | Some w => (flush (default None (HttpRequest.post_processor (request w))) (mhd (http_of q))).1
        | None => [] end))
  | HangUp conn => Some (conn, Gone)
  | Work _ => None
  end.

(** libmicrohttpd's own work sends no response. *)
Definition web_allowed (a : mhd_action K) q : Prop :=
  mhd_allowed terminated values parse flush a q ∧
  match a with Work k => queued k = queued (mhd (http_of q)) | _ => True end.

Inductive web_run : requests → list (Z * web_event) → requests → Prop :=
  | run_none q : web_run q [] q
  | run_act a q q1 l q2 : web_allowed a q → perform a q = Ret tt q1 → web_run q1 l q2 →
      web_run q (option_list (event_of a q) ++ l) q2.

(** The request on a connection, as the specification has it. *)
Definition asked (w : wrapper) : ask :=
  Ask (HttpRequest.get_arg (str "req_url") (request w)) (HttpRequest.get_args (request w))
    (if HttpRequest.has_post_data (request w) then Some (HttpResponse.data_buffer (response w)) else None).

Definition abs_conn (conn : Z) q : option ask := asked <$> current conn q.

Definition handled (v : http_server H) (url : bytes) : bool := bool_decide (is_Some (endpoint_handlers v !! url)).

(** *** What the calls do *)
Hypothesis values_ok : iterates_values get_values values.
Hypothesis pieces_ok : iterates_pieces post_process parse.
Hypothesis flush_ok : iterates_flush destroy flush.
Hypothesis handlers_default : ∀ h, handler_of h = DefaultHandler iterate.
Hypothesis parse_queued : ∀ pp c k, queued (parse pp c k).2 = queued k.
Hypothesis flush_queued : ∀ pp k, queued (flush pp k).2 = queued k.

#[local] Instance default_handlers_respect h : Respects terminated (handler_of h).
Proof. rewrite handlers_default. apply default_respects. Qed.

Lemma current_put conn p s m lost : current conn (Requests (H := H) s (<[conn := p]> m) lost) = wrappers s !! p.
Proof. unfold current. cbn. by rewrite lookup_insert_eq. Qed.

Lemma current_drop conn s m lost : current conn (Requests (K := K) (H := H) s (delete conn m) lost) = None.
Proof. unfold current. cbn. by rewrite lookup_delete_eq. Qed.

(** The effect of an event on its connection. *)
Record effect (conn : Z) (e : web_event) q q' : Prop := {
  effect_abs : abs_conn conn q' =
    (web_step iterate (handled (the_server (http_of q))) (abs_conn conn q) e).1;
  effect_queued : queued (mhd (http_of q')) = queued (mhd (http_of q)) ++
    map (λ r, (conn, r.1, r.2)) (web_step iterate (handled (the_server (http_of q))) (abs_conn conn q) e).2;
  effect_plain w : current conn q' = Some w → HttpRequest.has_post_data (request w) = false →
    HttpResponse.data_buffer (response w) = []
}.

Lemma omap_given (args : list (bytes * bytes)) :
  omap (λ a : bytes * option bytes, v ← a.2; Some (a.1, v)) (map (λ a, (a.1, Some a.2)) args) = args.
Proof. induction args as [|[] args IH]; [done|]. cbn. by rewrite IH. Qed.

Lemma request_args args url method pp :
  HttpRequest.get_args (request_of args url method pp) = HttpRequest.get_args (request_of args url method None).
Proof. done. Qed.

Lemma begin_effect conn url method data q :
  requests_ok q → web_allowed (Begin conn url method data) q →
  ∃ q', perform (Begin conn url method data) q = Ret tt q' ∧
    effect conn (Asked url (args_of conn url method (mhd (http_of q)))) q q'.
Proof.
  intros Ho [[Hp [args Hv]] _]. set (s := http_of q) in *. eexists. split.
  - by apply (begin_run handler_of get_values post_process destroy values values_ok conn url method data args).
  - assert (abs_conn conn q = None) as Ha by (unfold abs_conn, current; by rewrite Hp).
    split; rewrite ?Ha; unfold abs_conn; rewrite ?current_put; cbn [http_of mhd opened wrappers web_step fst snd map].
    + rewrite lookup_insert_eq. cbn [fmap option_fmap option_map]. unfold asked, args_of. fold s.
      cbn [request]. rewrite request_url, request_no_post. by rewrite Hv, omap_given, request_args.
    + unfold created. by rewrite queued_create, app_nil_r.
    + intros w. rewrite lookup_insert_eq. by intros [= <-].
Qed.
(** The pieces of a chunk: all taken, or the first one refused. *)
Definition taken (v : http_server H) (l : list piece) (wk : wrapper * K) : wrapper * K :=
  if handled v (HttpRequest.get_arg (str "req_url") (request wk.1)) then foldl (take_data iterate) wk l else wk.

Lemma pieces_taken p l s w :
  wrappers s !! p = Some w → Forall readable l →
  post_pieces (post_processor handler_of p) l s =
  Ret (if handled (the_server s) (a_url (asked w)) || bool_decide (l = []) then MHD_YES else MHD_NO)
    (set_both p (taken (the_server s) l (w, mhd s)) s).
Proof.
  intros Hw Hl. unfold taken. cbn [fst]. change (HttpRequest.get_arg _ (request w)) with (a_url (asked w)).
  destruct (handled (the_server s) (a_url (asked w))) eqn:Eh; cbn [orb].
  - apply bool_decide_eq_true in Eh as [h Hh].
    by apply (pieces_run handler_of iterate (a_url (asked w)) h).
  - rewrite (set_both_same p s w Hw). destruct l as [|x l]; [done|]. cbn [post_pieces].
    unfold post_processor, front_controller_post. rewrite bind_assoc. run_with (find_handler_run p s w Hw).
    apply bool_decide_eq_false, eq_None_not_Some in Eh. cbn [asked a_url] in Eh. by rewrite Eh.
Qed.

(** What the pieces make of a request, and what has been sent, as the specification has
    it. *)
Record pieces_done (l : list piece) (wk wk' : wrapper * K) : Prop := {
  done_request : request wk'.1 = request wk.1;
  done_connection : HttpResponse.connection (response wk'.1) = HttpResponse.connection (response wk.1);
  done_body : HttpResponse.data_buffer (response wk'.1) =
    (web_pieces iterate (HttpRequest.get_args (request wk.1)) (HttpResponse.data_buffer (response wk.1)) l).1;
  done_queued : queued wk'.2 = queued wk.2 ++
    map (λ r, (HttpResponse.connection (response wk.1), r.1, r.2))
      (web_pieces iterate (HttpRequest.get_args (request wk.1)) (HttpResponse.data_buffer (response wk.1)) l).2
}.

Lemma take_all_done l wk : pieces_done l wk (foldl (take_data iterate) wk l).
Proof.
  revert wk. induction l as [|x l IH]; intros wk; cbn [foldl].
  - split; cbn; by rewrite ?app_nil_r.
  - destruct (IH (take_data iterate wk x)) as [I1 I2 I3 I4].
    destruct (take_data_body iterate wk x) as (Hb & Hc & Hk). rewrite (take_data_request iterate wk x) in *.
    rewrite Hb, Hc in *. split; [done..| |]; cbn [web_pieces];
      destruct (web_pieces iterate (HttpRequest.get_args (request wk.1)) _ l) as [body replies]; [done|].
    cbn [fst snd] in *. rewrite I4, Hk, map_app, app_assoc. f_equal.
    destruct (p_size x =? 0); [by rewrite queued_respond|by rewrite app_nil_r].
Qed.

(** The request with its posted data, as the specification has it. *)
Lemma posted_asked w body :
  HttpRequest.has_post_data (request w) = true → HttpResponse.data_buffer (response w) = body →
  asked w = Ask (a_url (asked w)) (a_args (asked w)) (Some body).
Proof. intros Hp <-. unfold asked. cbn. by rewrite Hp. Qed.

(** Before anything is posted there is nothing in the buffer. *)
Definition plain w : Prop :=
  HttpRequest.has_post_data (request w) = false → HttpResponse.data_buffer (response w) = [].

Lemma plain_posted w : plain w → default [] (a_posted (asked w)) = HttpResponse.data_buffer (response w).
Proof. intros Hp. cbn. destruct (HttpRequest.has_post_data (request w)) eqn:E; [done|]. by rewrite Hp. Qed.

(** A call with posted data. *)
Lemma data_run conn url method chunk q p w pp l result k :
  let s := http_of q in
  let wk := taken (the_server s) l (marked w, k) in
  ptrs q !! conn = Some p → wrappers s !! p = Some w →
  HttpRequest.post_processor (request w) = Some pp → chunk ≠ [] →
  parse pp chunk (mhd s) = (l, result, k) → Forall readable l →
  perform (Data conn url method chunk) q =
  Ret tt (if negb (result =? MHD_NO) && (handled (the_server s) (a_url (asked w)) || bool_decide (l = []))
          then Requests (set_both p wk s) (<[conn := p]> (ptrs q)) (lost q)
          else Requests (set_wrappers (delete p (wrappers s)) (with_mhd wk.2 s)) (delete conn (ptrs q)) (lost q)).
Proof.
  intros s wk Hp Hw Hpp Hne Ek Hl. cbn [mhd_perform]. unfold call_hook. rewrite Hp. fold s.
  rewrite (hook_data handler_of get_values post_process destroy parse pieces_ok conn url method chunk p _ w pp Hw Hpp Hne), Ek.
  set (s0 := with_mhd k (set_wrapper p (marked w) s)).
  rewrite bind_unfold, (pieces_taken p l s0 (marked w)); [|apply lookup_insert_eq|done].
  change (the_server s0) with (the_server s). change (a_url (asked (marked w))) with (a_url (asked w)).
  change (mhd s0) with k. fold wk.
  assert (set_both p wk s0 = set_both p wk s) as ->.
  { unfold s0, set_both, with_mhd, set_wrapper, set_wrappers. cbn. by rewrite insert_insert_eq. }
  replace (negb ((if _ =? MHD_NO then MHD_NO else result) =? MHD_NO)) with
    (negb (result =? MHD_NO) && (handled (the_server s) (a_url (asked w)) || bool_decide (l = [])))
    by (destruct (_ || bool_decide (l = [])); cbn; by rewrite ?andb_true_r, ?andb_false_r).
  destruct (negb (result =? MHD_NO) && _); [done|].
  erewrite bind_run by apply load_response_run, lookup_set_both.
  run_with (delete_wrapper_run p (set_both p wk s) _ (lookup_set_both _ _ _)).
  replace (set_wrappers (delete p _) (set_both p wk s)) with (set_wrappers (delete p (wrappers s)) (with_mhd wk.2 s))
    by (unfold set_both, with_mhd, set_wrapper, set_wrappers; cbn; by rewrite delete_insert_eq).
  cbn [mret M_ret]. unfold after_call. by destruct (HttpResponse.get_mhd_result _ =? MHD_NO).
Qed.

Lemma data_effect conn url method chunk q :
  requests_ok q → (∀ w, current conn q = Some w → plain w) →
  web_allowed (Data conn url method chunk) q →
  ∃ q' e, perform (Data conn url method chunk) q = Ret tt q' ∧
    event_of (Data conn url method chunk) q = Some (conn, e) ∧ effect conn e q q'.
Proof.
  intros Ho Hpl [(w & pp & Hc & Hpp & Hne & Hacc) _]. destruct (ptrs q !! conn) as [p|] eqn:Hp.
  2: { unfold current in Hc. by rewrite Hp in Hc. }
  destruct (ro_current q conn p Ho Hp) as (url' & pp' & w' & Hc' & [Hw _ _] & Hconn).
  rewrite Hc in Hc'. injection Hc' as <-.
  cbn [event_of]. rewrite Hc. cbn [mbind option_bind]. rewrite Hpp. change (default None (Some pp)) with pp.
  pose proof (parse_queued pp chunk (mhd (http_of q))) as Hq.
  destruct (parse pp chunk (mhd (http_of q))) as [[l result] k] eqn:Ek. cbn [fst snd] in Hacc, Hq.
  eexists _, _. split; [by eapply data_run|split; [reflexivity|]].
  assert (abs_conn conn q = Some (asked w)) as Ha by (unfold abs_conn; by rewrite Hc).
  pose proof (plain_posted w (Hpl w Hc)) as Hb. unfold taken. cbn [fst].
  change (HttpRequest.get_arg _ (request (marked w))) with (a_url (asked w)).
  destruct (handled (the_server (http_of q)) (a_url (asked w))) eqn:Eh; cbn [orb]; rewrite ?andb_true_r.
  - destruct (take_all_done l (marked w, k)) as [D1 D2 D3 D4]. set (wk := foldl _ _ l) in *.
    cbn [fst snd marked request response HttpRequest.set_has_post_data HttpRequest.get_args] in *.
    rewrite Hconn, Hq in D4.
    assert (asked wk.1 = Ask (a_url (asked w)) (a_args (asked w))
      (Some (web_pieces iterate (a_args (asked w)) (default [] (a_posted (asked w))) l).1)) as Hwk.
    { rewrite Hb. rewrite (posted_asked wk.1 _ ltac:(by rewrite D1) D3). unfold asked. by rewrite D1. }
    destruct (negb (result =? MHD_NO)); split; rewrite ?Ha; cbn [web_step]; rewrite ?Eh, ?Hb;
      unfold abs_conn; rewrite ?current_put, ?current_drop; cbn [http_of]; rewrite ?lookup_set_both.
    all: try (cbn [asked a_args] in *; destruct (web_pieces _ _ _ l); done).
    + cbn [fmap option_fmap option_map]. rewrite Hwk, Hb. by destruct (web_pieces _ _ _ l).
    + intros w2 [= <-]. by rewrite D1.
  - destruct (negb (result =? MHD_NO) && bool_decide (l = [])) eqn:Er; split; rewrite ?Ha; cbn [web_step]; rewrite ?Eh, ?Er;
      unfold abs_conn; rewrite ?current_put, ?current_drop; cbn [http_of fst snd map]; rewrite ?lookup_set_both, ?app_nil_r; try done.
    + cbn [fst fmap option_fmap option_map]. by rewrite Hb.
    + by intros w2 [= <-].
Qed.

(** The calls of the front controller at the end of a request. *)
Lemma front_web conn q p w :
  ptrs q !! conn = Some p → wrappers (http_of q) !! p = Some w → plain w →
  HttpResponse.connection (response w) = conn → HttpRequest.has_post_data (request w) = false →
  let s := http_of q in
  ∃ r s' w', front_controller handler_of p s = Ret r s' ∧ wrappers s' !! p = Some w' ∧
    queued (mhd s') = queued (mhd s) ++
      (if handled (the_server s) (a_url (asked w)) then [(conn, 200, page (iterate (a_args (asked w))))] else []).
Proof.
  intros Hp Hw Hpl Hc Hn s. destruct (handled (the_server s) (a_url (asked w))) eqn:Eh.
  - apply bool_decide_eq_true in Eh as [h Hh].
    rewrite (front_default handler_of iterate (a_url (asked w)) h (handlers_default h) p s w Hw (conj Hh eq_refl)).
    do 3 eexists. split; [by apply default_handle_run|]. split; [apply lookup_set_wrapper|].
    cbn [mhd set_wrapper set_wrappers]. unfold answer. rewrite queued_respond. unfold with_page.
    cbn [response]. unfold HttpResponse.add_to_buffer. cbn. by rewrite (Hpl Hn), Hc.
  - apply bool_decide_eq_false, eq_None_not_Some in Eh. exists MHD_NO, s, w. rewrite app_nil_r. split; [|done].
    unfold front_controller. run_with (find_handler_run p s w Hw).
    change (HttpRequest.get_arg _ (request w)) with (a_url (asked w)). by rewrite Eh.
Qed.

(** The pieces that the parser still holds, and then the hook's own call. *)
Lemma front_post_web conn p w l s :
  wrappers s !! p = Some w → HttpResponse.connection (response w) = conn → Forall readable l →
  ∃ r1 s1 r s' w', post_pieces (post_processor handler_of p) l s = Ret r1 s1 ∧
    front_controller_post handler_of p None None None None UINT64_MAX 0 s1 = Ret r s' ∧
    wrappers s' !! p = Some w' ∧
    queued (mhd s') = queued (mhd s) ++ map (λ x, (conn, x.1, x.2))
      (if handled (the_server s) (a_url (asked w))
       then (web_pieces iterate (a_args (asked w)) (HttpResponse.data_buffer (response w)) (l ++ [last_piece])).2 else []).
Proof.
  intros Hw Hc Hl. destruct (handled (the_server s) (a_url (asked w))) eqn:Eh.
  - apply bool_decide_eq_true in Eh as [h Hh].
    pose proof (take_all_done (l ++ [last_piece]) (w, mhd s)) as [_ _ _ D].
    pose proof (pieces_run handler_of iterate (a_url (asked w)) h (handlers_default h) p l s w Hw (conj Hh eq_refl) Hl) as E1.
    set (wk := foldl (take_data iterate) (w, mhd s) l) in *.
    assert (routed (a_url (asked w)) h (set_both p wk s) wk.1) as Hr.
    { split; [done|]. unfold wk. by rewrite take_all_request. }
    pose proof (piece_run handler_of iterate (a_url (asked w)) h (handlers_default h) p last_piece _ _
      (lookup_set_both p wk s) Hr last_readable) as E2.
    do 5 eexists. split; [exact E1|]. split; [exact E2|]. split; [apply lookup_set_both|].
    rewrite foldl_app in D. cbn [foldl fst snd] in D. fold wk in D. rewrite Hc in D.
    cbn [mhd set_both with_mhd set_wrapper set_wrappers]. by rewrite <-surjective_pairing.
  - apply bool_decide_eq_false, eq_None_not_Some in Eh. exists (if bool_decide (l = []) then MHD_YES else MHD_NO), s, MHD_NO, s, w.
    rewrite app_nil_r. pose proof (pieces_taken p l s w Hw Hl) as E.
    assert (handled (the_server s) (a_url (asked w)) = false) as Eh' by (by apply bool_decide_eq_false, eq_None_not_Some).
    rewrite Eh' in E. cbn [orb] in E. unfold taken in E. cbn [fst] in E.
    change (HttpRequest.get_arg _ (request w)) with (a_url (asked w)) in E. rewrite Eh', (set_both_same p s w Hw) in E.
    split; [done|]. split; [|done]. unfold front_controller_post. run_with (find_handler_run p s w Hw).
    change (HttpRequest.get_arg _ (request w)) with (a_url (asked w)). by rewrite Eh.
Qed.

Lemma finish_effect conn url method q :
  requests_ok q → (∀ w, current conn q = Some w → plain w) → web_allowed (Finish conn url method) q →
  ∃ q' e, perform (Finish conn url method) q = Ret tt q' ∧
    event_of (Finish conn url method) q = Some (conn, e) ∧ effect conn e q q'.
Proof.
  intros Ho Hpl [(w & pp & Hcur & Hpp & Hk) _]. destruct (ptrs q !! conn) as [p|] eqn:Hp.
  2: { unfold current in Hcur. by rewrite Hp in Hcur. }
  destruct (ro_current q conn p Ho Hp) as (url' & pp' & w' & Hcur' & [Hw _ _] & Hc).
  rewrite Hcur in Hcur'. injection Hcur' as <-. cbn [event_of]. rewrite Hcur, Hpp. change (default None (Some pp)) with pp.
  set (s := http_of q) in *. set (l := (flush pp (mhd s)).1).
  assert (∃ result s', front_controller_c_hook handler_of get_values post_process destroy conn url method [] 0 (Some p) s =
      Ret (result, 0, None) s' ∧ queued (mhd s') = queued (mhd s) ++ map (λ r, (conn, r.1, r.2))
        (web_step iterate (handled (the_server s)) (Some (asked w)) (Ended l)).2) as (result & s' & E & Hq).
  { cbn [web_step snd a_posted asked]. destruct (HttpRequest.has_post_data (request w)) eqn:Hn.
    - destruct (front_post_web conn p w l (with_mhd (flush pp (mhd s)).2 s) Hw Hc (Hk eq_refl))
        as (r1 & s1 & r & s' & w' & E1 & E & Hw' & Hq).
      do 2 eexists. split; [by apply (hook_last_post handler_of get_values post_process destroy flush flush_ok conn url
        method [] p s w pp r1 s1 r s' w')|].
      cbn [mhd set_wrappers]. rewrite Hq. cbn [mhd with_mhd]. by rewrite flush_queued.
    - destruct (front_web conn q p w Hp Hw (Hpl w Hcur) Hc Hn) as (r & s1 & w1 & E1 & Hw1 & Hq1).
      do 2 eexists. split; [by apply (hook_last handler_of get_values post_process destroy conn url method [] p _ w r s1 w1)|].
      cbn [mhd set_wrappers]. rewrite Hq1. fold s. by destruct (handled _ _). }
  exists (Requests s' (delete conn (ptrs q)) (lost q)), (Ended l). split; [|split; [done|]].
  - cbn [mhd_perform]. unfold call_hook. rewrite Hp. fold s. rewrite E. unfold after_call. by destruct (result =? MHD_NO).
  - assert (abs_conn conn q = Some (asked w)) as Ha by (unfold abs_conn; by rewrite Hcur).
    split; rewrite ?Ha; unfold abs_conn; rewrite ?current_drop; [done|exact Hq|done].
Qed.

(** *** Runs *)

Record web_ok (v : http_server H) q : Prop := {
  web_requests : requests_ok q;
  web_server : the_server (http_of q) = v;
  web_plain conn w : current conn q = Some w → plain w
}.

Lemma action_effect a q conn e :
  requests_ok q → (∀ conn w, current conn q = Some w → plain w) → web_allowed a q → event_of a q = Some (conn, e) →
  on_conn a = Some conn ∧ ∃ q', perform a q = Ret tt q' ∧ effect conn e q q'.
Proof.
  intros Ho Hpl Ha He. destruct a as [cn url method data|cn url method chunk|cn url method|cn|k].
  - injection He as <- <-. split; [done|]. by apply begin_effect.
  - destruct (data_effect cn url method chunk q Ho (Hpl cn) Ha) as (q' & e' & E & He' & Hf).
    rewrite He in He'. injection He' as -> <-. split; [done|]. by exists q'.
  - destruct (finish_effect cn url method q Ho (Hpl cn) Ha) as (q' & e' & E & He' & Hf).
    rewrite He in He'. injection He' as -> <-. split; [done|]. by exists q'.
  - injection He as <- <-. split; [done|]. eexists. split; [reflexivity|].
    split; unfold abs_conn; rewrite ?current_drop; [..|done]; cbn [http_of];
      destruct (current cn q); cbn; by rewrite ?app_nil_r.
  - done.
Qed.

(** Each action is the event of its connection, in the specification, and nothing on the
    others. *)
Lemma web_perform v a q :
  web_ok v q → web_allowed a q →
  ∃ q', perform a q = Ret tt q' ∧ web_ok v q' ∧
    match event_of a q with
    | Some (conn, e) => effect conn e q q' ∧ ∀ conn', conn' ≠ conn → abs_conn conn' q' = abs_conn conn' q
    | None => queued (mhd (http_of q')) = queued (mhd (http_of q)) ∧ ∀ conn, abs_conn conn q' = abs_conn conn q
    end.
Proof.
  intros [Ho Hv Hpl] Ha.
  destruct (mhd_perform_ok terminated handler_of get_values post_process destroy values parse flush values_ok pieces_ok flush_ok
    ltac:(by intros ? [=]) a q Ho (proj1 Ha)) as (q' & E & Ho' & Hv' & Hfr).
  exists q'. split; [done|]. destruct (event_of a q) as [[conn e]|] eqn:He.
  - destruct (action_effect a q conn e Ho Hpl Ha He) as (Hon & q1 & E1 & Hf). rewrite E in E1. injection E1 as <-.
    assert (∀ conn', conn' ≠ conn → current conn' q' = current conn' q) as Hc.
    { intros conn' Hne. apply Hfr. rewrite Hon. by intros [= ->]. }
    split; [|split; [done|]; intros conn' Hne; unfold abs_conn; by rewrite Hc].
    split; [done|by rewrite Hv'|]. intros conn' w. destruct (decide (conn' = conn)) as [->|Hne].
    + exact (effect_plain _ _ _ _ Hf w).
    + rewrite Hc by done. apply Hpl.
  - destruct a as [| | | |k]; try done; [cbn in He; by destruct (parse _ _ _) as [[]]|].
    assert (∀ conn, current conn q' = current conn q) as Hc by (intros conn; by apply Hfr).
    injection E as <-. split; [|split; [apply Ha|intros conn; unfold abs_conn; by rewrite Hc]].
    split; [done..|]. intros conn w. rewrite Hc. apply Hpl.
Qed.

Lemma events_on_cons conn conn' e l :
  events_on conn ((conn', e) :: l) = (if decide (conn' = conn) then [e] else []) ++ events_on conn l.
Proof. unfold events_on. rewrite filter_cons. cbn. by destruct (decide (conn' = conn)). Qed.

Lemma replies_on_app conn l1 l2 : replies_on conn (l1 ++ l2) = replies_on conn l1 ++ replies_on conn l2.
Proof. unfold replies_on. by rewrite filter_app, map_app. Qed.

Lemma replies_on_made conn conn' (r : list (Z * bytes)) :
  replies_on conn (map (λ x, (conn', x.1, x.2)) r) = if decide (conn' = conn) then r else [].
Proof.
  unfold replies_on. induction r as [|[c d] r IH]; cbn [map]; [by case_decide|]. rewrite filter_cons. cbn.
  destruct (decide (conn' = conn)); cbn; [by rewrite IH|done].
Qed.

Lemma web_runs v q l q' :
  web_ok v q → web_run q l q' →
  web_ok v q' ∧ ∃ new, queued (mhd (http_of q')) = queued (mhd (http_of q)) ++ new ∧
    ∀ conn, web_steps iterate (handled v) (abs_conn conn q) (events_on conn l) = (abs_conn conn q', replies_on conn new).
Proof.
  intros Hok Hr. induction Hr as [q|a q q1 l q2 Ha E _ IH].
  - split; [done|]. exists []. by rewrite app_nil_r.
  - destruct (web_perform v a q Hok Ha) as (q1' & E' & Hok1 & He). rewrite E in E'. injection E' as <-.
    destruct (IH Hok1) as (Hok2 & new & Hq & Hs). split; [done|].
    destruct (event_of a q) as [[conn e]|]; cbn [option_list option_rect app].
    + destruct He as [[Hf1 Hf2 _] Hoth]. rewrite (web_server v q Hok) in Hf1, Hf2.
      eexists. split; [by rewrite Hq, Hf2, <-app_assoc|]. intros conn'.
      rewrite events_on_cons, replies_on_app, replies_on_made. destruct (decide (conn = conn')) as [<-|Hne].
      * cbn [app web_steps]. destruct (web_step _ _ _ e) as [st1 r1]. cbn [fst snd] in Hf1. rewrite <-Hf1, Hs. done.
      * cbn [app]. rewrite <-(Hoth conn') by (by apply not_eq_sym). by apply Hs.
    + destruct He as [He1 He2]. exists new. split; [by rewrite Hq, He1|]. intros conn'. by rewrite <-He2.
Qed.

Lemma web_ok_new s : wrappers s = ∅ → web_ok (the_server s) (Requests s ∅ ∅).
Proof.
  intros Hs. split; [by apply requests_ok_new|done|]. intros conn w. unfold current. cbn. by rewrite lookup_empty.
Qed.
End web.

(** ** Properties *)

(** C29.  Requests on any number of connections, with any handlers that keep the contract
    [Respects], however the calls of the hook are interleaved and whichever clients go
    away in between.  As long as every header and argument has a value, every piece of
    posted data, also those that the post processor hands out when it is destroyed, is such
    as the handlers can read, and a transfer encoding comes with a file name: every further
    call returns, and leaves the requests of the other connections as they are; each
    request in progress has a wrapper of its own, made for its connection; and the wrappers
    that exist are those of the requests in progress and those of clients that went away,
    which are never freed.  (The requests that are left out are undefined behaviour in the
    code: see [HttpProofs.http_undefined].) *)
Theorem http_requests_safe {K H : Type} `{MHD K} good handler_of get_values post_process destroy values parse flush
    (s : http K H) (q : requests K H) :
  iterates_values get_values values → iterates_pieces post_process parse → iterates_flush destroy flush →
  good None → (∀ h, Respects good (handler_of h)) → wrappers s = ∅ →
  rtc (mhd_acts good handler_of get_values post_process destroy values parse flush) (Requests s ∅ ∅) q →
  (∀ a, mhd_allowed good values parse flush a q → ∃ q',
     mhd_perform handler_of get_values post_process destroy a q = Ret tt q' ∧
     ∀ conn, on_conn a ≠ Some conn → current conn q' = current conn q) ∧
  (∀ conn p, ptrs q !! conn = Some p → ∃ w, wrappers (http_of q) !! p = Some w ∧
     HttpResponse.connection (response w) = conn) ∧
  (∀ conn conn' p, ptrs q !! conn = Some p → ptrs q !! conn' = Some p → conn = conn') ∧
  dom (wrappers (http_of q)) = map_img (ptrs q) ∪ lost q ∧ map_img (ptrs q) ## lost q.
Proof.
  intros Hvo Hpo Hf Hg Hh Hs Hr.
  pose proof (mhd_reachable good handler_of get_values post_process destroy values parse flush Hvo Hpo Hf Hg _ _
    (requests_ok_new s Hs) Hr) as Ho.
  split_and!.
  - intros a Ha. destruct (mhd_perform_ok good handler_of get_values post_process destroy values parse flush Hvo Hpo Hf Hg a q Ho Ha)
      as (q' & E & _ & _ & Hoth). exists q'. split; [done|]. intros conn Hne. by apply Hoth.
  - intros conn p Hp. destruct (ro_open q Ho conn p Hp) as (? & ? & w & [Hw _ _] & Hc). by exists w.
  - intros conn conn' p. by apply ro_inj.
  - apply set_eq. intros p. rewrite elem_of_dom, elem_of_union, elem_of_map_img. split.
    + intros Hp. destruct (ro_live q Ho p Hp) as [_ [Hl|Hc]]; [by right|by left].
    + intros [[conn Hc]|Hl]; [|by apply (ro_lost q Ho)].
      destruct (ro_open q Ho conn p Hc) as (? & ? & w & [Hw _ _] & _). by exists w.
  - intros p [conn Hc]%elem_of_map_img Hl. by apply (ro_lost q Ho p Hl) in Hc.
Qed.

(** Runs the actions one after the other. *)
Ltac mhd_act a := eapply rtc_l; [exists a; split; [|vm_compute; reflexivity]|].

(** The request on 5 is left by its client, the one on 6 is refused. *)
Lemma http_requests_safe_witness :
  ∃ q, rtc (mhd_acts terminated two_handlers (sample_values []) sample_post sample_destroy (λ _ _, []) sample_parse sample_flush)
         (Requests two_paths ∅ ∅) q ∧
    dom (wrappers (http_of q)) = map_img (ptrs q) ∪ lost q ∧ ptrs q = ∅ ∧ lost q = {[0%nat]}.
Proof.
  assert (∃ q, rtc (mhd_acts terminated two_handlers (sample_values []) sample_post sample_destroy (λ _ _, []) sample_parse sample_flush)
         (Requests two_paths ∅ ∅) q ∧ ptrs q = ∅ ∧ lost q = {[0%nat]}) as (q & Hr & Hp & Hl).
  { eexists. split.
    - mhd_act (Begin (K := list mhd_event) 5 (str "/") (str "GET") []); [split; [reflexivity|by exists []]|].
      mhd_act (Begin (K := list mhd_event) 6 (str "/upload") (str "POST") []); [split; [reflexivity|by exists []]|].
      mhd_act (Data (K := list mhd_event) 6 (str "/upload") (str "POST") (str "x=1"));
        [do 2 eexists; split; [reflexivity|split; [reflexivity|by apply sample_acceptable]]|].
      mhd_act (HangUp (K := list mhd_event) 5); [done|]. apply rtc_refl.
    - split; vm_compute; reflexivity. }
  exists q. split; [done|]. split; [|by split].
  apply (http_requests_safe terminated two_handlers (sample_values []) sample_post sample_destroy (λ _ _, []) sample_parse sample_flush two_paths q).
  - intros conn it r s. reflexivity.
  - intros hook pp data s. reflexivity.
  - apply sample_destroy_flushes.
  - intros ? [=].
  - intros []; [apply refusing_respects|apply default_respects].
  - reflexivity.
  - exact Hr.
Defined.

(** libmicrohttpd's record in the examples. *)
Definition queued_events (k : list mhd_event) : list (Z * Z * bytes) :=
  omap (λ e, match e with Queued conn status data => Some (conn, status, data) | _ => None end) k.

#[export] Program Instance log_record : MHDRecord (list mhd_event) := { queued := queued_events }.
Next Obligation. intros. unfold queued_events. cbn. by rewrite omap_app, app_nil_r. Qed.
Next Obligation.
  intros conn status data k. unfold queued_events, respond. cbn.
  by rewrite last_snoc, removelast_last, omap_app.
Qed.

Lemma sample_parse_queued pp c k : queued (sample_parse pp c k).2 = queued k.
Proof.
  unfold sample_parse. destruct (seen k); [|destruct (decide _)]; cbn; unfold queued_events;
    by rewrite ?omap_app, ?app_nil_r.
Qed.

Lemma sample_flush_queued pp k : queued (sample_flush pp k).2 = queued k.
Proof. unfold sample_flush. cbn. unfold queued_events. by rewrite omap_app, app_nil_r. Qed.

(** C3.  What the HTTP server does for a connection.  When its handlers are those of the
    program [httpserver], then however the calls for many connections are interleaved,
    whatever libmicrohttpd's parser makes of posted data, also when the post processor is
    destroyed, and whichever clients go away: every further call returns, and each
    connection behaves as the machine [web_step] does on its own events alone.  So a
    request without posted data to a path that is registered is answered once, when it
    ends, with the page of its headers and arguments; one with posted data is answered with
    all that was posted so far, in order, at every piece of size 0 and once more when it
    ends; any other request is not answered; and what happens on a connection never shows
    on another.  Left out, as undefined behaviour, are headers and arguments without a
    value, pieces with a transfer encoding and no file name, and pieces whose data is not a
    C string. *)
Theorem http_server_refines {K H : Type} `{MHDRecord K} handler_of get_values post_process destroy values parse flush iterate
    (s : http K H) l (q : requests K H) :
  iterates_values get_values values → iterates_pieces post_process parse → iterates_flush destroy flush →
  (∀ h, handler_of h = DefaultHandler iterate) → (∀ pp c k, queued (parse pp c k).2 = queued k) →
  (∀ pp k, queued (flush pp k).2 = queued k) → wrappers s = ∅ →
  web_run handler_of get_values post_process destroy values parse flush (Requests s ∅ ∅) l q →
  (∀ a, web_allowed values parse flush a q → ∃ q', mhd_perform handler_of get_values post_process destroy a q = Ret tt q') ∧
  ∃ replies, queued (mhd (http_of q)) = queued (mhd s) ++ replies ∧
    ∀ conn, web_steps iterate (handled (the_server s)) None (events_on conn l) =
            (abs_conn conn q, replies_on conn replies).
Proof.
  intros Hvo Hpo Hf Hd Hpq Hfq Hs Hr.
  destruct (web_runs handler_of get_values post_process destroy values parse flush iterate Hvo Hpo Hf Hd Hpq Hfq (the_server s) _ l q
    (web_ok_new s Hs) Hr) as (Hok & replies & Hq & Hc).
  split.
  - intros a Ha. destruct (web_perform handler_of get_values post_process destroy values parse flush iterate Hvo Hpo Hf Hd Hpq Hfq
      (the_server s) a q Hok Ha) as (q' & E & _). by exists q'.
  - exists replies. split; [done|]. intros conn. rewrite <-Hc. unfold abs_conn, current. cbn. by rewrite lookup_empty.
Qed.

Ltac web_act a := eapply (run_act _ _ _ _ _ _ _ a); [|vm_compute; reflexivity|].

(** A request of the examples may end. *)
Ltac sample_finish := split; [do 2 eexists; split_and!; [reflexivity..|intros _; apply sample_acceptable_rest]|done].

(** Data is posted on 6 while 5 is served; the one on 7 is for another path.  The form's only
    value is still open when its request ends, so it is answered twice. *)
Lemma http_server_refines_witness :
  let body := page (sample_order (HttpRequest.get_args (request_of [] (str "/") (str "POST") None))) ++
    post_header ++ str "1" in
  ∃ l q, web_run (λ _ : unit, DefaultHandler sample_order) (sample_values []) sample_post sample_destroy (λ _ _, []) sample_parse sample_flush
           (Requests sample_http ∅ ∅) l q ∧
    replies_on 6 (queued (mhd (http_of q))) = [(200, body); (200, body)] ∧
    (web_steps sample_order (handled (the_server sample_http)) None (events_on 6 l)).2 = [(200, body); (200, body)] ∧
    replies_on 7 (queued (mhd (http_of q))) = [].
Proof.
  intros body.
  assert (∃ l q, web_run (λ _ : unit, DefaultHandler sample_order) (sample_values []) sample_post sample_destroy (λ _ _, []) sample_parse sample_flush
           (Requests sample_http ∅ ∅) l q ∧ replies_on 6 (queued (mhd (http_of q))) = [(200, body); (200, body)] ∧
           replies_on 7 (queued (mhd (http_of q))) = []) as (l & q & Hr & H6 & H7).
  { do 2 eexists. split.
    - web_act (Begin (K := list mhd_event) 6 (str "/") (str "POST") []); [split; [split; [reflexivity|by exists []]|done]|].
      web_act (Begin (K := list mhd_event) 5 (str "/") (str "GET") []); [split; [split; [reflexivity|by exists []]|done]|].
      web_act (Data (K := list mhd_event) 6 (str "/") (str "POST") (str "x=1"));
        [split; [do 2 eexists; split; [reflexivity|split; [reflexivity|by apply sample_acceptable]]|done]|].
      web_act (Begin (K := list mhd_event) 7 (str "/other") (str "GET") []); [split; [split; [reflexivity|by exists []]|done]|].
      web_act (Finish (K := list mhd_event) 5 (str "/") (str "GET")); [sample_finish|].
      web_act (Finish (K := list mhd_event) 7 (str "/other") (str "GET")); [sample_finish|].
      web_act (Finish (K := list mhd_event) 6 (str "/") (str "POST")); [sample_finish|]. apply run_none.
    - split_and!; vm_compute; reflexivity. }
  exists l, q. split; [done|]. split; [done|]. split; [|done].
  destruct (http_server_refines (λ _ : unit, DefaultHandler sample_order) (sample_values []) sample_post sample_destroy (λ _ _, [])
    sample_parse sample_flush sample_order sample_http l q) as (_ & replies & Hq & Hc).
  - intros conn it r s. reflexivity.
  - intros hook pp data s. reflexivity.
  - apply sample_destroy_flushes.
  - reflexivity.
  - apply sample_parse_queued.
  - apply sample_flush_queued.
  - reflexivity.
  - exact Hr.
  - rewrite (Hc 6). cbn [snd]. rewrite <-H6, Hq. reflexivity.
Defined.
