(* ===== verification/Programs.v ===== *)
(** * The main programs

    [sserver], [sclient] and [httpserver] ([src/src/main/cpp/*/main.cpp]): what they
    do with their arguments, and how they set up the classes.  Configuring log4cpp
    and the log messages are left out; the endless loops take a number of rounds. *)

From S2P Require Import Prelude Utils BufferedReader BufferedWriter Kernel Simulation SocketUtils.
From S2P Require Import SocketServer ServerProofs ServerTheorems SocketClient ClientProofs.
From S2P Require Import Http HttpProofs.

(** ** [sserver] *)
Section sserver.
Context {K : Type} `{Kernel K}.

(** A server before its constructor runs. *)
Definition server_blank : server := Server ∅ ∅ ∅ ∅ 0 0 0 [] [] [].

(** An exception of [stoi] is not caught.  The port is a [uint32_t].  [rounds] of the
    loop of [process_epoll_events], which the constructor does not leave. *)
Definition sserver_main (rounds : nat) (argv : list bytes) : M (world K server) unit :=
  let argc := len argv in
  if (argc <? 2) || (2 <? argc) then exit_with 1
  else
    a ← index argv 1;
    p ← stoi a;
    SocketServer_new (wrap 32 p);;
    SocketServer.process_epoll_events rounds.
End sserver.

(** ** [httpserver] *)
Section httpserver.
Context {K H : Type} `{MHD K}.
Abbreviation st := (http K H).

Definition HttpServer_new (port tpool_size data_steam_buffer : Z) : M st unit :=
  modify (λ s, Http (mhd s) (wrappers s) (next_wrapper s)
    (HttpServer port tpool_size data_steam_buffer ∅)).

(** [MHD_start_daemon] gets a [uint16_t] port and the size of its pool of threads; it
    returns NULL when it cannot start.  Once it has, the program sleeps in a loop. *)
Context (MHD_start_daemon : Z → Z → K → option nat * K).

Definition start : M st unit :=
  v ← gets (λ s, the_server s);
  mhd_daemon ← mhd_call (MHD_start_daemon (wrap 16 (hs_port v)) (tpool_size v));
  match mhd_daemon with
  | None => exit_with 1
  | Some _ => mret tt
  end.

Definition DEFAULT_PORT : Z := 8080.
Definition DEFAULT_THREAD_POOL_SIZE : Z := 4.

(** boost's options: the values of [--port] and [--tp] where they are given, and
    whether [--help] is; or the exception that parsing throws. *)
Context (program_options : list bytes → exn + (option Z * option Z * bool)).

Definition httpserver_main (default_handler : H) (argv : list bytes) : M st unit :=
  catch_std
    (match program_options argv with
     | inl e => throw e
     | inr (port, tp, help) =>
         if help : bool then exit_with 0
         else
           HttpServer_new (default DEFAULT_PORT port) (default DEFAULT_THREAD_POOL_SIZE tp) 1048576;;
           register_handler (str "/") default_handler;;
           start
     end)
    (λ _, mret tt).
End httpserver.

(** ** [sclient] *)

(** [std::to_string] of an integer of up to 20 digits. *)
Fixpoint decimal (fuel : nat) (n : Z) (acc : bytes) : bytes :=
  match fuel with
  | O => acc
  | Datatypes.S fuel' =>
      let acc := ascii_of_N (Z.to_N (48 + n mod 10)) :: acc in
      if n <? 10 then acc else decimal fuel' (n / 10) acc
  end.

Definition to_string (n : Z) : bytes :=
  if n <? 0 then "-"%char :: decimal 20 (- n) [] else decimal 20 n [].

Section sclient.
Context {K : Type} `{Kernel K}.
Abbreviation Mc := (M (world K client)).

Context (uuid_generate : Mc bytes) (uuid_unparse_lower : bytes → bytes).

(** Local variables of the main thread that its closures capture: the calls in
    progress, and the work in the local pool, by the number that each captures.
    They are no part of the client, but of the rest of the machine. *)
Context (ip_calls : ref K Z) (p_tp : ref K (list Z)).

Definition in_kern {T} (r : ref K T) : ref (world K client) T :=
  Ref (λ w, rd r (kern w)) (λ x w, set_kern (wr r x (kern w)) w).

(** A local variable and its first value. *)
Definition declare {T} (r : ref K T) (x : T) : Mc unit := modify (wr (in_kern r) x).

Definition blah : bytes := str "blah blah".

(** [ipc_mutex.lock(); ip_calls--; ipc_mutex.unlock(); cv.notify_one();] *)
Definition call_done : Mc unit :=
  lock Ipc_mutex;;
  n ← load (in_kern ip_calls);
  n ← checked_s32 (n - 1);
  store (in_kern ip_calls) n;;
  unlock Ipc_mutex.

(** [cv.wait(lck)], where [lck] was made with [std::defer_lock] and does not own the
    mutex: it must, so the behaviour is undefined. *)
Definition cv_wait_unowned : Mc unit := undef.

Definition wait_calls : Mc unit :=
  lock Ipc_mutex;;
  n ← load (in_kern ip_calls);
  (if 0 <? n then cv_wait_unowned else mret tt);;
  unlock Ipc_mutex.

(** What other threads do after each round of a loop is [others]. *)
Context (others : Z → Mc unit).

(** The call back of the [i]-th call is [UserCb i]; it runs [call_done]. *)
Definition call_nblock (tc : Z) : Mc unit :=
  declare ip_calls tc;;
  for_loop 31 tc (λ i _,
    succss ← send_msg_key uuid_generate uuid_unparse_lower blah (len blah) (to_string i)
               (Some (UserCb (Z.to_nat i)));
    others i) tt;;
  wait_calls.

(** The closure [work] number [i]; [waits] as in [send_msg_wait]. *)
Definition work (waits : list (Mc bool)) (i : Z) : Mc unit :=
  '(succss, resp) ← send_msg_wait_key uuid_generate uuid_unparse_lower waits blah (len blah) (to_string i) [];
  call_done.

Definition call_block (tc : Z) : Mc unit :=
  declare p_tp [];;
  declare ip_calls tc;;
  for_loop 31 tc (λ i _,
    q ← load (in_kern p_tp);
    store (in_kern p_tp) (q ++ [i]);;
    others i) tt;;
  wait_calls.

Definition hosts : list bytes := [str "localhost:8080"; str "localhost:8081"].

Definition sclient_main : Mc unit :=
  modify (set_app (client_new hosts));;
  c_conns ← connect_to_hosts;
  if c_conns =? 0 then exit_with 1 else call_block 1000000.
End sclient.

(** ** Starting [sserver] *)
Section start_server.
Context {K : Type} `{SocketKernel K}.
Implicit Types (k : K).

(** The calls with which a server starts to listen all succeed: a socket [fd] is bound
    to the port, does not block, listens, and epoll [ep] watches it. *)
Definition listens (p : Z) k (fd ep : Z) (k' : K) : Prop :=
  ∃ k1 k2 k3 k4 k5 k6 flags,
    sys_socket k = (SysOk fd, k1) ∧ 0 ≤ fd ∧ sys_bind fd (wrap 16 p) k1 = (SysOk tt, k2) ∧
    sys_getfl fd k2 = (SysOk flags, k3) ∧ 0 ≤ flags ∧
    sys_setfl fd (Z.lor flags O_NONBLOCK) k3 = (SysOk tt, k4) ∧
    sys_listen fd k4 = (SysOk tt, k5) ∧ sys_epoll_create k5 = (SysOk ep, k6) ∧
    sys_epoll_add ep fd EPOLLIN k6 = (SysOk tt, k').

(** A call that has failed: the rest does not run. *)
Ltac refused :=
  right; split; [|eexists; reflexivity];
  intros ? ? ? (? & ? & ? & ? & ? & ? & ? & ?); destruct_and?;
  repeat match goal with H : ?f ?k = _, H' : ?f ?k = _ |- _ => rewrite H in H'; simplify_eq end;
  first [done|lia].

Lemma SocketServer_new_run p k l s :
  (∃ fd ep k', listens p k fd ep k' ∧ SocketServer_new p (World k l s) =
     Ret tt (World k' l (set_ep_sfd ep (set_i_sfd fd (set_port p s))))) ∨
  ((∀ fd ep k', ¬ listens p k fd ep k') ∧ ∃ w, SocketServer_new p (World k l s) = Exit 1 w).
Proof.
  unfold SocketServer_new, create_socket, bind_socket, listen_socket, unblock_socket, create_and_config_epoll.
  srun. destruct (sys_socket k) as [[e|fd] k1] eqn:E1; cbn [fst snd]; srun; [refused|].
  destruct (Z.ltb_spec fd 0); srun; [refused|]. unfold set_kern. cbn [kern locks app]. srun.
  cbn [i_sfd set_i_sfd set_port SocketServer.port id].
  destruct (sys_bind fd (wrap 16 p) k1) as [[e|[]] k2] eqn:E2; cbn [fst snd int_result Z.ltb Z.compare]; srun; [refused|]; cbn [SocketServer.i_sfd set_i_sfd id]; srun.
  destruct (sys_getfl fd k2) as [[e|flags] k3] eqn:E3; cbn [fst snd]; srun; [refused|].
  destruct (Z.ltb_spec flags 0); srun; [refused|].
  destruct (sys_setfl fd (Z.lor flags O_NONBLOCK) k3) as [[e|[]] k4] eqn:E4; cbn [fst snd int_result Z.ltb Z.compare]; srun; [refused|]; cbn [SocketServer.i_sfd set_i_sfd id]; srun.
  destruct (sys_listen fd k4) as [[e|[]] k5] eqn:E5; cbn [fst snd int_result Z.ltb Z.compare]; srun; [refused|]; cbn [SocketServer.i_sfd set_i_sfd id]; srun.
  destruct (sys_epoll_create k5) as [[e|ep] k6] eqn:E6; cbn [fst snd]; srun; [refused|].
  destruct (sys_epoll_add ep fd EPOLLIN k6) as [[e|[]] k7] eqn:E7; cbn [fst snd int_result Z.ltb Z.compare]; srun; [refused|]; cbn [SocketServer.i_sfd set_i_sfd id]; srun.
  left. exists fd, ep, k7. split; [|done]. exists k1, k2, k3, k4, k5, k6, flags. by split_and!.
Qed.

Lemma ok_blank k : ok [] (World k no_locks server_blank).
Proof.
  split; [done|by constructor|]. split; cbn; try (intros *; rewrite ?lookup_empty; done).
Qed.

Lemma rounds_ok handler iterate rounds w :
  wait_bounded → ok [] w →
  ∃ w', SocketServer.process_epoll_events rounds w = Ret tt w' ∧ ok [] w' ∧
        rtc (server_step handler iterate) w w'.
Proof.
  intros Hwb. revert w. induction rounds as [|n IH]; intros w Hok; [exists w; done|].
  destruct (process_batch_ok w Hwb Hok) as (w1 & E1 & Hok1).
  destruct (IH w1 Hok1) as (w2 & E2 & Hok2 & Hr). exists w2. cbn [SocketServer.process_epoll_events].
  rewrite bind_unfold, E1. split_and!; [done|done|].
  eapply rtc_l; [|done]. by apply (step_action _ _ Events).
Qed.

Lemma sserver_main_two rounds name a (w : world K server) :
  sserver_main rounds [name; a] w =
  (p ← stoi a; SocketServer_new (wrap 32 p);; SocketServer.process_epoll_events rounds) w.
Proof. done. Qed.

(** The number [stoi] finds in a text. *)
Lemma stoi_cases {S} (a : bytes) (s : S) :
  match strtol a with
  | None => stoi a s = Throw InvalidArgument s
  | Some p => if fits_s32 p then stoi a s = Ret p s else stoi a s = Throw OutOfRange s
  end.
Proof. unfold stoi. destruct (strtol a) as [p|]; [|done]. by destruct (fits_s32 p). Qed.
End start_server.

(** ** Properties *)

(** C30.  The program [sserver], from its arguments on.  Without exactly one argument
    it exits with 1 and has done nothing; an argument that is not a number, or not
    an [int], ends it by an exception.  With a number, whose value modulo [2 ^ 32] is
    the port, it exits with 1 when one of the calls to get a listening socket fails;
    else it listens, and serves: each round of its loop returns, and whatever allowed
    actions its threads do and whatever the kernel does from then on, every further allowed
    action of a thread returns normally.  Allowed are all actions but reading a complete
    frame of less than 37 bytes, which is undefined behaviour ([server_short_frame]), and
    reading or sending 4 GB at once. *)
Theorem sserver_program {K : Type} `{SocketKernel K} iterate rounds argv (k : K) :
  wait_bounded → (∀ m, iterate m ≡ₚ map_to_list m) →
  let main := sserver_main rounds argv (World k no_locks server_blank) in
  match argv with
  | [_; a] =>
      match strtol a with
      | None => main = Throw InvalidArgument (World k no_locks server_blank)
      | Some p =>
          if negb (fits_s32 p) then main = Throw OutOfRange (World k no_locks server_blank)
          else
            ((∀ fd ep k', ¬ listens (wrap 32 p) k fd ep k') ∧ ∃ w, main = Exit 1 w) ∨
            ∃ fd ep k' w, listens (wrap 32 p) k fd ep k' ∧ main = Ret tt w ∧
              rtc (server_step sserver_handler iterate)
                (World k' no_locks (Server ∅ ∅ ∅ ∅ fd (wrap 32 p) ep [] [] [])) w ∧
              ∀ w', rtc (server_step sserver_handler iterate) w w' → ok [] w' ∧
                ∀ act, allowed act w' → ∃ w'', perform sserver_handler iterate act w' = Ret tt w''
      end
  | _ => main = Exit 1 (World k no_locks server_blank)
  end.
Proof.
  intros Hwb Hit. cbv zeta. destruct argv as [|name [|a [|b argv]]]; try done.
  2: { unfold sserver_main. cbn [length]. rewrite (proj2 (Z.ltb_lt 2 _)) by lia. by rewrite orb_true_r. }
  rewrite sserver_main_two, bind_unfold. pose proof (stoi_cases a (World k no_locks server_blank)) as Hs.
  destruct (strtol a) as [p|]; [|by rewrite Hs].
  destruct (fits_s32 p); rewrite Hs; [|done]. cbn [negb]. rewrite bind_unfold.
  destruct (SocketServer_new_run (wrap 32 p) k no_locks server_blank) as [(fd & ep & k' & Hl & ->)|[Hn [w ->]]].
  2: { left. split; [done|by exists w]. }
  right. set (w0 := World k' no_locks _).
  assert (ok [] w0) as Hok0.
  { pose proof (ok_blank k') as [H1 H2 H3]. by split. }
  destruct (rounds_ok sserver_handler iterate rounds w0 Hwb Hok0) as (w & E & Hok & Hr).
  exists fd, ep, k', w. split_and!; [done|exact E|exact Hr|]. intros w' Hr'.
  pose proof (reachable_ok sserver_handler iterate w w' Hwb Hit sserver_handles_whole Hok Hr') as Hok'.
  split; [done|]. intros act Ha.
  destruct (allowed_ok sserver_handler iterate act w' Hwb Hit sserver_handles_whole Hok' Ha) as (w'' & ? & _).
  by exists w''.
Qed.

(** On the simulated kernel a connection comes in, and the server goes on. *)
Lemma sserver_program_witness :
  (∃ w, sserver_main 1 [str "sserver"; str "8080"]
          (World (set_batches [[(5, EPOLLIN)]] sim_empty) no_locks server_blank) = Ret tt w ∧
        SocketServer.port (app w) = 8080 ∧ a_tp (app w) = [AddTask] ∧
        ∃ w', perform sserver_handler to_list (Accepted 9) w = Ret tt w') ∧
  sserver_main 1 [str "sserver"; str "http"] (World sim_empty no_locks server_blank) =
    Throw InvalidArgument (World sim_empty no_locks server_blank).
Proof.
  split.
  - pose proof (sserver_program to_list 1 [str "sserver"; str "8080"]
      (set_batches [[(5, EPOLLIN)]] sim_empty) sim_wait_bounded ltac:(intros m; reflexivity)) as HP.
    destruct HP as [[_ [w E]]|(fd & ep & k' & w & _ & E & _ & Hr)].
    + vm_compute in E. discriminate E.
    + exists w. pose proof E as E'. vm_compute in E'. injection E' as <-.
      split_and!; [exact E|reflexivity|reflexivity|].
      apply (Hr _ (rtc_refl _ _)). exact I.
  - exact (sserver_program to_list 1 [str "sserver"; str "http"] sim_empty sim_wait_bounded
      ltac:(intros m; reflexivity)).
Defined.

(** The program [httpserver].  When its options cannot be parsed it ends having
    started nothing; [--help] exits with 0; when libmicrohttpd cannot start on the
    port, of which it gets 16 bits, it exits with 1.  Else it serves on the port and
    with the threads that were asked for, or 8080 and 4: a request to [/] gets one
    page, with status 200, and leaves nothing behind; a request to any other path is
    refused, and the post processor that was made for it stays. *)
Theorem httpserver_program {K H : Type} `{MHD K} handler_of get_values post_process destroy values iterate
    MHD_start_daemon program_options (h : H) argv (s : http K H) :
  iterates_values get_values values → handler_of h = DefaultHandler iterate →
  wrappers s !! next_wrapper s = None →
  let main := httpserver_main MHD_start_daemon program_options h argv s in
  match program_options argv with
  | inl e => main = if is_std_exception e then Ret tt s else Throw e s
  | inr (_, _, true) => main = Exit 0 s
  | inr (port, tp, false) =>
      let p := default 8080 port in
      let n := default 4 tp in
      let '(d, k) := MHD_start_daemon (wrap 16 p) n (mhd s) in
      let s' := Http k (wrappers s) (next_wrapper s) (HttpServer p n 1048576 {[str "/" := h]}) in
      match d with
      | None => main = Exit 1 s'
      | Some _ =>
          main = Ret tt s' ∧
          ∀ conn url method args, values k conn = map (λ a, (a.1, Some a.2)) args →
            whole_request handler_of get_values post_process destroy conn url method [] s' =
            if bool_decide (url = str "/") then
              Ret (MHD_YES, None)
                (Http (respond conn 200
                         (page (iterate (HttpRequest.get_args (request_of args url method None))))
                         (MHD_create_post_processor conn 1048576 k).2)
                   (wrappers s) (Datatypes.S (next_wrapper s)) (the_server s'))
            else
              Ret (MHD_NO, None)
                (Http (MHD_create_post_processor conn 1048576 k).2
                   (wrappers s) (Datatypes.S (next_wrapper s)) (the_server s'))
      end
  end.
Proof.
  intros Hv Hd Hfresh. cbv zeta. unfold httpserver_main, catch_std.
  destruct (program_options argv) as [e|[[port tp] []]]; [by cbn; destruct (is_std_exception e)|done|].
  unfold DEFAULT_PORT, DEFAULT_THREAD_POOL_SIZE. set (p := default 8080 port). set (n := default 4 tp).
  destruct (MHD_start_daemon (wrap 16 p) n (mhd s)) as [d k] eqn:Ed.
  set (s' := Http k (wrappers s) (next_wrapper s) (HttpServer p n 1048576 {[str "/" := h]})).
  assert ((HttpServer_new p n 1048576;; register_handler (str "/") h;; start MHD_start_daemon) s =
          match d with None => Exit 1 s' | Some _ => Ret tt s' end) as ->.
  { unfold HttpServer_new, register_handler, start, modify, gets, mhd_call, exit_with, mret, M_ret. unfold mbind, M_bind. cbn -[wrap].
    rewrite Ed. by destruct d. }
  destruct d; [|done]. split; [done|]. intros conn url method args Hargs.
  destruct (decide (url = str "/")) as [->|Hurl].
  - rewrite bool_decide_eq_true_2 by done.
    by apply (default_get_run handler_of get_values post_process destroy values Hv iterate (str "/") h Hd conn method args s').
  - rewrite bool_decide_eq_false_2 by done.
    apply (http_unregistered handler_of get_values post_process destroy values url conn method args s'); try done.
    by apply lookup_singleton_ne.
Qed.

Lemma httpserver_program_witness :
  let started port n (k : list mhd_event) := (if port =? 0 then None else Some 0%nat, k) in
  let options argv := inr (match argv with [] => None | _ => Some 9090 end, None, false) in
  let s' := Http [] ∅ 0 (HttpServer 9090 4 1048576 {[str "/" := tt]}) in
  httpserver_main started options tt [str "--port=9090"] (Http [] ∅ 0 (HttpServer 0 0 0 ∅)) = Ret tt s' ∧
  whole_request (λ _ : unit, DefaultHandler sample_order) (sample_values []) sample_post sample_destroy 5
    (str "/other") (str "POST") [] s' =
  Ret (MHD_NO, None) (Http [Created (Some 0%nat)] ∅ 1 (the_server s')).
Proof.
  intros started options s'.
  destruct (httpserver_program (λ _ : unit, DefaultHandler sample_order) (sample_values []) sample_post sample_destroy
    (λ _ _, []) sample_order started options tt [str "--port=9090"] (Http [] ∅ 0 (HttpServer 0 0 0 ∅))) as [E Hreq].
  - intros conn it r s. reflexivity.
  - reflexivity.
  - reflexivity.
  - split; [exact E|]. apply (Hreq 5 (str "/other") (str "POST") [] eq_refl).
Defined.

(** ** [sclient] *)
Section sclient_locals.
Context {K : Type} `{SocketKernel K}.
Context (ip_calls : ref K Z) (p_tp : ref K (list Z)).

(** Two different variables of the machine. *)
Record locals : Prop := {
  ip_calls_lawful : LawfulRef ip_calls;
  p_tp_lawful : LawfulRef p_tp;
  ip_calls_there k : is_Some (rd ip_calls k);
  p_tp_there k : is_Some (rd p_tp k);
  p_tp_apart k q : rd ip_calls (wr p_tp q k) = rd ip_calls k
}.
Hypothesis Hloc : locals.

Lemma add_work_loop n w q :
  rd p_tp (kern w) = Some q →
  ∃ k', fold_m (λ i _, q ← load (in_kern p_tp); store (in_kern p_tp) (q ++ [i]);; mret tt) n tt w =
        Ret tt (World k' (locks w) (app w)) ∧
    rd p_tp k' = Some (q ++ n) ∧ rd ip_calls k' = rd ip_calls (kern w).
Proof.
  destruct Hloc as [HL1 HL2 H1 H2 H3]. revert w q. induction n as [|i n IH]; intros w q Hq.
  { exists (kern w). rewrite app_nil_r. by destruct w. }
  destruct (IH (set_kern (wr p_tp (q ++ [i]) (kern w)) w) (q ++ [i])) as (k' & E & Hq' & Hi).
  { cbn. by eapply rd_wr. }
  exists k'. cbn [fold_m]. rewrite !bind_assoc.
  rewrite (bind_run _ _ _ _ _ (load_run (in_kern p_tp) w q Hq)), bind_assoc.
  rewrite (bind_run _ _ _ _ _ (store_run (in_kern p_tp) w (q ++ [i]) q Hq)), bind_ret_l.
  split_and!; [exact E|by rewrite Hq', <-app_assoc|by rewrite Hi; cbn; rewrite H3].
Qed.

(** The work is queued in order; the wait for it is undefined. *)
Lemma call_block_run tc k l c :
  0 < tc < 2 ^ 31 → held l = [] → call_block ip_calls p_tp (λ _, mret tt) tc (World k l c) = Undef.
Proof.
  intros Htc Hl. pose proof Hloc as [HL1 HL2 H1 H2 H3].
  set (w := World (wr ip_calls tc (wr p_tp [] k)) l c).
  change (call_block ip_calls p_tp (λ _, mret tt) tc (World k l c)) with
    ((for_loop 31 tc (λ i _, q ← load (in_kern p_tp); store (in_kern p_tp) (q ++ [i]);; mret tt) tt;;
      wait_calls ip_calls) w).
  destruct (H2 (kern w)) as [q Hq]. destruct (add_work_loop (seqZ 0 tc) w q Hq) as (k' & E & _ & Hi).
  rewrite bind_unfold, for_loop_total, E by lia. unfold wait_calls.
  rewrite bind_unfold, lock_run by (done || (cbn; rewrite Hl; apply not_elem_of_nil)).
  rewrite bind_unfold. unfold load, in_kern. cbn [rd kern set_locks]. rewrite Hi. unfold w. cbn [kern].
  destruct (H1 (wr p_tp [] k)) as [n Hn]. erewrite rd_wr by exact Hn.
  rewrite bind_unfold, (proj2 (Z.ltb_lt 0 tc)) by lia. done.
Qed.
End sclient_locals.

(** The program [sclient].  It connects to its two hosts; when it reaches neither
    it exits with 1.  Else it hands its calls to the pool and waits for them on a
    lock that does not own the mutex, which is undefined behaviour, unless all calls
    are done before it comes to that: here the pool's threads have not yet run. *)
Theorem sclient_program {K : Type} `{SocketKernel K} (ip_calls : ref K Z) (p_tp : ref K (list Z))
    (k : K) l c rs k' :
  locals ip_calls p_tp → held l = [] → dial_all hosts k = Ret rs k' →
  let main := sclient_main ip_calls p_tp (λ _, mret tt) (World k l c) in
  if decide (Forall (λ r, r = None) rs)
  then ∃ w, main = Exit 1 w ∧ e_hosts (app w) = hosts
  else main = Undef.
Proof.
  intros Hloc Hl E. cbv zeta. unfold sclient_main.
  assert (length rs = 2%nat) as Hrs by exact (dial_all_length hosts k rs k' E).
  destruct (connect_fold hosts k l (client_new hosts) 0 rs k') as (l' & Ec & Hg & _); try done.
  { by repeat constructor. }
  assert (held l' = []) as Hl' by (by rewrite Hg).
  set (c' := foldl attempted _ _) in Ec.
  assert (connect_to_hosts (World k l (client_new hosts)) =
          Ret (0 + Z.of_nat (successes rs)) (World k' l' c')) as E' by exact Ec.
  assert (e_hosts c' = failures hosts rs) as He by (by apply attempted_e_hosts).
  change (if decide (Forall (λ r, r = None) rs)
    then ∃ w, (c_conns ← connect_to_hosts; if c_conns =? 0 then exit_with 1
               else call_block ip_calls p_tp (λ _, mret tt) 1000000) (World k l (client_new hosts)) = Exit 1 w ∧
              e_hosts (app w) = hosts
    else (c_conns ← connect_to_hosts; if c_conns =? 0 then exit_with 1
          else call_block ip_calls p_tp (λ _, mret tt) 1000000) (World k l (client_new hosts)) = Undef).
  rewrite bind_unfold, E'. clear E' Ec.
  destruct rs as [|r1 [|r2 [|]]]; try done.
  destruct (decide _) as [Hf|Hf].
  - apply Forall_cons in Hf as [-> Hf]. apply Forall_cons in Hf as [-> _].
    eexists. split; [reflexivity|exact He].
  - destruct (Z.eqb_spec (0 + Z.of_nat (successes [r1; r2])) 0) as [Ez|Ez].
    + exfalso. apply Hf. destruct r1, r2; try (by vm_compute in Ez). by repeat constructor.
    + by apply call_block_run.
Qed.

(** Places in the simulated machine that are not used here. *)
Definition sim_counter : ref sim Z := Ref (λ k, Some (clock k).1) (λ x k, set_clock (x, (clock k).2) k).
Definition sim_queue : ref sim (list Z) := Ref (λ k, Some (closed k)) set_closed.

Lemma sim_locals : locals sim_counter sim_queue.
Proof.
  split; try done.
  - split; [done|done|]. intros [] x. cbn. intros [= <-]. unfold set_clock. cbn. by destruct clock.
  - split; [done|done|]. intros [] x. cbn. by intros [= <-].
Qed.

Lemma sclient_program_witness :
  sclient_main sim_counter sim_queue (λ _, mret tt) (World sim_empty no_locks (client_new [])) = Undef.
Proof.
  assert (dial_all hosts sim_empty = Ret [Some (5, 6); Some (7, 8)]
            (set_watched {[5 := 1; 7 := 1]} (set_next_fd 9 sim_empty))) as Hd by reflexivity.
  exact (sclient_program sim_counter sim_queue sim_empty no_locks (client_new []) _ _ sim_locals eq_refl Hd).
Defined.
