(* ===== verification/UnitTests.v ===== *)
(** * The unit tests

    The tests of [src/src/test/cpp], as programs over the models of the functions they
    call.  What an assertion does that fails is an argument, so a test that returns
    whatever it is has none.  The functions of libuuid, of the clock, boost's SHA-1 and
    [popen] are arguments too, as in the models.  The one test of
    [thread_pool_test.cpp] has only a comment for a body, and [main.cpp] runs the
    tests. *)

From Stdlib Require Import Floats.SpecFloat.
From S2P Require Import Prelude Utils Compare BufferedReader BufferedWriter UtilsExec SocketUtils.

Section tests.
(** What googletest does when an assertion fails. *)
Context (assertion_failed : ∀ L, M L unit).

(** ** Assertions

    [ASSERT_EQ], and what follows it in its function. *)
Definition ASSERT {L} (b : bool) (rest : M L unit) : M L unit :=
  if b then rest else assertion_failed L.

(** [for(; i < n; ++i) ASSERT_EQ(...)], with a counter of [w] bits. *)
Definition ASSERT_each {L} (w n : Z) (equal : Z → M L bool) (rest : M L unit) : M L unit :=
  ok ← while_loop (Datatypes.S (Z.to_nat n)) (λ i,
         if i <? n then
           b ← equal i;
           if b : bool then mret (inl (wrap w (i + 1))) else mret (inr false)
         else mret (inr true)) 0;
  ASSERT ok rest.

Definition equal_to {A} `{EqDecision A} (x y : A) : bool := bool_decide (x = y).

Definition passes {L} (o : outcome L unit) : bool :=
  match o with Ret _ _ => true | _ => false end.

(** [std::string(array)]: the text up to the first NUL; without one the array is
    overrun. *)
Definition string_of_array {S} (a : bytes) : M S bytes :=
  if bool_decide (NUL ∈ a) then mret (c_text a) else undef.

(** ** [buffered_reader_test.cpp] *)
Record reader_locals := ReaderLocals { rt_br : BufferedReader unit; rt_count : Z }.

Definition rt_ref : ref reader_locals (BufferedReader unit) :=
  Ref (λ t, Some (rt_br t)) (λ b t, ReaderLocals b (rt_count t)).

Definition rt_count_up : M reader_locals unit :=
  modify (λ t, ReaderLocals (rt_br t) (wrap 8 (rt_count t + 1))).

Definition rt_call_back (_ : unit) (line : bytes) : M reader_locals unit :=
  count ← gets rt_count;
  (if count =? 0 then ASSERT (equal_to line (str "abcdef")) rt_count_up
   else ASSERT (equal_to line (str "hij")) rt_count_up).

Definition rt_start : reader_locals := ReaderLocals (BufferedReader_new NL tt) 0.

Definition TestBufferedReader : M reader_locals unit :=
  BufferedReader.read rt_call_back rt_ref (str "abc" ++ [NUL]) 3;;
  BufferedReader.read rt_call_back rt_ref (str "def" ++ [NL; NUL]) 4;;
  BufferedReader.read rt_call_back rt_ref (str "hij" ++ [NL; NUL]) 4.

Definition rt_loop_call_back (_ : unit) (line : bytes) : M reader_locals unit :=
  ASSERT (equal_to line (str "abc")) (mret tt).

Definition TestBufferedReaderLoop : M reader_locals unit :=
  for_loop 32 1000 (λ _ _, BufferedReader.read rt_loop_call_back rt_ref (str "abc" ++ [NL; NUL]) 4) tt.

(** ** [buffered_writer_test.cpp] *)
(** [b1] and [b2] are what the arrays on the stack hold before they are written. *)
Definition TestBufferedWriter (b1 b2 : bytes) : M BufferedWriter unit :=
  BufferedWriter.write self (str "abc" ++ [NUL]) 3;;
  BufferedWriter.write self (str "def" ++ [NUL]) 3;;
  buffer ← iread self b1 3;
  r ← string_of_array buffer;
  ASSERT (equal_to (str "abc") r)
    (clear self 3;;
     BufferedWriter.write self (str "hij" ++ [NUL]) 3;;
     buffer2 ← iread self b2 6;
     r2 ← string_of_array buffer2;
     ASSERT (equal_to (str "defhij") r2) (mret tt)).

(** ** [socket_utils_test.cpp] *)

(** [s[i]] of a [std::string]: the NUL after its end may be read. *)
Definition string_at {S} (s : bytes) (i : Z) : M S char := index (s ++ [NUL]) i.

Definition TestMsgPackUnpack (uuid_generate : M unit bytes) (uuid_unparse_lower : bytes → bytes)
    (stack : bytes) : M unit unit :=
  uuid_str ← build_uuid_str uuid_generate uuid_unparse_lower;
  let msg_s := str "I really love apples" in
  let mfs := wrap 32 (37 + len msg_s + 1) in
  msg_frame ← pack_frame (uuid_str ++ [NUL]) (msg_s ++ [NUL]) (len msg_s) stack;
  '(uuid_v, msg_v) ← unpack_frame msg_frame mfs [] [];
  ASSERT_each 32 (len uuid_v) (λ i, a ← string_at uuid_str i; b ← index uuid_v i; mret (equal_to a b))
    (ASSERT_each 32 (len msg_v) (λ i, a ← string_at msg_s i; b ← index msg_v i; mret (equal_to a b))
       (mret tt)).

(** ** [utils_test.cpp] *)
Definition TestCEpochMillis (timegm : tm → Z) : M unit unit :=
  epoch_m ← c_epoch_millis timegm (str "2016-08-16 23:30:53,398");
  ASSERT (1471390253398 =? epoch_m) (mret tt).

Definition TestCEpochMillisInvalid1 (timegm : tm → Z) : M unit unit :=
  epoch_m ← c_epoch_millis timegm (str "0");
  ASSERT (0 =? epoch_m) (mret tt).

Definition TestCEpochMillisInvalid2 (timegm : tm → Z) : M unit unit :=
  epoch_m ← c_epoch_millis timegm (str "2016-08-16 23:30:53");
  ASSERT (0 =? epoch_m) (mret tt).

(** A literal [m / 10 ^ n]: the nearest [double]; the last bit of the mantissa that is
    rounded says whether the quotient is exact. *)
Definition decimal (m n : positive) : spec_float :=
  let q := Z.shiftl (Zpos m) 200 in
  let d := 10 ^ Zpos n in
  binary_normalize 53 1024 (2 * (q / d) + (if q mod d =? 0 then 0 else 1)) (-201) false.

Definition CompareFloat (a b : positive) (r : Z) : M unit unit :=
  ASSERT (compare_float (to_float (decimal a 7)) (to_float (decimal b 7)) =? r) (mret tt).

Definition CompareDouble (a b : positive) (r : Z) : M unit unit :=
  ASSERT (compare_double (decimal a 16) (decimal b 16) =? r) (mret tt).

Definition CompareFloatEq := CompareFloat 12500006 12500006 0.
Definition CompareFloatG := CompareFloat 12500007 12500006 1.
Definition CompareFloatL := CompareFloat 12500005 12500006 (-1).
Definition CompareDoubleEq := CompareDouble 10000000000000256 10000000000000256 0.
Definition CompareDoubleG := CompareDouble 10000000000000257 10000000000000256 1.
Definition CompareDoubleL := CompareDouble 10000000000000256 10000000000000257 (-1).

Definition TAB : char := ascii_of_nat 9.

Definition split_text : bytes := join TAB [
  str "b16fd30a-ee51-4d78-badd-691ef037bfcd";
  str "2016-09-01 19:49:47,826";
  str "ip-10-0-0-29/127.0.0.1";
  str "0";
  str "76.91.241.232";
  str "http://ads.aerserv.com/as/?plc=1010509&key=2&appversion=5.5&cb=1472759391823&dnt=0&adid=6425F59D-B25E-421B-AADC-A147101591B1&inttype=1&ip=76.91.241.232&ua=Mozilla%2F5.0+%28iPhone%3B+CPU+iPhone+OS+9_3_2+like+Mac+OS+X%29+AppleWebKit%2F601.1.46+%28KHTML%2C+like+Gecko%29+Mobile%2F13F69&model=iPhone8%2C1&osv=9.3.2&make=Apple&os=iOS&type=phone&carrier=AT%26T&lat=34.103195&long=-118.4525";
  str "null";
  str "buyer_attempt";
  str "";
  str "";
  str "";
  str "611";
  str "1";
  str "";
  str "1452";
  str "";
  str "";
  str "";
  str "";
  str "";
  str "0";
  str "1100";
  str "0";
  str "T";
  str "1008963";
  str "1009545";
  str "Mozilla/5.0 (iPhone; CPU iPhone OS 9_3_2 like Mac OS X) AppleWebKit/601.1.46 (KHTML, like Gecko) Mobile/13F69";
  str "";
  str "";
  str "34.103195";
  str "-118.4525";
  str "1010509";
  str "18";
  str "6425F59D-B25E-421B-AADC-A147101591B1";
  str "";
  str "";
  str "";
  str "";
  str "";
  str "";
  str "";
  str "0";
  str "1021518";
  str "3";
  str "Verve";
  str "";
  str "";
  str "750";
  str "false";
  str "3930";
  str "104400";
  str "5";
  str "22";
  str "0";
  str "http://adcel.vrvm.com/htmlad?b=privaerserv3&c=999&p=iphn&adunit=mma&size=320x50&ip=76.91.241.232&lat=34.103195&long=-118.4525&ui=6425F59D-B25E-421B-AADC-A147101591B1&uis=a&site=im.talkme.talkmeim";
  str "";
  str "United States";
  str "803";
  str "false";
  str "phone";
  str "0";
  str "";
  str "1100";
  str "";
  str "";
  str "null";
  str "Ooma";
  str "Talkatone: FREE Texts & Calls";
  str "i - Talkatone 320x50 Tier 2";
  str "aerMarket network for PLC 1010509";
  str "Verve_RON_320x50_iOS_1_10_Dollar";
  str "mobile_banner_placement_type";
  str "";
  str "1";
  str "0";
  str "";
  str "t"].

Definition TestSplit : M unit unit :=
  v ← Utils.split split_text TAB;
  ASSERT (77 =? len v) (mret tt).

Definition TestUUID (uuid_generate : M unit bytes) : M unit unit :=
  uuid ← gen_uuid uuid_generate;
  ASSERT (16 =? len uuid) (mret tt).

(** [std::to_string] of a number below 1000. *)
Definition to_string (i : Z) : bytes :=
  let d n := ascii_of_N (Z.to_N (48 + n)) in
  if i <? 10 then [d i]
  else if i <? 100 then [d (i / 10); d (i mod 10)]
  else [d (i / 100); d (i / 10 mod 10); d (i mod 10)].

Definition TestHash : M (gset Z) unit :=
  ASSERT_each 32 1000 (λ i,
      h ← hash_it (to_string i);
      doops ← get_state;
      if bool_decide (h ∈ doops) then mret false
      else modify (λ _, {[h]} ∪ doops);; mret true)
    (mret tt).

Definition TestSha1HexString (sha1 : bytes → list Z) : M unit unit :=
  hash ← sha1_hex_str sha1 (str "a");
  ASSERT (equal_to (str "86f7e437faa5a7fce15d1ddcb9eaeaea377667b8") hash) (mret tt).

Definition sha1_expected : list Z :=
  [0x86; 0xf7; 0xe4; 0x37; 0xfa; 0xa5; 0xa7; 0xfc; 0xe1; 0x5d; 0x1d; 0xdc; 0xb9; 0xea; 0xea; 0xea; 0x37; 0x76;
   0x67; 0xb8].

Definition TestSha1ByteArray (sha1 : bytes → list Z) : M unit unit :=
  result ← sha1_byte_arr sha1 (str "a");
  ASSERT_each 8 20 (λ i, e ← index sha1_expected i; b ← index result i; b ← assume b; mret (e =? b)) (mret tt).

(** [exec] runs in a frame of its own. *)
Definition TestExec (popen : bytes → option bytes) (stack : bytes) : M unit unit := λ t,
  match exec 30 popen stack (str "echo 'hello'; echo 'world'") with
  | Ret r _ =>
      (r0 ← index r 0;
       ASSERT (equal_to r0 (str "hello")) (r1 ← index r 1; ASSERT (equal_to r1 (str "world")) (mret tt))) t
  | Throw e _ => Throw e t
  | Exit c _ => Exit c t
  | Undef => Undef | Blocked => Blocked | NoFuel => NoFuel
  end.

(** ** The results *)

(** The tests that do not depend on the outside. *)
Definition tests_alone : list bool :=
  [passes (TestBufferedReader rt_start); passes (TestBufferedReaderLoop rt_start);
   passes (CompareFloatEq tt); passes (CompareFloatG tt); passes (CompareFloatL tt);
   passes (CompareDoubleEq tt); passes (CompareDoubleG tt); passes (CompareDoubleL tt);
   passes (TestSplit tt); passes (TestHash ∅)].

Lemma tests_alone_pass : tests_alone = replicate 10 true.
Proof. vm_compute. reflexivity. Qed.

(** The comparison of the test of frames, for any text. *)
Lemma each_equal {L} w n (equal : Z → M L bool) rest (t : L) :
  0 ≤ n < 2 ^ w → (∀ i, 0 ≤ i < n → equal i t = Ret true t) → ASSERT_each w n equal rest t = rest t.
Proof.
  intros Hn He. unfold ASSERT_each.
  match goal with |- (while_loop _ ?b _ ≫= _) _ = _ => set (body := b) end.
  assert (∀ k : nat, Z.of_nat k ≤ n →
    while_loop (Datatypes.S k) body (n - Z.of_nat k) t = Ret true t) as H.
  { induction k as [|k IH]; intros Hk.
    - cbn [while_loop]. unfold body at 1. by rewrite Z.sub_0_r, Z.ltb_irrefl.
    - set (i := n - Z.of_nat (Datatypes.S k)). assert (body i t = Ret (inl (i + 1)) t) as E.
      { unfold body. rewrite (proj2 (Z.ltb_lt i n)) by lia. run_with (He i ltac:(lia)).
        by rewrite wrap_small by lia. }
      change (while_loop (Datatypes.S (Datatypes.S k)) body i) with
        (r ← body i; match r with inl a' => while_loop (Datatypes.S k) body a' | inr b => mret b end).
      run_with E. replace (i + 1) with (n - Z.of_nat k) by lia. apply IH. lia. }
  specialize (H (Z.to_nat n)). rewrite Z2Nat.id, Z.sub_diag in H by lia. by run_with (H ltac:(lia)).
Qed.

Lemma string_at_lt {S} (a : bytes) i (s : S) c : a !! Z.to_nat i = Some c → 0 ≤ i → string_at a i s = Ret c s.
Proof. intros Hc Hi. unfold string_at. apply index_lt; [lia|]. by apply lookup_app_l_Some. Qed.

(** The test of frames passes whatever the library gives for an identifier, and
    whatever is on the stack. *)
Lemma pack_unpack_passes uuid unparse stack :
  len (unparse uuid) = 37 → len stack = 58 →
  passes (TestMsgPackUnpack (mret uuid) unparse stack tt) = true.
Proof.
  intros Hu Hs. unfold TestMsgPackUnpack, build_uuid_str. rewrite bind_assoc, bind_ret_l.
  rewrite Hu, Z.eqb_refl, bind_ret_l. cbn zeta.
  set (msg := str "I really love apples"). assert (len msg = 20) as Hm by done.
  rewrite Hm. change (wrap 32 (37 + 20 + 1)) with 58.
  erewrite bind_run; [|apply pack_frame_run; rewrite ?length_app; cbn; lia].
  rewrite (take_app_length' (unparse uuid) [NUL] 37) by lia.
  change (take (Z.to_nat 20) (msg ++ [NUL])) with msg. change (Z.to_nat (38 + 20)) with 58%nat.
  rewrite (drop_ge stack) by lia.
  erewrite bind_run; [|apply unpack_frame_run; rewrite ?length_app; cbn; lia]. cbn beta iota.
  change (Z.to_nat (58 - 1)) with 57%nat.
  replace (take 57 (unparse uuid ++ msg ++ [EOT])) with (unparse uuid ++ msg).
  2: { rewrite app_assoc, take_app_length'; [done|]. rewrite length_app. cbn. lia. }
  rewrite (take_app_length' (unparse uuid) msg 37), (drop_app_length' (unparse uuid) msg 37) by lia.
  assert (∀ (a : bytes) i t, 0 ≤ i < len a →
    (a0 ← string_at a i; b ← index a i; mret (equal_to a0 b)) t = Ret true t :> outcome unit bool) as He.
  { intros a i t Hi. destruct (lookup_lt_is_Some_2 a (Z.to_nat i)) as [c Hc]; [lia|].
    run_with (string_at_lt a i t c Hc (proj1 Hi)).
    assert (index (S:=unit) a i t = Ret c t) as E by (apply index_lt; [lia|done]).
    run_with E. unfold equal_to. by rewrite bool_decide_eq_true_2. }
  rewrite each_equal; [|cbn; lia|by intros i Hi; apply He].
  rewrite each_equal; [done|cbn; lia|by intros i Hi; apply He].
Qed.

Lemma exec_test_passes popen stack :
  popen (str "echo 'hello'; echo 'world'") = Some (str "hello" ++ [NL] ++ str "world" ++ [NL]) →
  length stack = 128%nat → passes (TestExec popen stack tt) = true.
Proof.
  intros Hp Hs. do 128 (destruct stack as [|? stack]; [done|]). destruct stack; [|done].
  unfold TestExec, exec. rewrite Hp. vm_compute. reflexivity.
Qed.

Lemma epoch_test_passes timegm :
  timegm (Tm 53 30 23 16 7 116 0 0 0 0) = 1471390253 → passes (TestCEpochMillis timegm tt) = true.
Proof.
  intros Ht. unfold TestCEpochMillis.
  assert (c_epoch_millis timegm (timestamp 2016 8 16 23 30 53 398) tt = Ret 1471390253398 tt) as E.
  { rewrite c_epoch_millis_run by lia. change (Tm _ _ _ _ _ _ _ _ _ _) with (Tm 53 30 23 16 7 116 0 0 0 0). by rewrite Ht. }
  change (str "2016-08-16 23:30:53,398") with (timestamp 2016 8 16 23 30 53 398). by run_with E.
Qed.

Lemma uuid_test_passes uuid : length uuid = 16%nat → passes (TestUUID (mret uuid) tt) = true.
Proof.
  intros Hu. do 16 (destruct uuid as [|? uuid]; [done|]). destruct uuid; [|done]. vm_compute. reflexivity.
Qed.

Lemma sha1_tests_pass sha1 :
  sha1 (str "a") = [0x86f7e437; 0xfaa5a7fc; 0xe15d1ddc; 0xb9eaeaea; 0x377667b8] →
  passes (TestSha1HexString sha1 tt) = true ∧ passes (TestSha1ByteArray sha1 tt) = true.
Proof.
  intros Hs. unfold TestSha1HexString, TestSha1ByteArray, sha1_hex_str, sha1_byte_arr.
  change (c_text (str "a")) with (str "a"). rewrite Hs. split; vm_compute; reflexivity.
Qed.

End tests.

(** The unit tests, on the models of the functions they test.  In all of them but
    one no assertion fails, for any identifier that libuuid gives, any contents of the arrays on
    the stack, and for a [timegm], a SHA-1 and a shell that give for the tests' inputs what they are
    documented to give; the test of [BufferedWriter] builds strings from arrays that have no
    NUL and so reads past their end. *)
Theorem unit_tests_pass (fail : ∀ L, M L unit) timegm sha1 popen uuid unparse stack :
  timegm (Tm 53 30 23 16 7 116 0 0 0 0) = 1471390253 →
  sha1 (str "a") = [0x86f7e437; 0xfaa5a7fc; 0xe15d1ddc; 0xb9eaeaea; 0x377667b8] →
  popen (str "echo 'hello'; echo 'world'") = Some (str "hello" ++ [NL] ++ str "world" ++ [NL]) →
  length uuid = 16%nat → len (unparse uuid) = 37 → length stack = 128%nat →
  tests_alone fail ++
  [passes (TestMsgPackUnpack fail (mret uuid) unparse (take 58 stack) tt);
   passes (TestCEpochMillis fail timegm tt); passes (TestCEpochMillisInvalid1 fail timegm tt);
   passes (TestCEpochMillisInvalid2 fail timegm tt); passes (TestUUID fail (mret uuid) tt);
   passes (TestSha1HexString fail sha1 tt); passes (TestSha1ByteArray fail sha1 tt);
   passes (TestExec fail popen stack tt)] = replicate 18 true ∧
  ∀ b1 b2, length b1 = 3%nat → TestBufferedWriter fail b1 b2 BufferedWriter_new = Undef.
Proof.
  intros Ht Hs Hp Hu Hun Hst. split.
  - rewrite tests_alone_pass, (pack_unpack_passes fail uuid unparse (take 58 stack)), exec_test_passes,
      epoch_test_passes, uuid_test_passes, (proj1 (sha1_tests_pass fail sha1 Hs)), (proj2 (sha1_tests_pass fail sha1 Hs))
      by (try done; rewrite length_take; lia).
    reflexivity.
  - intros b1 b2 Hb. do 3 (destruct b1 as [|? b1]; [done|]). destruct b1; [|done]. vm_compute. reflexivity.
Qed.

Lemma unit_tests_pass_witness :
  passes (TestCEpochMillis (λ _, undef) timegm_in_range tt) = true ∧
  ∀ b2, TestBufferedWriter (λ _, undef) (replicate 3 "x"%char) b2 BufferedWriter_new = Undef.
Proof.
  destruct (unit_tests_pass (λ _, undef) timegm_in_range sha1_of_a (λ _, Some (str "hello" ++ [NL] ++ str "world" ++ [NL]))
    (replicate 16 NUL) (λ _, replicate 37 "a"%char) (replicate 128 NUL)) as [Ha Hw].
  - vm_compute. reflexivity.
  - reflexivity.
  - reflexivity.
  - reflexivity.
  - reflexivity.
  - reflexivity.
  - split; [|intros b2; apply Hw; reflexivity]. exact (f_equal (λ l, nth 11 l false) Ha).
Defined.
